(* ===== verification/_CoqProject ===== *)
-Q . S2P
Prelude.v
GoStd.v
GoHeap.v
DeepCopy.v
Conditions.v
Types.v
Fqdn.v
Cluster.v
Sim.v
Images.v
ApiTypes.v
Webhooks.v
Admission.v
DataSource.v
AnsibleExec.v
Service.v
Cert.v
Hashes.v
Deployer.v
CertMounts.v
DeploymentController.v
Ipam.v
Net.v
Baremetal.v
Inventory.v
NodeSetController.v
Calls.v
System.v
Pipeline.v
Liveness.v
Readiness.v
Totality.v
NodeSetTotality.v
