(* ===== verification/Prelude.v ===== *)
(** * dataplane-operator: a verification development

    The program is a Kubernetes operator.  Its users describe a set of nodes (an
    OpenStackDataPlaneNodeSet) and what is to be run on them (an
    OpenStackDataPlaneService per step); an OpenStackDataPlaneDeployment then
    runs the services on the nodes, one Ansible job (OpenStackAnsibleEE)
    after the other.  Two controllers reconcile these objects with the
    cluster, and admission webhooks check and complete them.

    ** The parts, and the files that model them

    The base:
    - [Prelude]: the control monad [M S R A] (state, early return, panic), its
      Hoare rules ([sat]) and five calculi over it: [frames] (what a body
      leaves of the object in memory), [guards] (checks before any work),
      [keeps] (what a body leaves of the outside world), [goes] (bodies
      that run to their end) and [safe] (bodies that do not panic), most with
      a walk through a body as a tactic.
    - [GoStd]: what the code uses of Go: 64-bit [int], nil and empty maps,
      [range] over a map in any order, [strings], [strconv], [path], [fmt].
      [Net]: [net.ParseCIDR].  [GoHeap]: memory behind slices, maps and
      pointers, and what it is for a copy to be deep.
    - [Types]: the API types of api/v1beta1 and the foreign objects, as
      records.  [Conditions]: conditions.go, and the condition library as an
      interface with its laws.  [Cluster]: the other collaborators as
      interfaces: the API server behind the controller-runtime client,
      lib-common, cert-manager, the process environment, the validators.
      [Sim]: an API server held in memory, where theorems are applied.

    One file per component, each operation under the name the code gives it:
    - [Fqdn] (openstackdataplanenodeset.go), [ApiTypes] (the methods of the
      API types), [DeepCopy] (zz_generated.deepcopy.go), [Images]
      (SetupDefaults and version.go), [Webhooks] (the admission webhooks);
    - [DataSource], [AnsibleExec] (pkg/util), [Service], [Cert], [Hashes],
      [Deployer] (deployment.go), [Ipam], [Baremetal], [Inventory]
      (pkg/deployment);
    - [DeploymentController] and [NodeSetController] (controllers/).

    Across components:
    - [Admission]: the NodeSets of a cluster whose requests go through [Webhooks];
    - [CertMounts]: the certificates [Cert] writes are those [Deployer] mounts;
    - [Calls]: what the two reconciliations keep of the outside world;
    - [System]: both controllers, interleaved with what others do, as a step
      relation;
    - [Pipeline]: [Deploy] as an abstract machine over the states of the jobs;
    - [Liveness]: the reconciliation of a Deployment as one round of that machine
      for all its NodeSets, and the rounds until it is deployed;
    - [Readiness]: the reconciliation of a NodeSet in a cluster that has all it
      waits for;
    - [Totality] and [NodeSetTotality]: the two reconciliations do not panic.

    ** How code becomes definitions

    A function of the operator is an [M] computation over the outside world
    [W], beside the object being reconciled when it updates one ([St W X]).
    Its guards, early returns, deferred status patch and error paths are
    those of the source; a nil dereference, a write to a nil map and an index out
    of range are [Panic].  A call of the API server may change the world and
    answer anything; what an answer means is a law that the theorem in question
    asks for.  Slices of conditions that share a backing array are modelled as
    far as the code can see it ([cond_alias] in [Conditions], [alias_nodeset]
    in [DeploymentController]), and so is the map of extra variables that an
    execution shares with its Deployment ([AnsibleExec.Capture]).  The order
    of [range] over a map is a parameter ([MapRange]) that may differ at every
    site; theorems hold for each order.  Integers are [Z] with the wrap of a
    64-bit [int] written out where a sum can overflow ([GoStd.add64]).  No
    definition needs fuel: every loop of the code goes over a list or a map, and
    the regular expression of [Fqdn] is matched by derivatives, along the text.
    Only the deep copies are modelled on memory ([GoHeap]), as the types lay it
    out; everywhere else an object is a value, and the aliasing that the code
    can see is written out.

    ** What is shown

    - Reconciliation of a Deployment: the status that is patched has Ready True
      exactly when Deployed is set, and then all was deployed
      ([DeploymentController]); under any interleaving this holds of every
      Deployment of the cluster, and a Deployed one stays as it is ([System]);
      [Deploy] refines the pipeline of its services, job by job, in whatever
      states the jobs are ([Pipeline], [Deployer]); a reconciliation is one
      round of these pipelines, and when the jobs that were asked for succeed
      between two rounds, the Deployment is deployed after as many rounds as
      its longest pipeline has services, and one more ([Liveness]), in a settled
      cluster and as long as no two services share a condition; and a
      reconciliation answers, as long as the jobs of the executions can be
      listed and the certificates do not overflow ([Totality]).
    - Reconciliation of a NodeSet: when it reports its setup, its deployment and
      Ready; which deployments it takes its state from, and that the newest
      decides when all have the condition they are sorted by; which NodeSets a change
      of a Secret or ConfigMap triggers ([NodeSetController]).  In a cluster that
      has all it waits for, one reconciliation sets the NodeSet up, and it is
      Ready exactly when its deployments say so ([Readiness]); and a
      reconciliation answers, unless a control plane network has no gateway and
      the nodes are to be provisioned ([NodeSetTotality]).
    - Certificates: packed into secrets without loss within the size limit, in
      the order of their names, the three files of a node together; reported as ensured only when they are, and mounted as they were written;
      the overflow at the largest limit ([Cert], [CertMounts]).
    - Executions: names and labels, mounts, variables, and that patching the
      same job again does not change it ([AnsibleExec]).
    - The network and the inventory: what is waited for before the IP
      reservations and the DNS data count as ready, DNS records, provisioning,
      the value of each variable of the group, the hosts of the inventory and
      the nodes that share one ([Ipam], [Baremetal], [Inventory]).
    - Webhooks: defaulting is idempotent and gives every node its host; which
      creations and updates are refused, and where the answer panics
      ([Webhooks]); what therefore holds of every NodeSet that is stored, and
      between those of a namespace as long as no update gives a node of a
      pre-provisioned NodeSet a new name or makes a NodeSet pre-provisioned
      ([Admission]).
    - Deep copies: the copy of every API type reads as the original and shares
      no memory with it ([DeepCopy]).
    - The rest: services and their consistency, the hash that is recorded for each
      input of a service ([Hashes]), data sources, host names, the initial
      conditions.

    ** Assumptions

    Every law is a class, and the instances for [Sim] show that it can hold:
    [ConditionLaws] (the condition library), [MapRangeLaws] (an iteration
    permutes the entries), [SortFuncLaws] (a sort permutes, and sorts when the
    comparison is a strict weak ordering), [KubeLaws] and [NamedReads]
    (errors made NotFound are recognised, objects carry the names they are
    read by), [FieldIndexes] (an index lists what its function yields),
    [InventoryLaws] (adding a host leaves the other hosts as they are, and makes
    one of that name without variables when there is none), [StableServices] and
    [StableInputs] (reads that do not change during a call).  [DeploymentStore] says of the API
    server that a Deployment that is read is the one held, and that a patch
    writes the status; it rules out stale caches and the recreation of a
    Deployment while it is reconciled.  A reconciliation is one step of
    [System], during which others may act at every call; the controller runs one
    reconciliation of an object at a time.  [SecretStore] says that a write
    that had nothing to change shows what is held.  [Pipeline.Settled] is the
    cluster of the refinement and the liveness theorems, for jobs in any state:
    without TLS, and with everything the services name readable; [Liveness.Rounds]
    adds that a Deployment is read as it was last patched, and that the jobs
    succeed between two rounds; [Readiness.SettledNodeSet] is the cluster of the
    theorem on NodeSets.  [Totality.SoundCluster] and
    [NodeSetTotality.BaremetalCalls] are those of the theorems on panics; the
    first asks that the jobs with the labels of one execution are listed, that
    there is at most one, and that the operator's own calls keep it so
    ([Calls.KeptByCalls], where a job is written only after it was listed).
    [DeepCopy.ForeignCopies] says that the types of other packages are copied
    deeply by their own functions.

    ** Not modelled

    main.go (flags, scheme, start of the manager), groupversion_info.go, the
    SetupWithManager and SetupWebhookWithManager functions and the kubebuilder
    markers: registration with the framework.  The list of failed pods in deploymentWatcherFn and all logging,
    which have no effect on the objects.  The YAML, JSON and CIDR libraries
    and the validators of other operators are parameters, except for what
    [Net] says of [net.ParseCIDR]. *)

From stdpp Require Import base gmap strings list sorting sets.

(** ** Lists *)

Lemma filter_bool_cons {A} (f : A → bool) (x : A) (l : list A) :
  filter f (x :: l) = if f x then x :: filter f l else filter f l.
Proof. rewrite filter_cons. by destruct (f x). Qed.

Lemma list_last_cons {A} (x d : A) (l : list A) : List.last (x :: l) d = List.last l x.
Proof. revert x. induction l as [|y l IH]; [done|]. intros x. simpl in *. by destruct l. Qed.

(** The values of a map that satisfy [P], when only one key can have one. *)
Lemma filter_values_one {A} (m : gmap string A) (P : A → Prop) `{!∀ a, Decision (P a)} (k : string) :
  (∀ k' a, m !! k' = Some a → P a → k' = k) →
  filter P (map_to_list m).*2 =
    match m !! k with Some a => if decide (P a) then [a] else [] | None => [] end.
Proof.
  intros Hk.
  assert (∀ m' : gmap string A, (∀ k' a, m' !! k' = Some a → m !! k' = Some a ∧ k' ≠ k) →
    filter P (map_to_list m').*2 = []) as Hnone.
  { intros m' Hm'. apply elem_of_nil_inv. intros a [Ha Hin]%list_elem_of_filter.
    apply list_elem_of_fmap in Hin as ([k' a'] & -> & Hin%elem_of_map_to_list).
    apply Hm' in Hin as [Hin Hne]. simpl in *. by apply Hne, (Hk _ a'). }
  destruct (m !! k) as [a|] eqn:Hm.
  - assert (filter P (map_to_list m).*2 ≡ₚ if decide (P a) then [a] else []) as Hp.
    { rewrite <- (map_to_list_delete m k a Hm). rewrite fmap_cons, filter_cons. cbn [snd].
      rewrite Hnone by (intros k' a'; rewrite lookup_delete_Some; naive_solver). by case_decide. }
    case_decide; [by apply Permutation_singleton_r in Hp|by apply Permutation_nil_r in Hp].
  - apply Hnone. naive_solver.
Qed.

(** ** Outcomes and the control monad

    A Go function of the operator runs on a mutable state, may return early
    from the middle of its body, and may panic (nil dereference, index out of
    range, write to a nil map).  [M S R A] is the type of a statement that
    runs on the state [S] inside a function whose result type is [R], and
    yields an [A] to the statement that follows it. *)

Inductive outcome (R A : Type) : Type :=
  | Next (a : A)
  | Return (r : R)
  | Panic.
Arguments Next {R A} a.
Arguments Return {R A} r.
Arguments Panic {R A}.

Definition M (S R A : Type) : Type := S → outcome R A * S.

#[export] Instance M_ret {S R} : MRet (M S R) := λ A a s, (Next a, s).
#[export] Instance M_bind {S R} : MBind (M S R) := λ A B k m s,
  match m s with
  | (Next a, s') => k a s'
  | (Return r, s') => (Return r, s')
  | (Panic, s') => (Panic, s')
  end.

(** [return r] in the middle of a body, and a Go panic. *)
Definition return_ {S R A} (r : R) : M S R A := λ s, (Return r, s).
Definition panic {S R A} : M S R A := λ s, (Panic, s).
(** Reading and updating the state. *)
Definition get {S R} : M S R S := λ s, (Next s, s).
Definition gets {S R A} (f : S → A) : M S R A := λ s, (Next (f s), s).
Definition modify {S R} (f : S → S) : M S R () := λ s, (Next (), f s).

(** Calling a function: its early returns end the callee only. *)
Definition call {S R A} (m : M S A A) : M S R A := λ s,
  match m s with
  | (Next a, s') => (Next a, s')
  | (Return a, s') => (Next a, s')
  | (Panic, s') => (Panic, s')
  end.

(** The result of a whole function, [None] when it panics. *)
Definition run {S A} (m : M S A A) (s : S) : option A :=
  match fst (m s) with
  | Next a | Return a => Some a
  | Panic => None
  end.

(** An operation of code outside the repository: a total function on the
    state of the outside world. *)
Definition op {W R A} (f : W → W * A) : M W R A := λ w,
  let '(w', a) := f w in (Next a, w').

(** Dereference of a pointer that may be nil. *)
Definition deref {S R A} (o : option A) : M S R A :=
  match o with Some a => mret a | None => panic end.

(** [for _, x := range l { b = body }] with a loop-carried value. *)
Fixpoint for_acc {S R A B} (l : list A) (body : B → A → M S R B) (b : B) : M S R B :=
  match l with
  | [] => mret b
  | x :: l => b' ← body b x; for_acc l body b'
  end.

(** [for _, x := range l { body }] *)
Definition for_each {S R A} (l : list A) (body : A → M S R ()) : M S R () :=
  for_acc l (λ _ x, body x) ().

(** A loop of checks that leaves the state alone: it goes through when every
    element is good, and otherwise ends as the first bad element makes it. *)
Lemma for_each_checks {S R A} (good : A → bool) (l : list A) (body : A → M S R ()) (s : S)
    (P : outcome R () * S → Prop) :
  (∀ x, x ∈ l → good x = true → body x s = (Next (), s)) →
  (∀ x, x ∈ l → good x = false → P (body x s) ∧ ∀ s', body x s ≠ (Next (), s')) →
  if forallb good l then for_each l body s = (Next (), s) else P (for_each l body s).
Proof.
  intros Hgood Hbad. unfold for_each. induction l as [|x l IH]; simpl; [done|].
  unfold mbind, M_bind. destruct (good x) eqn:Hx; simpl.
  - rewrite Hgood by (by left || done). apply IH; intros; [apply Hgood|apply Hbad]; by try right.
  - destruct (Hbad x ltac:(by left) Hx) as [HP HN].
    destruct (body x s) as [[[]|r|] s']; [by destruct (HN s')|done..].
Qed.

(** ** State made of the outside world and one object in memory

    The object is what the Go code mutates through a pointer (the NodeSet or
    the Deployment being reconciled, with the locals that alias it). *)
Record St (W X : Type) : Type := mkSt { world : W; obj : X }.
Arguments mkSt {W X} world obj.
Arguments world {W X} s.
Arguments obj {W X} s.

(** Run a function that touches only the outside world. *)
Definition on_world {W X R A} (m : M W A A) : M (St W X) R A := λ s,
  match m (world s) with
  | (Next a, w) => (Next a, mkSt w (obj s))
  | (Return a, w) => (Next a, mkSt w (obj s))
  | (Panic, w) => (Panic, mkSt w (obj s))
  end.
Definition get_obj {W X R} : M (St W X) R X := gets obj.
Definition modify_obj {W X R} (f : X → X) : M (St W X) R () :=
  modify (λ s, mkSt (world s) (f (obj s))).

(** ** Postconditions

    [sat m s Q]: running [m] from [s] ends in an outcome and a state that
    satisfy [Q].  The rules below compose it along the structure of a body. *)
Definition sat {S R A} (m : M S R A) (s : S) (Q : outcome R A → S → Prop) : Prop :=
  Q (fst (m s)) (snd (m s)).

Section sat.
Context {S R : Type}.

Lemma sat_mono {A} (m : M S R A) s (Q Q' : outcome R A → S → Prop) :
  sat m s Q → (∀ o s', Q o s' → Q' o s') → sat m s Q'.
Proof. unfold sat. auto. Qed.

Lemma sat_and {A} (m : M S R A) s (Q Q' : outcome R A → S → Prop) :
  sat m s Q → sat m s Q' → sat m s (λ o s', Q o s' ∧ Q' o s').
Proof. unfold sat. auto. Qed.

Lemma sat_ret {A} (a : A) s (Q : outcome R A → S → Prop) :
  Q (Next a) s → sat (mret a) s Q.
Proof. done. Qed.

Lemma sat_return {A} (r : R) s (Q : outcome R A → S → Prop) :
  Q (Return r) s → sat (return_ r) s Q.
Proof. done. Qed.

Lemma sat_panic {A} s (Q : outcome R A → S → Prop) :
  Q Panic s → sat panic s Q.
Proof. done. Qed.

Lemma sat_get s (Q : outcome R S → S → Prop) : Q (Next s) s → sat get s Q.
Proof. done. Qed.

Lemma sat_gets {A} (f : S → A) s (Q : outcome R A → S → Prop) :
  Q (Next (f s)) s → sat (gets f) s Q.
Proof. done. Qed.

Lemma sat_modify (f : S → S) s (Q : outcome R () → S → Prop) :
  Q (Next ()) (f s) → sat (modify f) s Q.
Proof. done. Qed.

Lemma sat_bind {A B} (m : M S R A) (k : A → M S R B) s (Q : outcome R B → S → Prop) :
  sat m s (λ o s', match o with
                   | Next a => sat (k a) s' Q
                   | Return r => Q (Return r) s'
                   | Panic => Q Panic s'
                   end) →
  sat (m ≫= k) s Q.
Proof.
  unfold sat, mbind, M_bind. destruct (m s) as [[a|r|] s']; done.
Qed.

Lemma sat_call {A} (m : M S A A) s (Q : outcome R A → S → Prop) :
  sat m s (λ o s', match o with
                   | Next a | Return a => Q (Next a) s'
                   | Panic => Q Panic s'
                   end) →
  sat (call m) s Q.
Proof. unfold sat, call. destruct (m s) as [[a|r|] s']; done. Qed.

(** Calling a function that does not panic. *)
Lemma sat_call_total {A B} (m : M S A A) (k : A → M S R B) s (Q : outcome R B → S → Prop) :
  sat m s (λ o _, o ≠ Panic) → (∀ a s', sat (k a) s' Q) → sat (call m ≫= k) s Q.
Proof.
  intros Hm Hk. apply sat_bind, sat_call. unfold sat at 1 in Hm. unfold sat at 1.
  destruct (m s) as [[a|a|] s']; simpl in *; [apply Hk|apply Hk|done].
Qed.

(** The loop rule: an invariant on the loop-carried value and the state,
    maintained by every iteration that does not leave the loop. *)
Lemma sat_for_acc {A B} (l : list A) (body : B → A → M S R B) (b : B) (s : S)
    (I : list A → B → S → Prop) (Q : outcome R B → S → Prop) :
  I l b s →
  (∀ x l' b s, l' `suffix_of` l → I (x :: l') b s →
    sat (body b x) s (λ o s', match o with
                              | Next b' => I l' b' s'
                              | Return r => Q (Return r) s'
                              | Panic => Q Panic s'
                              end)) →
  (∀ b s, I [] b s → Q (Next b) s) →
  sat (for_acc l body b) s Q.
Proof.
  intros HI Hbody Hend. revert b s HI.
  induction l as [|x l IH]; intros b s HI; [by apply Hend|].
  simpl. apply sat_bind. eapply sat_mono; [apply Hbody; [by exists [x]|done]|].
  intros [b'|r|] s'; [|done..]. intros HI'. apply IH; [|done].
  intros y l' b'' s'' [k ->] HI''. apply Hbody; [|done].
  by exists (x :: k).
Qed.
End sat.

(** A loop of checks, after which every element is known to be good. *)
Lemma sat_checks {S R A} (good : A → bool) (l : list A) (body : A → M S R ()) (s : S)
    (Q : outcome R () → S → Prop) :
  (∀ x s, good x = true → body x s = (Next (), s)) →
  ((∀ x, x ∈ l → good x = true) → Q (Next ()) s) →
  (∀ x, x ∈ l → good x = false →
     sat (body x) s (λ o s', match o with Next _ => False | _ => Q o s' end)) →
  sat (for_each l body) s Q.
Proof.
  intros Hgood. unfold for_each, sat. induction l as [|x l IH]; intros Hall Hbad; simpl.
  { apply Hall. by intros ? ?%not_elem_of_nil. }
  unfold mbind, M_bind. destruct (good x) eqn:Hx.
  - rewrite Hgood by done. apply IH; [|intros y Hy; apply Hbad; by right].
    intros Hl. apply Hall. intros y [->|?]%elem_of_cons; auto.
  - specialize (Hbad x ltac:(left) Hx). destruct (body x s) as [[[]|r|] s']; simpl in *; done.
Qed.

Lemma sat_op {W R A} (f : W → W * A) w (Q : outcome R A → W → Prop) :
  Q (Next (f w).2) (f w).1 → sat (op f) w Q.
Proof. unfold sat, op. by destruct (f w). Qed.

Lemma sat_on_world {W X R A} (m : M W A A) (s : St W X) (Q : outcome R A → St W X → Prop) :
  sat m (world s) (λ o w, match o with
                          | Next a | Return a => Q (Next a) (mkSt w (obj s))
                          | Panic => Q Panic (mkSt w (obj s))
                          end) →
  sat (on_world m) s Q.
Proof. unfold sat, on_world. destruct (m (world s)) as [[a|r|] w]; done. Qed.

Lemma sat_on_world_run {W X R A} (m : M W A A) (s : St W X) (Q : outcome R A → St W X → Prop) :
  (match run m (world s) with
   | Some r => Q (Next r) (mkSt (m (world s)).2 (obj s))
   | None => Q Panic (mkSt (m (world s)).2 (obj s))
   end) → sat (on_world m) s Q.
Proof. unfold sat, run, on_world. destruct (m (world s)) as [[a|r|] w']; done. Qed.

(** Statements that do not leave the function they stand in. *)
Definition never_returns {S R A} (m : M S R A) : Prop := ∀ s r s', m s ≠ (Return r, s').
Lemma never_on_world {W X R A} (m : M W A A) : never_returns (R := R) (S := St W X) (on_world m).
Proof. intros s r s'. unfold on_world. by destruct (m (world s)) as [[a|b|] w]. Qed.
Lemma never_call {S R A} (m : M S A A) : never_returns (R := R) (call m).
Proof. intros s r s'. unfold call. by destruct (m s) as [[a|b|] s1]. Qed.
Lemma never_modify {W X R} f : never_returns (R := R) (S := St W X) (modify_obj f).
Proof. done. Qed.

(** Statements that always leave it. *)
Definition never_goes_on {S R A} (m : M S R A) : Prop := ∀ s a s', m s ≠ (Next a, s').
Lemma leaves_return {S R A} (r : R) : never_goes_on (A := A) (S := S) (return_ r).
Proof. done. Qed.
Lemma leaves_after {S R A B} (m : M S R A) (k : A → M S R B) :
  (∀ a, never_goes_on (k a)) → never_goes_on (m ≫= k).
Proof.
  intros Hk s b s'. unfold mbind, M_bind. destruct (m s) as [[a|r|] s1]; [apply Hk|done..].
Qed.

(** ** Frames: what a piece of code leaves alone

    [frames R m]: whatever the outcome, the object before and after [m] are
    related by the preorder [R] (say, agreement on some fields). *)
Section frames.
Context {W X : Type} (R : X → X → Prop) `{HR : !PreOrder R}.

Definition frames {Rt A} (m : M (St W X) Rt A) : Prop := ∀ s, R (obj s) (obj (m s).2).

Lemma frames_ret {Rt A} (a : A) : frames (Rt := Rt) (mret a).
Proof. intros s. simpl. reflexivity. Qed.
Lemma frames_return {Rt A} (r : Rt) : frames (A := A) (return_ r).
Proof. intros s. simpl. reflexivity. Qed.
Lemma frames_panic {Rt A} : frames (Rt := Rt) (A := A) panic.
Proof. intros s. simpl. reflexivity. Qed.
Lemma frames_get_obj {Rt} : frames (Rt := Rt) get_obj.
Proof. intros s. simpl. reflexivity. Qed.
Lemma frames_modify {Rt} f : (∀ x, R x (f x)) → frames (Rt := Rt) (modify_obj f).
Proof. intros Hf s. apply Hf. Qed.
Lemma frames_bind {Rt A B} (m : M (St W X) Rt A) (k : A → M (St W X) Rt B) :
  frames m → (∀ a, frames (k a)) → frames (m ≫= k).
Proof.
  intros Hm Hk s. specialize (Hm s). unfold mbind, M_bind.
  destruct (m s) as [[a|r|] s']; simpl in *; [|done..].
  transitivity (obj s'); [done|apply Hk].
Qed.
Lemma frames_call {Rt A} (m : M (St W X) A A) : frames m → frames (Rt := Rt) (call m).
Proof.
  intros Hm s. specialize (Hm s). unfold call. by destruct (m s) as [[a|r|] s'].
Qed.
Lemma frames_on_world {Rt A} (m : M W A A) : frames (Rt := Rt) (on_world m).
Proof. intros s. unfold on_world. destruct (m (world s)) as [[a|r|] w']; simpl; reflexivity. Qed.
Lemma frames_deref {Rt A} (o : option A) : frames (Rt := Rt) (deref o).
Proof. destruct o; [apply frames_ret|apply frames_panic]. Qed.
Lemma frames_for_acc {Rt A B} (l : list A) (body : B → A → M (St W X) Rt B) b :
  (∀ b x, frames (body b x)) → frames (for_acc l body b).
Proof.
  intros Hb. revert b. induction l as [|x l IH]; intros b; [apply frames_ret|].
  apply frames_bind; [apply Hb|done].
Qed.
Lemma frames_for_each {Rt A} (l : list A) (body : A → M (St W X) Rt ()) :
  (∀ x, frames (body x)) → frames (for_each l body).
Proof. intros Hb. by apply frames_for_acc. Qed.
End frames.

(** Walk through a body; what remains are the updates of the object. *)
Ltac frame_step :=
  lazymatch goal with
  | |- frames ?R (mret _) => apply (frames_ret R)
  | |- frames ?R (return_ _) => apply (frames_return R)
  | |- frames ?R panic => apply (frames_panic R)
  | |- frames ?R get_obj => apply (frames_get_obj R)
  | |- frames ?R (on_world _) => apply (frames_on_world R)
  | |- frames ?R (deref _) => apply (frames_deref R)
  | |- frames ?R (modify_obj _) => apply (frames_modify R); intros ?
  | |- frames ?R (_ ≫= _) => apply (frames_bind R); [|intros ?]
  | |- frames ?R (call _) => apply (frames_call R)
  | |- frames ?R (for_acc _ _ _) => apply (frames_for_acc R); intros ??
  | |- frames ?R (for_each _ _) => apply (frames_for_each R); intros ?
  | |- frames _ (if ?b then _ else _) => destruct b
  | |- frames _ (match ?x with _ => _ end) => destruct x
  end.
Ltac frame_tac := cbv zeta; repeat (frame_step; cbv zeta).

(** A loop stopped at the first element that did not let it go on. *)
Lemma for_each_split {S R A} (l : list A) (body : A → M S R ()) (s s' : S) (o : outcome R ()) :
  for_each l body s = (o, s') →
  match o with
  | Next _ => True
  | _ => ∃ done x rest s1, l = done ++ x :: rest ∧
      for_each done body s = (Next (), s1) ∧ body x s1 = (o, s')
  end.
Proof.
  unfold for_each. revert s. induction l as [|x l IH]; intros s; simpl; [by intros [= <- _]|].
  unfold mbind, M_bind. destruct (body x s) as [[[]|r|] s1] eqn:Hb.
  - intros H. specialize (IH _ H). destruct o as [?|r|]; [done|..];
      destruct IH as (d & y & rest & s2 & -> & Hd & Hy); exists (x :: d), y, rest, s2; simpl;
      unfold mbind, M_bind; by rewrite Hb.
  - intros [= <- <-]. by exists [], x, l, s.
  - intros [= <- <-]. by exists [], x, l, s.
Qed.

(** Every round of a loop that ran to its end went on, each from where the
    rounds before it led. *)
Lemma for_each_rounds {S R A} (l : list A) (body : A → M S R ()) (s s' : S) :
  for_each l body s = (Next (), s') →
  ∀ i x, l !! i = Some x → fst (body x (for_each (take i l) body s).2) = Next ().
Proof.
  unfold for_each. revert s. induction l as [|y l IH]; intros s H i x Hi; [done|]. simpl in H.
  unfold mbind, M_bind in H. destruct (body y s) as [[[]|r|] s1] eqn:Hb; [|done..].
  destruct i as [|i]; simpl in Hi |- *; [injection Hi as ->; by rewrite Hb|].
  unfold mbind, M_bind. rewrite Hb. by apply IH.
Qed.

(** ** Guards: phases that check before anything is done

    [guards P m]: [m] either goes on with the object as it was, or leaves with
    an object that still satisfies [P]. *)
Section guards.
Context {W X : Type} (P : X → Prop).

Definition guards {R A} (m : M (St W X) R A) : Prop := ∀ s, P (obj s) →
  match m s with
  | (Next _, s') => obj s' = obj s
  | (_, s') => P (obj s')
  end.

Lemma guards_ret {R A} (a : A) : guards (R := R) (mret a).
Proof. by intros s. Qed.
Lemma guards_return {R A} (r : R) : guards (A := A) (return_ r).
Proof. by intros s. Qed.
Lemma guards_get_obj {R} : guards (R := R) get_obj.
Proof. by intros s. Qed.
Lemma guards_on_world {R A} (m : M W A A) : guards (R := R) (on_world m).
Proof. intros s. unfold on_world. by destruct (m (world s)) as [[a|r|] w]. Qed.
Lemma guards_bind {R A B} (m : M (St W X) R A) (k : A → M (St W X) R B) :
  guards m → (∀ a, guards (k a)) → guards (m ≫= k).
Proof.
  intros Hm Hk s Hs. specialize (Hm s Hs). unfold mbind, M_bind.
  destruct (m s) as [[a|r|] s1]; [|done..]. specialize (Hk a s1). rewrite Hm in Hk. by apply Hk.
Qed.
Lemma guards_for_acc {R A B} (l : list A) (body : B → A → M (St W X) R B) b :
  (∀ b x, guards (body b x)) → guards (for_acc l body b).
Proof.
  intros Hb. revert b. induction l as [|x l IH]; intros b; [apply guards_ret|].
  apply guards_bind; [apply Hb|done].
Qed.
Lemma guards_for_each {R A} (l : list A) (body : A → M (St W X) R ()) :
  (∀ x, guards (body x)) → guards (for_each l body).
Proof. intros Hb. by apply guards_for_acc. Qed.
(** An update on the way out. *)
Lemma guards_leave {R A} (f : X → X) (m : M (St W X) R A) :
  (∀ x, P x → P (f x)) → (∀ s, P (obj s) → P (obj (m s).2)) → never_goes_on m →
  guards (modify_obj f ≫= λ _, m).
Proof.
  intros Hf Hm Hn s Hs. unfold mbind, M_bind, modify_obj, modify.
  specialize (Hm (mkSt (world s) (f (obj s))) (Hf _ Hs)).
  destruct (m _) as [[a|r|] s1] eqn:He; [by apply Hn in He|done..].
Qed.
Lemma sat_guards {R A} (m : M (St W X) R A) s (Q : outcome R A → St W X → Prop) :
  guards m → P (obj s) →
  (∀ o s', match o with Next _ => obj s' = obj s | _ => P (obj s') end → Q o s') → sat m s Q.
Proof. intros Hm Hs HQ. specialize (Hm s Hs). unfold sat. destruct (m s) as [[a|r|] s']; auto. Qed.
End guards.

(** ** Keeping a property of the state

    [keeps P m]: whatever the outcome, [P] still holds after [m] if it held
    before.  For a property of the outside world in a body that also has an
    object in memory, [P] is composed with [world]. *)
Section keeps.
Context {S : Type} (P : S → Prop).

Definition keeps {R A} (m : M S R A) : Prop := ∀ s, P s → P (m s).2.

Lemma keeps_ret {R A} (a : A) : keeps (R := R) (mret a).
Proof. by intros s. Qed.
Lemma keeps_return {R A} (r : R) : keeps (A := A) (return_ r).
Proof. by intros s. Qed.
Lemma keeps_panic {R A} : keeps (R := R) (A := A) panic.
Proof. by intros s. Qed.
Lemma keeps_bind {R A B} (m : M S R A) (k : A → M S R B) :
  keeps m → (∀ a, keeps (k a)) → keeps (m ≫= k).
Proof.
  intros Hm Hk s Hs. specialize (Hm s Hs). unfold mbind, M_bind.
  destruct (m s) as [[a|r|] s']; [by apply Hk|done..].
Qed.
Lemma keeps_call {R A} (m : M S A A) : keeps m → keeps (R := R) (call m).
Proof. intros Hm s Hs. specialize (Hm s Hs). unfold call. by destruct (m s) as [[a|r|] s']. Qed.
Lemma keeps_deref {R A} (o : option A) : keeps (R := R) (deref o).
Proof. destruct o; [apply keeps_ret|apply keeps_panic]. Qed.
Lemma keeps_for_acc {R A B} (l : list A) (body : B → A → M S R B) b :
  (∀ b x, keeps (body b x)) → keeps (for_acc l body b).
Proof.
  intros Hb. revert b. induction l as [|x l IH]; intros b; [apply keeps_ret|].
  by apply keeps_bind.
Qed.
Lemma keeps_for_each {R A} (l : list A) (body : A → M S R ()) :
  (∀ x, keeps (body x)) → keeps (for_each l body).
Proof. intros Hb. by apply keeps_for_acc. Qed.
Lemma sat_keeps {R A} (m : M S R A) s (Q : outcome R A → S → Prop) :
  keeps m → P s → (∀ o s', P s' → Q o s') → sat m s Q.
Proof. intros Hm Hs HQ. apply HQ. by apply Hm. Qed.
End keeps.

Section keeps_world.
Context {W : Type} (P : W → Prop).

Lemma keeps_op {R A} (f : W → W * A) : (∀ w, P w → P (f w).1) → keeps P (op (R := R) f).
Proof. intros Hf w Hw. specialize (Hf w Hw). unfold op. by destruct (f w). Qed.
Lemma keeps_on_world {X R A} (m : M W A A) :
  keeps P m → keeps (λ s : St W X, P (world s)) (on_world (R := R) m).
Proof. intros Hm s Hs. specialize (Hm _ Hs). unfold on_world. by destruct (m (world s)) as [[a|r|] w]. Qed.
Lemma keeps_get_obj {X R} : keeps (λ s : St W X, P (world s)) (get_obj (R := R)).
Proof. by intros s. Qed.
Lemma keeps_modify_obj {X R} f : keeps (λ s : St W X, P (world s)) (modify_obj (R := R) f).
Proof. by intros s. Qed.
End keeps_world.

(** Walk through a body; what remains are the calls, closed from the
    database when they are known there. *)
Create HintDb keeps discriminated.
Ltac keeps_step :=
  lazymatch goal with
  | |- keeps ?P (mret _) => apply (keeps_ret P)
  | |- keeps ?P (return_ _) => apply (keeps_return P)
  | |- keeps ?P panic => apply (keeps_panic P)
  | |- keeps ?P (deref _) => apply (keeps_deref P)
  | |- keeps _ (op _) => apply keeps_op
  | |- keeps _ (on_world _) => apply keeps_on_world
  | |- keeps _ get_obj => apply keeps_get_obj
  | |- keeps _ (modify_obj _) => apply keeps_modify_obj
  | |- keeps ?P (_ ≫= _) => apply (keeps_bind P); [|intros ?]
  | |- keeps ?P (call _) => apply (keeps_call P)
  | |- keeps ?P (for_acc _ _ _) => apply (keeps_for_acc P); intros ??
  | |- keeps ?P (for_each _ _) => apply (keeps_for_each P); intros ?
  | |- keeps _ (if ?b then _ else _) => destruct b
  | |- keeps _ (match ?x with _ => _ end) => destruct x
  end.
Ltac keeps_tac := cbv zeta; repeat (first [solve [eauto with keeps]|keeps_step]; cbv zeta).

(** ** Going on

    [goes m s Q]: [m] neither leaves the function nor panics, and ends in [Q]. *)
Definition goes {S R A} (m : M S R A) (s : S) (Q : A → S → Prop) : Prop :=
  sat m s (λ o s', match o with Next a => Q a s' | _ => False end).

Section goes.
Context {S R : Type}.

Lemma goes_bind {A B} (m : M S R A) (k : A → M S R B) s Q :
  goes m s (λ a s', goes (k a) s' Q) → goes (m ≫= k) s Q.
Proof. intros H. apply sat_bind. unfold goes in *. eapply sat_mono; [exact H|]. by intros [a|r|] s'. Qed.
Lemma goes_then {A B} (m : M S R A) (k : A → M S R B) s (Q : outcome R B → S → Prop) :
  goes m s (λ a s', sat (k a) s' Q) → sat (m ≫= k) s Q.
Proof. unfold goes. intros H. apply sat_bind. eapply sat_mono; [exact H|]. by intros [a|r|] s'. Qed.
Lemma goes_mono {A} (m : M S R A) s (Q Q' : A → S → Prop) :
  goes m s Q → (∀ a s', Q a s' → Q' a s') → goes m s Q'.
Proof. unfold goes. intros H HQ. eapply sat_mono; [exact H|]. intros [a|r|] s'; [apply HQ|done..]. Qed.
(** Loops, with an invariant on what is left of the list, or without. *)
Lemma goes_for_rest {A B} (l : list A) (body : B → A → M S R B) b s
    (I : list A → B → S → Prop) (Q : B → S → Prop) :
  I l b s → (∀ x rest b s, x ∈ l → I (x :: rest) b s → goes (body b x) s (I rest)) →
  (∀ b s, I [] b s → Q b s) → goes (for_acc l body b) s Q.
Proof.
  unfold goes. intros HI Hbody HQ.
  apply (sat_for_acc _ _ _ _ (λ rest b s, rest ⊆ l ∧ I rest b s)); [done| |].
  - intros x rest b1 s1 _ [Hin HI1]. eapply sat_mono; [apply Hbody; [|exact HI1]; apply Hin; by left|].
    intros [b2|r|] s2; [|done..]. intros HI2. split; [|done]. intros y Hy. apply Hin. by right.
  - intros b1 s1 [_ HI1]. by apply HQ.
Qed.
Lemma goes_for_acc {A B} (l : list A) (body : B → A → M S R B) b s
    (I : B → S → Prop) (Q : B → S → Prop) :
  I b s → (∀ x b s, x ∈ l → I b s → goes (body b x) s I) → (∀ b s, I b s → Q b s) →
  goes (for_acc l body b) s Q.
Proof. intros HI Hbody HQ. apply goes_for_rest with (I := λ _, I); auto. Qed.
(** What holds at the end whatever happens, holds when the body goes on. *)
Lemma goes_and {A} (m : M S R A) s (Q Q' : A → S → Prop) (P : outcome R A → S → Prop) :
  goes m s Q → sat m s P → (∀ a s', Q a s' → P (Next a) s' → Q' a s') → goes m s Q'.
Proof.
  unfold goes, sat. intros H HP Hk. destruct (m s) as [[a|r|] s']; [|done..]. by apply Hk.
Qed.
Lemma goes_ret {A} (a : A) s (Q : A → S → Prop) : Q a s → goes (R := R) (mret a) s Q.
Proof. done. Qed.
Lemma goes_modify_state f s (Q : () → S → Prop) : Q () (f s) → goes (R := R) (modify f) s Q.
Proof. done. Qed.
Lemma goes_call {A} (m : M S A A) s (Q : A → S → Prop) : goes m s Q → goes (R := R) (call m) s Q.
Proof. unfold goes, sat, call. by destruct (m s) as [[a|r|] s']. Qed.
Lemma goes_keeps {A} (P : S → Prop) (m : M S R A) s Q :
  keeps P m → P s → goes m s Q → goes m s (λ a s', Q a s' ∧ P s').
Proof. intros Hk Hs H. apply (goes_and _ _ _ _ (λ _ s', P s') H (Hk s Hs)). done. Qed.
End goes.

(** The answer of a whole function, by whichever return. *)
Definition returns {S A} (m : M S A A) (s : S) (Q : A → S → Prop) : Prop :=
  sat m s (λ o s', match o with Next a | Return a => Q a s' | Panic => False end).
Lemma returns_call {S R A} (m : M S A A) (s : S) (Q : A → S → Prop) :
  returns m s Q → goes (R := R) (call m) s Q.
Proof. unfold returns, goes, sat, call. by destruct (m s) as [[a|a|] s']. Qed.

Section goes_world.
Context {W X R : Type}.
Lemma returns_on_world {A} (m : M W A A) (s : St W X) (Q : A → St W X → Prop) :
  returns m (world s) (λ a w, Q a (mkSt w (obj s))) → goes (R := R) (on_world m) s Q.
Proof. unfold returns, goes, sat, on_world. by destruct (m (world s)) as [[a|a|] w]. Qed.
Lemma goes_on_world {A} (m : M W A A) (s : St W X) (Q : A → St W X → Prop) :
  goes m (world s) (λ a w, Q a (mkSt w (obj s))) → goes (R := R) (on_world m) s Q.
Proof. unfold goes, sat, on_world. by destruct (m (world s)) as [[a|r|] w]. Qed.
Lemma goes_op {A} (f : W → W * A) w (Q : A → W → Prop) :
  Q (f w).2 (f w).1 → goes (R := R) (op f) w Q.
Proof. unfold goes, sat, op. by destruct (f w). Qed.
Lemma goes_get_obj (s : St W X) (Q : X → St W X → Prop) : Q (obj s) s → goes (R := R) get_obj s Q.
Proof. done. Qed.
Lemma goes_modify f (s : St W X) (Q : () → St W X → Prop) :
  Q () (mkSt (world s) (f (obj s))) → goes (R := R) (modify_obj f) s Q.
Proof. done. Qed.
Lemma goes_frames {A} (P : X → X → Prop) (m : M (St W X) R A) s Q :
  frames P m → goes m s Q → goes m s (λ a s', Q a s' ∧ P (obj s) (obj s')).
Proof. intros Hf H. apply (goes_and _ _ _ _ (λ _ s', P (obj s) (obj s')) H (Hf s)). done. Qed.
End goes_world.

(** ** No panic

    [safe P m]: from a state where [P] holds, [m] does not panic, and [P] holds
    again when it ends. *)
Section safe.
Context {S : Type} (P : S → Prop).

Definition safe {R A} (m : M S R A) : Prop := ∀ s, P s → (m s).1 ≠ Panic ∧ P (m s).2.

Lemma safe_ret {R A} (a : A) : safe (R := R) (mret a).
Proof. by intros s. Qed.
Lemma safe_return {R A} (r : R) : safe (A := A) (return_ r).
Proof. by intros s. Qed.
Lemma safe_bind {R A B} (m : M S R A) (k : A → M S R B) : safe m → (∀ a, safe (k a)) → safe (m ≫= k).
Proof.
  intros Hm Hk s Hs. destruct (Hm s Hs) as [Hn Hs']. unfold mbind, M_bind.
  destruct (m s) as [[a|r|] s']; [by apply Hk|done..].
Qed.
Lemma safe_value {R A B} (a : A) (k : A → M S R B) : safe (k a) → safe (mret a ≫= k).
Proof. done. Qed.
Lemma safe_call {R A} (m : M S A A) : safe m → safe (R := R) (call m).
Proof. intros Hm s Hs. destruct (Hm s Hs). unfold call. by destruct (m s) as [[a|r|] s']. Qed.
Lemma safe_for_acc {R A B} (l : list A) (body : B → A → M S R B) b :
  (∀ b x, x ∈ l → safe (body b x)) → safe (for_acc l body b).
Proof.
  revert b. induction l as [|x l IH]; intros b Hb; [apply safe_ret|].
  apply safe_bind; [apply Hb; by left|]. intros b'. apply IH. intros b'' y Hin. apply Hb. by right.
Qed.
Lemma safe_for_each {R A} (l : list A) (body : A → M S R ()) :
  (∀ x, x ∈ l → safe (body x)) → safe (for_each l body).
Proof. intros Hb. apply safe_for_acc. auto. Qed.
Lemma sat_safe {R A} (m : M S R A) s (Q : outcome R A → S → Prop) :
  safe m → P s → sat m s Q → sat m s (λ o s', o ≠ Panic ∧ P s' ∧ Q o s').
Proof. intros Hm Hs H. destruct (Hm s Hs). by split_and!. Qed.
(** A phase whose value is known to be good. *)
Lemma safe_bind_value {R A B} (good : A → Prop) (m : M S R A) (k : A → M S R B) :
  safe m → (∀ s, P s → sat m s (λ o _, match o with Next a => good a | _ => True end)) →
  (∀ a, good a → safe (k a)) → safe (m ≫= k).
Proof.
  intros Hm Hv Hk s Hs. destruct (Hm s Hs) as [Hn Hs']. specialize (Hv s Hs). unfold sat in Hv.
  unfold mbind, M_bind. destruct (m s) as [[a|r|] s']; [by apply Hk|done..].
Qed.
(** A safe phase, and what comes after it. *)
Lemma safe_then {R A B} (m : M S R A) (k : A → M S R B) s :
  safe m → P s → (∀ a s', P s' → sat (k a) s' (λ o _, o ≠ Panic)) → sat (m ≫= k) s (λ o _, o ≠ Panic).
Proof.
  intros Hm Hs Hk. apply sat_bind. destruct (Hm s Hs) as [Hn Hs']. unfold sat at 1.
  destruct (m s) as [[a|r|] s']; [by apply Hk|done..].
Qed.
End safe.

Section safe_world.
Context {W X : Type} (P : W → Prop) (J : X → Prop).
(** The world and the object in memory. *)
Definition both (s : St W X) : Prop := P (world s) ∧ J (obj s).

Lemma safe_op {R A} (f : W → W * A) : (∀ w, P w → P (f w).1) → safe P (op (R := R) f).
Proof. intros Hf w Hw. specialize (Hf w Hw). unfold op. by destruct (f w). Qed.
Lemma safe_on_world {R A} (m : M W A A) : safe P m → safe both (on_world (R := R) m).
Proof.
  intros Hm s [Hw HJ]. destruct (Hm _ Hw). unfold on_world. by destruct (m (world s)) as [[a|r|] w].
Qed.
Lemma safe_get_obj {R} : safe both (get_obj (R := R)).
Proof. by intros s. Qed.
Lemma safe_modify_obj {R} f : (∀ x, J x → J (f x)) → safe both (modify_obj (R := R) f).
Proof. intros Hf s [Hw HJ]. split; [done|]. split; [done|by apply Hf]. Qed.
(** What is read of the object satisfies [J]. *)
Lemma safe_read {R A} (k : X → M (St W X) R A) : (∀ x, J x → safe both (k x)) → safe both (get_obj ≫= k).
Proof. intros Hk s Hs. apply Hk; [apply Hs|done]. Qed.
End safe_world.

Create HintDb safe discriminated.
Ltac safe_step :=
  lazymatch goal with
  | |- safe ?P (mret _) => apply (safe_ret P)
  | |- safe ?P (return_ _) => apply (safe_return P)
  | |- safe _ (op _) => apply safe_op
  | |- safe _ (on_world _) => apply safe_on_world
  | |- safe _ get_obj => apply safe_get_obj
  | |- safe _ (modify_obj _) => apply safe_modify_obj
  | |- safe _ (get_obj ≫= _) => apply safe_read; intros ? ?
  | |- safe ?P (mret _ ≫= _) => apply (safe_value P)
  | |- safe ?P (_ ≫= _) => apply (safe_bind P); [|intros ?]
  | |- safe ?P (call _) => apply (safe_call P)
  | |- safe ?P (for_acc _ _ _) => apply (safe_for_acc P); intros ???
  | |- safe ?P (for_each _ _) => apply (safe_for_each P); intros ??
  | |- safe _ (if ?b then _ else _) => destruct b
  | |- safe _ (match ?x with _ => _ end) => destruct x
  end.
Ltac safe_tac := cbv zeta; repeat (first [solve [eauto with safe]|safe_step]; cbv zeta).
