(* ===== verification/GoStd.v ===== *)
(** The parts of Go and of its standard library that the operator uses:
    64-bit [int] arithmetic, [strings], [strconv.Itoa], [path.Join],
    [sort.Strings], [fmt.Sprintf] on [%s] and [%%], maps (nil or not) and the
    unspecified order of [range] over a map. *)

From Stdlib Require Import Ascii.
From stdpp Require Import base gmap strings list sorting pretty sets.
From S2P Require Import Prelude.

(** ** [int]: two's complement, 64 bits *)

Definition wrap64 (z : Z) : Z := (z + 2 ^ 63) `mod` 2 ^ 64 - 2 ^ 63.
Definition add64 (a b : Z) : Z := wrap64 (a + b).
Definition int64 (z : Z) : Prop := (- 2 ^ 63 ≤ z < 2 ^ 63)%Z.

Lemma wrap64_id z : int64 z → wrap64 z = z.
Proof. unfold int64, wrap64. intros ?. rewrite Z.mod_small; lia. Qed.

Lemma wrap64_range z : int64 (wrap64 z).
Proof.
  unfold int64, wrap64. pose proof (Z.mod_pos_bound (z + 2 ^ 63) (2 ^ 64)). lia.
Qed.

(** ** Strings (ASCII) *)

Definition slen (s : string) : Z := Z.of_nat (String.length s).

Definition ascii_lower (c : ascii) : ascii :=
  let n := N_of_ascii c in
  if decide (65 ≤ n ≤ 90)%N then ascii_of_N (n + 32) else c.
(** [strings.ToLower] *)
Fixpoint to_lower (s : string) : string :=
  match s with
  | "" => ""
  | String c s => String (ascii_lower c) (to_lower s)
  end.
(** [strings.EqualFold] *)
Definition equal_fold (s t : string) : bool := bool_decide (to_lower s = to_lower t).

(** [strings.Split(s, sep)] for a separator of one byte *)
Fixpoint split_on (sep : ascii) (s : string) : list string :=
  match s with
  | "" => [""]
  | String c s =>
      if decide (c = sep) then "" :: split_on sep s
      else match split_on sep s with
           | x :: l => String c x :: l
           | [] => [String c ""]
           end
  end.
(** [strings.SplitN(s, sep, 2)] *)
Fixpoint split2_on (sep : ascii) (s : string) : list string :=
  match s with
  | "" => [""]
  | String c s =>
      if decide (c = sep) then [""; s]
      else match split2_on sep s with
           | x :: l => String c x :: l
           | [] => [String c ""]
           end
  end.
(** [strings.Join(l, sep)] *)
Fixpoint join (sep : string) (l : list string) : string :=
  match l with
  | [] => ""
  | [x] => x
  | x :: l => x +:+ sep +:+ join sep l
  end.
(** [strings.HasSuffix] *)
Definition has_suffix (s suf : string) : bool :=
  let n := String.length s in let k := String.length suf in
  bool_decide (k ≤ n) && bool_decide (String.substring (n - k) k s = suf).
(** [s[:n]], for [n <= len(s)] *)
Definition str_take (n : nat) (s : string) : string := String.substring 0 n s.
(** [strings.TrimSpace] *)
Fixpoint trim_left (s : string) : string :=
  match s with
  | "" => ""
  | String c s' => if Ascii.is_space c then trim_left s' else s
  end.
Definition trim_space (s : string) : string :=
  String.rev (trim_left (String.rev (trim_left s))).
(** [strconv.Itoa] *)
Definition itoa (z : Z) : string := pretty z.
(** [strconv.Atoi], the number without the error: 0 for a text that is not a
    number, the nearest [int] for one out of range *)
Definition digit (c : ascii) : option Z :=
  let n := N_of_ascii c in
  if decide (48 ≤ n ≤ 57)%N then Some (Z.of_N n - 48)%Z else None.
Fixpoint digits (acc : Z) (s : string) : option Z :=
  match s with
  | "" => Some acc
  | String c s => d ← digit c; digits (10 * acc + d)%Z s
  end.
Definition atoi_clamp (z : Z) : Z := Z.max (- 2 ^ 63) (Z.min (2 ^ 63 - 1) z).
Definition atoi (s : string) : Z :=
  match s with
  | "" | "-" | "+" => 0
  | String "-"%char s => default 0%Z (z ← digits 0 s; Some (atoi_clamp (- z)))
  | String "+"%char s => default 0%Z (z ← digits 0 s; Some (atoi_clamp z))
  | s => default 0%Z (z ← digits 0 s; Some (atoi_clamp z))
  end.
(** [slices.Contains] *)
Definition contains (l : list string) (s : string) : bool := bool_decide (s ∈ l).
Lemma contains_true l s : contains l s = true ↔ s ∈ l.
Proof. apply bool_decide_eq_true. Qed.

(** [path.Join]: the non-empty elements joined by "/" and lexically cleaned. *)
Definition path_push (rooted : bool) (stack : list string) (e : string) : list string :=
  if decide (e = "" ∨ e = ".") then stack
  else if decide (e = "..") then
    match stack with
    | top :: rest => if decide (top = "..") then e :: stack else rest
    | [] => if rooted then [] else [e]
    end
  else e :: stack.
Definition path_clean (p : string) : string :=
  let rooted := match p with String "/"%char _ => true | _ => false end in
  let body := join "/" (reverse (fold_left (path_push rooted) (split_on "/"%char p) [])) in
  if rooted then "/" +:+ body else if decide (body = "") then "." else body.
Definition path_join (l : list string) : string :=
  match filter (λ e, e ≠ "") l with
  | [] => ""
  | l' => path_clean (join "/" l')
  end.

(** [fmt.Sprintf] for string arguments, exact for the verbs [%s], [%v] and
    [%%], for missing and extra arguments, and for every other verb letter
    that finds no argument (the case of a text used as a format). *)
Definition sprintf_extra (args : list string) : string :=
  match args with
  | [] => ""
  | _ => "%!(EXTRA " +:+ join ", " (map (λ a, "string=" +:+ a) args) +:+ ")"
  end.
Fixpoint sprintf (fmt : string) (args : list string) : string :=
  match fmt with
  | "" => sprintf_extra args
  | String "%"%char rest =>
      match rest with
      | "" => "%!(NOVERB)" +:+ sprintf_extra args
      | String v rest =>
          if decide (v = "%"%char) then String "%"%char (sprintf rest args)
          else match args with
               | [] => "%!" +:+ String v "(MISSING)" +:+ sprintf rest []
               | a :: args =>
                   if decide (v = "s"%char ∨ v = "v"%char) then a +:+ sprintf rest args
                   else "%!" +:+ String v ("(string=" +:+ a +:+ ")") +:+ sprintf rest args
               end
      end
  | String c rest => String c (sprintf rest args)
  end.

Fixpoint has_percent (s : string) : bool :=
  match s with "" => false | String c s => bool_decide (c = "%"%char) || has_percent s end.

(** A text without [%] used as a format is printed as it is. *)
Lemma sprintf_plain s : has_percent s = false → sprintf s [] = s.
Proof.
  induction s as [|c s IH]; [done|]. simpl. intros [Hc Hs]%orb_false_iff.
  apply bool_decide_eq_false in Hc. rewrite IH by done.
  destruct c as [[] [] [] [] [] [] [] []]; done.
Qed.

(** A text between double quotes, and a list and a map of strings as [%s]
    prints them (a map in the order of its keys). *)
Definition quoted (s : string) : string :=
  String (ascii_of_nat 34) s +:+ String (ascii_of_nat 34) EmptyString.
Definition print_list (l : list string) : string := "[" +:+ join " " l +:+ "]".

(** [sort.Strings]: ascending byte order *)
Definition sort_strings (l : list string) : list string := merge_sort String.le l.

Lemma sort_strings_perm l : sort_strings l ≡ₚ l.
Proof. apply merge_sort_Permutation. Qed.

Lemma sort_strings_sorted l : StronglySorted String.le (sort_strings l).
Proof. apply (StronglySorted_merge_sort _). Qed.

(** The sorted order is independent of the order in which the keys were
    collected: iteration over a map followed by a sort is deterministic. *)
Lemma sort_strings_unique l l' : l ≡ₚ l' → sort_strings l = sort_strings l'.
Proof.
  intros Hp. apply (StronglySorted_unique String.le); [apply sort_strings_sorted..|].
  by rewrite !sort_strings_perm.
Qed.

Lemma sort_strings_NoDup l : NoDup l → NoDup (sort_strings l).
Proof. intros ?. by rewrite sort_strings_perm. Qed.

#[export] Instance sort_strings_proper : Proper ((≡ₚ) ==> (=)) sort_strings.
Proof. intros l l'. apply sort_strings_unique. Qed.

Definition print_map (m : gmap string string) : string :=
  "map[" +:+ join " " (map (λ k, k +:+ ":" +:+ default "" (m !! k))
                         (sort_strings (map_to_list m).*1)) +:+ "]".

Lemma string_app_cons c (s1 s2 : string) : String c s1 +:+ s2 = String c (s1 +:+ s2).
Proof. done. Qed.
Lemma string_app_nil (s : string) : "" +:+ s = s.
Proof. done. Qed.

Lemma string_app_assoc (s1 s2 s3 : string) : s1 +:+ s2 +:+ s3 = (s1 +:+ s2) +:+ s3.
Proof. induction s1 as [|c s1 IH]; [done|]. by rewrite !string_app_cons, IH. Qed.

Lemma string_app_nil_r (s : string) : s +:+ "" = s.
Proof. induction s as [|c s IH]; [done|]. by rewrite string_app_cons, IH. Qed.

Lemma length_string_app (s1 s2 : string) :
  String.length (s1 +:+ s2) = String.length s1 + String.length s2.
Proof. induction s1 as [|c s1 IH]; [done|]. rewrite string_app_cons. simpl. by rewrite IH. Qed.

Lemma str_take_app n (s1 s2 : string) :
  n ≤ String.length s1 → str_take n (s1 +:+ s2) = str_take n s1.
Proof.
  unfold str_take. revert s1. induction n as [|n IH]; intros s1 Hn.
  - by destruct (s1 +:+ s2), s1.
  - destruct s1 as [|c s1]; simpl in Hn; [lia|].
    rewrite string_app_cons. simpl. f_equal. apply IH. lia.
Qed.

Lemma sprintf_dash (a b : string) : sprintf "%s-%s" [a; b] = a +:+ "-" +:+ b.
Proof. cbn. by rewrite string_app_nil_r. Qed.

Lemma length_str_take n s : String.length (str_take n s) = min n (String.length s).
Proof.
  unfold str_take. revert s. induction n as [|n IH]; intros [|c s]; simpl; auto.
Qed.

(** ** Maps

    A Go map value may be [nil]; reading a nil map finds nothing, writing to
    it panics. *)
Abbreviation gomap V := (option (gmap string V)).
Definition entries {V} (m : gomap V) : gmap string V := default ∅ m.
Definition map_set {S R V} (m : gomap V) (k : string) (v : V) : M S R (gomap V) :=
  match m with
  | Some m => mret (Some (<[k := v]> m))
  | None => panic
  end.
Lemma frames_map_set {W X} (R : X → X → Prop) `{!PreOrder R} {Rt V} (m : gomap V) k v :
  frames R (map_set (S := St W X) (R := Rt) m k v).
Proof. destruct m; [by apply frames_ret|by apply frames_panic]. Qed.
Lemma map_set_keeps {S} (Q : S → Prop) {R A} (m : gomap A) k v : keeps Q (map_set (R := R) m k v).
Proof. destruct m; [apply keeps_ret|apply keeps_panic]. Qed.
#[export] Hint Resolve map_set_keeps : keeps.
(** [if m == nil { m = make(...) }] *)
Definition make_if_nil {V} (m : gomap V) : gomap V := Some (entries m).

(** [for k, v := range m]: Go leaves the order of the iteration unspecified
    and lets it differ from loop to loop; [site] tells the loops apart.  Every
    definition with such a loop is parameterised by the order. *)
Class MapRange := {
  range : ∀ {V : Type}, string → gmap string V → list (string * V);
}.
(** [for _, v := range m] *)
Definition range_values `{MapRange} {V} (site : string) (m : gmap string V) : list V :=
  (range site m).*2.
Class MapRangeLaws `(MR : MapRange) : Prop := {
  range_perm : ∀ {V : Type} site (m : gmap string V), range site m ≡ₚ map_to_list m;
}.

Section range.
Context `{MRL : MapRangeLaws}.

Lemma elem_of_range {V} site (m : gmap string V) k v :
  (k, v) ∈ range site m ↔ m !! k = Some v.
Proof. rewrite range_perm. apply elem_of_map_to_list. Qed.

Lemma range_keys_NoDup {V} site (m : gmap string V) : NoDup (range site m).*1.
Proof. rewrite range_perm. apply NoDup_fst_map_to_list. Qed.

Lemma range_NoDup {V} site (m : gmap string V) : NoDup (range site m).
Proof. rewrite range_perm. apply NoDup_map_to_list. Qed.

Lemma elem_of_range_values {V} site (m : gmap string V) v :
  v ∈ range_values site m ↔ ∃ k, m !! k = Some v.
Proof.
  unfold range_values. rewrite list_elem_of_fmap. split.
  - intros ([k v'] & -> & ?%elem_of_range). eauto.
  - intros [k ?]. exists (k, v). split; [done|]. by apply elem_of_range.
Qed.

Lemma elem_of_range_keys {V} site (m : gmap string V) k :
  k ∈ (range site m).*1 ↔ is_Some (m !! k).
Proof.
  rewrite list_elem_of_fmap. split.
  - intros ([k' v] & -> & ?%elem_of_range). eauto.
  - intros [v ?]. exists (k, v). split; [done|]. by apply elem_of_range.
Qed.
End range.

(** [acc = append(acc, f(x)...)] over a list *)
Lemma elem_of_fold_app {A B} (f : A → list B) (l : list A) (acc : list B) x :
  x ∈ fold_left (λ acc a, acc ++ f a) l acc ↔ x ∈ acc ∨ ∃ a, a ∈ l ∧ x ∈ f a.
Proof.
  revert acc. induction l as [|a l IH]; intros acc; simpl.
  - setoid_rewrite elem_of_nil. naive_solver.
  - rewrite IH, elem_of_app. setoid_rewrite elem_of_cons. naive_solver.
Qed.

(** [for _, x := range l { m[g(x)] = h(x) }] *)
Definition insert_all {A V} (g : A → string) (h : A → V) (l : list A) (m : gmap string V) :
    gmap string V :=
  fold_left (λ m x, <[g x := h x]> m) l m.

Lemma insert_all_notin {A V} (g : A → string) (h : A → V) l m k :
  k ∉ (g <$> l) → insert_all g h l m !! k = m !! k.
Proof.
  revert m. induction l as [|x l IH]; intros m; [done|].
  rewrite fmap_cons, not_elem_of_cons. intros [? ?].
  change (insert_all g h (x :: l) m) with (insert_all g h l (<[g x := h x]> m)).
  rewrite IH by done. by apply lookup_insert_ne.
Qed.

Lemma insert_all_elem {A V} (g : A → string) (h : A → V) l m x :
  NoDup (g <$> l) → x ∈ l → insert_all g h l m !! g x = Some (h x).
Proof.
  revert m. induction l as [|y l IH]; intros m; [by intros _ ?%not_elem_of_nil|].
  rewrite fmap_cons, NoDup_cons. intros [Hy Hnd].
  change (insert_all g h (y :: l) m) with (insert_all g h l (<[g y := h y]> m)).
  intros [->|?]%elem_of_cons; [|by apply IH].
  rewrite insert_all_notin by done. apply lookup_insert_eq.
Qed.

(** Which keys are present does not depend on duplicates. *)
Lemma insert_all_keys {A V} (g : A → string) (h : A → V) l m k :
  is_Some (insert_all g h l m !! k) ↔ k ∈ (g <$> l) ∨ is_Some (m !! k).
Proof.
  revert m. induction l as [|x l IH]; intros m.
  - rewrite elem_of_nil. naive_solver.
  - change (insert_all g h (x :: l) m) with (insert_all g h l (<[g x := h x]> m)).
    rewrite IH, fmap_cons, elem_of_cons, lookup_insert_is_Some. destruct (decide (k = g x)); naive_solver.
Qed.

(** Rewriting every value of a map in place, in any order. *)
Lemma insert_all_range `{MapRangeLaws} {V V'} site (f : string → V → V') (m : gmap string V) m0 k :
  insert_all fst (λ kv, f kv.1 kv.2) (range site m) m0 !! k =
    match m !! k with Some v => Some (f k v) | None => m0 !! k end.
Proof.
  destruct (m !! k) as [v|] eqn:Hk.
  - change k with (fst (k, v)) at 1.
    rewrite insert_all_elem with (x := (k, v)); [done|apply range_keys_NoDup|by apply elem_of_range].
  - apply insert_all_notin. rewrite elem_of_range_keys, Hk. by intros [? ?].
Qed.

Lemma fold_left_ext_eq {A B} (f g : A → B → A) (l : list B) a :
  (∀ a b, f a b = g a b) → fold_left f l a = fold_left g l a.
Proof. intros H. revert a. induction l as [|b l IH]; intros a; simpl; [done|]. by rewrite H. Qed.

(** Orders for witnesses: the one in which [gmap] lists its bindings, and its
    reverse. *)
#[export] Instance list_range : MapRange := {| range := λ V _ m, map_to_list m |}.
#[export] Instance list_range_laws : MapRangeLaws list_range.
Proof. split. done. Qed.

Definition reversed_range : MapRange := {| range := λ V _ m, reverse (map_to_list m) |}.
Lemma reversed_range_laws : MapRangeLaws reversed_range.
Proof. split. intros V site m. apply reverse_Permutation. Qed.

(** The keys of a map, sorted: the idiom by which the operator makes a loop
    over a map deterministic. *)
Definition sorted_keys `{MapRange} {V} (site : string) (m : gmap string V) : list string :=
  sort_strings (range site m).*1.

Lemma sorted_keys_det {V} (MR1 MR2 : MapRange) (L1 : MapRangeLaws MR1)
    (L2 : MapRangeLaws MR2) site (m : gmap string V) :
  @sorted_keys MR1 V site m = @sorted_keys MR2 V site m.
Proof. apply sort_strings_unique. by rewrite !range_perm. Qed.

Lemma elem_of_sorted_keys `{MapRangeLaws} {V} site (m : gmap string V) k :
  k ∈ sorted_keys site m ↔ is_Some (m !! k).
Proof. unfold sorted_keys. rewrite sort_strings_perm. apply elem_of_range_keys. Qed.

Lemma sorted_keys_NoDup `{MapRangeLaws} {V} site (m : gmap string V) :
  NoDup (sorted_keys site m).
Proof. apply sort_strings_NoDup, range_keys_NoDup. Qed.

(** ** Errors

    An API error carries what [k8s_errors.IsNotFound] looks at (it sees
    through wrapping) and the text [Error()] returns. *)
Record Err : Type := mkErr { IsNotFound : bool; Error : string }.
#[export] Instance Err_eq_dec : EqDecision Err.
Proof. solve_decision. Defined.
(** [errors.New], and [fmt.Errorf] of a runtime text *)
Definition errors_New (msg : string) : Err := mkErr false msg.
Definition Errorf (fmt : string) (args : list string) : Err :=
  mkErr false (sprintf fmt args).
(** [fmt.Errorf("prefix%w", err)] *)
Definition wrap_err (prefix : string) (e : Err) : Err :=
  mkErr (IsNotFound e) (prefix +:+ Error e).

(** The pair [(value, error)] of a Go function whose callers do not read the
    value when the error is set. *)
Inductive result (A : Type) : Type := Ok (a : A) | Fail (e : Err).
Arguments Ok {A} a.
Arguments Fail {A} e.

(** [Atoi] reads back what [Itoa] writes. *)
Lemma digits_pretty x s : digits 0 (pretty_N_go x s) = digits (Z.of_N x) s.
Proof.
  revert s. induction (N.lt_wf_0 x) as [x _ IH]; intros s.
  destruct (decide (x = 0%N)) as [->|Hx]; [done|].
  rewrite pretty_N_go_step by lia. rewrite IH by (apply N.div_lt; lia). simpl.
  assert (x `mod` 10 < 10)%N as Hm by (by apply N.mod_lt).
  assert (digit (pretty_N_char (x `mod` 10)) = Some (Z.of_N (x `mod` 10))) as ->.
  { revert Hm. generalize (x `mod` 10)%N. intros d Hd.
    assert (d = 0 ∨ d = 1 ∨ d = 2 ∨ d = 3 ∨ d = 4 ∨ d = 5 ∨ d = 6 ∨ d = 7 ∨ d = 8 ∨ d = 9)%N as Hor by lia.
    destruct_or!; subst; reflexivity. }
  simpl. f_equal. pose proof (N.div_mod x 10 ltac:(done)). lia.
Qed.
Lemma atoi_digits s z : s ≠ "" → digits 0 s = Some z → atoi s = atoi_clamp z.
Proof.
  destruct s as [|c s]; [done|]. intros _ Hd. unfold atoi.
  destruct c as [[] [] [] [] [] [] [] []]; try discriminate Hd; by rewrite Hd.
Qed.
Lemma atoi_itoa (n : nat) : (Z.of_nat n < 2 ^ 63)%Z → atoi (itoa (Z.of_nat n)) = Z.of_nat n.
Proof.
  intros Hn. assert (digits 0 (itoa (Z.of_nat n)) = Some (Z.of_nat n)) as Hd.
  { unfold itoa. destruct n as [|n]; [done|]. exact (digits_pretty (N.of_nat (S n)) ""). }
  erewrite atoi_digits; [|intros He; rewrite He in Hd; injection Hd as Hd; destruct n; [discriminate He|lia]|exact Hd]. unfold atoi_clamp. lia.
Qed.
Example atoi_ex : atoi "12" = 12%Z ∧ atoi "-7" = (-7)%Z ∧ atoi "" = 0%Z ∧ atoi "1x" = 0%Z
  ∧ atoi "99999999999999999999" = (2 ^ 63 - 1)%Z.
Proof. done. Qed.
Example path_join_ex : path_join ["/var/lib/openstack/certs"; ""; "default"]
  = "/var/lib/openstack/certs/default".
Proof. reflexivity. Qed.
Example path_join_ex2 : path_join ["/a"; "../../b//c/."] = "/b/c".
Proof. reflexivity. Qed.
Example sprintf_ex : sprintf "nodeSet: %s error: %s" ["a"; "b"] = "nodeSet: a error: b".
Proof. reflexivity. Qed.
Example sprintf_ex2 : sprintf "100%" [] = "100%!(NOVERB)".
Proof. reflexivity. Qed.
