(* ===== verification/GoHeap.v ===== *)
(** The memory of a Go program, as far as copying is concerned: arrays, maps
    and variables behind references, and what a deep copy has to do with them. *)

From stdpp Require Import base gmap strings list.
From S2P Require Import Prelude GoStd.

(** ** Values and memory

    A value without references is its text.  A slice is a window of an array:
    the array, where the window starts, and its length. *)
Abbreviation Loc := positive.
Inductive Value : Type :=
  | VData (s : string)
  | VPtr (p : option Loc)
  | VMap (m : option Loc)
  | VSlice (s : option (Loc * nat * nat))
  | VStruct (fields : gmap string Value).
Inductive Cell : Type :=
  | CVar (v : Value)
  | CMap (m : gmap string Value)
  | CArray (a : list Value).
Abbreviation Memory := (gmap Loc Cell).

(** What a fresh variable holds before it is assigned; no code reads it. *)
Definition unset : Value := VStruct ∅.

(** A function that makes the copy of a value; [*out = *in] comes first in
    all of them, so that what they leave in [*out] depends on [*in] only. *)
Abbreviation MM := (M Memory Value).
Abbreviation Copier := (Value → MM Value).

Definition load (l : Loc) : MM Cell := λ h,
  match h !! l with Some c => (Next c, h) | None => (Panic, h) end.
Definition alloc (c : Cell) : MM Loc := λ h,
  let l := fresh (dom h) in (Next l, <[l := c]> h).
Definition load_var (l : Loc) : MM Value :=
  c ← load l; match c with CVar v => mret v | _ => panic end.
Definition load_map (l : Loc) : MM (gmap string Value) :=
  c ← load l; match c with CMap m => mret m | _ => panic end.
Definition load_elem (l : Loc) (i : nat) : MM Value :=
  c ← load l; match c with CArray a => deref (a !! i) | _ => panic end.
Definition store (l : Loc) (c : Cell) : MM () := modify (<[l := c]>).
Definition store_key (l : Loc) (k : string) (v : Value) : MM () :=
  m ← load_map l; store l (CMap (<[k := v]> m)).
Definition store_elem (l : Loc) (i : nat) (v : Value) : MM () :=
  c ← load l;
  match c with
  | CArray a => if decide (i < length a) then store l (CArray (<[i := v]> a)) else panic
  | _ => panic
  end.

(** ** The statements of the generated code *)

(** [*out = *in], and [**out = **in] *)
Definition assign : Copier := λ v, mret v.

(** [*out = new(T)], and a copy of what is behind the pointer in it *)
Definition copy_var (c : Copier) (l : Loc) : MM Loc :=
  out ← alloc (CVar unset);
  x ← load_var l;
  y ← call (c x);
  _ ← store out (CVar y);
  mret out.
(** [if in.X != nil { *out = new(T); copy of **in }] *)
Definition copy_ptr (c : Copier) : Copier := λ v,
  match v with
  | VPtr None => mret v
  | VPtr (Some l) => out ← copy_var c l; mret (VPtr (Some out))
  | _ => panic
  end.

(** [if in.X != nil { *out = make([]T, len); for i := range *in { copy of
    the element } }]; the built-in [copy] is the same loop with assignments. *)
Definition copy_slice (c : Copier) : Copier := λ v,
  match v with
  | VSlice None => mret v
  | VSlice (Some (l, start, len)) =>
      out ← alloc (CArray (replicate len unset));
      _ ← for_each (seq 0 len) (λ i,
        x ← load_elem l (start + i);
        y ← call (c x);
        store_elem out i y);
      mret (VSlice (Some (out, 0, len)))
  | _ => panic
  end.

Section map_copies.
Context {MR : MapRange}.
(** [if in.X != nil { *out = make(map[string]T, len); for key, val :=
    range *in { set [key] of the map to a copy of val } }] *)
Definition copy_map (c : Copier) : Copier := λ v,
  match v with
  | VMap None => mret v
  | VMap (Some l) =>
      out ← alloc (CMap ∅);
      m ← load_map l;
      _ ← for_each (range "DeepCopyInto" m) (λ kv,
        y ← call (c kv.2);
        store_key out kv.1 y);
      mret (VMap (Some out))
  | _ => panic
  end.
End map_copies.

(** [*out = *in], and then the copies of the fields with references, one after
    the other. *)
Definition get_field (f : string) (v : Value) : MM Value :=
  match v with VStruct m => deref (m !! f) | _ => panic end.
Definition set_field (f : string) (x v : Value) : MM Value :=
  match v with VStruct m => mret (VStruct (<[f := x]> m)) | _ => panic end.
Definition copy_struct (fields : list (string * Copier)) : Copier := λ v,
  for_acc fields (λ out fc,
    x ← get_field fc.1 v;
    y ← call (fc.2 x);
    set_field fc.1 y out) v.

(** [func DeepCopy() *T], from its [DeepCopyInto] *)
Definition deep_copy (into : Copier) (p : option Loc) : MM (option Loc) :=
  match p with
  | None => mret None
  | Some l => out ← copy_var into l; mret (Some out)
  end.
(** [*val.DeepCopy()] *)
Definition via_DeepCopy (into : Copier) : Copier := λ val,
  l ← alloc (CVar val);
  p ← deep_copy into (Some l);
  l' ← deref p;
  load_var l'.
(** A value of interface type: nil, or a pointer and the type it has. *)
Abbreviation Object := (option (string * Loc)).
(** [func DeepCopyObject() runtime.Object] *)
Definition deep_copy_object (kind : string) (DeepCopy : option Loc → MM (option Loc)) (p : option Loc) : MM Object :=
  c ← DeepCopy p;
  mret (match c with Some l => Some (kind, l) | None => None end).

(** ** The layout of types *)

Inductive Layout : Type :=
  | TData
  | TPtr (t : Layout)
  | TMap (t : Layout)
  | TSlice (t : Layout)
  | TStruct (fields : list (string * Layout)).

Section layouts.
Context (P : Layout → Prop) (HD : P TData) (HP : ∀ t, P t → P (TPtr t)) (HM : ∀ t, P t → P (TMap t))
  (HS : ∀ t, P t → P (TSlice t)) (HT : ∀ fs, Forall (λ ft, P ft.2) fs → P (TStruct fs)).
Definition Layout_ind' : ∀ t, P t :=
  fix go t := match t with
  | TData => HD
  | TPtr t => HP t (go t)
  | TMap t => HM t (go t)
  | TSlice t => HS t (go t)
  | TStruct fs => HT fs ((fix go_fields fs : Forall (λ ft, P ft.2) fs := match fs with
      | [] => Forall_nil_2 _
      | ft :: fs => Forall_cons_2 _ ft fs (go ft.2) (go_fields fs)
      end) fs)
  end.
End layouts.

(** No references. *)
Fixpoint plain (t : Layout) : bool :=
  match t with
  | TData => true
  | TStruct fs => (fix go fs := match fs with [] => true | ft :: fs => plain ft.2 && go fs end) fs
  | _ => false
  end.

(** The places that can be reached from a value of this layout are there, hold
    what the layout says, and satisfy [P]. *)
Fixpoint within (P : Loc → Prop) (h : Memory) (t : Layout) (v : Value) : Prop :=
  match t with
  | TData => ∃ s, v = VData s
  | TPtr t => v = VPtr None ∨ ∃ l x, v = VPtr (Some l) ∧ P l ∧ h !! l = Some (CVar x) ∧ within P h t x
  | TMap t => v = VMap None ∨ ∃ l m, v = VMap (Some l) ∧ P l ∧ h !! l = Some (CMap m) ∧
      ∀ k x, m !! k = Some x → within P h t x
  | TSlice t => v = VSlice None ∨ ∃ l start len a, v = VSlice (Some (l, start, len)) ∧ P l ∧
      h !! l = Some (CArray a) ∧ ∀ i, i < len → ∃ x, a !! (start + i) = Some x ∧ within P h t x
  | TStruct fs => ∃ m, v = VStruct m ∧
      (fix go fs := match fs with
       | [] => True
       | ft :: fs => (∃ x, m !! ft.1 = Some x ∧ within P h ft.2 x) ∧ go fs
       end) fs
  end.

(** Two values, each in its memory, read the same. *)
Fixpoint same (t : Layout) (h1 : Memory) (v1 : Value) (h2 : Memory) (v2 : Value) : Prop :=
  match t with
  | TData => v1 = v2
  | TPtr t => v1 = VPtr None ∧ v2 = VPtr None ∨ ∃ l1 l2 x1 x2,
      v1 = VPtr (Some l1) ∧ v2 = VPtr (Some l2) ∧
      h1 !! l1 = Some (CVar x1) ∧ h2 !! l2 = Some (CVar x2) ∧ same t h1 x1 h2 x2
  | TMap t => v1 = VMap None ∧ v2 = VMap None ∨ ∃ l1 l2 m1 m2,
      v1 = VMap (Some l1) ∧ v2 = VMap (Some l2) ∧
      h1 !! l1 = Some (CMap m1) ∧ h2 !! l2 = Some (CMap m2) ∧
      ∀ k, match m1 !! k, m2 !! k with
           | Some x1, Some x2 => same t h1 x1 h2 x2
           | None, None => True
           | _, _ => False
           end
  | TSlice t => v1 = VSlice None ∧ v2 = VSlice None ∨ ∃ l1 s1 l2 s2 len a1 a2,
      v1 = VSlice (Some (l1, s1, len)) ∧ v2 = VSlice (Some (l2, s2, len)) ∧
      h1 !! l1 = Some (CArray a1) ∧ h2 !! l2 = Some (CArray a2) ∧
      ∀ i, i < len → ∃ x1 x2, a1 !! (s1 + i) = Some x1 ∧ a2 !! (s2 + i) = Some x2 ∧ same t h1 x1 h2 x2
  | TStruct fs => ∃ m1 m2, v1 = VStruct m1 ∧ v2 = VStruct m2 ∧
      (fix go fs := match fs with
       | [] => True
       | ft :: fs => (∃ x1 x2, m1 !! ft.1 = Some x1 ∧ m2 !! ft.1 = Some x2 ∧ same ft.2 h1 x1 h2 x2) ∧ go fs
       end) fs
  end.

(** ** Facts *)

Lemma within_struct P h fs v :
  within P h (TStruct fs) v ↔
    ∃ m, v = VStruct m ∧ ∀ f t, (f, t) ∈ fs → ∃ x, m !! f = Some x ∧ within P h t x.
Proof.
  simpl. f_equiv. intros m. apply and_iff_compat_l. induction fs as [|[f t] fs IH].
  - split; [by intros _ f t ?%not_elem_of_nil|done].
  - rewrite IH. split.
    + intros [H1 H2] f' t' [[= -> ->]|Hin]%elem_of_cons; auto.
    + intros H. split; [apply (H f t); by left|]. intros f' t' Hin. apply H. by right.
Qed.
Lemma same_struct fs h1 v1 h2 v2 :
  same (TStruct fs) h1 v1 h2 v2 ↔
    ∃ m1 m2, v1 = VStruct m1 ∧ v2 = VStruct m2 ∧ ∀ f t, (f, t) ∈ fs →
      ∃ x1 x2, m1 !! f = Some x1 ∧ m2 !! f = Some x2 ∧ same t h1 x1 h2 x2.
Proof.
  simpl. f_equiv. intros m1. f_equiv. intros m2. do 2 apply and_iff_compat_l.
  induction fs as [|[f t] fs IH].
  - split; [by intros _ f t ?%not_elem_of_nil|done].
  - rewrite IH. split.
    + intros [H1 H2] f' t' [[= -> ->]|Hin]%elem_of_cons; auto.
    + intros H. split; [apply (H f t); by left|]. intros f' t' Hin. apply H. by right.
Qed.
Lemma plain_struct fs : plain (TStruct fs) = true ↔ ∀ f t, (f, t) ∈ fs → plain t = true.
Proof.
  simpl. induction fs as [|[f t] fs IH].
  - split; [by intros _ f t ?%not_elem_of_nil|done].
  - rewrite andb_true_iff, IH. split.
    + intros [H1 H2] f' t' [[= -> ->]|Hin]%elem_of_cons; eauto.
    + intros H. split; [apply (H f t); by left|]. intros f' t' Hin. apply (H f'). by right.
Qed.

(** What can be reached is the same in a memory that has the same places. *)
Lemma within_frame (P Q : Loc → Prop) h h' t v :
  (∀ l c, P l → h !! l = Some c → Q l ∧ h' !! l = Some c) → within P h t v → within Q h' t v.
Proof.
  intros Hl. revert v. induction t as [|t IH|t IH|t IH|fs IH] using Layout_ind'; intros v.
  - done.
  - intros [->|(l & x & -> & Hp & Hh & Hx)]; [by left|right].
    destruct (Hl l _ Hp Hh). exists l, x. auto.
  - intros [->|(l & m & -> & Hp & Hh & Hx)]; [by left|right].
    destruct (Hl l _ Hp Hh). exists l, m. split_and!; eauto.
  - intros [->|(l & start & len & a & -> & Hp & Hh & Hx)]; [by left|right].
    destruct (Hl l _ Hp Hh). exists l, start, len, a. split_and!; [done..|].
    intros i Hi. destruct (Hx i Hi) as (x & ? & ?). eauto.
  - rewrite !within_struct. intros (m & -> & Hx). exists m. split; [done|].
    intros f t Hin. destruct (Hx f t Hin) as (x & ? & Hw). exists x. split; [done|].
    rewrite Forall_forall in IH. by apply (IH (f, t)).
Qed.
(** And so is what it reads. *)
Lemma same_frame (P : Loc → Prop) h1 v1 h2 h2' t v2 :
  (∀ l c, P l → h2 !! l = Some c → h2' !! l = Some c) →
  within P h2 t v2 → same t h1 v1 h2 v2 → same t h1 v1 h2' v2.
Proof.
  intros Hl. revert v1 v2. induction t as [|t IH|t IH|t IH|fs IH] using Layout_ind'; intros v1 v2.
  - done.
  - intros Hw [[-> ->]|(l1 & l2 & x1 & x2 & -> & -> & H1 & H2 & Hs)]; [by left|right].
    destruct Hw as [[=]|(l & x & [= <-] & Hp & Hh & Hx)]. simplify_eq.
    eexists l1, l2, x1, _. split_and!; eauto.
  - intros Hw [[-> ->]|(l1 & l2 & m1 & m2 & -> & -> & H1 & H2 & Hs)]; [by left|right].
    destruct Hw as [[=]|(l & m & [= <-] & Hp & Hh & Hx)]. simplify_eq.
    eexists l1, l2, m1, _. split_and!; eauto. intros k. specialize (Hs k).
    destruct (m1 !! k), (_ !! k) eqn:Hk; eauto.
  - intros Hw [[-> ->]|(l1 & s1 & l2 & s2 & len & a1 & a2 & -> & -> & H1 & H2 & Hs)]; [by left|right].
    destruct Hw as [[=]|(l & start & len' & a & [= <- <- <-] & Hp & Hh & Hx)]. simplify_eq.
    eexists l1, s1, l2, _, len, a1, _. split_and!; eauto. intros i Hi.
    destruct (Hs i Hi) as (x1 & x2 & ? & Hx2 & ?), (Hx i Hi) as (x & Hx' & ?). simplify_eq. eauto 10.
  - rewrite within_struct, !same_struct. intros (m & -> & Hx) (m1 & m2 & -> & [= <-] & Hs).
    exists m1, m. split_and!; [done..|]. intros f t Hin.
    destruct (Hs f t Hin) as (x1 & x2 & ? & Hx2 & ?), (Hx f t Hin) as (x & Hx' & ?). simplify_eq.
    rewrite Forall_forall in IH. eexists x1, _. split_and!; [done..|]. by apply (IH (f, t)).
Qed.
Lemma same_sym t h1 v1 h2 v2 : same t h1 v1 h2 v2 → same t h2 v2 h1 v1.
Proof.
  revert v1 v2. induction t as [|t IH|t IH|t IH|fs IH] using Layout_ind'; intros v1 v2.
  - done.
  - intros [[-> ->]|(l1 & l2 & x1 & x2 & -> & -> & H1 & H2 & Hs)]; [by left|right].
    exists l2, l1, x2, x1. auto 10.
  - intros [[-> ->]|(l1 & l2 & m1 & m2 & -> & -> & H1 & H2 & Hs)]; [by left|right].
    exists l2, l1, m2, m1. split_and!; auto. intros k. specialize (Hs k).
    destruct (m1 !! k), (m2 !! k); auto.
  - intros [[-> ->]|(l1 & s1 & l2 & s2 & len & a1 & a2 & -> & -> & H1 & H2 & Hs)]; [by left|right].
    exists l2, s2, l1, s1, len, a2, a1. split_and!; auto. intros i Hi.
    destruct (Hs i Hi) as (x1 & x2 & ? & ? & ?). eauto 10.
  - rewrite !same_struct. intros (m1 & m2 & -> & -> & Hs). exists m2, m1. split_and!; [done..|].
    intros f t Hin. destruct (Hs f t Hin) as (x1 & x2 & ? & ? & ?).
    rewrite Forall_forall in IH. exists x2, x1. split_and!; [done..|]. by apply (IH (f, t)).
Qed.
(** A value reads as itself. *)
Lemma same_refl P h t v : within P h t v → same t h v h v.
Proof.
  revert v. induction t as [|t IH|t IH|t IH|fs IH] using Layout_ind'; intros v.
  - done.
  - intros [->|(l & x & -> & _ & Hh & Hx)]; [by left|right]. exists l, l, x, x. auto 10.
  - intros [->|(l & m & -> & _ & Hh & Hx)]; [by left|right]. exists l, l, m, m. split_and!; auto.
    intros k. destruct (m !! k) eqn:Hk; eauto.
  - intros [->|(l & start & len & a & -> & _ & Hh & Hx)]; [by left|right].
    exists l, start, l, start, len, a, a. split_and!; auto. intros i Hi.
    destruct (Hx i Hi) as (x & ? & ?). eauto 10.
  - rewrite within_struct, same_struct. intros (m & -> & Hx). exists m, m. split_and!; [done..|].
    intros f t Hin. destruct (Hx f t Hin) as (x & ? & ?). rewrite Forall_forall in IH.
    exists x, x. split_and!; [done..|]. by apply (IH (f, t)).
Qed.
(** A plain value needs no memory. *)
Lemma plain_within P Q h h' t v : plain t = true → within P h t v → within Q h' t v.
Proof.
  revert v. induction t as [|t IH|t IH|t IH|fs IH] using Layout_ind'; intros v; [done..|].
  rewrite plain_struct, !within_struct. intros Hp (m & -> & Hx). exists m. split; [done|].
  intros f t Hin. destruct (Hx f t Hin) as (x & ? & ?). exists x. split; [done|].
  rewrite Forall_forall in IH. apply (IH (f, t)); eauto.
Qed.
Lemma plain_same P h h' t v : plain t = true → within P h t v → same t h v h' v.
Proof.
  revert v. induction t as [|t IH|t IH|t IH|fs IH] using Layout_ind'; intros v; [done..|].
  rewrite plain_struct, within_struct, same_struct. intros Hp (m & -> & Hx). exists m, m. split_and!; [done..|].
  intros f t Hin. destruct (Hx f t Hin) as (x & ? & ?). exists x, x. split_and!; [done..|].
  rewrite Forall_forall in IH. apply (IH (f, t)); eauto.
Qed.
Lemma within_and P Q h t v : within P h t v → within Q h t v → within (λ l, P l ∧ Q l) h t v.
Proof.
  revert v. induction t as [|t IH|t IH|t IH|fs IH] using Layout_ind'; intros v.
  - done.
  - intros [->|(l & x & -> & Hp & Hh & Hx)]; [by left|intros [[=]|(l' & x' & [= <-] & Hq & Hh' & Hx')]; right].
    simplify_eq. eexists _, _. split_and!; eauto.
  - intros [->|(l & m & -> & Hp & Hh & Hx)]; [by left|intros [[=]|(l' & m' & [= <-] & Hq & Hh' & Hx')]; right].
    simplify_eq. eexists l, _. split_and!; eauto.
  - intros [->|(l & s & n & a & -> & Hp & Hh & Hx)];
      [by left|intros [[=]|(l' & s' & n' & a' & [= <- <- <-] & Hq & Hh' & Hx')]; right].
    simplify_eq. eexists l, s, n, _. split_and!; [done..|]. intros i Hi.
    destruct (Hx i Hi) as (x & Ha & ?), (Hx' i Hi) as (x' & Ha' & ?). rewrite Ha in Ha'. injection Ha' as <-. eauto.
  - rewrite !within_struct. intros (m & -> & Hx) (m' & [= <-] & Hx'). exists m. split; [done|]. intros f t Hin.
    destruct (Hx f t Hin) as (x & Ha & ?), (Hx' f t Hin) as (x' & Ha' & ?). rewrite Ha in Ha'. injection Ha' as <-.
    rewrite Forall_forall in IH. exists x. split; [done|]. by apply (IH (f, t)).
Qed.

(** ** What a deep copy has to do

    The memory there was stays as it is; the copy reads as the original; and
    nothing that can be reached from it was there before. *)
Definition known (h : Memory) (l : Loc) : Prop := is_Some (h !! l).
Definition unknown (h : Memory) (l : Loc) : Prop := h !! l = None.
Definition copies (t : Layout) (c : Copier) : Prop := ∀ h v,
  within (known h) h t v →
  goes (c v) h (λ v' h', h ⊆ h' ∧ same t h v h' v' ∧ within (unknown h) h' t v').

Lemma within_sub P h h' t v : h ⊆ h' → within P h t v → within P h' t v.
Proof. intros Hs. apply within_frame. intros l c Hp Hl. split; [done|by eapply lookup_weaken]. Qed.
Lemma known_sub h h' t v : h ⊆ h' → within (known h) h t v → within (known h') h' t v.
Proof.
  intros Hs. apply within_frame. intros l c _ Hl. eapply lookup_weaken in Hl; [|exact Hs]. by split; [eexists|].
Qed.

(** A copy that was made in a memory that had grown. *)
Lemma copy_since t h h1 h2 x y :
  h ⊆ h1 → within (known h) h t x → same t h1 x h2 y → within (unknown h1) h2 t y →
  same t h x h2 y ∧ within (unknown h) h2 t y.
Proof.
  intros Hs Hx Hsame Hy. split.
  - apply same_sym. apply (same_frame (known h) _ _ h1); [|by eapply within_sub|by apply same_sym].
    intros l c [c0 H0] Hl. pose proof (lookup_weaken _ _ _ _ H0 Hs). congruence.
  - eapply within_frame; [|exact Hy]. intros l c Hl Hc. split; [|done]. unfold unknown in *.
    destruct (h !! l) as [e|] eqn:He; [|done]. eapply lookup_weaken in He; [|exact Hs]. congruence.
Qed.

(** *** A new place [out], that is filled in while its parts are copied *)

Section slot.
Context (h : Memory) (out : Loc).
Definition slot (h1 : Memory) : Prop := h ⊆ h1 ∧ h !! out = None ∧ is_Some (h1 !! out).
(** A part that has been copied. *)
Definition copied (t : Layout) (h1 : Memory) (x y : Value) : Prop :=
  same t h x h1 y ∧ within (λ l, unknown h l ∧ l ≠ out) h1 t y.

Lemma slot_store h1 c : slot h1 → slot (<[out := c]> h1).
Proof.
  intros (Hs & Hn & _). split; [apply insert_subseteq_r; done|]. split; [done|].
  rewrite lookup_insert_eq. by eexists.
Qed.
Lemma copied_sub t h1 h2 x y : h1 ⊆ h2 → copied t h1 x y → copied t h2 x y.
Proof.
  intros Hs [H1 H2]. split; [|by eapply within_sub].
  eapply same_frame; [|exact H2|exact H1]. intros l c _ Hl. by eapply lookup_weaken.
Qed.
Lemma copied_store t h1 c x y : copied t h1 x y → copied t (<[out := c]> h1) x y.
Proof.
  assert (∀ l d, unknown h l ∧ l ≠ out → h1 !! l = Some d → <[out := c]> h1 !! l = Some d) as Hl
    by (intros l d [_ Hne] Hd; by rewrite lookup_insert_ne).
  intros [H1 H2]. split; [eapply same_frame; [exact Hl|done..]|]. eapply within_frame; [|exact H2]. auto.
Qed.
Lemma copied_fresh t h1 x y : copied t h1 x y → same t h x h1 y ∧ within (unknown h) h1 t y.
Proof. intros [H1 H2]. split; [done|]. eapply within_frame; [|exact H2]. by intros l c [? _]. Qed.

Lemma slot_call {R} t c h1 x (Q : Value → Memory → Prop) :
  copies t c → slot h1 → within (known h) h t x →
  (∀ y h2, slot h2 → h1 ⊆ h2 → h2 !! out = h1 !! out → copied t h2 x y → Q y h2) →
  goes (R := R) (call (c x)) h1 Q.
Proof.
  intros Hc (Hs & Hn & [d Hd]) Hx HQ. apply goes_call.
  eapply goes_mono; [by apply Hc; eapply known_sub|]. intros y h2 (Hs2 & Hsame & Hy).
  assert (h2 !! out = Some d) as Ho by (by eapply lookup_weaken). apply HQ; [|done|congruence|].
  - split; [by etransitivity|]. split; [done|by eexists].
  - destruct (copy_since _ _ _ _ _ _ Hs Hx Hsame Hy) as [Hsame' Hy']. split; [exact Hsame'|].
    assert (within (λ l, unknown h l ∧ unknown h1 l) h2 t y) as Hboth by (by apply within_and).
    eapply within_frame; [|exact Hboth]. intros l c' [Hl Hl1] Hl'. split; [|done]. split; [exact Hl|].
    intros ->. unfold unknown in Hl1. congruence.
Qed.
End slot.

(** *** The statements *)

Lemma goes_alloc (h : Memory) c (Q : Loc → Memory → Prop) :
  (∀ out, h !! out = None → Q out (<[out := c]> h)) → goes (alloc c) h Q.
Proof. intros HQ. apply HQ. apply not_elem_of_dom, is_fresh. Qed.
Lemma goes_load (h : Memory) l c (Q : Cell → Memory → Prop) : h !! l = Some c → Q c h → goes (load l) h Q.
Proof. intros Hl HQ. unfold goes, sat, load. by rewrite Hl. Qed.
Lemma goes_load_var (h : Memory) l v (Q : Value → Memory → Prop) : h !! l = Some (CVar v) → Q v h → goes (load_var l) h Q.
Proof. intros Hl HQ. apply goes_bind. by eapply goes_load. Qed.
Lemma goes_load_map (h : Memory) l m (Q : gmap string Value → Memory → Prop) :
  h !! l = Some (CMap m) → Q m h → goes (load_map l) h Q.
Proof. intros Hl HQ. apply goes_bind. by eapply goes_load. Qed.
Lemma goes_load_elem (h : Memory) l a i x (Q : Value → Memory → Prop) :
  h !! l = Some (CArray a) → a !! i = Some x → Q x h → goes (load_elem l i) h Q.
Proof. intros Hl Hi HQ. apply goes_bind, (goes_load _ _ (CArray a)); [done|]. by rewrite Hi. Qed.
Lemma goes_store_elem (h : Memory) l a i x (Q : () → Memory → Prop) :
  h !! l = Some (CArray a) → i < length a → Q () (<[l := CArray (<[i := x]> a)]> h) → goes (store_elem l i x) h Q.
Proof. intros Hl Hi HQ. apply goes_bind, (goes_load _ _ (CArray a)); [done|]. by rewrite decide_True. Qed.
Lemma goes_store_key (h : Memory) l m k x (Q : () → Memory → Prop) :
  h !! l = Some (CMap m) → Q () (<[l := CMap (<[k := x]> m)]> h) → goes (store_key l k x) h Q.
Proof. intros Hl HQ. apply goes_bind. by eapply goes_load_map. Qed.

(** A new place is a slot of the memory before. *)
Lemma slot_alloc (h : Memory) out c : h !! out = None → slot h out (<[out := c]> h).
Proof.
  intros Hn. split; [apply insert_subseteq_r; done|]. split; [done|]. rewrite lookup_insert_eq. by eexists.
Qed.
Lemma known_alloc (h : Memory) out c d l : h !! out = None → h !! l = Some c → <[out := d]> h !! l = Some c.
Proof. intros Hn Hl. rewrite lookup_insert_ne; [done|congruence]. Qed.

Lemma copies_assign t : plain t = true → copies t assign.
Proof.
  intros Hp h v Hv. apply goes_ret. split; [done|]. split; [by eapply plain_same|by eapply plain_within].
Qed.

(** A variable and its copy. *)
Lemma copy_var_goes t c h l x :
  copies t c → h !! l = Some (CVar x) → within (known h) h t x →
  goes (copy_var c l) h
    (λ out h', h ⊆ h' ∧ h !! out = None ∧ ∃ y, h' !! out = Some (CVar y) ∧ same t h x h' y ∧
       within (unknown h) h' t y).
Proof.
  intros Hc Hl Hx. apply goes_bind, goes_alloc. intros out Hn.
  apply goes_bind. eapply goes_load_var; [by apply known_alloc|].
  apply goes_bind. eapply (slot_call h out); [done|by apply slot_alloc|done|].
  intros y h2 Hs Hsub Ho Hy. apply goes_bind, goes_modify_state, goes_ret.
  destruct (slot_store h out h2 (CVar y) Hs) as (Hs2 & _ & _). split; [exact Hs2|]. split; [done|].
  exists y. rewrite lookup_insert_eq. split; [done|]. by eapply copied_fresh, copied_store.
Qed.
Lemma copies_ptr t c : copies t c → copies (TPtr t) (copy_ptr c).
Proof.
  intros Hc h v [->|(l & x & -> & Hp & Hl & Hx)]; simpl.
  { apply goes_ret. split; [done|]. split; by left. }
  apply goes_bind. eapply goes_mono; [by eapply copy_var_goes|].
  intros out h' (Hs & Hn & y & Ho & Hsame & Hw). apply goes_ret. split; [exact Hs|]. split; right.
  - exists l, out, x, y. auto.
  - exists out, y. auto.
Qed.

Lemma copies_slice t c : copies t c → copies (TSlice t) (copy_slice c).
Proof.
  intros Hc h v [->|(l & start & len & a & -> & Hp & Hl & Hx)]; simpl.
  { apply goes_ret. split; [done|]. split; by left. }
  apply goes_bind, goes_alloc. intros out Hn. apply goes_bind.
  apply goes_for_rest with (I := λ rest _ h1, slot h out h1 ∧ ∃ n ys, rest = seq n (len - n) ∧
    h1 !! out = Some (CArray ys) ∧ length ys = len ∧ n ≤ len ∧
    ∀ i, i < n → ∃ x y, a !! (start + i) = Some x ∧ ys !! i = Some y ∧ copied h out t h1 x y).
  - split; [by apply slot_alloc|]. exists 0, (replicate len unset).
    rewrite lookup_insert_eq, length_replicate, Nat.sub_0_r. split_and!; [done..|lia|]. intros i Hi. lia.
  - intros i rest [] h1 _ [Hs (n & ys & Hrest & Ho & Hlen & Hle & Hdone)].
    destruct (len - n) as [|k] eqn:Hk; [done|]. injection Hrest as -> ->.
    destruct (Hx n ltac:(lia)) as (x & Hax & Hxw).
    apply goes_bind. eapply goes_load_elem; [eapply lookup_weaken, Hs; exact Hl|exact Hax|].
    apply goes_bind. eapply slot_call; [done|done|done|]. intros y h2 Hs2 Hsub Ho2 Hy.
    rewrite Ho in Ho2. eapply goes_store_elem; [exact Ho2|lia|]. split; [by apply slot_store|].
    exists (S n), (<[n := y]> ys). rewrite lookup_insert_eq, length_insert.
    split_and!; [f_equal; lia|done|done|lia|]. intros i Hi. destruct (decide (i = n)) as [->|Hne].
    + exists x, y. split_and!; [done|apply list_lookup_insert_eq; lia|by apply copied_store].
    + destruct (Hdone i ltac:(lia)) as (x0 & y0 & ? & ? & ?). exists x0, y0.
      split_and!; [done|by rewrite list_lookup_insert_ne|by eapply copied_store, copied_sub].
  - intros [] h1 [(Hs & _ & _) (n & ys & Hrest & Ho & Hlen & Hle & Hdone)].
    assert (n = len) as -> by (destruct (len - n) eqn:Hk; [lia|done]). apply goes_ret. split; [exact Hs|].
    split; right.
    + exists l, start, out, 0, len, a, ys. split_and!; [done..|]. intros i Hi.
      destruct (Hdone i Hi) as (x & y & ? & ? & [? _]%copied_fresh). eauto.
    + exists out, 0, len, ys. split_and!; [done..|]. intros i Hi.
      destruct (Hdone i Hi) as (x & y & ? & ? & [_ ?]%copied_fresh). eauto.
Qed.

Lemma copies_map {MR : MapRange} {MRL : MapRangeLaws MR} t c : copies t c → copies (TMap t) (copy_map c).
Proof.
  intros Hc h v [->|(l & m & -> & Hp & Hl & Hx)]; simpl.
  { apply goes_ret. split; [done|]. split; by left. }
  apply goes_bind, goes_alloc. intros out Hn.
  apply goes_bind. eapply goes_load_map; [by apply known_alloc|]. apply goes_bind.
  set (kvs := range "DeepCopyInto" m).
  apply goes_for_rest with (I := λ rest _ h1, slot h out h1 ∧ ∃ done ys, kvs = done ++ rest ∧
    h1 !! out = Some (CMap ys) ∧ (∀ k, k ∉ done.*1 → ys !! k = None) ∧
    ∀ k x, (k, x) ∈ done → ∃ y, ys !! k = Some y ∧ copied h out t h1 x y).
  - split; [by apply slot_alloc|]. exists [], ∅. rewrite lookup_insert_eq. split_and!; [done..|].
    by intros k x ?%not_elem_of_nil.
  - intros [k x] rest [] h1 Hin [Hs (done & ys & Hkvs & Ho & Hnone & Hdone)]. simpl.
    assert (k ∉ done.*1) as Hk.
    { pose proof (range_keys_NoDup "DeepCopyInto" m) as Hnd. fold kvs in Hnd.
      rewrite Hkvs, fmap_app, fmap_cons in Hnd. apply NoDup_app in Hnd as (_ & Hnd & _).
      intros Hd. apply (Hnd _ Hd). by left. }
    apply elem_of_range in Hin.
    apply goes_bind. eapply slot_call; [done|done|by eapply Hx|]. intros y h2 Hs2 Hsub Ho2 Hy.
    rewrite Ho in Ho2. eapply goes_store_key; [exact Ho2|]. split; [by apply slot_store|].
    exists (done ++ [(k, x)]), (<[k := y]> ys). rewrite lookup_insert_eq, <- app_assoc.
    split_and!; [done|done| |].
    + intros k' Hk'. rewrite fmap_app, not_elem_of_app in Hk'. destruct Hk' as [Hk1 Hk2].
      rewrite lookup_insert_ne; [by apply Hnone|]. intros <-. apply Hk2. by left.
    + intros k' x' [Hin'|[= -> ->]%list_elem_of_singleton]%elem_of_app.
      * destruct (Hdone k' x' Hin') as (y' & Hy' & ?). exists y'.
        rewrite lookup_insert_ne; [split; [done|by eapply copied_store, copied_sub]|].
        intros <-. apply Hk. apply list_elem_of_fmap. by exists (k, x').
      * exists y. rewrite lookup_insert_eq. split; [done|by apply copied_store].
  - intros [] h1 [(Hs & _ & _) (done & ys & Hkvs & Ho & Hnone & Hdone)]. rewrite app_nil_r in Hkvs. subst done.
    assert (∀ k, k ∈ kvs.*1 ↔ is_Some (m !! k)) as Hkeys.
    { intros k. rewrite list_elem_of_fmap. split.
      - intros ([k' x] & -> & Hin%elem_of_range). by eexists.
      - intros [x Hm]. exists (k, x). split; [done|]. by apply elem_of_range. }
    apply goes_ret. split; [exact Hs|]. split; right.
    + exists l, out, m, ys. split_and!; [done..|]. intros k.
      destruct (m !! k) as [x|] eqn:Hm.
      * destruct (Hdone k x) as (y & -> & [? _]%copied_fresh); [by apply elem_of_range|done].
      * rewrite Hnone; [done|]. rewrite Hkeys, Hm. by intros [].
    + exists out, ys. split_and!; [done..|]. intros k y Hy. destruct (m !! k) as [x|] eqn:Hm.
      * destruct (Hdone k x) as (y' & Hy' & [_ ?]%copied_fresh); [by apply elem_of_range|]. congruence.
      * rewrite Hnone in Hy; [done|]. rewrite Hkeys, Hm. by intros [].
Qed.

(** The fields that are copied are fields of the struct, in its order, and the
    others have no references. *)
Inductive covers : list (string * Layout) → list (string * Copier) → Prop :=
  | covers_nil : covers [] []
  | covers_plain f t fs st : plain t = true → covers fs st → covers ((f, t) :: fs) st
  | covers_step f t c fs st : copies t c → covers fs st → covers ((f, t) :: fs) ((f, c) :: st).

Lemma covers_copies fs st f c : covers fs st → (f, c) ∈ st → ∃ t, (f, t) ∈ fs ∧ copies t c.
Proof.
  induction 1 as [|f' t fs st Hp _ IH|f' t c' fs st Hc _ IH]; [by intros ?%not_elem_of_nil|..].
  - intros Hin. destruct (IH Hin) as (t' & ? & ?). exists t'. split; [by right|done].
  - intros [[= -> ->]|Hin]%elem_of_cons; [exists t; split; [by left|done]|].
    destruct (IH Hin) as (t' & ? & ?). exists t'. split; [by right|done].
Qed.
Lemma covers_others fs st f t : covers fs st → (f, t) ∈ fs → f ∉ st.*1 → plain t = true.
Proof.
  induction 1 as [|f' t' fs st Hp _ IH|f' t' c' fs st Hc _ IH]; [by intros ?%not_elem_of_nil|..].
  - intros [[= -> ->]|Hin]%elem_of_cons Hf; auto.
  - rewrite fmap_cons, not_elem_of_cons. intros [[= -> ->]|Hin]%elem_of_cons [Hne Hf]; [done|auto].
Qed.
Lemma layout_unique (fs : list (string * Layout)) f t t' :
  NoDup fs.*1 → (f, t) ∈ fs → (f, t') ∈ fs → t = t'.
Proof.
  intros Hnd. induction fs as [|[f0 t0] fs IH]; [by intros ?%not_elem_of_nil|].
  rewrite fmap_cons in Hnd. apply NoDup_cons in Hnd as [Hf Hnd].
  assert (∀ t1, (f0, t1) ∈ fs → False) as Hno
    by (intros t1 Hin; apply Hf, list_elem_of_fmap; by exists (f0, t1)).
  rewrite !elem_of_cons. intros [H1|H1] [H2|H2]; simplify_eq; [done|by destruct (Hno t')|by destruct (Hno t)|by apply IH].
Qed.

Lemma copies_struct fs st : NoDup fs.*1 → covers fs st → copies (TStruct fs) (copy_struct st).
Proof.
  intros Hnd Hcov h v (m & -> & Hm)%within_struct. unfold copy_struct.
  apply goes_for_rest with (I := λ rest out h1, h ⊆ h1 ∧ ∃ done mo, st = done ++ rest ∧ out = VStruct mo ∧
    (∀ f, f ∉ done.*1 → mo !! f = m !! f) ∧
    ∀ f t, (f, t) ∈ fs → f ∈ done.*1 → ∃ x y, m !! f = Some x ∧ mo !! f = Some y ∧
      same t h x h1 y ∧ within (unknown h) h1 t y).
  - split; [done|]. exists [], m. split_and!; [done..|]. by intros f t _ ?%not_elem_of_nil.
  - intros [f c] rest out h1 Hin [Hs (done & mo & Hst & -> & Hother & Hdone)]. simpl.
    destruct (covers_copies _ _ _ _ Hcov Hin) as (t & Hft & Hc). destruct (Hm f t Hft) as (x & Hx & Hxw).
    rewrite Hx. apply goes_bind, goes_ret, goes_bind, goes_call.
    eapply goes_mono; [by apply Hc; eapply known_sub|]. intros y h2 (Hs2 & Hsame & Hy). apply goes_ret.
    split; [by etransitivity|]. exists (done ++ [(f, c)]), (<[f := y]> mo). rewrite <- app_assoc.
    split_and!; [done|done| |].
    + intros f' Hf'. rewrite fmap_app, not_elem_of_app in Hf'. destruct Hf' as [Hf1 Hf2].
      rewrite lookup_insert_ne; [by apply Hother|]. intros <-. apply Hf2. by left.
    + intros f' t' Hft' Hin'. destruct (decide (f' = f)) as [->|Hne].
      * rewrite (layout_unique _ _ _ _ Hnd Hft' Hft). exists x, y. rewrite lookup_insert_eq. split_and!; [done..| |]; by eapply copy_since.
      * destruct (Hdone f' t' Hft') as (x' & y' & ? & ? & Hsame' & Hw').
        { rewrite fmap_app, elem_of_app in Hin'. destruct Hin' as [?| ->%list_elem_of_singleton]; done. }
        exists x', y'. rewrite lookup_insert_ne by done. split_and!; [done..| |by eapply within_sub].
        eapply same_frame; [|exact Hw'|exact Hsame']. intros l d _ Hl. by eapply lookup_weaken.
  - intros out h1 [Hs (done & mo & Hst & -> & Hother & Hdone)]. rewrite app_nil_r in Hst. subst done.
    assert (∀ f t, (f, t) ∈ fs → ∃ x y, m !! f = Some x ∧ mo !! f = Some y ∧ same t h x h1 y ∧
      within (unknown h) h1 t y) as Hall.
    { intros f t Hft. destruct (decide (f ∈ st.*1)) as [Hin|Hin]; [by apply Hdone|].
      destruct (Hm f t Hft) as (x & Hx & Hxw). pose proof (covers_others _ _ _ _ Hcov Hft Hin) as Hp.
      exists x, x. rewrite Hother by done. split_and!; [done..|by eapply plain_same|by eapply plain_within]. }
    split; [done|]. rewrite same_struct, within_struct. split.
    + exists m, mo. split_and!; [done..|]. intros f t Hft.
      destruct (Hall f t Hft) as (x & y & ? & ? & ? & ?). eauto.
    + exists mo. split; [done|]. intros f t Hft. destruct (Hall f t Hft) as (x & y & ? & ? & ? & ?). eauto.
Qed.

(** A pointer and its [DeepCopy]. *)
Lemma deep_copy_goes t into h p :
  copies t into → within (known h) h (TPtr t) (VPtr p) →
  goes (deep_copy into p) h (λ p' h', h ⊆ h' ∧ same (TPtr t) h (VPtr p) h' (VPtr p') ∧
    within (unknown h) h' (TPtr t) (VPtr p')).
Proof.
  intros Hc Hp. pose proof (copies_ptr t into Hc h (VPtr p) Hp) as Hg.
  destruct p as [l|]; [|by apply goes_ret; split_and!; [done|left|left]].
  simpl in Hg |- *. unfold goes, sat, mbind, M_bind in *. by destruct (copy_var _ _ _) as [[out|r|] h'].
Qed.
Lemma copies_via t into : copies t into → copies t (via_DeepCopy into).
Proof.
  intros Hc h v Hv. unfold via_DeepCopy. apply goes_bind, goes_alloc. intros l Hn.
  assert (slot h l (<[l := CVar v]> h)) as Hslot by (by apply slot_alloc).
  assert (within (known (<[l := CVar v]> h)) (<[l := CVar v]> h) t v) as Hv1 by (eapply known_sub, Hv; apply Hslot).
  apply goes_bind. eapply goes_mono; [apply (deep_copy_goes t)|].
  - done.
  - right. exists l, v. unfold known at 1. rewrite lookup_insert_eq. split_and!; [done|by eexists|done..].
  - intros p' h2 (Hs2 & Hsame & Hw).
    destruct Hsame as [[[=] _]|(l1 & l2 & x1 & x2 & [= <-] & [= ->] & H1 & H2 & Hsame)].
    rewrite lookup_insert_eq in H1. injection H1 as <-.
    destruct Hw as [[=]|(l' & x & [= <-] & _ & H2' & Hw)]. simplify_eq.
    apply goes_bind, goes_ret. eapply goes_load_var; [done|]. destruct Hslot as (Hs & _ & _).
    split; [by etransitivity|]. eapply copy_since; [exact Hs|done..].
Qed.

(** ** Executable check that a value has a layout *)
Fixpoint has_layout (h : Memory) (t : Layout) (v : Value) : bool :=
  match t, v with
  | TData, VData _ => true
  | TPtr t, VPtr None | TMap t, VMap None | TSlice t, VSlice None => true
  | TPtr t, VPtr (Some l) => match h !! l with Some (CVar x) => has_layout h t x | _ => false end
  | TMap t, VMap (Some l) =>
      match h !! l with Some (CMap m) => forallb (λ kv, has_layout h t kv.2) (map_to_list m) | _ => false end
  | TSlice t, VSlice (Some (l, start, len)) =>
      match h !! l with
      | Some (CArray a) => forallb (λ i,
          match a !! (start + i) with Some x => has_layout h t x | None => false end) (seq 0 len)
      | _ => false
      end
  | TStruct fs, VStruct m => (fix go fs := match fs with
      | [] => true
      | ft :: fs => match m !! ft.1 with Some x => has_layout h ft.2 x | None => false end && go fs
      end) fs
  | _, _ => false
  end.
Lemma has_layout_within h t v : has_layout h t v = true → within (known h) h t v.
Proof.
  revert v. induction t as [|t IH|t IH|t IH|fs IH] using Layout_ind'; intros v Hv.
  - destruct v; try done. by eexists.
  - destruct v as [|[l|]| | |]; try done; [right|by left]. simpl in Hv.
    destruct (h !! l) as [[x| |]|] eqn:Hl; try done. exists l, x. split_and!; [done|by eexists|done|auto].
  - destruct v as [| |[l|]| |]; try done; [right|by left]. simpl in Hv.
    destruct (h !! l) as [[|m|]|] eqn:Hl; try done. exists l, m. split_and!; [done|by eexists|done|].
    intros k x Hk. rewrite forallb_forall in Hv. apply IH, (Hv (k, x)).
    by apply list_elem_of_In, elem_of_map_to_list.
  - destruct v as [| | |[[[l start] len]|]|]; try done; [right|by left]. simpl in Hv.
    destruct (h !! l) as [[| |a]|] eqn:Hl; try done. exists l, start, len, a. split_and!; [done|by eexists|done|].
    intros i Hi. rewrite forallb_forall in Hv. specialize (Hv i). rewrite in_seq in Hv.
    destruct (a !! (start + i)) as [x|]; [exists x; split; [done|apply IH, Hv; lia]|].
    assert (false = true) by (apply Hv; lia). done.
  - destruct v as [| | | |m]; try done. rewrite within_struct. exists m. split; [done|]. simpl in Hv.
    induction IH as [|[f t] fs Ht _ IHfs]; [by intros f t ?%not_elem_of_nil|].
    simpl in Hv. apply andb_true_iff in Hv as [H1 H2].
    intros f' t' [[= -> ->]|Hin]%elem_of_cons; [|by apply IHfs].
    destruct (m !! f) as [x|]; [|done]. exists x. split; [done|by apply Ht].
Qed.
