(* ===== verification/DeepCopy.v ===== *)
(** api/v1beta1/zz_generated.deepcopy.go: the deep copies of the API types, on
    the memory of [GoHeap].  Each type has a layout, which says where its values
    have references, and a [DeepCopyInto], which copies field by field. *)

From stdpp Require Import base gmap strings list.
From S2P Require Import Prelude GoStd GoHeap.

(** The types of other packages that are copied by their own [DeepCopyInto]. *)
Inductive Foreign : Type :=
  | VolMounts | EnvVar | PodDNSConfig | IPSetNetwork | ConfigMapEnvSource | SecretEnvSource
  | ObjectMeta | ListMeta | Condition | OpenStackBaremetalSetSpec.
Class ForeignTypes : Type := { layout_of : Foreign → Layout; copy_of : Foreign → Copier }.
Class ForeignCopies (F : ForeignTypes) : Prop := foreign_copies t : copies (layout_of t) (copy_of t).

(** ** Layouts *)

(** [json.RawMessage], [[]string], [map[string]string], and two structs of
    strings *)
Definition RawMessage : Layout := TSlice TData.
Definition Strings : Layout := TSlice TData.
Definition StringMap : Layout := TMap TData.
Definition SecretReference : Layout := TStruct [("Name", TData); ("Namespace", TData)].
Definition TypeMeta : Layout := TStruct [("Kind", TData); ("APIVersion", TData)].

Section types.
Context {MR : MapRange} {F : ForeignTypes}.

Definition Conditions_layout : Layout := TSlice (layout_of Condition).

Definition DataSource_layout : Layout := TStruct [
  ("Prefix", TData);
  ("ConfigMapRef", TPtr (layout_of ConfigMapEnvSource));
  ("SecretRef", TPtr (layout_of SecretEnvSource))].
Definition AnsibleOpts_layout : Layout := TStruct [
  ("AnsibleUser", TData); ("AnsibleHost", TData);
  ("AnsibleVars", TMap RawMessage);
  ("AnsibleVarsFrom", TSlice DataSource_layout);
  ("AnsiblePort", TData)].
Definition NodeSection_layout : Layout := TStruct [
  ("ExtraMounts", TSlice (layout_of VolMounts));
  ("Networks", TSlice (layout_of IPSetNetwork));
  ("UserData", TPtr SecretReference); ("NetworkData", TPtr SecretReference);
  ("Ansible", AnsibleOpts_layout);
  ("HostName", TData); ("ManagementNetwork", TData); ("PreprovisioningNetworkDataName", TData)].
Definition NodeTemplate_layout : Layout := TStruct [
  ("ExtraMounts", TSlice (layout_of VolMounts));
  ("Networks", TSlice (layout_of IPSetNetwork));
  ("UserData", TPtr SecretReference); ("NetworkData", TPtr SecretReference);
  ("AnsibleSSHPrivateKeySecret", TData); ("ManagementNetwork", TData);
  ("Ansible", AnsibleOpts_layout)].
Definition AnsibleEESpec_layout : Layout := TStruct [
  ("ExtraMounts", TSlice (layout_of VolMounts));
  ("Env", TSlice (layout_of EnvVar));
  ("ExtraVars", TMap RawMessage);
  ("DNSConfig", TPtr (layout_of PodDNSConfig));
  ("NetworkAttachments", Strings);
  ("OpenStackAnsibleEERunnerImage", TData); ("AnsibleTags", TData); ("AnsibleLimit", TData);
  ("AnsibleSkipTags", TData); ("ServiceAccountName", TData)].

Definition OpenStackDataPlaneDeploymentSpec_layout : Layout := TStruct [
  ("NodeSets", Strings);
  ("BackoffLimit", TPtr TData);
  ("AnsibleTags", TData); ("AnsibleLimit", TData); ("AnsibleSkipTags", TData);
  ("AnsibleExtraVars", TMap RawMessage);
  ("ServicesOverride", Strings);
  ("DeploymentRequeueTime", TData)].
Definition OpenStackDataPlaneDeploymentStatus_layout : Layout := TStruct [
  ("NodeSetConditions", TMap Conditions_layout);
  ("ConfigMapHashes", StringMap); ("SecretHashes", StringMap); ("NodeSetHashes", StringMap);
  ("ContainerImages", StringMap);
  ("Conditions", Conditions_layout);
  ("ObservedGeneration", TData); ("DeployedVersion", TData); ("Deployed", TData)].
Definition OpenStackDataPlaneDeployment_layout : Layout := TStruct [
  ("TypeMeta", TypeMeta); ("ObjectMeta", layout_of ObjectMeta);
  ("Spec", OpenStackDataPlaneDeploymentSpec_layout); ("Status", OpenStackDataPlaneDeploymentStatus_layout)].
Definition OpenStackDataPlaneDeploymentList_layout : Layout := TStruct [
  ("TypeMeta", TypeMeta); ("ListMeta", layout_of ListMeta);
  ("Items", TSlice OpenStackDataPlaneDeployment_layout)].

Definition OpenStackDataPlaneNodeSetSpec_layout : Layout := TStruct [
  ("BaremetalSetTemplate", layout_of OpenStackBaremetalSetSpec);
  ("NodeTemplate", NodeTemplate_layout);
  ("Nodes", TMap NodeSection_layout);
  ("Env", TSlice (layout_of EnvVar));
  ("NetworkAttachments", Strings); ("Services", Strings); ("Tags", Strings);
  ("SecretMaxSize", TData); ("PreProvisioned", TData); ("TLSEnabled", TData)].
Definition OpenStackDataPlaneNodeSetStatus_layout : Layout := TStruct [
  ("Conditions", Conditions_layout);
  ("DeploymentStatuses", TMap Conditions_layout);
  ("AllHostnames", TMap StringMap); ("AllIPs", TMap StringMap);
  ("ConfigMapHashes", StringMap); ("SecretHashes", StringMap);
  ("DNSClusterAddresses", Strings);
  ("ContainerImages", StringMap);
  ("CtlplaneSearchDomain", TData); ("ConfigHash", TData); ("DeployedConfigHash", TData);
  ("ObservedGeneration", TData); ("DeployedVersion", TData)].
Definition OpenStackDataPlaneNodeSet_layout : Layout := TStruct [
  ("TypeMeta", TypeMeta); ("ObjectMeta", layout_of ObjectMeta);
  ("Spec", OpenStackDataPlaneNodeSetSpec_layout); ("Status", OpenStackDataPlaneNodeSetStatus_layout)].
Definition OpenStackDataPlaneNodeSetList_layout : Layout := TStruct [
  ("TypeMeta", TypeMeta); ("ListMeta", layout_of ListMeta);
  ("Items", TSlice OpenStackDataPlaneNodeSet_layout)].

Definition OpenstackDataPlaneServiceCert_layout : Layout := TStruct [
  ("Contents", Strings); ("Networks", Strings);
  ("Issuer", TData);
  ("KeyUsages", Strings);
  ("EDPMRoleServiceName", TData)].
Definition OpenStackDataPlaneServiceSpec_layout : Layout := TStruct [
  ("ConfigMaps", Strings); ("Secrets", Strings);
  ("DataSources", TSlice DataSource_layout);
  ("TLSCerts", TMap OpenstackDataPlaneServiceCert_layout);
  ("PlaybookContents", TData); ("Playbook", TData); ("CACerts", TData);
  ("OpenStackAnsibleEERunnerImage", TData); ("CertsFrom", TData);
  ("AddCertMounts", TData); ("DeployOnAllNodeSets", TData);
  ("ContainerImageFields", Strings);
  ("EDPMServiceType", TData)].
Definition OpenStackDataPlaneServiceStatus_layout : Layout := TStruct [("Conditions", Conditions_layout)].
Definition OpenStackDataPlaneService_layout : Layout := TStruct [
  ("TypeMeta", TypeMeta); ("ObjectMeta", layout_of ObjectMeta);
  ("Spec", OpenStackDataPlaneServiceSpec_layout); ("Status", OpenStackDataPlaneServiceStatus_layout)].
Definition OpenStackDataPlaneServiceList_layout : Layout := TStruct [
  ("TypeMeta", TypeMeta); ("ListMeta", layout_of ListMeta);
  ("Items", TSlice OpenStackDataPlaneService_layout)].

(** ** The copies *)

Definition AnsibleEESpec_DeepCopyInto : Copier := copy_struct [
  ("ExtraMounts", copy_slice (copy_of VolMounts));
  ("Env", copy_slice (copy_of EnvVar));
  ("ExtraVars", copy_map (copy_slice assign));
  ("DNSConfig", copy_ptr (copy_of PodDNSConfig));
  ("NetworkAttachments", copy_slice assign)].
Definition AnsibleEESpec_DeepCopy : option Loc → MM (option Loc) := deep_copy AnsibleEESpec_DeepCopyInto.

Definition DataSource_DeepCopyInto : Copier := copy_struct [
  ("ConfigMapRef", copy_ptr (copy_of ConfigMapEnvSource));
  ("SecretRef", copy_ptr (copy_of SecretEnvSource))].
Definition DataSource_DeepCopy : option Loc → MM (option Loc) := deep_copy DataSource_DeepCopyInto.

Definition AnsibleOpts_DeepCopyInto : Copier := copy_struct [
  ("AnsibleVars", copy_map (copy_slice assign));
  ("AnsibleVarsFrom", copy_slice DataSource_DeepCopyInto)].
Definition AnsibleOpts_DeepCopy : option Loc → MM (option Loc) := deep_copy AnsibleOpts_DeepCopyInto.

Definition NodeSection_DeepCopyInto : Copier := copy_struct [
  ("ExtraMounts", copy_slice (copy_of VolMounts));
  ("Networks", copy_slice (copy_of IPSetNetwork));
  ("UserData", copy_ptr assign);
  ("NetworkData", copy_ptr assign);
  ("Ansible", AnsibleOpts_DeepCopyInto)].
Definition NodeSection_DeepCopy : option Loc → MM (option Loc) := deep_copy NodeSection_DeepCopyInto.

Definition NodeTemplate_DeepCopyInto : Copier := copy_struct [
  ("ExtraMounts", copy_slice (copy_of VolMounts));
  ("Networks", copy_slice (copy_of IPSetNetwork));
  ("UserData", copy_ptr assign);
  ("NetworkData", copy_ptr assign);
  ("Ansible", AnsibleOpts_DeepCopyInto)].
Definition NodeTemplate_DeepCopy : option Loc → MM (option Loc) := deep_copy NodeTemplate_DeepCopyInto.

Definition OpenStackDataPlaneDeploymentSpec_DeepCopyInto : Copier := copy_struct [
  ("NodeSets", copy_slice assign);
  ("BackoffLimit", copy_ptr assign);
  ("AnsibleExtraVars", copy_map (copy_slice assign));
  ("ServicesOverride", copy_slice assign)].
Definition OpenStackDataPlaneDeploymentSpec_DeepCopy : option Loc → MM (option Loc) := deep_copy OpenStackDataPlaneDeploymentSpec_DeepCopyInto.

Definition OpenStackDataPlaneDeploymentStatus_DeepCopyInto : Copier := copy_struct [
  ("NodeSetConditions", copy_map (copy_slice (copy_of Condition)));
  ("ConfigMapHashes", copy_map assign);
  ("SecretHashes", copy_map assign);
  ("NodeSetHashes", copy_map assign);
  ("ContainerImages", copy_map assign);
  ("Conditions", copy_slice (copy_of Condition))].
Definition OpenStackDataPlaneDeploymentStatus_DeepCopy : option Loc → MM (option Loc) := deep_copy OpenStackDataPlaneDeploymentStatus_DeepCopyInto.

Definition OpenStackDataPlaneDeployment_DeepCopyInto : Copier := copy_struct [
  ("TypeMeta", assign);
  ("ObjectMeta", copy_of ObjectMeta);
  ("Spec", OpenStackDataPlaneDeploymentSpec_DeepCopyInto);
  ("Status", OpenStackDataPlaneDeploymentStatus_DeepCopyInto)].
Definition OpenStackDataPlaneDeployment_DeepCopy : option Loc → MM (option Loc) := deep_copy OpenStackDataPlaneDeployment_DeepCopyInto.
Definition OpenStackDataPlaneDeployment_DeepCopyObject : option Loc → MM Object :=
  deep_copy_object "OpenStackDataPlaneDeployment" OpenStackDataPlaneDeployment_DeepCopy.

Definition OpenStackDataPlaneDeploymentList_DeepCopyInto : Copier := copy_struct [
  ("TypeMeta", assign);
  ("ListMeta", copy_of ListMeta);
  ("Items", copy_slice OpenStackDataPlaneDeployment_DeepCopyInto)].
Definition OpenStackDataPlaneDeploymentList_DeepCopy : option Loc → MM (option Loc) := deep_copy OpenStackDataPlaneDeploymentList_DeepCopyInto.
Definition OpenStackDataPlaneDeploymentList_DeepCopyObject : option Loc → MM Object :=
  deep_copy_object "OpenStackDataPlaneDeploymentList" OpenStackDataPlaneDeploymentList_DeepCopy.

Definition OpenStackDataPlaneNodeSetSpec_DeepCopyInto : Copier := copy_struct [
  ("BaremetalSetTemplate", copy_of OpenStackBaremetalSetSpec);
  ("NodeTemplate", NodeTemplate_DeepCopyInto);
  ("Nodes", copy_map (via_DeepCopy NodeSection_DeepCopyInto));
  ("Env", copy_slice (copy_of EnvVar));
  ("NetworkAttachments", copy_slice assign);
  ("Services", copy_slice assign);
  ("Tags", copy_slice assign)].
Definition OpenStackDataPlaneNodeSetSpec_DeepCopy : option Loc → MM (option Loc) := deep_copy OpenStackDataPlaneNodeSetSpec_DeepCopyInto.

Definition OpenStackDataPlaneNodeSetStatus_DeepCopyInto : Copier := copy_struct [
  ("Conditions", copy_slice (copy_of Condition));
  ("DeploymentStatuses", copy_map (copy_slice (copy_of Condition)));
  ("AllHostnames", copy_map (copy_map assign));
  ("AllIPs", copy_map (copy_map assign));
  ("ConfigMapHashes", copy_map assign);
  ("SecretHashes", copy_map assign);
  ("DNSClusterAddresses", copy_slice assign);
  ("ContainerImages", copy_map assign)].
Definition OpenStackDataPlaneNodeSetStatus_DeepCopy : option Loc → MM (option Loc) := deep_copy OpenStackDataPlaneNodeSetStatus_DeepCopyInto.

Definition OpenStackDataPlaneNodeSet_DeepCopyInto : Copier := copy_struct [
  ("TypeMeta", assign);
  ("ObjectMeta", copy_of ObjectMeta);
  ("Spec", OpenStackDataPlaneNodeSetSpec_DeepCopyInto);
  ("Status", OpenStackDataPlaneNodeSetStatus_DeepCopyInto)].
Definition OpenStackDataPlaneNodeSet_DeepCopy : option Loc → MM (option Loc) := deep_copy OpenStackDataPlaneNodeSet_DeepCopyInto.
Definition OpenStackDataPlaneNodeSet_DeepCopyObject : option Loc → MM Object :=
  deep_copy_object "OpenStackDataPlaneNodeSet" OpenStackDataPlaneNodeSet_DeepCopy.

Definition OpenStackDataPlaneNodeSetList_DeepCopyInto : Copier := copy_struct [
  ("TypeMeta", assign);
  ("ListMeta", copy_of ListMeta);
  ("Items", copy_slice OpenStackDataPlaneNodeSet_DeepCopyInto)].
Definition OpenStackDataPlaneNodeSetList_DeepCopy : option Loc → MM (option Loc) := deep_copy OpenStackDataPlaneNodeSetList_DeepCopyInto.
Definition OpenStackDataPlaneNodeSetList_DeepCopyObject : option Loc → MM Object :=
  deep_copy_object "OpenStackDataPlaneNodeSetList" OpenStackDataPlaneNodeSetList_DeepCopy.

Definition OpenstackDataPlaneServiceCert_DeepCopyInto : Copier := copy_struct [
  ("Contents", copy_slice assign);
  ("Networks", copy_slice assign);
  ("KeyUsages", copy_slice assign)].
Definition OpenstackDataPlaneServiceCert_DeepCopy : option Loc → MM (option Loc) := deep_copy OpenstackDataPlaneServiceCert_DeepCopyInto.

Definition OpenStackDataPlaneServiceSpec_DeepCopyInto : Copier := copy_struct [
  ("ConfigMaps", copy_slice assign);
  ("Secrets", copy_slice assign);
  ("DataSources", copy_slice DataSource_DeepCopyInto);
  ("TLSCerts", copy_map (via_DeepCopy OpenstackDataPlaneServiceCert_DeepCopyInto));
  ("ContainerImageFields", copy_slice assign)].
Definition OpenStackDataPlaneServiceSpec_DeepCopy : option Loc → MM (option Loc) := deep_copy OpenStackDataPlaneServiceSpec_DeepCopyInto.

Definition OpenStackDataPlaneServiceStatus_DeepCopyInto : Copier := copy_struct [
  ("Conditions", copy_slice (copy_of Condition))].
Definition OpenStackDataPlaneServiceStatus_DeepCopy : option Loc → MM (option Loc) := deep_copy OpenStackDataPlaneServiceStatus_DeepCopyInto.

Definition OpenStackDataPlaneService_DeepCopyInto : Copier := copy_struct [
  ("TypeMeta", assign);
  ("ObjectMeta", copy_of ObjectMeta);
  ("Spec", OpenStackDataPlaneServiceSpec_DeepCopyInto);
  ("Status", OpenStackDataPlaneServiceStatus_DeepCopyInto)].
Definition OpenStackDataPlaneService_DeepCopy : option Loc → MM (option Loc) := deep_copy OpenStackDataPlaneService_DeepCopyInto.
Definition OpenStackDataPlaneService_DeepCopyObject : option Loc → MM Object :=
  deep_copy_object "OpenStackDataPlaneService" OpenStackDataPlaneService_DeepCopy.

Definition OpenStackDataPlaneServiceList_DeepCopyInto : Copier := copy_struct [
  ("TypeMeta", assign);
  ("ListMeta", copy_of ListMeta);
  ("Items", copy_slice OpenStackDataPlaneService_DeepCopyInto)].
Definition OpenStackDataPlaneServiceList_DeepCopy : option Loc → MM (option Loc) := deep_copy OpenStackDataPlaneServiceList_DeepCopyInto.
Definition OpenStackDataPlaneServiceList_DeepCopyObject : option Loc → MM Object :=
  deep_copy_object "OpenStackDataPlaneServiceList" OpenStackDataPlaneServiceList_DeepCopy.

(** All of them. *)
Definition api_types : list (Layout * (option Loc → MM (option Loc))) := [
  (AnsibleEESpec_layout, AnsibleEESpec_DeepCopy);
  (DataSource_layout, DataSource_DeepCopy);
  (AnsibleOpts_layout, AnsibleOpts_DeepCopy);
  (NodeSection_layout, NodeSection_DeepCopy);
  (NodeTemplate_layout, NodeTemplate_DeepCopy);
  (OpenStackDataPlaneDeploymentSpec_layout, OpenStackDataPlaneDeploymentSpec_DeepCopy);
  (OpenStackDataPlaneDeploymentStatus_layout, OpenStackDataPlaneDeploymentStatus_DeepCopy);
  (OpenStackDataPlaneDeployment_layout, OpenStackDataPlaneDeployment_DeepCopy);
  (OpenStackDataPlaneDeploymentList_layout, OpenStackDataPlaneDeploymentList_DeepCopy);
  (OpenStackDataPlaneNodeSetSpec_layout, OpenStackDataPlaneNodeSetSpec_DeepCopy);
  (OpenStackDataPlaneNodeSetStatus_layout, OpenStackDataPlaneNodeSetStatus_DeepCopy);
  (OpenStackDataPlaneNodeSet_layout, OpenStackDataPlaneNodeSet_DeepCopy);
  (OpenStackDataPlaneNodeSetList_layout, OpenStackDataPlaneNodeSetList_DeepCopy);
  (OpenstackDataPlaneServiceCert_layout, OpenstackDataPlaneServiceCert_DeepCopy);
  (OpenStackDataPlaneServiceSpec_layout, OpenStackDataPlaneServiceSpec_DeepCopy);
  (OpenStackDataPlaneServiceStatus_layout, OpenStackDataPlaneServiceStatus_DeepCopy);
  (OpenStackDataPlaneService_layout, OpenStackDataPlaneService_DeepCopy);
  (OpenStackDataPlaneServiceList_layout, OpenStackDataPlaneServiceList_DeepCopy)].
(** The types that are objects of the API server. *)
Definition api_objects : list (string * Layout * (option Loc → MM Object)) := [
  ("OpenStackDataPlaneDeployment", OpenStackDataPlaneDeployment_layout, OpenStackDataPlaneDeployment_DeepCopyObject);
  ("OpenStackDataPlaneDeploymentList", OpenStackDataPlaneDeploymentList_layout, OpenStackDataPlaneDeploymentList_DeepCopyObject);
  ("OpenStackDataPlaneNodeSet", OpenStackDataPlaneNodeSet_layout, OpenStackDataPlaneNodeSet_DeepCopyObject);
  ("OpenStackDataPlaneNodeSetList", OpenStackDataPlaneNodeSetList_layout, OpenStackDataPlaneNodeSetList_DeepCopyObject);
  ("OpenStackDataPlaneService", OpenStackDataPlaneService_layout, OpenStackDataPlaneService_DeepCopyObject);
  ("OpenStackDataPlaneServiceList", OpenStackDataPlaneServiceList_layout, OpenStackDataPlaneServiceList_DeepCopyObject)].
End types.

(** Every field is dealt with. *)
Create HintDb copies discriminated.
#[export] Hint Constants Opaque : copies.
#[export] Hint Transparent RawMessage Strings StringMap Conditions_layout : copies.
#[export] Hint Resolve copies_ptr copies_slice copies_map copies_via foreign_copies : copies.
#[export] Hint Extern 1 (copies _ assign) => (by apply copies_assign) : copies.
Ltac covers_fields :=
  repeat first [apply covers_nil | apply covers_step; [solve [eauto with copies]|] | apply covers_plain; [reflexivity|]].
Ltac copies_fields :=
  apply copies_struct; [apply (bool_decide_unpack _); vm_compute; exact I|covers_fields].

Section correct.
Context {MR : MapRange} {MRL : MapRangeLaws MR} {F : ForeignTypes} {FC : ForeignCopies F}.

Lemma AnsibleEESpec_copies : copies AnsibleEESpec_layout AnsibleEESpec_DeepCopyInto.
Proof. copies_fields. Qed.
#[local] Hint Resolve AnsibleEESpec_copies : copies.
Lemma DataSource_copies : copies DataSource_layout DataSource_DeepCopyInto.
Proof. copies_fields. Qed.
#[local] Hint Resolve DataSource_copies : copies.
Lemma AnsibleOpts_copies : copies AnsibleOpts_layout AnsibleOpts_DeepCopyInto.
Proof. copies_fields. Qed.
#[local] Hint Resolve AnsibleOpts_copies : copies.
Lemma NodeSection_copies : copies NodeSection_layout NodeSection_DeepCopyInto.
Proof. copies_fields. Qed.
#[local] Hint Resolve NodeSection_copies : copies.
Lemma NodeTemplate_copies : copies NodeTemplate_layout NodeTemplate_DeepCopyInto.
Proof. copies_fields. Qed.
#[local] Hint Resolve NodeTemplate_copies : copies.
Lemma OpenStackDataPlaneDeploymentSpec_copies : copies OpenStackDataPlaneDeploymentSpec_layout OpenStackDataPlaneDeploymentSpec_DeepCopyInto.
Proof. copies_fields. Qed.
#[local] Hint Resolve OpenStackDataPlaneDeploymentSpec_copies : copies.
Lemma OpenStackDataPlaneDeploymentStatus_copies : copies OpenStackDataPlaneDeploymentStatus_layout OpenStackDataPlaneDeploymentStatus_DeepCopyInto.
Proof. copies_fields. Qed.
#[local] Hint Resolve OpenStackDataPlaneDeploymentStatus_copies : copies.
Lemma OpenStackDataPlaneDeployment_copies : copies OpenStackDataPlaneDeployment_layout OpenStackDataPlaneDeployment_DeepCopyInto.
Proof. copies_fields. Qed.
#[local] Hint Resolve OpenStackDataPlaneDeployment_copies : copies.
Lemma OpenStackDataPlaneDeploymentList_copies : copies OpenStackDataPlaneDeploymentList_layout OpenStackDataPlaneDeploymentList_DeepCopyInto.
Proof. copies_fields. Qed.
#[local] Hint Resolve OpenStackDataPlaneDeploymentList_copies : copies.
Lemma OpenStackDataPlaneNodeSetSpec_copies : copies OpenStackDataPlaneNodeSetSpec_layout OpenStackDataPlaneNodeSetSpec_DeepCopyInto.
Proof. copies_fields. Qed.
#[local] Hint Resolve OpenStackDataPlaneNodeSetSpec_copies : copies.
Lemma OpenStackDataPlaneNodeSetStatus_copies : copies OpenStackDataPlaneNodeSetStatus_layout OpenStackDataPlaneNodeSetStatus_DeepCopyInto.
Proof. copies_fields. Qed.
#[local] Hint Resolve OpenStackDataPlaneNodeSetStatus_copies : copies.
Lemma OpenStackDataPlaneNodeSet_copies : copies OpenStackDataPlaneNodeSet_layout OpenStackDataPlaneNodeSet_DeepCopyInto.
Proof. copies_fields. Qed.
#[local] Hint Resolve OpenStackDataPlaneNodeSet_copies : copies.
Lemma OpenStackDataPlaneNodeSetList_copies : copies OpenStackDataPlaneNodeSetList_layout OpenStackDataPlaneNodeSetList_DeepCopyInto.
Proof. copies_fields. Qed.
#[local] Hint Resolve OpenStackDataPlaneNodeSetList_copies : copies.
Lemma OpenstackDataPlaneServiceCert_copies : copies OpenstackDataPlaneServiceCert_layout OpenstackDataPlaneServiceCert_DeepCopyInto.
Proof. copies_fields. Qed.
#[local] Hint Resolve OpenstackDataPlaneServiceCert_copies : copies.
Lemma OpenStackDataPlaneServiceSpec_copies : copies OpenStackDataPlaneServiceSpec_layout OpenStackDataPlaneServiceSpec_DeepCopyInto.
Proof. copies_fields. Qed.
#[local] Hint Resolve OpenStackDataPlaneServiceSpec_copies : copies.
Lemma OpenStackDataPlaneServiceStatus_copies : copies OpenStackDataPlaneServiceStatus_layout OpenStackDataPlaneServiceStatus_DeepCopyInto.
Proof. copies_fields. Qed.
#[local] Hint Resolve OpenStackDataPlaneServiceStatus_copies : copies.
Lemma OpenStackDataPlaneService_copies : copies OpenStackDataPlaneService_layout OpenStackDataPlaneService_DeepCopyInto.
Proof. copies_fields. Qed.
#[local] Hint Resolve OpenStackDataPlaneService_copies : copies.
Lemma OpenStackDataPlaneServiceList_copies : copies OpenStackDataPlaneServiceList_layout OpenStackDataPlaneServiceList_DeepCopyInto.
Proof. copies_fields. Qed.
#[local] Hint Resolve OpenStackDataPlaneServiceList_copies : copies.

(** C32. The deep copy of every type of the API, of any value of it, at any
    place of any memory: it does not panic; nothing that was in memory
    changes; the copy reads exactly as the original, nil where that is nil; and
    no place that can be reached from it, through however many slices, maps
    and pointers, was there before. *)
Theorem DeepCopy_spec (t : Layout) (DeepCopy : option Loc → MM (option Loc)) (h : Memory) (p : option Loc) :
  (t, DeepCopy) ∈ api_types → within (known h) h (TPtr t) (VPtr p) →
  goes (DeepCopy p) h (λ p' h', h ⊆ h' ∧ same (TPtr t) h (VPtr p) h' (VPtr p') ∧
    within (unknown h) h' (TPtr t) (VPtr p')).
Proof.
  intros Hin Hp. assert (∃ into, DeepCopy = deep_copy into ∧ copies t into) as (into & -> & Hc).
  { revert Hin. apply (proj1 (Forall_forall (λ td, ∃ into, td.2 = deep_copy into ∧ copies td.1 into) api_types)) .
    unfold api_types. repeat (constructor; [eexists; split; [reflexivity|cbn [fst snd]; auto with copies]|]). constructor. }
  by apply deep_copy_goes.
Qed.

(** C33. An object and its copy are independent: whatever happens to the places
    there were, the copy reads as the original did when it was copied; and
    whatever happens to the others, the original does.  The copy of nil is
    nil as an interface too. *)
Theorem DeepCopyObject_independent (kind : string) (t : Layout) (DeepCopyObject : option Loc → MM Object)
    (h : Memory) (p : option Loc) :
  (kind, t, DeepCopyObject) ∈ api_objects → within (known h) h (TPtr t) (VPtr p) →
  goes (DeepCopyObject p) h (λ o h',
    (p = None ↔ o = None) ∧ ∀ kind' l', o = Some (kind', l') → kind' = kind ∧
      (∀ h2, (∀ l, unknown h l → h2 !! l = h' !! l) → same (TPtr t) h (VPtr p) h2 (VPtr (Some l'))) ∧
      (∀ h2, (∀ l, known h l → h2 !! l = h' !! l) → same (TPtr t) h (VPtr p) h2 (VPtr p))).
Proof.
  intros Hin Hp.
  assert (∃ into, DeepCopyObject = deep_copy_object kind (deep_copy into) ∧ copies t into) as (into & -> & Hc).
  { revert Hin. apply (proj1 (Forall_forall (λ o, ∃ into,
      o.2 = deep_copy_object o.1.1 (deep_copy into) ∧ copies o.1.2 into) api_objects) ).
    unfold api_objects. repeat (constructor; [eexists; split; [reflexivity|cbn [fst snd]; auto with copies]|]). constructor. }
  unfold deep_copy_object. apply goes_bind. eapply goes_mono; [by apply deep_copy_goes|].
  intros p' h' (Hs & Hsame & Hw). apply goes_ret. split.
  - destruct Hsame as [[[= ->] [= ->]]|(l & l' & ? & ? & [= ->] & [= ->] & _)]; done.
  - intros kind' l' Ho. destruct p' as [l1|]; [|done]. injection Ho as <- <-. split; [done|]. split.
    + intros h2 Hh. eapply same_frame; [|exact Hw|exact Hsame]. intros l c Hl. by rewrite Hh.
    + intros h2 Hh. apply (same_frame (known h) _ _ h); [|exact Hp|by eapply same_refl].
      intros l c Hl Hc'. rewrite Hh by done. by eapply lookup_weaken.
Qed.
End correct.

(** ** The properties at a concrete memory

    Two slices of a service share an array, one as a window of it. *)

#[export] Instance named_types : ForeignTypes := {|
  layout_of _ := TStruct [("name", TData); ("args", Strings)];
  copy_of _ := copy_struct [("args", copy_slice assign)];
|}.
#[export] Instance named_copies : ForeignCopies named_types.
Proof. intros t. unfold layout_of, copy_of, named_types. copies_fields. Qed.

Definition record (fields : list (string * Value)) : Value := VStruct (list_to_map fields).
Definition nothing : Value := VSlice None.
Definition the_service : Value := record [
  ("TypeMeta", record [("Kind", VData "OpenStackDataPlaneService"); ("APIVersion", VData "v1beta1")]);
  ("ObjectMeta", record [("name", VData "ovn"); ("args", VSlice (Some (2%positive, 0, 1)))]);
  ("Spec", record (
     [("ConfigMaps", VSlice (Some (2%positive, 0, 2))); ("Secrets", VSlice (Some (2%positive, 1, 1)));
      ("DataSources", nothing); ("TLSCerts", VMap (Some 3%positive)); ("ContainerImageFields", nothing)] ++
     ((λ f, (f, VData "")) <$> ["PlaybookContents"; "Playbook"; "CACerts"; "OpenStackAnsibleEERunnerImage";
        "CertsFrom"; "AddCertMounts"; "DeployOnAllNodeSets"; "EDPMServiceType"])));
  ("Status", record [("Conditions", nothing)])].
Definition service_memory : Memory := {[
  1%positive := CVar the_service;
  2%positive := CArray [VData "config"; VData "keys"];
  3%positive := CMap {[ "default" := record [("Contents", VSlice (Some (2%positive, 0, 2)));
    ("Networks", nothing); ("Issuer", VData ""); ("KeyUsages", nothing); ("EDPMRoleServiceName", VData "")] ]} ]}.
Lemma service_reachable :
  within (known service_memory) service_memory (TPtr OpenStackDataPlaneService_layout) (VPtr (Some 1%positive)).
Proof. apply has_layout_within. vm_compute. reflexivity. Qed.

(** The copy has arrays of its own. *)
Example copied_service :
  let '(o, h) := OpenStackDataPlaneService_DeepCopy (Some 1%positive) service_memory in
  match o with
  | Next (Some l) => bool_decide (l ∉ dom service_memory) = true ∧
      has_layout h (TPtr OpenStackDataPlaneService_layout) (VPtr (Some l)) = true
  | _ => False
  end.
Proof. vm_compute. by split. Qed.

Lemma DeepCopy_witness :
  goes (OpenStackDataPlaneService_DeepCopy (Some 1%positive)) service_memory
    (λ p' h', service_memory ⊆ h' ∧ ∃ l, p' = Some l ∧ service_memory !! l = None).
Proof.
  eapply goes_mono; [apply (DeepCopy_spec OpenStackDataPlaneService_layout);
    [apply (list_elem_of_lookup_2 _ 16); reflexivity|exact service_reachable]|].
  intros p' h' (Hs & Hsame & Hw). split; [exact Hs|].
  destruct Hw as [Hw|(l & x & Hw & Hu & _)]; injection Hw as ->; [|exists l; split; [reflexivity|exact Hu]].
  destruct Hsame as [[Hp _]|(l1 & l2 & x1 & x2 & _ & Hp & _)]; discriminate Hp.
Defined.

Lemma DeepCopyObject_independent_witness :
  goes (OpenStackDataPlaneService_DeepCopyObject (Some 1%positive)) service_memory
    (λ o h', ∃ l', o = Some ("OpenStackDataPlaneService", l') ∧
       same (TPtr OpenStackDataPlaneService_layout) service_memory (VPtr (Some 1%positive))
         (<[2%positive := CArray []]> h') (VPtr (Some l'))).
Proof.
  eapply goes_mono; [apply (DeepCopyObject_independent "OpenStackDataPlaneService" OpenStackDataPlaneService_layout);
    [apply (list_elem_of_lookup_2 _ 4); reflexivity|exact service_reachable]|].
  intros o h' [Hnil Hcopy]. destruct o as [[kind l']|]; [|destruct Hnil as [_ Hnil]; specialize (Hnil eq_refl); discriminate Hnil].
  destruct (Hcopy kind l' eq_refl) as (-> & Hkeep & _). exists l'. split; [reflexivity|]. apply Hkeep.
  intros l Hl. apply lookup_insert_ne. intros <-. discriminate Hl.
Defined.
