(* ===== verification/Conditions.v ===== *)
(** Status conditions.

    The type and the message constants of api/v1beta1/conditions.go, and the
    interface of the condition library (lib-common, not part of the
    repository) that every controller is written against: the operations as
    the class [ConditionOps], the behaviour the operator relies on as the
    class [ConditionLaws].  Nothing is assumed about how the library computes
    its results.  [ListConditions] is one implementation that satisfies the
    laws; only the witnesses use it. *)

From stdpp Require Import base gmap strings list.
From S2P Require Import Prelude GoStd.

(** ** Data (config/crd/bases: the schema of [status.conditions]) *)

Inductive ConditionStatus : Type := CTrue | CFalse | CUnknown.
#[export] Instance ConditionStatus_eq_dec : EqDecision ConditionStatus.
Proof. solve_decision. Defined.

Record Condition : Type := mkCondition {
  CType : string;
  Status : ConditionStatus;
  Severity : string;
  LastTransitionTime : Z;
  Reason : string;
  Message : string;
}.
#[export] Instance Condition_eq_dec : EqDecision Condition.
Proof. solve_decision. Defined.

Abbreviation Conditions := (list Condition).

(** What a condition says: everything but its time stamp. *)
Definition state (c : Condition) : ConditionStatus * string * string * string :=
  (Status c, Severity c, Reason c, Message c).

(** Condition types, reasons and severities of the condition library, with
    the values the status assertions under tests/ show. *)
Definition ReadyCondition : string := "Ready".
Definition DeploymentReadyCondition : string := "DeploymentReady".
Definition InputReadyCondition : string := "InputReady".
Definition ServiceAccountReadyCondition : string := "ServiceAccountReady".
Definition ErrorReason : string := "Error".
Definition RequestedReason : string := "Requested".
Definition JobReasonBackoffLimitExceeded : string := "BackoffLimitExceeded".
Definition SeverityError : string := "Error".
Definition SeverityWarning : string := "Warning".
Definition SeverityInfo : string := "Info".

(** ** api/v1beta1/conditions.go *)

Definition DataPlaneNodeSetErrorMessage : string := "DataPlaneNodeSet error occurred %s".
Definition ServiceErrorMessage : string := "Service error occurred %s".
Definition SetupReadyCondition : string := "SetupReady".
Definition NodeSetReadyMessage : string := "NodeSet Ready".
Definition NodeSetBareMetalProvisionReadyCondition : string := "NodeSetBaremetalProvisionReady".
Definition NodeSetBaremetalProvisionReadyMessage : string := "NodeSetBaremetalProvisionReady ready".
Definition NodeSetBaremetalProvisionReadyWaitingMessage : string :=
  "NodeSetBaremetalProvisionReady not yet ready".
Definition NodeSetBaremetalProvisionErrorMessage : string :=
  "NodeSetBaremetalProvisionReady error occurred".
Definition NodeSetIPReservationReadyCondition : string := "NodeSetIPReservationReady".
Definition NodeSetIPReservationReadyMessage : string := "NodeSetIPReservationReady ready".
Definition NodeSetIPReservationReadyWaitingMessage : string :=
  "NodeSetIPReservationReady not yet ready".
Definition NodeSetIPReservationReadyErrorMessage : string :=
  "NodeSetIPReservationReady error occurred".
Definition NodeSetDNSDataReadyCondition : string := "NodeSetDNSDataReady".
Definition NodeSetDNSDataReadyMessage : string := "NodeSetDNSDataReady ready".
Definition NodeSetDNSDataReadyWaitingMessage : string := "NodeSetDNSDataReady not yet ready".
Definition NodeSetDNSDataReadyErrorMessage : string := "NodeSetDNSDataReady error occurred".
Definition NodeSetDNSDataMultipleDNSMasqErrorMessage : string :=
  "NodeSet DNSData error occurred. Multiple DNSMasq resources exist.".
Definition InputReadyWaitingMessage : string := "Waiting for input %s, not yet ready".
Definition NodeSetDeploymentReadyCondition : string := "NodeSetDeploymentReady".
Definition NodeSetServiceDeploymentReadyMessage : string := "Deployment ready for %s service".
Definition NodeSetServiceDeploymentReadyWaitingMessage : string :=
  "Deployment not yet ready for %s service".
Definition NodeSetServiceDeploymentErrorMessage : string :=
  "Deployment error occurred in %s service".

(** ** The condition library *)

Class ConditionOps := {
  (** constructors: type, (reason, severity,) message format, arguments *)
  TrueCondition : string → string → list string → Condition;
  FalseCondition : string → string → string → string → list string → Condition;
  UnknownCondition : string → string → string → list string → Condition;
  (** [conditions.Set(c)], and what another slice header that shared the
      backing array before the call reads afterwards *)
  cond_set : Conditions → Condition → Conditions;
  cond_alias : Conditions → Condition → Conditions;
  (** [conditions.Set(p)] for a pointer that may be nil *)
  cond_set_ptr : Conditions → option Condition → Conditions;
  (** [conditions.MarkTrue(type, format, args)] etc. *)
  MarkTrue : Conditions → string → string → list string → Conditions;
  MarkFalse : Conditions → string → string → string → string → list string → Conditions;
  MarkUnknown : Conditions → string → string → string → list string → Conditions;
  (** [conditions.Init(&cl)] *)
  cond_init : Conditions → Conditions → Conditions;
  cond_get : Conditions → string → option Condition;
  cond_is_true : Conditions → string → bool;
  cond_is_false : Conditions → string → bool;
  cond_is_unknown : Conditions → string → bool;
  (** [AllSubConditionIsTrue], [Mirror], [IsError], [RestoreLastTransitionTimes] *)
  cond_all_sub_true : Conditions → bool;
  cond_mirror : Conditions → string → option Condition;
  cond_is_error : option Condition → bool;
  cond_restore_times : Conditions → Conditions → Conditions;
  (** message constants *)
  InitReason : string;
  ReadyInitMessage : string;
  ReadyMessage : string;
  InputReadyInitMessage : string;
  InputReadyMessage : string;
  TLSInputErrorMessage : string;
  DeploymentReadyInitMessage : string;
  DeploymentReadyMessage : string;
  DeploymentReadyRunningMessage : string;
  DeploymentReadyErrorMessage : string;
  ServiceAccountReadyInitMessage : string;
  ServiceAccountReadyMessage : string;
  ServiceAccountReadyErrorMessage : string;
  ServiceAccountCreatingMessage : string;
}.

Class ConditionLaws (O : ConditionOps) : Prop := {
  TrueCondition_type t m a : CType (TrueCondition t m a) = t;
  TrueCondition_status t m a : Status (TrueCondition t m a) = CTrue;
  FalseCondition_type t r s m a : CType (FalseCondition t r s m a) = t;
  FalseCondition_state t r s m a :
    state (FalseCondition t r s m a) = (CFalse, s, r, sprintf m a);
  UnknownCondition_type t r m a : CType (UnknownCondition t r m a) = t;
  UnknownCondition_status t r m a : Status (UnknownCondition t r m a) = CUnknown;
  (** [Set] replaces what the condition of that type says and no other. *)
  get_set cs c t :
    state <$> cond_get (cond_set cs c) t =
      if decide (t = CType c) then Some (state c) else state <$> cond_get cs t;
  set_ptr_some cs c : cond_set_ptr cs (Some c) = cond_set cs c;
  set_ptr_nil cs : cond_set_ptr cs None = cs;
  mark_true_spec cs t m a : MarkTrue cs t m a = cond_set cs (TrueCondition t m a);
  mark_false_spec cs t r s m a : MarkFalse cs t r s m a = cond_set cs (FalseCondition t r s m a);
  mark_unknown_spec cs t r m a : MarkUnknown cs t r m a = cond_set cs (UnknownCondition t r m a);
  get_type cs t c : cond_get cs t = Some c → CType c = t;
  get_nil t : cond_get [] t = None;
  (** A condition whose type is present is updated in place. *)
  alias_in_place cs c : is_Some (cond_get cs (CType c)) → cond_alias cs c = cond_set cs c;
  (** In any case it reads conditions of the updated slice. *)
  alias_reads cs c t d :
    cond_get (cond_alias cs c) t = Some d →
    state <$> cond_get (cond_set cs c) t = Some (state d);
  init_spec cs cl :
    cond_init cs cl =
      fold_left cond_set cl (cond_set cs (UnknownCondition ReadyCondition InitReason ReadyInitMessage []));
  is_true_spec cs t : cond_is_true cs t = bool_decide (Status <$> cond_get cs t = Some CTrue);
  is_false_spec cs t : cond_is_false cs t = bool_decide (Status <$> cond_get cs t = Some CFalse);
  (** Unknown, or absent *)
  is_unknown_spec cs t :
    cond_is_unknown cs t =
      bool_decide (cond_get cs t = None ∨ Status <$> cond_get cs t = Some CUnknown);
  all_sub_spec cs :
    cond_all_sub_true cs = true ↔
      ∀ t c, t ≠ ReadyCondition → cond_get cs t = Some c → Status c = CTrue;
  (** A mirrored condition is of the requested type; it is True only when no
      other condition (Ready apart) is not. *)
  mirror_type cs t c : cond_mirror cs t = Some c → CType c = t;
  mirror_true cs t c :
    cond_mirror cs t = Some c → Status c = CTrue →
    ∀ t' c', t' ≠ ReadyCondition → t' ≠ t → cond_get cs t' = Some c' → Status c' = CTrue;
  is_error_nil : cond_is_error None = false;
  is_error_false c :
    Status c = CFalse → cond_is_error (Some c) = bool_decide (Severity c = SeverityError);
  restore_state cs saved t :
    state <$> cond_get (cond_restore_times cs saved) t = state <$> cond_get cs t;
}.

(** The deferred function of both controllers, up to the patch: Ready is
    recomputed from the other conditions. *)
Definition finish_conditions `{ConditionOps} (message : string) (saved cs : Conditions) : Conditions :=
  let cs := cond_restore_times cs saved in
  if cond_all_sub_true cs then MarkTrue cs ReadyCondition message []
  else if cond_is_unknown cs ReadyCondition then cond_set_ptr cs (cond_mirror cs ReadyCondition)
  else cs.

(** ** Derived facts, for every condition library that satisfies the laws *)

Create HintDb cond discriminated.

Section facts.
Context {O : ConditionOps} {CL : ConditionLaws O}.

Definition status_of (cs : Conditions) (t : string) : option ConditionStatus :=
  Status <$> cond_get cs t.

Lemma status_of_state cs t : status_of cs t = (λ x, x.1.1.1) <$> (state <$> cond_get cs t).
Proof. unfold status_of. by destruct (cond_get cs t). Qed.

Lemma status_set cs c t :
  status_of (cond_set cs c) t = if decide (t = CType c) then Some (Status c) else status_of cs t.
Proof. rewrite !status_of_state, get_set. by case_decide. Qed.

Lemma status_MarkTrue cs t m a t' :
  status_of (MarkTrue cs t m a) t' = if decide (t' = t) then Some CTrue else status_of cs t'.
Proof.
  by rewrite mark_true_spec, status_set, TrueCondition_type, TrueCondition_status.
Qed.

Lemma status_MarkFalse cs t r s m a t' :
  status_of (MarkFalse cs t r s m a) t' =
    if decide (t' = t) then Some CFalse else status_of cs t'.
Proof.
  rewrite mark_false_spec, status_set, FalseCondition_type.
  pose proof (FalseCondition_state t r s m a) as [= -> _ _ _]. done.
Qed.

Lemma status_MarkUnknown cs t r m a t' :
  status_of (MarkUnknown cs t r m a) t' =
    if decide (t' = t) then Some CUnknown else status_of cs t'.
Proof.
  by rewrite mark_unknown_spec, status_set, UnknownCondition_type, UnknownCondition_status.
Qed.

Lemma state_MarkFalse cs t r s m a :
  state <$> cond_get (MarkFalse cs t r s m a) t = Some (CFalse, s, r, sprintf m a).
Proof.
  by rewrite mark_false_spec, get_set, FalseCondition_type, decide_True, FalseCondition_state.
Qed.

Lemma status_restore cs saved t : status_of (cond_restore_times cs saved) t = status_of cs t.
Proof. by rewrite !status_of_state, restore_state. Qed.

Lemma status_nil t : status_of [] t = None.
Proof. unfold status_of. by rewrite get_nil. Qed.

Lemma status_False_set cs t r s m a t' :
  status_of (cond_set cs (FalseCondition t r s m a)) t' =
    if decide (t' = t) then Some CFalse else status_of cs t'.
Proof. rewrite <- mark_false_spec. apply status_MarkFalse. Qed.

Lemma status_True_set cs t m a t' :
  status_of (cond_set cs (TrueCondition t m a)) t' =
    if decide (t' = t) then Some CTrue else status_of cs t'.
Proof. rewrite <- mark_true_spec. apply status_MarkTrue. Qed.

Lemma status_Unknown_set cs t r m a t' :
  status_of (cond_set cs (UnknownCondition t r m a)) t' =
    if decide (t' = t) then Some CUnknown else status_of cs t'.
Proof. rewrite <- mark_unknown_spec. apply status_MarkUnknown. Qed.

Lemma is_true_status cs t : cond_is_true cs t = bool_decide (status_of cs t = Some CTrue).
Proof. apply is_true_spec. Qed.
Lemma is_false_status cs t : cond_is_false cs t = bool_decide (status_of cs t = Some CFalse).
Proof. apply is_false_spec. Qed.
Lemma is_unknown_status cs t :
  cond_is_unknown cs t = bool_decide (status_of cs t = None ∨ status_of cs t = Some CUnknown).
Proof.
  rewrite is_unknown_spec. unfold status_of. apply bool_decide_ext.
  destruct (cond_get cs t); simpl; intuition congruence.
Qed.

Lemma all_sub_status cs :
  cond_all_sub_true cs = true ↔
    ∀ t st, t ≠ ReadyCondition → status_of cs t = Some st → st = CTrue.
Proof.
  rewrite all_sub_spec. unfold status_of. split.
  - intros H t st Ht (c & Hc & ->)%fmap_Some. eauto.
  - intros H t c Ht Hc. apply (H t); [done|]. by rewrite Hc.
Qed.

(** A type is present exactly when its status is. *)
Lemma is_Some_status cs t : is_Some (cond_get cs t) ↔ is_Some (status_of cs t).
Proof. unfold status_of. by rewrite fmap_is_Some. Qed.

(** Every condition but Ready is True. *)
Definition all_true (cs : Conditions) : Prop :=
  ∀ t st, t ≠ ReadyCondition → status_of cs t = Some st → st = CTrue.

Lemma finish_other message saved cs t :
  t ≠ ReadyCondition → status_of (finish_conditions message saved cs) t = status_of cs t.
Proof.
  intros Ht. unfold finish_conditions. cbv zeta. repeat case_match.
  - by rewrite status_MarkTrue, decide_False, status_restore.
  - destruct (cond_mirror _ _) as [c|] eqn:Hm; [|by rewrite set_ptr_nil, status_restore].
    apply mirror_type in Hm. rewrite set_ptr_some, status_set, decide_False by congruence.
    apply status_restore.
  - apply status_restore.
Qed.

(** From Unknown, Ready becomes True exactly when every other one is. *)
Lemma finish_Ready message saved cs :
  status_of cs ReadyCondition = Some CUnknown →
  status_of (finish_conditions message saved cs) ReadyCondition = Some CTrue ↔ all_true cs.
Proof.
  intros Hu. unfold finish_conditions. cbv zeta. set (cs1 := cond_restore_times cs saved).
  assert (all_true cs ↔ cond_all_sub_true cs1 = true) as ->.
  { unfold all_true. rewrite all_sub_status. unfold cs1. by setoid_rewrite status_restore. }
  destruct (cond_all_sub_true cs1) eqn:Hall; [by rewrite status_MarkTrue, decide_True|].
  split; [|done]. intros Ht. exfalso.
  assert (cond_is_unknown cs1 ReadyCondition = true) as Hun.
  { rewrite is_unknown_status. unfold cs1. rewrite status_restore, Hu. by apply bool_decide_eq_true_2; right. }
  rewrite Hun in Ht.
  destruct (cond_mirror cs1 ReadyCondition) as [c|] eqn:Hm.
  - rewrite set_ptr_some, status_set in Ht. apply mirror_type in Hm as Hty.
    rewrite decide_True in Ht by done. injection Ht as Ht.
    apply not_true_iff_false in Hall. apply Hall, all_sub_spec. intros t c' Hne Hc'.
    by eapply mirror_true.
  - rewrite set_ptr_nil in Ht. unfold cs1 in Ht. rewrite status_restore in Ht. congruence.
Qed.

(** Setting conditions never removes a type. *)
Lemma status_set_present cs c t : is_Some (status_of cs t) → is_Some (status_of (cond_set cs c) t).
Proof. rewrite status_set. by case_decide. Qed.
End facts.
#[export] Hint Rewrite @status_MarkTrue @status_MarkFalse @status_MarkUnknown @status_restore
  @status_nil @status_False_set @status_True_set @status_Unknown_set
  @is_true_status @is_false_status @is_unknown_status using typeclasses eauto : cond.
#[export] Hint Resolve status_set_present : cond.

(** Evaluate statuses of conditions that were just set. *)
Ltac cond_simpl :=
  repeat first
    [ progress autorewrite with cond in *
    | rewrite decide_True by done
    | rewrite decide_False by done ].

(** ** One condition library: an association list in order of insertion

    It satisfies the laws, so that theorems stated over the interface can be
    instantiated and evaluated. *)
Module ListConditions.
Definition find_cond (cs : Conditions) (t : string) : option Condition :=
  snd <$> list_find (λ c, CType c = t) cs.
Fixpoint upsert (cs : Conditions) (c : Condition) : Conditions :=
  match cs with
  | [] => [c]
  | d :: cs => if decide (CType d = CType c) then c :: cs else d :: upsert cs c
  end.
Definition worse (a b : Condition) : bool :=
  match Status a, Status b with
  | CFalse, _ => true
  | CUnknown, CTrue => true
  | CUnknown, CUnknown => true
  | CTrue, CTrue => true
  | _, _ => false
  end.
Definition pick (best : option Condition) (c : Condition) : option Condition :=
  match best with
  | None => Some c
  | Some b => if worse b c then Some b else Some c
  end.
Definition mirror (cs : Conditions) (t : string) : option Condition :=
  (λ c, mkCondition t (Status c) (Severity c) (LastTransitionTime c) (Reason c) (Message c)) <$>
    fold_left pick (filter (λ c, CType c ≠ ReadyCondition ∧ CType c ≠ t) cs) None.
Definition has_status (cs : Conditions) (t : string) (st : ConditionStatus) : bool :=
  bool_decide (Status <$> find_cond cs t = Some st).

(** Here a slice that grows is always reallocated ([cond_alias]). *)
#[export] Instance ops : ConditionOps := {|
  TrueCondition t m a := mkCondition t CTrue "" 0 "Ready" (sprintf m a);
  FalseCondition t r s m a := mkCondition t CFalse s 0 r (sprintf m a);
  UnknownCondition t r m a := mkCondition t CUnknown "" 0 r (sprintf m a);
  cond_set := upsert;
  cond_alias cs c := match find_cond cs (CType c) with Some _ => upsert cs c | None => cs end;
  cond_set_ptr cs p := match p with Some c => upsert cs c | None => cs end;
  MarkTrue cs t m a := upsert cs (mkCondition t CTrue "" 0 "Ready" (sprintf m a));
  MarkFalse cs t r s m a := upsert cs (mkCondition t CFalse s 0 r (sprintf m a));
  MarkUnknown cs t r m a := upsert cs (mkCondition t CUnknown "" 0 r (sprintf m a));
  cond_init cs cl :=
    fold_left upsert cl
      (upsert cs (mkCondition ReadyCondition CUnknown "" 0 "Init" "Setup started"));
  cond_get := find_cond;
  cond_is_true cs t := has_status cs t CTrue;
  cond_is_false cs t := has_status cs t CFalse;
  cond_is_unknown cs t := bool_decide (find_cond cs t = None) || has_status cs t CUnknown;
  cond_all_sub_true cs :=
    forallb (λ c, bool_decide (CType c = ReadyCondition) ||
      match find_cond cs (CType c) with
      | Some d => bool_decide (Status d = CTrue)
      | None => true
      end) cs;
  cond_mirror := mirror;
  cond_is_error p :=
    match p with Some c => bool_decide (Severity c = SeverityError) | None => false end;
  cond_restore_times cs _ := cs;
  InitReason := "Init";
  ReadyInitMessage := "Setup started";
  ReadyMessage := "Setup complete";
  InputReadyInitMessage := "Input data not checked";
  InputReadyMessage := "Input data complete";
  TLSInputErrorMessage := "TLSInput error occurred in TLS sources %s";
  DeploymentReadyInitMessage := "Deployment not started";
  DeploymentReadyMessage := "Deployment completed";
  DeploymentReadyRunningMessage := "Deployment in progress";
  DeploymentReadyErrorMessage := "Deployment error occurred %s";
  ServiceAccountReadyInitMessage := "ServiceAccount not created";
  ServiceAccountReadyMessage := "ServiceAccount created";
  ServiceAccountReadyErrorMessage := "ServiceAccount error occurred %s";
  ServiceAccountCreatingMessage := "ServiceAccount creation in progress";
|}.

Lemma find_cons d cs t :
  find_cond (d :: cs) t = if decide (CType d = t) then Some d else find_cond cs t.
Proof.
  unfold find_cond. simpl. case_decide; [done|].
  by destruct (list_find _ cs) as [[]|].
Qed.

Lemma find_upsert cs c t :
  find_cond (upsert cs c) t = if decide (t = CType c) then Some c else find_cond cs t.
Proof.
  induction cs as [|d cs IH]; simpl.
  - rewrite find_cons. repeat case_decide; congruence.
  - destruct (decide (CType d = CType c)).
    + rewrite !find_cons. repeat case_decide; congruence.
    + rewrite !find_cons, IH. repeat case_decide; congruence.
Qed.

Lemma find_Some cs t c : find_cond cs t = Some c → CType c = t ∧ c ∈ cs.
Proof.
  induction cs as [|d cs IH]; [done|]. rewrite find_cons. case_decide.
  - intros [= ->]. split; [done|left].
  - intros [??]%IH. split; [done|by right].
Qed.

Lemma find_elem cs c : c ∈ cs → ∃ d, find_cond cs (CType c) = Some d.
Proof.
  induction cs as [|d cs IH]; [by intros ?%not_elem_of_nil|].
  rewrite find_cons. case_decide; [eauto|].
  intros [->|?]%elem_of_cons; [done|auto].
Qed.

Lemma fold_pick l b c :
  fold_left pick l (Some b) = Some c → Status c = CTrue →
  Status b = CTrue ∧ Forall (λ d, Status d = CTrue) l.
Proof.
  revert b. induction l as [|d l IH]; intros b; simpl.
  - intros [= ->]. eauto.
  - unfold worse. intros H Hc.
    destruct (Status b) eqn:Hb, (Status d) eqn:Hd;
      destruct (IH _ H Hc) as [? ?]; try congruence;
      (split; [congruence|by constructor]).
Qed.

Lemma mirror_all_true cs t c :
  mirror cs t = Some c → Status c = CTrue →
  ∀ d, d ∈ cs → CType d ≠ ReadyCondition → CType d ≠ t → Status d = CTrue.
Proof.
  unfold mirror. intros (b & H & ->)%fmap_Some. simpl. intros Hb d Hd ??.
  assert (d ∈ filter (λ c, CType c ≠ ReadyCondition ∧ CType c ≠ t) cs) as Hin
    by (by apply list_elem_of_filter).
  destruct (filter _ cs) as [|e l]; [by apply not_elem_of_nil in Hin|].
  simpl in H. destruct (fold_pick _ _ _ H Hb) as [? HF].
  apply elem_of_cons in Hin as [->|?]; [done|].
  by eapply Forall_forall in HF.
Qed.

Lemma all_sub cs :
  cond_all_sub_true cs = true ↔
    ∀ t c, t ≠ ReadyCondition → find_cond cs t = Some c → Status c = CTrue.
Proof.
  simpl. rewrite forallb_forall. split.
  - intros H t c Ht Hc. destruct (find_Some _ _ _ Hc) as [<- Hin].
    apply list_elem_of_In in Hin. specialize (H _ Hin).
    rewrite bool_decide_eq_false_2, Hc in H by done. by apply bool_decide_eq_true in H.
  - intros H c Hin. apply orb_true_iff.
    destruct (decide (CType c = ReadyCondition)); [left; by apply bool_decide_eq_true|right].
    destruct (find_cond cs (CType c)) eqn:Hf; [|done].
    apply bool_decide_eq_true. eauto.
Qed.

#[export] Instance laws : ConditionLaws ops.
Proof.
  split; try done.
  - intros cs c t. simpl. rewrite find_upsert. by case_decide.
  - intros cs t c. apply find_Some.
  - intros cs c. simpl. by intros [? ->].
  - intros cs c t d. simpl. destruct (find_cond cs (CType c)) eqn:Hc; intros Hd.
    + by rewrite Hd.
    + rewrite find_upsert. case_decide; [congruence|by rewrite Hd].
  - intros cs t. simpl. unfold has_status. destruct (find_cond cs t) as [c|]; simpl.
    + apply bool_decide_ext. intuition congruence.
    + done.
  - apply all_sub.
  - intros cs t c. simpl. unfold mirror. by intros (b & _ & ->)%fmap_Some.
  - intros cs t c H Hc t' c' ?? [? Hin]%find_Some. subst.
    by eapply mirror_all_true.
Qed.
End ListConditions.
