(* ===== verification/Types.v ===== *)
(** The API types (api/v1beta1/common.go and the *_types.go files) and the
    objects of other operators and of Kubernetes that this operator reads and
    writes, as records with the source's field names behind a short prefix.

    A Go pointer is an [option], a slice a [list], a map a [gmap] ([gomap]
    where the code tells a nil map from an empty one), a [json.RawMessage] its
    text.  Third-party structs keep the fields the operator names; what it
    only copies around is gathered in one opaque text field ([*_Other]). *)

From stdpp Require Import base gmap strings list.
From S2P Require Import Prelude GoStd Conditions.

(** ** Kubernetes objects *)

Record ObjectMeta : Type := mkMeta {
  m_Name : string;
  m_Namespace : string;
  m_Labels : gmap string string;
  m_Generation : Z;
  (** [DeletionTimestamp.IsZero()] *)
  m_DeletionTimestampIsZero : bool;
}.
Definition meta (ns name : string) : ObjectMeta := mkMeta name ns ∅ 0 true.

Record NamespacedName : Type := mkNN { nn_Namespace : string; nn_Name : string }.
#[export] Instance NamespacedName_eq_dec : EqDecision NamespacedName.
Proof. solve_decision. Defined.

(** [ctrl.Result] (durations in nanoseconds) *)
Record Result : Type := mkResult { Requeue : bool; RequeueAfter : Z }.
#[export] Instance Result_eq_dec : EqDecision Result.
Proof. solve_decision. Defined.
Definition emptyResult : Result := mkResult false 0.
Definition seconds (n : Z) : Z := wrap64 (1000000000 * n).

Record KeyToPath : Type := mkKTP { ktp_Key : string; ktp_Path : string }.
Inductive VolumeSource : Type :=
  | VSecret (SecretName : string) (Items : list KeyToPath)
  | VConfigMap (Name : string) (Items : list KeyToPath)
  | VProjected (Secrets : list string)
  | VOther (other : string).
Record Volume : Type := mkVolume { v_Name : string; v_Source : VolumeSource }.
Record VolumeMount : Type := mkMount {
  vm_Name : string; vm_MountPath : string; vm_SubPath : string }.
Record VolMounts : Type := mkVolMounts {
  vs_Volumes : list Volume; vs_Mounts : list VolumeMount }.
Record PodDNSConfig : Type := mkDNS { dns_Nameservers : list string; dns_Searches : list string }.
Record EnvVar : Type := mkEnv { env_Name : string; env_Value : string }.
Record SecretReference : Type := mkSecretRef { sr_Name : string; sr_Namespace : string }.
#[export] Instance SecretReference_eq_dec : EqDecision SecretReference.
Proof. solve_decision. Defined.

Record ConfigMap : Type := mkConfigMap {
  cm_Name : string;
  cm_Data : gmap string string;
  cm_BinaryData : gmap string string;
}.
Record Secret : Type := mkSecret {
  sec_Name : string;
  sec_Labels : gmap string string;
  sec_Data : gmap string string;
}.
#[export] Instance Secret_eq_dec : EqDecision Secret.
Proof. solve_decision. Defined.

(** ** api/v1beta1/common.go *)

(** [corev1.ConfigMapEnvSource], [corev1.SecretEnvSource] *)
Record EnvSource : Type := mkEnvSource { es_Name : string; es_Optional : option bool }.

Record DataSource : Type := mkDataSource {
  ds_Prefix : string;
  ds_ConfigMapRef : option EnvSource;
  ds_SecretRef : option EnvSource;
}.

Record AnsibleOpts : Type := mkAnsibleOpts {
  ao_AnsibleUser : string;
  ao_AnsibleHost : string;
  ao_AnsibleVars : gmap string string;
  ao_AnsibleVarsFrom : list DataSource;
  ao_AnsiblePort : Z;
}.

Record IPSetNetwork : Type := mkNet { net_Name : string; net_Other : string }.

Record NodeSection : Type := mkNode {
  n_ExtraMounts : list VolMounts;
  n_Networks : list IPSetNetwork;
  n_UserData : option SecretReference;
  n_NetworkData : option SecretReference;
  n_Ansible : AnsibleOpts;
  n_HostName : string;
  n_ManagementNetwork : string;
  n_PreprovisioningNetworkDataName : string;
}.

Record NodeTemplate : Type := mkTemplate {
  t_ExtraMounts : list VolMounts;
  t_Networks : list IPSetNetwork;
  t_UserData : option SecretReference;
  t_NetworkData : option SecretReference;
  t_AnsibleSSHPrivateKeySecret : string;
  t_ManagementNetwork : string;
  t_Ansible : AnsibleOpts;
}.

Record AnsibleEESpec : Type := mkAeeSpec {
  a_ExtraMounts : list VolMounts;
  a_Env : list EnvVar;
  a_ExtraVars : gomap string;
  a_DNSConfig : option PodDNSConfig;
  a_NetworkAttachments : list string;
  a_OpenStackAnsibleEERunnerImage : string;
  a_AnsibleTags : string;
  a_AnsibleLimit : string;
  a_AnsibleSkipTags : string;
  a_ServiceAccountName : string;
}.

(** ** openstackdataplaneservice_types.go *)

Record OpenstackDataPlaneServiceCert : Type := mkServiceCert {
  sc_Contents : list string;
  sc_Networks : list string;
  sc_Issuer : string;
  sc_KeyUsages : list string;
  sc_EDPMRoleServiceName : string;
}.

Record OpenStackDataPlaneServiceSpec : Type := mkServiceSpec {
  s_ConfigMaps : list string;
  s_Secrets : list string;
  s_DataSources : list DataSource;
  s_TLSCerts : gomap OpenstackDataPlaneServiceCert;
  s_PlaybookContents : string;
  s_Playbook : string;
  s_CACerts : string;
  s_OpenStackAnsibleEERunnerImage : string;
  s_CertsFrom : string;
  s_AddCertMounts : bool;
  s_DeployOnAllNodeSets : bool;
  s_ContainerImageFields : list string;
  s_EDPMServiceType : string;
}.

Record OpenStackDataPlaneService : Type := mkService {
  svc_Meta : ObjectMeta;
  svc_Spec : OpenStackDataPlaneServiceSpec;
  svc_Conditions : Conditions;
}.
Definition svc_Name (s : OpenStackDataPlaneService) : string := m_Name (svc_Meta s).
Definition svc_Namespace (s : OpenStackDataPlaneService) : string := m_Namespace (svc_Meta s).

(** ** openstackdataplanedeployment_types.go *)

Record OpenStackDataPlaneDeploymentSpec : Type := mkDeploymentSpec {
  d_NodeSets : list string;
  d_BackoffLimit : option Z;
  d_AnsibleTags : string;
  d_AnsibleLimit : string;
  d_AnsibleSkipTags : string;
  d_AnsibleExtraVars : gomap string;
  d_ServicesOverride : option (list string);
  d_DeploymentRequeueTime : Z;
}.
(** [len(spec.ServicesOverride)] reads a nil slice as an empty one. *)
Definition ServicesOverride (s : OpenStackDataPlaneDeploymentSpec) : list string :=
  default [] (d_ServicesOverride s).

Record OpenStackDataPlaneDeploymentStatus : Type := mkDeploymentStatus {
  ds_NodeSetConditions : gmap string Conditions;
  ds_ConfigMapHashes : gomap string;
  ds_SecretHashes : gomap string;
  ds_NodeSetHashes : gomap string;
  ds_ContainerImages : gomap string;
  ds_Conditions : Conditions;
  ds_ObservedGeneration : Z;
  ds_DeployedVersion : string;
  ds_Deployed : bool;
}.

Record OpenStackDataPlaneDeployment : Type := mkDeployment {
  d_Meta : ObjectMeta;
  d_Spec : OpenStackDataPlaneDeploymentSpec;
  d_Status : OpenStackDataPlaneDeploymentStatus;
}.
Definition d_Name (d : OpenStackDataPlaneDeployment) : string := m_Name (d_Meta d).
Definition d_Namespace (d : OpenStackDataPlaneDeployment) : string := m_Namespace (d_Meta d).

(** ** openstackdataplanenodeset_types.go *)

(** [baremetalv1.InstanceSpec] *)
Record InstanceSpec : Type := mkInstance {
  i_CtlPlaneIP : string;
  i_UserData : option SecretReference;
  i_NetworkData : option SecretReference;
  i_PreprovisioningNetworkDataName : string;
}.
#[export] Instance InstanceSpec_eq_dec : EqDecision InstanceSpec.
Proof. solve_decision. Defined.
(** The zero value a missing key of [BaremetalHosts] reads as. *)
Definition zeroInstance : InstanceSpec := mkInstance "" None None "".

(** [baremetalv1.OpenStackBaremetalSetSpec] *)
Record OpenStackBaremetalSetSpec : Type := mkBaremetalSpec {
  b_BaremetalHosts : gomap InstanceSpec;
  b_DomainName : string;
  b_CloudUserName : string;
  b_DeploymentSSHSecret : string;
  b_OSContainerImageURL : string;
  b_AgentImageURL : string;
  b_ApacheImageURL : string;
  b_CtlplaneGateway : string;
  b_BootstrapDNS : list string;
  b_DNSSearchDomains : list string;
  b_Other : string;
}.
#[export] Instance OpenStackBaremetalSetSpec_eq_dec : EqDecision OpenStackBaremetalSetSpec.
Proof. solve_decision. Defined.

Record OpenStackDataPlaneNodeSetSpec : Type := mkNodeSetSpec {
  ns_BaremetalSetTemplate : OpenStackBaremetalSetSpec;
  ns_NodeTemplate : NodeTemplate;
  ns_Nodes : gmap string NodeSection;
  ns_Env : list EnvVar;
  ns_NetworkAttachments : list string;
  ns_Services : list string;
  (** nil is told from empty in the inventory *)
  ns_Tags : option (list string);
  ns_SecretMaxSize : Z;
  ns_PreProvisioned : bool;
  ns_TLSEnabled : bool;
}.

Record OpenStackDataPlaneNodeSetStatus : Type := mkNodeSetStatus {
  nss_Conditions : Conditions;
  nss_DeploymentStatuses : gomap Conditions;
  nss_AllHostnames : gmap string (gmap string string);
  nss_AllIPs : gmap string (gmap string string);
  nss_ConfigMapHashes : gomap string;
  nss_SecretHashes : gomap string;
  (** nil is told from empty before the DNS configuration is set *)
  nss_DNSClusterAddresses : option (list string);
  nss_ContainerImages : gomap string;
  nss_CtlplaneSearchDomain : string;
  nss_ConfigHash : string;
  nss_DeployedConfigHash : string;
  nss_ObservedGeneration : Z;
  nss_DeployedVersion : string;
}.

Record OpenStackDataPlaneNodeSet : Type := mkNodeSet {
  ns_Meta : ObjectMeta;
  ns_Spec : OpenStackDataPlaneNodeSetSpec;
  ns_Status : OpenStackDataPlaneNodeSetStatus;
}.
Definition ns_Name (n : OpenStackDataPlaneNodeSet) : string := m_Name (ns_Meta n).
Definition ns_Namespace (n : OpenStackDataPlaneNodeSet) : string := m_Namespace (ns_Meta n).

(** [openstackv1.ContainerImages]: the image pointers the operator names, and
    the ones it does not ([ci_Others], the non-nil ones by field name). *)
Record ContainerImages : Type := mkImages {
  ci_AgentImage : option string;
  ci_AnsibleeeImage : option string;
  ci_ApacheImage : option string;
  ci_EdpmFrrImage : option string;
  ci_EdpmIscsidImage : option string;
  ci_EdpmLogrotateCrondImage : option string;
  ci_EdpmMultipathdImage : option string;
  ci_EdpmNeutronDhcpAgentImage : option string;
  ci_EdpmNeutronMetadataAgentImage : option string;
  ci_EdpmNeutronOvnAgentImage : option string;
  ci_EdpmNeutronSriovAgentImage : option string;
  ci_EdpmNodeExporterImage : option string;
  ci_EdpmOvnBgpAgentImage : option string;
  ci_CeilometerComputeImage : option string;
  ci_CeilometerIpmiImage : option string;
  ci_NovaComputeImage : option string;
  ci_OvnControllerImage : option string;
  ci_OsContainerImage : option string;
  ci_Others : gmap string string;
}.
Definition zeroImages : ContainerImages :=
  mkImages None None None None None None None None None None None None None None None None None None ∅.

(** [openstackv1.OpenStackVersion] *)
Record OpenStackVersion : Type := mkVersion {
  ver_TargetVersion : string;
  ver_ContainerImages : ContainerImages;
}.

(** ** Objects of the other operators *)

(** [infranetworkv1.IPSetReservation]; [Routes] is copied as it is. *)
Record IPSetReservation : Type := mkReservation {
  r_Network : string;
  r_Subnet : string;
  r_Address : string;
  r_MTU : Z;
  r_Cidr : string;
  r_Vlan : option Z;
  r_Gateway : option string;
  r_Routes : list string;
  r_DNSDomain : string;
}.
Record IPSet : Type := mkIPSet {
  ip_Name : string;
  ip_Networks : list IPSetNetwork;
  ip_Reservation : list IPSetReservation;
  ip_Conditions : Conditions;
}.
(** [infranetworkv1.DNSMasq], with its own [IsReady()] *)
Record DNSMasq : Type := mkDNSMasq {
  dm_IsReady : bool;
  dm_DNSClusterAddresses : option (list string);
  dm_DNSAddresses : list string;
}.
Record DNSHost : Type := mkDNSHost { dh_IP : string; dh_Hostnames : list string }.
Record DNSData : Type := mkDNSData {
  dd_Name : string;
  dd_Hosts : list DNSHost;
  dd_DNSDataLabelSelectorValue : string;
  dd_IsReady : bool;
}.
Record OpenStackBaremetalSet : Type := mkBaremetalSet {
  bs_Name : string;
  bs_Spec : OpenStackBaremetalSetSpec;
  bs_IsReady : bool;
}.

(** [ansibleeev1.OpenStackAnsibleEE]; the job states as tests/ shows them *)
Definition JobStatusSucceeded : string := "Succeeded".
Definition JobStatusFailed : string := "Failed".
Definition JobStatusRunning : string := "Running".
Definition JobStatusPending : string := "Pending".

Record OpenStackAnsibleEESpec : Type := mkEESpec {
  ee_NetworkAttachments : list string;
  ee_DNSConfig : option PodDNSConfig;
  ee_Image : string;
  ee_ExtraVars : gomap string;
  ee_CmdLine : string;
  ee_ServiceAccountName : string;
  ee_Play : string;
  ee_Playbook : string;
  ee_BackoffLimit : option Z;
  ee_ExtraMounts : list VolMounts;
  ee_Env : list EnvVar;
}.
Definition zeroEESpec : OpenStackAnsibleEESpec :=
  mkEESpec [] None "" None "" "" "" "" None [] [].
Record OpenStackAnsibleEE : Type := mkEE {
  ee_Meta : ObjectMeta;
  ee_Spec : OpenStackAnsibleEESpec;
  ee_JobStatus : string;
  ee_Conditions : Conditions;
}.

(** [certmgrv1.Issuer] and [certmanager.CertificateRequest] *)
Record Issuer : Type := mkIssuer { iss_Name : string; iss_Annotations : gmap string string }.
Record CertificateRequest : Type := mkCertRequest {
  cr_CommonName : string;
  cr_IssuerName : string;
  cr_CertName : string;
  cr_Duration : Z;
  cr_RenewBefore : option Z;
  cr_Hostnames : list string;
  cr_Ips : list string;
  cr_Labels : gmap string string;
  cr_Usages : list string;
  cr_Organizations : list string;
}.

(** ** Updating the conditions of an object in place *)

Definition set_ns_Status (f : OpenStackDataPlaneNodeSetStatus → OpenStackDataPlaneNodeSetStatus)
    (n : OpenStackDataPlaneNodeSet) : OpenStackDataPlaneNodeSet :=
  mkNodeSet (ns_Meta n) (ns_Spec n) (f (ns_Status n)).
Definition set_nss_Conditions (f : Conditions → Conditions)
    (s : OpenStackDataPlaneNodeSetStatus) : OpenStackDataPlaneNodeSetStatus :=
  mkNodeSetStatus (f (nss_Conditions s)) (nss_DeploymentStatuses s) (nss_AllHostnames s)
    (nss_AllIPs s) (nss_ConfigMapHashes s) (nss_SecretHashes s) (nss_DNSClusterAddresses s)
    (nss_ContainerImages s) (nss_CtlplaneSearchDomain s) (nss_ConfigHash s)
    (nss_DeployedConfigHash s) (nss_ObservedGeneration s) (nss_DeployedVersion s).
Definition ns_upd (f : Conditions → Conditions) : OpenStackDataPlaneNodeSet → OpenStackDataPlaneNodeSet :=
  set_ns_Status (set_nss_Conditions f).
Definition ns_Conditions (n : OpenStackDataPlaneNodeSet) : Conditions := nss_Conditions (ns_Status n).

Definition set_d_Status (f : OpenStackDataPlaneDeploymentStatus → OpenStackDataPlaneDeploymentStatus)
    (d : OpenStackDataPlaneDeployment) : OpenStackDataPlaneDeployment :=
  mkDeployment (d_Meta d) (d_Spec d) (f (d_Status d)).
Definition set_ds_Conditions (f : Conditions → Conditions)
    (s : OpenStackDataPlaneDeploymentStatus) : OpenStackDataPlaneDeploymentStatus :=
  mkDeploymentStatus (ds_NodeSetConditions s) (ds_ConfigMapHashes s) (ds_SecretHashes s)
    (ds_NodeSetHashes s) (ds_ContainerImages s) (f (ds_Conditions s)) (ds_ObservedGeneration s)
    (ds_DeployedVersion s) (ds_Deployed s).
Definition set_ds_NodeSetConditions (f : gmap string Conditions → gmap string Conditions)
    (s : OpenStackDataPlaneDeploymentStatus) : OpenStackDataPlaneDeploymentStatus :=
  mkDeploymentStatus (f (ds_NodeSetConditions s)) (ds_ConfigMapHashes s) (ds_SecretHashes s)
    (ds_NodeSetHashes s) (ds_ContainerImages s) (ds_Conditions s) (ds_ObservedGeneration s)
    (ds_DeployedVersion s) (ds_Deployed s).
Definition d_upd (f : Conditions → Conditions) : OpenStackDataPlaneDeployment → OpenStackDataPlaneDeployment :=
  set_d_Status (set_ds_Conditions f).
Definition d_Conditions (d : OpenStackDataPlaneDeployment) : Conditions := ds_Conditions (d_Status d).

(** ** Zero values of the structs, and objects with only a name *)

Definition zeroAnsibleOpts : AnsibleOpts := mkAnsibleOpts "" "" ∅ [] 0.
Definition zeroNode : NodeSection := mkNode [] [] None None zeroAnsibleOpts "" "" "".
Definition zeroTemplate : NodeTemplate := mkTemplate [] [] None None "" "" zeroAnsibleOpts.
Definition zeroBaremetalSpec : OpenStackBaremetalSetSpec :=
  mkBaremetalSpec None "" "" "" "" "" "" "" [] [] "".
Definition zeroNodeSetSpec : OpenStackDataPlaneNodeSetSpec :=
  mkNodeSetSpec zeroBaremetalSpec zeroTemplate ∅ [] [] [] None 0 false false.
Definition zeroNodeSetStatus : OpenStackDataPlaneNodeSetStatus :=
  mkNodeSetStatus [] None ∅ ∅ None None None None "" "" "" 0 "".
Definition zeroServiceSpec : OpenStackDataPlaneServiceSpec :=
  mkServiceSpec [] [] [] None "" "" "" "" "" false false [] "".
Definition zeroDeploymentSpec : OpenStackDataPlaneDeploymentSpec :=
  mkDeploymentSpec [] None "" "" "" None None 0.
Definition zeroDeploymentStatus : OpenStackDataPlaneDeploymentStatus :=
  mkDeploymentStatus ∅ None None None None [] 0 "" false.
Definition zeroReservation : IPSetReservation := mkReservation "" "" "" 0 "" None None [] "".

(** A node that goes by a host name; a NodeSet of the given nodes. *)
Definition named_node (host : string) : NodeSection :=
  mkNode [] [] None None zeroAnsibleOpts host "" "".
Definition nodeset_of (ns name : string) (nodes : gmap string NodeSection)
    (preProvisioned : bool) : OpenStackDataPlaneNodeSet :=
  mkNodeSet (meta ns name)
    (mkNodeSetSpec zeroBaremetalSpec zeroTemplate nodes [] [] [] None 0 preProvisioned false)
    zeroNodeSetStatus.
Definition deployment_of (ns name : string) (nodesets : list string) : OpenStackDataPlaneDeployment :=
  mkDeployment (meta ns name) (mkDeploymentSpec nodesets None "" "" "" None None 0)
    zeroDeploymentStatus.
Definition service_of (ns name : string) (onAll : bool) : OpenStackDataPlaneService :=
  mkService (meta ns name) (mkServiceSpec [] [] [] None "" "" "" "" "" false onAll [] name) [].
Definition zeroAeeSpec : AnsibleEESpec := mkAeeSpec [] [] None None [] "" "" "" "" "".
