(* ===== verification/Fqdn.v ===== *)
(** [NodeHostNameIsFQDN] (api/v1beta1/openstackdataplanenodeset.go): the
    regular expression the code compiles, a matcher for it, and the plain
    description of the host names it accepts. *)

From Stdlib Require Import Ascii.
From stdpp Require Import base gmap strings list.
From S2P Require Import Prelude GoStd.

(** ** Regular expressions and their matcher (by derivatives) *)
Module Regexp.
Inductive re : Type :=
  | REmpty
  | REps
  | RClass (p : ascii → bool)
  | RCat (r1 r2 : re)
  | RAlt (r1 r2 : re)
  | RStar (r : re).
Definition RPlus (r : re) : re := RCat r (RStar r).

(** The language of an expression. *)
Inductive matches : re → string → Prop :=
  | MEps : matches REps ""
  | MClass p c : p c = true → matches (RClass p) (String c "")
  | MCat r1 r2 s1 s2 : matches r1 s1 → matches r2 s2 → matches (RCat r1 r2) (s1 +:+ s2)
  | MAltL r1 r2 s : matches r1 s → matches (RAlt r1 r2) s
  | MAltR r1 r2 s : matches r2 s → matches (RAlt r1 r2) s
  | MStar0 r : matches (RStar r) ""
  | MStarS r s1 s2 : matches r s1 → matches (RStar r) s2 → matches (RStar r) (s1 +:+ s2).

Fixpoint nullable (r : re) : bool :=
  match r with
  | REmpty | RClass _ => false
  | REps | RStar _ => true
  | RCat r1 r2 => nullable r1 && nullable r2
  | RAlt r1 r2 => nullable r1 || nullable r2
  end.
Fixpoint deriv (c : ascii) (r : re) : re :=
  match r with
  | REmpty | REps => REmpty
  | RClass p => if p c then REps else REmpty
  | RCat r1 r2 =>
      if nullable r1 then RAlt (RCat (deriv c r1) r2) (deriv c r2) else RCat (deriv c r1) r2
  | RAlt r1 r2 => RAlt (deriv c r1) (deriv c r2)
  | RStar r => RCat (deriv c r) (RStar r)
  end.
(** [regexp.MatchString] of an expression anchored at both ends *)
Fixpoint match_string (r : re) (s : string) : bool :=
  match s with
  | "" => nullable r
  | String c s => match_string (deriv c r) s
  end.

Lemma append_empty s1 s2 : s1 +:+ s2 = "" → s1 = "" ∧ s2 = "".
Proof. by destruct s1, s2. Qed.

Lemma append_cons s1 s2 c s :
  s1 +:+ s2 = String c s →
  (s1 = "" ∧ s2 = String c s) ∨ ∃ s1', s1 = String c s1' ∧ s = s1' +:+ s2.
Proof. destruct s1 as [|d s1]; [by left|]. intros H. injection H as -> <-. right. eauto. Qed.

Lemma nullable_correct r : nullable r = true ↔ matches r "".
Proof.
  split.
  - induction r; simpl; intros H; try done; auto using matches.
    + apply andb_true_iff in H as [??]. apply (MCat _ _ "" ""); auto.
    + apply orb_true_iff in H as [?|?]; eauto using matches.
  - remember "" as s eqn:Hs. induction 1; simpl; subst; try done.
    + apply append_empty in Hs as [-> ->]. apply andb_true_iff; auto.
    + apply orb_true_iff; auto.
    + apply orb_true_iff; auto.
Qed.

Lemma star_cons r c s :
  matches (RStar r) (String c s) →
  ∃ s1 s2, s = s1 +:+ s2 ∧ matches r (String c s1) ∧ matches (RStar r) s2.
Proof.
  remember (RStar r) as r' eqn:Hr. remember (String c s) as s' eqn:Hs.
  intros H. revert s Hs Hr. induction H; intros t Hs [= ->]; try done.
  apply append_cons in Hs as [[-> ->]|(s1' & -> & ->)]; eauto.
Qed.

Lemma cat_iff r1 r2 s :
  matches (RCat r1 r2) s ↔ ∃ s1 s2, s = s1 +:+ s2 ∧ matches r1 s1 ∧ matches r2 s2.
Proof.
  split.
  - inversion 1; subst; eauto 6.
  - intros (s1 & s2 & -> & ? & ?). by constructor.
Qed.

Lemma alt_iff r1 r2 s : matches (RAlt r1 r2) s ↔ matches r1 s ∨ matches r2 s.
Proof. split; [inversion 1; auto|intros [?|?]; auto using matches]. Qed.

(** A non-empty match of a concatenation takes its first character from the
    first part, or from the second when the first part may be empty. *)
Lemma cat_cons r1 r2 c s :
  matches (RCat r1 r2) (String c s) ↔
    (∃ s1 s2, s = s1 +:+ s2 ∧ matches r1 (String c s1) ∧ matches r2 s2) ∨
    (matches r1 "" ∧ matches r2 (String c s)).
Proof.
  rewrite cat_iff. split.
  - intros (s1 & s2 & Heq & H1 & H2). symmetry in Heq.
    apply append_cons in Heq as [[-> ->]|(s1' & -> & ->)]; [by right|left; eauto].
  - intros [(s1 & s2 & -> & ? & ?)|[? ?]]; [by exists (String c s1), s2|by exists "", (String c s)].
Qed.

Lemma deriv_correct r c s : matches (deriv c r) s ↔ matches r (String c s).
Proof.
  revert s. induction r as [| |p|r1 IH1 r2 IH2|r1 IH1 r2 IH2|r IH]; intros s; simpl.
  - split; inversion 1.
  - split; inversion 1.
  - destruct (p c) eqn:Hp; split; inversion 1; subst; try congruence; by constructor.
  - assert (matches (RCat (deriv c r1) r2) s ↔
            ∃ s1 s2, s = s1 +:+ s2 ∧ matches r1 (String c s1) ∧ matches r2 s2) as Hcat
      by (rewrite cat_iff; by setoid_rewrite IH1).
    rewrite cat_cons, <- nullable_correct. destruct (nullable r1).
    + rewrite alt_iff, Hcat, IH2. naive_solver.
    + rewrite Hcat. naive_solver.
  - by rewrite !alt_iff, IH1, IH2.
  - rewrite cat_iff. setoid_rewrite IH. split.
    + intros (s1 & s2 & -> & ? & ?). by apply (MStarS _ (String c s1)).
    + apply star_cons.
Qed.

Theorem match_string_correct r s : match_string r s = true ↔ matches r s.
Proof.
  revert r. induction s as [|c s IH]; intros r; simpl.
  - apply nullable_correct.
  - by rewrite IH, deriv_correct.
Qed.
End Regexp.
Import Regexp.

(** ** The expression of the source *)

Definition is_alpha (c : ascii) : bool :=
  let n := N_of_ascii c in
  bool_decide (65 ≤ n ≤ 90)%N || bool_decide (97 ≤ n ≤ 122)%N.
Definition is_digit (c : ascii) : bool :=
  let n := N_of_ascii c in bool_decide (48 ≤ n ≤ 57)%N.
(** [[a-zA-Z0-9-]] *)
Definition is_label_char (c : ascii) : bool :=
  is_alpha c || is_digit c || bool_decide (c = "-"%char).
#[global] Arguments is_alpha : simpl never.
#[global] Arguments is_digit : simpl never.
#[global] Arguments is_label_char : simpl never.
Definition is_dot (c : ascii) : bool := bool_decide (c = "."%char).

(** [([a-zA-Z0-9-]+\.)*[a-zA-Z0-9-]+\.[a-zA-Z]{2,}], anchored *)
Definition fqdn_regex : re :=
  RCat (RStar (RCat (RPlus (RClass is_label_char)) (RClass is_dot)))
  (RCat (RPlus (RClass is_label_char))
  (RCat (RClass is_dot)
  (RCat (RClass is_alpha) (RPlus (RClass is_alpha))))).

Definition NodeHostNameIsFQDN (hostname : string) : bool := match_string fqdn_regex hostname.

(** ** The plain description: at least two dot-separated labels of letters,
    digits and hyphens, none empty, the last one of two or more letters *)

Fixpoint all_chars (p : ascii → bool) (s : string) : bool :=
  match s with "" => true | String c s => p c && all_chars p s end.
Definition is_label (s : string) : Prop := s ≠ "" ∧ all_chars is_label_char s = true.
Definition is_tld (s : string) : Prop := 2 ≤ String.length s ∧ all_chars is_alpha s = true.

Lemma all_chars_app p s1 s2 : all_chars p (s1 +:+ s2) = all_chars p s1 && all_chars p s2.
Proof. induction s1 as [|c s1 IH]; [done|]. rewrite string_app_cons. simpl. by rewrite IH, andb_assoc. Qed.

Lemma class_iff p s : matches (RClass p) s ↔ ∃ c, s = String c "" ∧ p c = true.
Proof. split; [inversion 1; eauto|intros (c & -> & ?); by constructor]. Qed.

Lemma star_class p s : matches (RStar (RClass p)) s ↔ all_chars p s = true.
Proof.
  split.
  - remember (RStar (RClass p)) as r eqn:Hr. induction 1; simplify_eq; [done|].
    rewrite all_chars_app, IHmatches2 by done.
    apply class_iff in H as (c & -> & Hc). simpl. by rewrite Hc.
  - induction s as [|c s IH]; simpl; [constructor|]. intros [??]%andb_true_iff.
    apply (MStarS _ (String c "")); [by constructor|auto].
Qed.

Lemma plus_class p s : matches (RPlus (RClass p)) s ↔ s ≠ "" ∧ all_chars p s = true.
Proof.
  unfold RPlus. rewrite cat_iff. split.
  - intros (s1 & s2 & -> & (c & -> & Hc)%class_iff & Hs%star_class).
    split; [done|]. rewrite string_app_cons. simpl. by rewrite Hc.
  - intros [Hne Hs]. destruct s as [|c s]; [done|]. simpl in Hs.
    apply andb_true_iff in Hs as [??]. exists (String c ""), s.
    split_and!; [done|by constructor|by apply star_class].
Qed.

Lemma join_cons sep x l : l ≠ [] → join sep (x :: l) = x +:+ sep +:+ join sep l.
Proof. by destruct l. Qed.

Lemma tld_iff s :
  matches (RCat (RClass is_alpha) (RPlus (RClass is_alpha))) s ↔ is_tld s.
Proof.
  unfold is_tld. rewrite cat_iff. setoid_rewrite class_iff. setoid_rewrite plus_class. split.
  - intros (s1 & s2 & -> & (c & -> & Hc) & [Hne Hs]).
    rewrite string_app_cons, string_app_nil. simpl. rewrite Hc. split; [|done].
    destruct s2; [done|]. simpl. lia.
  - destruct s as [|c [|d s]]; simpl; [lia..|]. intros [_ [Hc Hs]%andb_true_iff].
    exists (String c ""), (String d s). split_and!; eauto.
Qed.

Lemma fqdn_labels s :
  NodeHostNameIsFQDN s = true ↔
    ∃ ls l tld, Forall is_label ls ∧ is_label l ∧ is_tld tld ∧ s = join "." (ls ++ [l; tld]).
Proof.
  unfold NodeHostNameIsFQDN. rewrite match_string_correct. unfold fqdn_regex. split.
  - rewrite cat_iff. intros (s1 & s2 & -> & Hstar & H2).
    rewrite cat_iff in H2. destruct H2 as (l & r & -> & Hl%plus_class & H2).
    rewrite cat_iff in H2. destruct H2 as (d & tld & -> & (c & -> & Hc)%class_iff & Ht%tld_iff).
    apply bool_decide_eq_true in Hc as ->.
    remember (RStar _) as re eqn:Hre in Hstar. induction Hstar; simplify_eq.
    + by exists [], l, tld.
    + destruct IHHstar2 as (ls & l' & t' & ? & ? & ? & IH); [done|].
      apply cat_iff in Hstar1 as (x & d & -> & Hx%plus_class & (c & -> & Hc)%class_iff).
      apply bool_decide_eq_true in Hc as ->.
      exists (x :: ls), l', t'. split_and!; [by constructor|done..|].
      rewrite <- app_comm_cons, join_cons by by destruct ls.
      rewrite <- IH, <- !string_app_assoc. done.
  - intros (ls & l & tld & Hls & Hl & Ht & ->). induction Hls as [|x ls Hx Hls IH]; simpl.
    + apply (MCat _ _ ""); [constructor|].
      apply MCat; [by apply plus_class|]. apply (MCat _ _ "."); [by constructor|by apply tld_iff].
    + destruct (ls ++ [l; tld]) eqn:Happ; [by destruct ls|].
      apply cat_iff in IH as (s1 & s2 & -> & ? & ?).
      rewrite !string_app_assoc. constructor; [|done].
      constructor; [|done]. constructor; [by apply plus_class|by constructor].
Qed.

Lemma split_on_no_sep sep l :
  all_chars (λ c, negb (bool_decide (c = sep))) l = true → split_on sep l = [l].
Proof.
  induction l as [|c l IH]; simpl; [done|]. intros [Hc ?]%andb_true_iff.
  apply negb_true_iff, bool_decide_eq_false in Hc. rewrite decide_False by done. by rewrite IH.
Qed.

Lemma split_on_app sep l s :
  all_chars (λ c, negb (bool_decide (c = sep))) l = true →
  split_on sep (l +:+ String sep s) = l :: split_on sep s.
Proof.
  induction l as [|c l IH]; intros H; rewrite ?string_app_cons, ?string_app_nil; simpl in *;
    [by rewrite decide_True|].
  apply andb_true_iff in H as [Hc ?]. apply negb_true_iff, bool_decide_eq_false in Hc.
  rewrite decide_False by done. by rewrite IH.
Qed.

Lemma split_on_join sep ls :
  ls ≠ [] → Forall (λ l, all_chars (λ c, negb (bool_decide (c = sep))) l = true) ls →
  split_on sep (join (String sep "") ls) = ls.
Proof.
  intros Hne HF. induction HF as [|l ls Hl HF IH]; [done|].
  destruct ls as [|l' ls]; [by apply split_on_no_sep|].
  rewrite join_cons by done. rewrite string_app_cons, string_app_nil.
  rewrite split_on_app by done. by rewrite IH.
Qed.

Lemma join_split_on sep s : join (String sep "") (split_on sep s) = s.
Proof.
  induction s as [|c s IH]; [done|]. simpl. case_decide as Hc; subst.
  - destruct (split_on sep s) eqn:Hs; [by destruct s; simpl in Hs; repeat case_match|].
    rewrite join_cons, IH by done. done.
  - destruct (split_on sep s) as [|x l] eqn:Hs; [by destruct s; simpl in Hs; repeat case_match|].
    destruct l; [by simpl in *; subst|]. rewrite join_cons, string_app_cons by done.
    rewrite join_cons in IH by done. by rewrite IH.
Qed.

Lemma split_on_cons sep s : ∃ x l, split_on sep s = x :: l.
Proof.
  destruct s as [|c s]; simpl; [eauto|]. case_decide; [eauto|].
  destruct (split_on sep s); eauto.
Qed.

Lemma split2_on_spec sep s :
  split2_on sep s =
    match split_on sep s with
    | x :: (_ :: _) as l => [x; join (String sep "") l]
    | l => l
    end.
Proof.
  induction s as [|c s IH]; [done|]. simpl. case_decide as Hc; subst.
  - destruct (split_on_cons sep s) as (x & l & Hs). rewrite Hs.
    by rewrite <- Hs, join_split_on.
  - rewrite IH. destruct (split_on_cons sep s) as (x & l & ->). by destruct l.
Qed.

Lemma label_no_dot s :
  all_chars is_label_char s = true →
  all_chars (λ c, negb (bool_decide (c = "."%char))) s = true.
Proof.
  induction s as [|c s IH]; [done|]. simpl. intros [Hc Hs]%andb_true_iff.
  rewrite IH, andb_true_r by done. apply negb_true_iff, bool_decide_eq_false. by intros ->.
Qed.

Lemma alpha_label s : all_chars is_alpha s = true → all_chars is_label_char s = true.
Proof.
  induction s as [|c s IH]; [done|]. simpl. intros [Hc ?]%andb_true_iff.
  rewrite IH by done. unfold is_label_char. by rewrite Hc.
Qed.

Lemma join_ne_empty c x y l : join (String c "") (x :: y :: l) ≠ "".
Proof. rewrite join_cons by done. destruct x; by rewrite ?string_app_nil, string_app_cons. Qed.

Section properties.
Lemma fqdn_parts (hostname : string) :
  NodeHostNameIsFQDN hostname = true ↔
    ∃ labels domain tld,
      split_on "."%char hostname = labels ++ [domain; tld] ∧
      Forall is_label labels ∧ is_label domain ∧ is_tld tld.
Proof.
  rewrite fqdn_labels. split.
  - intros (ls & l & tld & Hls & Hl & Ht & ->). exists ls, l, tld.
    split_and!; try done. apply split_on_join; [by destruct ls|].
    apply Forall_app; split.
    + eapply Forall_impl; [done|]. intros x [_ ?]. by apply label_no_dot.
    + repeat constructor; apply label_no_dot; [apply Hl|]. by apply alpha_label, Ht.
  - intros (ls & l & tld & Hs & ? & ? & ?). exists ls, l, tld. split_and!; try done.
    by rewrite <- Hs, join_split_on.
Qed.

(** C40. [NodeHostNameIsFQDN] (the regular expression, matched character by
    character) accepts exactly the host names whose dot-separated parts are
    at least two non-empty labels of letters, digits and hyphens, the last
    of them two or more letters. *)
Theorem NodeHostNameIsFQDN_spec (hostname : string) :
  NodeHostNameIsFQDN hostname = true ↔
    ∃ labels domain tld,
      split_on "."%char hostname = labels ++ [domain; tld] ∧
      Forall is_label labels ∧ is_label domain ∧ is_tld tld.
Proof. apply fqdn_parts. Qed.

(** A fully qualified name has a first label and a domain: indexing
    [strings.SplitN(hostName, ".", 2)[1]] (inventory.go) is in range. *)
Lemma fqdn_split2 hostname :
  NodeHostNameIsFQDN hostname = true →
  ∃ short domain, split2_on "."%char hostname = [short; domain] ∧
    hostname = short +:+ String "."%char domain ∧ domain ≠ "".
Proof.
  rewrite fqdn_parts. intros (ls & l & tld & Hs & _ & [Hl _] & [Ht _]).
  pose proof (join_split_on "."%char hostname) as Hj. rewrite split2_on_spec, Hs in *.
  assert (∃ x y k, ls ++ [l; tld] = x :: y :: k ∧ join "." (y :: k) ≠ "")
    as (x & y & k & Heq & Hne).
  { destruct ls as [|x [|y ls]]; simpl.
    - exists l, tld, []. split; [done|]. simpl. intros ->. simpl in Ht. lia.
    - exists x, l, [tld]. split; [done|]. apply join_ne_empty.
    - exists x, y, (ls ++ [l; tld]). split; [done|].
      destruct (ls ++ [l; tld]) eqn:?; [by destruct ls|]. apply join_ne_empty. }
  rewrite Heq in *. exists x, (join "." (y :: k)). split_and!; done.
Qed.
End properties.

Example fqdn_yes : NodeHostNameIsFQDN "edpm-compute-0.ctlplane.example.com" = true.
Proof. reflexivity. Qed.
Example fqdn_no_short : NodeHostNameIsFQDN "edpm-compute-0" = false.
Proof. reflexivity. Qed.
Example fqdn_no_empty_label : NodeHostNameIsFQDN "a..com" = false.
Proof. reflexivity. Qed.
