(* ===== verification/Cluster.v ===== *)
(** The outside world: the interfaces of the code the operator calls that is
    not in the repository, one class per collaborator.

    A call of the API server (through the controller-runtime client) is a
    total function on the world [W] that returns the next world and the
    answer.  The world may change at every call, also at a read, so the model
    covers caches that lag and other writers; what an answer says about the
    world is left to the laws a theorem asks for. *)

From stdpp Require Import base gmap strings list.
From S2P Require Import Prelude GoStd Conditions Types.

(** ** controller-runtime's client, [controllerutil] *)
Class KubeClient (W : Type) := {
  GetNodeSet : NamespacedName → W → W * result OpenStackDataPlaneNodeSet;
  GetDeployment : NamespacedName → W → W * result OpenStackDataPlaneDeployment;
  GetServiceObj : NamespacedName → W → W * result OpenStackDataPlaneService;
  GetConfigMap : NamespacedName → W → W * result ConfigMap;
  GetSecret : NamespacedName → W → W * result Secret;
  GetDNSData : NamespacedName → W → W * result DNSData;
  (** lists of a namespace *)
  ListNodeSets : string → W → W * result (list OpenStackDataPlaneNodeSet);
  (** [ListOptions] with a field selector [field=value] *)
  ListNodeSetsByField : string → string → string → W → W * result (list OpenStackDataPlaneNodeSet);
  ListDeployments : string → W → W * result (list OpenStackDataPlaneDeployment);
  ListVersions : string → W → W * result (list OpenStackVersion);
  ListDNSMasqs : string → W → W * result (list DNSMasq);
  (** the names of the NetConfigs *)
  ListNetConfigs : string → W → W * result (list string);
  ListAnsibleEEs : string → gmap string string → W → W * result (list OpenStackAnsibleEE);
  (** [controllerutil.CreateOrPatch(obj, mutate)]: the object handed to
      [mutate] is [obj], completed with what the server holds; the answer is
      the object afterwards.  The callback of a baremetal set may panic, which
      panics the call ([None]).  The callback of an AnsibleEE also updates a
      variable it captured. *)
  CreateOrPatchService : OpenStackDataPlaneService →
    (OpenStackDataPlaneService → result OpenStackDataPlaneService) →
    W → W * result OpenStackDataPlaneService;
  CreateOrPatchIPSet : string → IPSet → (IPSet → result IPSet) → W → W * result IPSet;
  CreateOrPatchDNSData : string → DNSData → (DNSData → result DNSData) → W → W * result DNSData;
  CreateOrPatchBaremetalSet : string → OpenStackBaremetalSet →
    (OpenStackBaremetalSet → option (result OpenStackBaremetalSet)) →
    W → W * option (result OpenStackBaremetalSet);
  CreateOrPatchAnsibleEE : ∀ {X : Type}, OpenStackAnsibleEE →
    (X → OpenStackAnsibleEE → X * result OpenStackAnsibleEE) →
    X → W → W * (X * result OpenStackAnsibleEE);
  (** [controllerutil.SetControllerReference(owner, obj)]: the object with the
      owner reference, which no modelled field holds *)
  SetOwnerIPSet : OpenStackDataPlaneNodeSet → IPSet → result IPSet;
  SetOwnerDNSData : OpenStackDataPlaneNodeSet → DNSData → result DNSData;
  SetOwnerBaremetalSet : OpenStackDataPlaneNodeSet → OpenStackBaremetalSet → result OpenStackBaremetalSet;
  SetOwnerAnsibleEE : OpenStackDataPlaneDeployment → OpenStackAnsibleEE → result OpenStackAnsibleEE;
  (** [helper.PatchInstance(instance)] *)
  PatchNodeSet : OpenStackDataPlaneNodeSet → W → W * option Err;
  PatchDeployment : OpenStackDataPlaneDeployment → W → W * option Err;
  (** [k8serrors.NewNotFound(resource, name)] *)
  NewNotFound : string → string → Err;
}.

(** What the operator relies on: the constructor of NotFound errors makes
    errors [IsNotFound] recognises, and an owner reference is not among the
    modelled fields of an AnsibleEE. *)
Class KubeLaws {W} (KC : KubeClient W) : Prop := {
  NewNotFound_IsNotFound resource name : IsNotFound (NewNotFound resource name) = true;
  SetOwnerAnsibleEE_same d e e' : SetOwnerAnsibleEE d e = Ok e' → e' = e;
}.

(** The NodeSets the API server answers carry the names asked for. *)
Class NamedReads {W} (KC : KubeClient W) : Prop :=
  named_reads nn w w' n : GetNodeSet nn w = (w', Ok n) → ns_Name n = nn_Name nn.

(** ** lib-common: secrets, service accounts, role bindings, hashes *)
Inductive OperationResult : Type := OperationResultNone | OperationResultChanged.
#[export] Instance OperationResult_eq_dec : EqDecision OperationResult.
Proof. solve_decision. Defined.

(** [util.Template] of the inventory secret *)
Record SecretTemplate : Type := mkSecretTemplate {
  st_Name : string;
  st_Namespace : string;
  st_CustomData : gmap string string;
  st_Labels : gmap string string;
}.

Class LibCommon (W : Type) := {
  (** [secret.VerifySecret(name, keys, requeue)] *)
  VerifySecret : NamespacedName → list string → Z → W → W * (Result * option Err);
  (** [secret.GetSecrets(namespace, labels)] *)
  GetSecrets : string → gmap string string → W → W * result (list Secret);
  (** [secret.CreateOrPatchSecret] *)
  CreateOrPatchSecret : OpenStackDataPlaneNodeSet → string → Secret → W → W * result OperationResult;
  EnsureSecrets : OpenStackDataPlaneNodeSet → list SecretTemplate → W → W * option Err;
  (** [serviceaccount.CreateOrPatch], [rolebinding.CreateOrPatch] *)
  EnsureServiceAccount : NamespacedName → W → W * (Result * option Err);
  EnsureRoleBinding : NamespacedName → W → W * (Result * option Err);
  (** [configmap.Hash], [secret.Hash], [util.ObjectHash]: the text is empty
      when the error is set *)
  ConfigMapHash : ConfigMap → string * option Err;
  SecretHash : Secret → string * option Err;
  ObjectHash : OpenStackDataPlaneNodeSetSpec → string * option Err;
}.

(** ** cert-manager, through lib-common *)
Class CertManager (W : Type) := {
  GetIssuerByLabels : string → gmap string string → W → W * result Issuer;
  EnsureCert : CertificateRequest → OpenStackDataPlaneNodeSet → W → W * (Secret * Result * option Err);
  RootCAIssuerInternalLabel : string;
  CertDurationAnnotation : string;
  CertRenewBeforeAnnotation : string;
  CertDefaultDuration : string;
  (** [time.ParseDuration] *)
  ParseDuration : string → result Z;
}.

(** ** The process: environment, files, YAML *)

(** The parts of a service file after [yaml.Unmarshal] into [ServiceYAML]:
    the kind, and the still undecoded metadata and spec nodes. *)
Record ServiceYAML : Type := mkServiceYAML {
  y_Kind : string;
  y_Metadata : string;
  y_Spec : string;
}.
Class Process (W : Type) := {
  LookupEnv : string → W → W * option string;
  Setenv : string → string → W → W * ();
  (** names in a directory; contents of a file (empty on error) *)
  ReadDir : string → W → W * result (list string);
  ReadFile : string → W → W * string;
  UnmarshalServiceYAML : string → result ServiceYAML;
  DecodeMetadata : string → result string;
  DecodeServiceSpec : string → result OpenStackDataPlaneServiceSpec;
}.

(** ** Pure helpers of other packages *)
Class Validation := {
  (** [validate.Var(name, "hostname_rfc1123")] *)
  hostname_rfc1123 : string → option Err;
  (** [baremetalv1.OpenStackBaremetalSetSpec.Validate(old)] *)
  BaremetalSetValidate : OpenStackBaremetalSetSpec → OpenStackBaremetalSetSpec → option Err;
  (** [strcase.ToCamel] *)
  ToCamel : string → string;
}.

(** ** Calls that are answered *)

(** A call that is always answered, and after which [G] still holds. *)
Definition answers {W A} (G : W → Prop) (f : W → W * result A) (good : A → Prop) : Prop :=
  ∀ w, G w → G (f w).1 ∧ ∃ a, (f w).2 = Ok a ∧ good a.

Lemma goes_answer {W R A} (G : W → Prop) (f : W → W * result A) good w (Q : result A → W → Prop) :
  answers G f good → G w → (∀ a w', good a → G w' → Q (Ok a) w') → goes (R := R) (op f) w Q.
Proof.
  intros Hf Hw HQ. apply goes_op. destruct (Hf w Hw) as (Hw' & a & -> & Ha). auto.
Qed.

(** ** Properties of the world that calls keep

    [KeptByCalls P]: every call the operator makes keeps [P], the patches of
    the NodeSets and of the Deployments apart.  Jobs are only written in one
    way: those with the labels of an execution are listed first; the job that
    is found, or a new one with these labels, is then patched, and the
    callback leaves all of it but the spec and the owner. *)
Definition execution_labels (service deployment nodeSet : string) : gmap string string :=
  <["openstackdataplaneservice" := service]>
    (<["openstackdataplanedeployment" := deployment]> (<["openstackdataplanenodeset" := nodeSet]> ∅)).
Definition job_to_patch (ns : string) (labels : gmap string string)
    (listed : result (list OpenStackAnsibleEE)) (ee : OpenStackAnsibleEE) : Prop :=
  listed = Ok [ee] ∨
  (listed = Ok [] ∨ ∃ err, listed = Fail err ∧ IsNotFound err = true) ∧
    ∃ name, ee = mkEE (mkMeta name ns labels 0 true) zeroEESpec "" [].
Definition owned_job {W} {KC : KubeClient W} {X} (deployment : OpenStackDataPlaneDeployment)
    (build : X → OpenStackAnsibleEE → X * OpenStackAnsibleEESpec) (x : X) (ee : OpenStackAnsibleEE) :
    X * result OpenStackAnsibleEE :=
  ((build x ee).1,
   SetOwnerAnsibleEE deployment (mkEE (ee_Meta ee) (build x ee).2 (ee_JobStatus ee) (ee_Conditions ee))).

Class KeptByCalls {W} {KC : KubeClient W} {LC : LibCommon W} {CM : CertManager W} {PR : Process W}
    (P : W → Prop) : Prop := {
  kept_GetNodeSet nn w : P w → P (GetNodeSet nn w).1;
  kept_GetServiceObj nn w : P w → P (GetServiceObj nn w).1;
  kept_GetConfigMap nn w : P w → P (GetConfigMap nn w).1;
  kept_GetSecret nn w : P w → P (GetSecret nn w).1;
  kept_GetDNSData nn w : P w → P (GetDNSData nn w).1;
  kept_ListDeployments ns w : P w → P (ListDeployments ns w).1;
  kept_ListVersions ns w : P w → P (ListVersions ns w).1;
  kept_ListDNSMasqs ns w : P w → P (ListDNSMasqs ns w).1;
  kept_ListNetConfigs ns w : P w → P (ListNetConfigs ns w).1;
  kept_ListAnsibleEEs ns labels w : P w → P (ListAnsibleEEs ns labels w).1;
  kept_CreateOrPatchService s f w : P w → P (CreateOrPatchService s f w).1;
  kept_CreateOrPatchIPSet ns i f w : P w → P (CreateOrPatchIPSet ns i f w).1;
  kept_CreateOrPatchDNSData ns d f w : P w → P (CreateOrPatchDNSData ns d f w).1;
  kept_CreateOrPatchBaremetalSet ns b f w : P w → P (CreateOrPatchBaremetalSet ns b f w).1;
  kept_CreateOrPatchAnsibleEE {X} ns service deployment nodeSet d build e (x : X) w :
    let listed := ListAnsibleEEs ns (execution_labels service deployment nodeSet) w in
    job_to_patch ns (execution_labels service deployment nodeSet) listed.2 e →
    P w → P (CreateOrPatchAnsibleEE e (owned_job d build) x listed.1).1;
  kept_VerifySecret nn keys t w : P w → P (VerifySecret nn keys t w).1;
  kept_GetSecrets ns labels w : P w → P (GetSecrets ns labels w).1;
  kept_CreateOrPatchSecret n ns s w : P w → P (CreateOrPatchSecret n ns s w).1;
  kept_EnsureSecrets n l w : P w → P (EnsureSecrets n l w).1;
  kept_EnsureServiceAccount nn w : P w → P (EnsureServiceAccount nn w).1;
  kept_EnsureRoleBinding nn w : P w → P (EnsureRoleBinding nn w).1;
  kept_GetIssuerByLabels ns labels w : P w → P (GetIssuerByLabels ns labels w).1;
  kept_EnsureCert r n w : P w → P (EnsureCert r n w).1;
  kept_LookupEnv k w : P w → P (LookupEnv k w).1;
  kept_Setenv k v w : P w → P (Setenv k v w).1;
  kept_ReadDir d w : P w → P (ReadDir d w).1;
  kept_ReadFile f w : P w → P (ReadFile f w).1;
}.
(** The goals the walk through a body leaves. *)
Ltac kept_call :=
  match goal with
  | |- ∀ w, ?P w → ?P (?f w).1 => intros ? ?; kept_call
  | H : ?P ?w |- ?P (_ ?w).1 =>
      first
        [ apply kept_GetNodeSet | apply kept_GetServiceObj | apply kept_GetConfigMap
        | apply kept_GetSecret | apply kept_GetDNSData | apply kept_ListDeployments
        | apply kept_ListVersions | apply kept_ListDNSMasqs | apply kept_ListNetConfigs
        | apply kept_ListAnsibleEEs | apply kept_CreateOrPatchService | apply kept_CreateOrPatchIPSet
        | apply kept_CreateOrPatchDNSData | apply kept_CreateOrPatchBaremetalSet
        | apply kept_VerifySecret | apply kept_GetSecrets
        | apply kept_CreateOrPatchSecret | apply kept_EnsureSecrets | apply kept_EnsureServiceAccount
        | apply kept_EnsureRoleBinding | apply kept_GetIssuerByLabels | apply kept_EnsureCert
        | apply kept_LookupEnv | apply kept_Setenv | apply kept_ReadDir | apply kept_ReadFile ];
      exact H
  end.
Ltac keeps_calls := keeps_tac; try kept_call.
