(* ===== verification/Sim.v ===== *)
(** An API server held in memory: one implementation of the interfaces of
    [Cluster], used only where a theorem is applied at a concrete world.

    Objects are stored under "namespace/name".  The calls of the client, those
    of the Secrets apart, first take the next entry of a list of faults, so
    that a run can be made to fail at any of them. *)

From stdpp Require Import base gmap strings list.
From S2P Require Import Prelude GoStd Conditions Types Cluster.

Record Sim : Type := mkSim {
  faults : list (option Err);
  nodesets : gmap string OpenStackDataPlaneNodeSet;
  deployments : gmap string OpenStackDataPlaneDeployment;
  services : gmap string OpenStackDataPlaneService;
  configmaps : gmap string ConfigMap;
  secrets : gmap string Secret;
  ipsets : gmap string IPSet;
  dnsdata : gmap string DNSData;
  baremetalsets : gmap string OpenStackBaremetalSet;
  ansibleees : gmap string OpenStackAnsibleEE;
  versions : list OpenStackVersion;
  dnsmasqs : list DNSMasq;
  netconfigs : list string;
}.

Definition empty_sim : Sim := mkSim [] ∅ ∅ ∅ ∅ ∅ ∅ ∅ ∅ ∅ [] [] [].
Definition set_faults (f : list (option Err)) (w : Sim) : Sim :=
  mkSim f (nodesets w) (deployments w) (services w) (configmaps w) (secrets w) (ipsets w)
    (dnsdata w) (baremetalsets w) (ansibleees w) (versions w) (dnsmasqs w) (netconfigs w).
Definition set_nodesets m (w : Sim) : Sim :=
  mkSim (faults w) m (deployments w) (services w) (configmaps w) (secrets w) (ipsets w)
    (dnsdata w) (baremetalsets w) (ansibleees w) (versions w) (dnsmasqs w) (netconfigs w).
Definition set_deployments m (w : Sim) : Sim :=
  mkSim (faults w) (nodesets w) m (services w) (configmaps w) (secrets w) (ipsets w)
    (dnsdata w) (baremetalsets w) (ansibleees w) (versions w) (dnsmasqs w) (netconfigs w).
Definition set_services m (w : Sim) : Sim :=
  mkSim (faults w) (nodesets w) (deployments w) m (configmaps w) (secrets w) (ipsets w)
    (dnsdata w) (baremetalsets w) (ansibleees w) (versions w) (dnsmasqs w) (netconfigs w).
Definition set_configmaps m (w : Sim) : Sim :=
  mkSim (faults w) (nodesets w) (deployments w) (services w) m (secrets w) (ipsets w)
    (dnsdata w) (baremetalsets w) (ansibleees w) (versions w) (dnsmasqs w) (netconfigs w).
Definition set_secrets m (w : Sim) : Sim :=
  mkSim (faults w) (nodesets w) (deployments w) (services w) (configmaps w) m (ipsets w)
    (dnsdata w) (baremetalsets w) (ansibleees w) (versions w) (dnsmasqs w) (netconfigs w).
Definition set_ipsets m (w : Sim) : Sim :=
  mkSim (faults w) (nodesets w) (deployments w) (services w) (configmaps w) (secrets w) m
    (dnsdata w) (baremetalsets w) (ansibleees w) (versions w) (dnsmasqs w) (netconfigs w).
Definition set_dnsdata m (w : Sim) : Sim :=
  mkSim (faults w) (nodesets w) (deployments w) (services w) (configmaps w) (secrets w) (ipsets w)
    m (baremetalsets w) (ansibleees w) (versions w) (dnsmasqs w) (netconfigs w).
Definition set_baremetalsets m (w : Sim) : Sim :=
  mkSim (faults w) (nodesets w) (deployments w) (services w) (configmaps w) (secrets w) (ipsets w)
    (dnsdata w) m (ansibleees w) (versions w) (dnsmasqs w) (netconfigs w).
Definition set_ansibleees m (w : Sim) : Sim :=
  mkSim (faults w) (nodesets w) (deployments w) (services w) (configmaps w) (secrets w) (ipsets w)
    (dnsdata w) (baremetalsets w) m (versions w) (dnsmasqs w) (netconfigs w).
Definition set_netconfigs m (w : Sim) : Sim :=
  mkSim (faults w) (nodesets w) (deployments w) (services w) (configmaps w) (secrets w) (ipsets w)
    (dnsdata w) (baremetalsets w) (ansibleees w) (versions w) (dnsmasqs w) m.

Definition key (ns name : string) : string := ns +:+ "/" +:+ name.
Definition notFound : Err := mkErr true "not found".

(** Take the next fault; run the call when there is none. *)
Definition faulty {A} (f : Sim → Sim * result A) (w : Sim) : Sim * result A :=
  match faults w with
  | [] => f w
  | None :: fs => f (set_faults fs w)
  | Some e :: fs => (set_faults fs w, Fail e)
  end.
Definition fetch {A} (m : Sim → gmap string A) (nn : NamespacedName) : Sim → Sim * result A :=
  faulty (λ w, (w, match m w !! key (nn_Namespace nn) (nn_Name nn) with
                   | Some a => Ok a
                   | None => Fail notFound
                   end)).
Definition in_namespace {A} (meta : A → ObjectMeta) (ns : string) (m : gmap string A) : list A :=
  filter (λ a, m_Namespace (meta a) = ns) (map_to_list m).*2.
Definition upsert {A} (m : Sim → gmap string A) (set : gmap string A → Sim → Sim) (k : string)
    (a : A) (mutate : A → result A) : Sim → Sim * result A :=
  faulty (λ w,
    match mutate (default a (m w !! k)) with
    | Ok a' => (set (<[k := a']> (m w)) w, Ok a')
    | Fail e => (w, Fail e)
    end).
Definition labelled (labels : gmap string string) (o : ObjectMeta) : bool :=
  bool_decide (labels ⊆ m_Labels o).

(** The values of an indexed field: the ConfigMaps, or else the Secrets, a
    NodeSet refers to. *)
Definition field_values (field : string) (n : OpenStackDataPlaneNodeSet) : list string :=
  let template := ns_NodeTemplate (ns_Spec n) in
  let sources := ao_AnsibleVarsFrom (t_Ansible template) ++
    (map_to_list (ns_Nodes (ns_Spec n)) ≫= λ kv, ao_AnsibleVarsFrom (n_Ansible kv.2)) in
  if decide (field = "spec.ansibleVarsFrom.ansible.configMaps")
  then omap (λ s, es_Name <$> ds_ConfigMapRef s) sources
  else (if decide (t_AnsibleSSHPrivateKeySecret template = "") then []
        else [t_AnsibleSSHPrivateKeySecret template]) ++
       omap (λ s, es_Name <$> ds_SecretRef s) sources.

(** An object under the name it is stored by. *)
Definition named_as (nn : NamespacedName) (n : OpenStackDataPlaneNodeSet) : OpenStackDataPlaneNodeSet :=
  let m := ns_Meta n in
  mkNodeSet (mkMeta (nn_Name nn) (nn_Namespace nn) (m_Labels m) (m_Generation m)
    (m_DeletionTimestampIsZero m)) (ns_Spec n) (ns_Status n).

#[export] Instance sim_kube : KubeClient Sim := {|
  GetNodeSet nn w :=
    let '(w', r) := fetch nodesets nn w in
    (w', match r with Ok n => Ok (named_as nn n) | Fail e => Fail e end);
  GetDeployment nn w :=
    let '(w', r) := fetch deployments nn w in
    (w', match r with
         | Ok d => if decide (d_Namespace d = nn_Namespace nn ∧ d_Name d = nn_Name nn)
                   then Ok d else Fail notFound
         | Fail e => Fail e
         end);
  GetServiceObj := fetch services;
  GetConfigMap := fetch configmaps;
  GetSecret nn w := (w, match secrets w !! key (nn_Namespace nn) (nn_Name nn) with
                        | Some s => Ok s
                        | None => Fail notFound
                        end);
  GetDNSData := fetch dnsdata;
  ListNodeSets ns := faulty (λ w, (w, Ok (in_namespace ns_Meta ns (nodesets w))));
  ListNodeSetsByField ns field value := faulty (λ w, (w, Ok (filter (λ n,
      value ∈ field_values field n) (in_namespace ns_Meta ns (nodesets w)))));
  ListDeployments ns := faulty (λ w, (w, Ok (in_namespace d_Meta ns (deployments w))));
  ListVersions _ := faulty (λ w, (w, Ok (versions w)));
  ListDNSMasqs _ := faulty (λ w, (w, Ok (dnsmasqs w)));
  ListNetConfigs _ := faulty (λ w, (w, Ok (netconfigs w)));
  ListAnsibleEEs ns labels := faulty (λ w, (w, Ok (filter (λ e, Is_true (labelled labels (ee_Meta e)))
      (in_namespace ee_Meta ns (ansibleees w)))));
  CreateOrPatchService s := upsert services set_services (key (svc_Namespace s) (svc_Name s)) s;
  CreateOrPatchIPSet ns i := upsert ipsets set_ipsets (key ns (ip_Name i)) i;
  CreateOrPatchDNSData ns d := upsert dnsdata set_dnsdata (key ns (dd_Name d)) d;
  CreateOrPatchBaremetalSet ns b mutate w :=
    let k := key ns (bs_Name b) in
    match mutate (default b (baremetalsets w !! k)) with
    | Some (Ok b') => (set_baremetalsets (<[k := b']> (baremetalsets w)) w, Some (Ok b'))
    | Some (Fail e) => (w, Some (Fail e))
    | None => (w, None)
    end;
  CreateOrPatchAnsibleEE X e mutate x w :=
    let k := key (m_Namespace (ee_Meta e)) (m_Name (ee_Meta e)) in
    let '(x', r) := mutate x (default e (ansibleees w !! k)) in
    match r with
    | Ok e' => (set_ansibleees (<[k := e']> (ansibleees w)) w, (x', Ok e'))
    | Fail err => (w, (x', Fail err))
    end;
  SetOwnerIPSet _ i := Ok i;
  SetOwnerDNSData _ d := Ok d;
  SetOwnerBaremetalSet _ b := Ok b;
  SetOwnerAnsibleEE _ e := Ok e;
  PatchNodeSet n w :=
    (set_nodesets (<[key (ns_Namespace n) (ns_Name n) := n]> (nodesets w)) w, None);
  PatchDeployment d w :=
    (set_deployments (<[key (d_Namespace d) (d_Name d) := d]> (deployments w)) w, None);
  NewNotFound resource name := mkErr true (resource +:+ " " +:+ name +:+ " not found");
|}.
#[export] Instance sim_kube_laws : KubeLaws sim_kube.
Proof. split; [done|]. by intros d e e' [= ->]. Qed.

#[export] Instance sim_named_reads : NamedReads sim_kube.
Proof.
  intros nn w w' n. simpl. destruct (fetch nodesets nn w) as [w1 [n1|e]]; [|done].
  by intros [= _ <-].
Qed.

#[export] Instance sim_lib : LibCommon Sim := {|
  VerifySecret nn keys requeue w :=
    match secrets w !! key (nn_Namespace nn) (nn_Name nn) with
    | Some s =>
        if forallb (λ k, bool_decide (is_Some (sec_Data s !! k))) keys
        then (w, (emptyResult, None))
        else (w, (emptyResult, Some (errors_New "field not found in secret")))
    | None => (w, (mkResult false requeue, Some notFound))
    end;
  GetSecrets ns labels w :=
    (w, Ok (filter (λ s, labels ⊆ sec_Labels s) (map_to_list (secrets w)).*2));
  CreateOrPatchSecret _ ns s w :=
    if decide (secrets w !! key ns (sec_Name s) = Some s) then (w, Ok OperationResultNone)
    else (set_secrets (<[key ns (sec_Name s) := s]> (secrets w)) w, Ok OperationResultChanged);
  EnsureSecrets _ ts w :=
    (set_secrets (fold_left (λ m t, <[key (st_Namespace t) (st_Name t) :=
        mkSecret (st_Name t) (st_Labels t) (st_CustomData t)]> m) ts (secrets w)) w, None);
  EnsureServiceAccount _ w := (w, (emptyResult, None));
  EnsureRoleBinding _ w := (w, (emptyResult, None));
  ConfigMapHash c := (cm_Name c, None);
  SecretHash s := (sec_Name s, None);
  ObjectHash s := (b_DomainName (ns_BaremetalSetTemplate s), None);
|}.

#[export] Instance sim_certs : CertManager Sim := {|
  GetIssuerByLabels ns labels w := (w, Ok (mkIssuer "rootca-internal" ∅));
  EnsureCert req _ w :=
    (w, (mkSecret ("cert-" +:+ cr_CertName req) (cr_Labels req)
           {[ "ca.crt" := "ca"; "tls.crt" := cr_CertName req; "tls.key" := "key" ]},
         emptyResult, None));
  RootCAIssuerInternalLabel := "osp-rootca-issuer-internal";
  CertDurationAnnotation := "duration";
  CertRenewBeforeAnnotation := "renew-before";
  CertDefaultDuration := "43800h0m0s";
  ParseDuration s := if decide (s = "43800h0m0s") then Ok 157680000000000000%Z else Fail (errors_New s);
|}.

#[export] Instance sim_validation : Validation := {|
  hostname_rfc1123 name := if decide (name = "") then Some (errors_New "empty") else None;
  BaremetalSetValidate new old :=
    if decide (b_DomainName new = b_DomainName old) then None
    else Some (errors_New "cannot change domainName");
  ToCamel s := s;
|}.

(** Two service files beside another file; a file holds its own path. *)
#[export] Instance sim_process : Process Sim := {|
  LookupEnv _ w := (w, None);
  Setenv _ _ w := (w, ());
  ReadDir _ w := (w, Ok ["README.md"; "bootstrap.yaml"; "ovn.yaml"]);
  ReadFile path w := (w, path);
  UnmarshalServiceYAML data := Ok (mkServiceYAML "OpenStackDataPlaneService" data data);
  DecodeMetadata m :=
    if decide (m = "config/services/ovn.yaml") then Ok "ovn" else Ok "bootstrap";
  DecodeServiceSpec m := Ok (svc_Spec (service_of "" m false));
|}.

(** What the AnsibleEE operator does: the jobs succeed. *)
Definition jobs_succeed (w : Sim) : Sim :=
  set_ansibleees ((λ e, mkEE (ee_Meta e) (ee_Spec e) JobStatusSucceeded (ee_Conditions e)) <$> ansibleees w) w.
