(* ===== verification/Images.v ===== *)
(** Container images: the built-in defaults, the environment
    (api/v1beta1/openstackdataplanenodeset_types.go), the OpenStackVersion of
    the namespace and the choice between them (pkg/util/version.go). *)

From stdpp Require Import base gmap strings list.
From S2P Require Import Prelude GoStd Conditions Types Cluster.

(** [ContainerImageDefaults] *)
Definition ContainerImageDefaults : ContainerImages := {|
  ci_AgentImage := Some "quay.io/openstack-k8s-operators/openstack-baremetal-operator-agent:current-podified";
  ci_AnsibleeeImage := Some "quay.io/openstack-k8s-operators/openstack-ansibleee-runner:latest";
  ci_ApacheImage := Some "registry.redhat.io/ubi9/httpd-24:latest";
  ci_EdpmFrrImage := Some "quay.io/podified-antelope-centos9/openstack-frr:current-podified";
  ci_EdpmIscsidImage := Some "quay.io/podified-antelope-centos9/openstack-iscsid:current-podified";
  ci_EdpmLogrotateCrondImage := Some "quay.io/podified-antelope-centos9/openstack-cron:current-podified";
  ci_EdpmMultipathdImage := Some "quay.io/podified-antelope-centos9/openstack-multipathd:current-podified";
  ci_EdpmNeutronDhcpAgentImage := Some "quay.io/podified-antelope-centos9/openstack-neutron-dhcp-agent:current-podified";
  ci_EdpmNeutronMetadataAgentImage := Some "quay.io/podified-antelope-centos9/openstack-neutron-metadata-agent-ovn:current-podified";
  ci_EdpmNeutronOvnAgentImage := Some "quay.io/podified-antelope-centos9/openstack-neutron-ovn-agent:current-podified";
  ci_EdpmNeutronSriovAgentImage := Some "quay.io/podified-antelope-centos9/openstack-neutron-sriov-agent:current-podified";
  ci_EdpmNodeExporterImage := Some "quay.io/podified-antelope-centos9/openstack-telemetry-node-exporter:current-podified";
  ci_EdpmOvnBgpAgentImage := Some "quay.io/podified-antelope-centos9/openstack-ovn-bgp-agent:current-podified";
  ci_CeilometerComputeImage := Some "quay.io/podified-antelope-centos9/openstack-telemetry-ceilometer-compute:current-podified";
  ci_CeilometerIpmiImage := Some "quay.io/podified-antelope-centos9/openstack-telemetry-ceilometer-ipmi:current-podified";
  ci_NovaComputeImage := Some "quay.io/podified-antelope-centos9/openstack-nova-compute:current-podified";
  ci_OvnControllerImage := Some "quay.io/podified-antelope-centos9/openstack-ovn-controller:current-podified";
  ci_OsContainerImage := Some "quay.io/podified-antelope-centos9/edpm-hardened-uefi:current-podified";
  ci_Others := ∅;
|}.

Section images.
(** [util.GetEnvVar(name, default)] of lib-common: the process environment. *)
Context (GetEnvVar : string → string → string).

(** [getImageDefault] dereferences the default. *)
Definition getImageDefault (envVar : string) (defaultImage : option string) : option (option string) :=
  d ← defaultImage; Some (Some (GetEnvVar envVar d)).

(** [SetupDefaults]: [None] stands for a nil dereference. *)
Definition SetupDefaults : option ContainerImages :=
  AgentImage_ ← getImageDefault "RELATED_IMAGE_AGENT_IMAGE_URL_DEFAULT" (ci_AgentImage ContainerImageDefaults);
  AnsibleeeImage_ ← getImageDefault "RELATED_IMAGE_ANSIBLEEE_IMAGE_URL_DEFAULT" (ci_AnsibleeeImage ContainerImageDefaults);
  ApacheImage_ ← getImageDefault "RELATED_IMAGE_APACHE_IMAGE_URL_DEFAULT" (ci_ApacheImage ContainerImageDefaults);
  EdpmFrrImage_ ← getImageDefault "RELATED_IMAGE_EDPM_FRR_IMAGE_URL_DEFAULT" (ci_EdpmFrrImage ContainerImageDefaults);
  EdpmIscsidImage_ ← getImageDefault "RELATED_IMAGE_EDPM_ISCSID_IMAGE_URL_DEFAULT" (ci_EdpmIscsidImage ContainerImageDefaults);
  EdpmLogrotateCrondImage_ ← getImageDefault "RELATED_IMAGE_EDPM_LOGROTATE_CROND_IMAGE_URL_DEFAULT" (ci_EdpmLogrotateCrondImage ContainerImageDefaults);
  EdpmMultipathdImage_ ← getImageDefault "RELATED_IMAGE_EDPM_MULTIPATHD_IMAGE_URL_DEFAULT" (ci_EdpmMultipathdImage ContainerImageDefaults);
  EdpmNeutronDhcpAgentImage_ ← getImageDefault "RELATED_IMAGE_EDPM_NEUTRON_DHCP_AGENT_IMAGE_URL_DEFAULT" (ci_EdpmNeutronDhcpAgentImage ContainerImageDefaults);
  EdpmNeutronMetadataAgentImage_ ← getImageDefault "RELATED_IMAGE_EDPM_NEUTRON_METADATA_AGENT_IMAGE_URL_DEFAULT" (ci_EdpmNeutronMetadataAgentImage ContainerImageDefaults);
  EdpmNeutronOvnAgentImage_ ← getImageDefault "RELATED_IMAGE_EDPM_NEUTRON_OVN_AGENT_IMAGE_URL_DEFAULT" (ci_EdpmNeutronOvnAgentImage ContainerImageDefaults);
  EdpmNeutronSriovAgentImage_ ← getImageDefault "RELATED_IMAGE_EDPM_NEUTRON_SRIOV_AGENT_IMAGE_URL_DEFAULT" (ci_EdpmNeutronSriovAgentImage ContainerImageDefaults);
  EdpmNodeExporterImage_ ← getImageDefault "RELATED_IMAGE_EDPM_NODE_EXPORTER_IMAGE_URL_DEFAULT" (ci_EdpmNodeExporterImage ContainerImageDefaults);
  EdpmOvnBgpAgentImage_ ← getImageDefault "RELATED_IMAGE_EDPM_OVN_BGP_AGENT_IMAGE_URL_DEFAULT" (ci_EdpmOvnBgpAgentImage ContainerImageDefaults);
  CeilometerComputeImage_ ← getImageDefault "RELATED_IMAGE_CEILOMETER_COMPUTE_IMAGE_URL_DEFAULT" (ci_CeilometerComputeImage ContainerImageDefaults);
  CeilometerIpmiImage_ ← getImageDefault "RELATED_IMAGE_CEILOMETER_IPMI_IMAGE_URL_DEFAULT" (ci_CeilometerIpmiImage ContainerImageDefaults);
  NovaComputeImage_ ← getImageDefault "RELATED_IMAGE_NOVA_COMPUTE_IMAGE_URL_DEFAULT" (ci_NovaComputeImage ContainerImageDefaults);
  OvnControllerImage_ ← getImageDefault "RELATED_IMAGE_OVN_CONTROLLER_AGENT_IMAGE_URL_DEFAULT" (ci_OvnControllerImage ContainerImageDefaults);
  OsContainerImage_ ← getImageDefault "RELATED_IMAGE_OS_CONTAINER_IMAGE_URL_DEFAULT" (ci_OsContainerImage ContainerImageDefaults);
  Some {|
    ci_AgentImage := AgentImage_;
    ci_AnsibleeeImage := AnsibleeeImage_;
    ci_ApacheImage := ApacheImage_;
    ci_EdpmFrrImage := EdpmFrrImage_;
    ci_EdpmIscsidImage := EdpmIscsidImage_;
    ci_EdpmLogrotateCrondImage := EdpmLogrotateCrondImage_;
    ci_EdpmMultipathdImage := EdpmMultipathdImage_;
    ci_EdpmNeutronDhcpAgentImage := EdpmNeutronDhcpAgentImage_;
    ci_EdpmNeutronMetadataAgentImage := EdpmNeutronMetadataAgentImage_;
    ci_EdpmNeutronOvnAgentImage := EdpmNeutronOvnAgentImage_;
    ci_EdpmNeutronSriovAgentImage := EdpmNeutronSriovAgentImage_;
    ci_EdpmNodeExporterImage := EdpmNodeExporterImage_;
    ci_EdpmOvnBgpAgentImage := EdpmOvnBgpAgentImage_;
    ci_CeilometerComputeImage := CeilometerComputeImage_;
    ci_CeilometerIpmiImage := CeilometerIpmiImage_;
    ci_NovaComputeImage := NovaComputeImage_;
    ci_OvnControllerImage := OvnControllerImage_;
    ci_OsContainerImage := OsContainerImage_;
    ci_Others := ∅;
  |}.
End images.

(** The package variable [ContainerImages] of the API, after start-up. *)
Class PackageImages := package_images : ContainerImages.
#[export] Instance default_package_images : PackageImages | 10 := ContainerImageDefaults.

(** [GetContainerImages], with the package variable [ContainerImages] that
    [SetupDefaults] initialises. *)
Definition GetContainerImages (ContainerImagesVar : ContainerImages)
    (version : option OpenStackVersion) : ContainerImages :=
  match version with
  | Some version => {|
      ci_AgentImage := ci_AgentImage (ver_ContainerImages version);
      ci_AnsibleeeImage := ci_AnsibleeeImage (ver_ContainerImages version);
      ci_ApacheImage := ci_ApacheImage (ver_ContainerImages version);
      ci_EdpmFrrImage := ci_EdpmFrrImage (ver_ContainerImages version);
      ci_EdpmIscsidImage := ci_EdpmIscsidImage (ver_ContainerImages version);
      ci_EdpmLogrotateCrondImage := ci_EdpmLogrotateCrondImage (ver_ContainerImages version);
      ci_EdpmMultipathdImage := ci_EdpmMultipathdImage (ver_ContainerImages version);
      ci_EdpmNeutronDhcpAgentImage := ci_EdpmNeutronDhcpAgentImage (ver_ContainerImages version);
      ci_EdpmNeutronMetadataAgentImage := ci_EdpmNeutronMetadataAgentImage (ver_ContainerImages version);
      ci_EdpmNeutronOvnAgentImage := ci_EdpmNeutronOvnAgentImage (ver_ContainerImages version);
      ci_EdpmNeutronSriovAgentImage := ci_EdpmNeutronSriovAgentImage (ver_ContainerImages version);
      ci_EdpmNodeExporterImage := ci_EdpmNodeExporterImage (ver_ContainerImages version);
      ci_EdpmOvnBgpAgentImage := ci_EdpmOvnBgpAgentImage (ver_ContainerImages version);
      ci_CeilometerComputeImage := ci_CeilometerComputeImage (ver_ContainerImages version);
      ci_CeilometerIpmiImage := ci_CeilometerIpmiImage (ver_ContainerImages version);
      ci_NovaComputeImage := ci_NovaComputeImage (ver_ContainerImages version);
      ci_OvnControllerImage := ci_OvnControllerImage (ver_ContainerImages version);
      ci_OsContainerImage := ci_OsContainerImage (ver_ContainerImages version);
      ci_Others := ∅;
    |}
  | None => {|
      ci_AgentImage := ci_AgentImage ContainerImagesVar;
      ci_AnsibleeeImage := ci_AnsibleeeImage ContainerImagesVar;
      ci_ApacheImage := ci_ApacheImage ContainerImagesVar;
      ci_EdpmFrrImage := ci_EdpmFrrImage ContainerImagesVar;
      ci_EdpmIscsidImage := ci_EdpmIscsidImage ContainerImagesVar;
      ci_EdpmLogrotateCrondImage := ci_EdpmLogrotateCrondImage ContainerImagesVar;
      ci_EdpmMultipathdImage := ci_EdpmMultipathdImage ContainerImagesVar;
      ci_EdpmNeutronDhcpAgentImage := ci_EdpmNeutronDhcpAgentImage ContainerImagesVar;
      ci_EdpmNeutronMetadataAgentImage := ci_EdpmNeutronMetadataAgentImage ContainerImagesVar;
      ci_EdpmNeutronOvnAgentImage := ci_EdpmNeutronOvnAgentImage ContainerImagesVar;
      ci_EdpmNeutronSriovAgentImage := ci_EdpmNeutronSriovAgentImage ContainerImagesVar;
      ci_EdpmNodeExporterImage := ci_EdpmNodeExporterImage ContainerImagesVar;
      ci_EdpmOvnBgpAgentImage := ci_EdpmOvnBgpAgentImage ContainerImagesVar;
      ci_CeilometerComputeImage := ci_CeilometerComputeImage ContainerImagesVar;
      ci_CeilometerIpmiImage := ci_CeilometerIpmiImage ContainerImagesVar;
      ci_NovaComputeImage := ci_NovaComputeImage ContainerImagesVar;
      ci_OvnControllerImage := ci_OvnControllerImage ContainerImagesVar;
      ci_OsContainerImage := ci_OsContainerImage ContainerImagesVar;
      ci_Others := ∅;
    |}
  end.

(** The fields of [ContainerImages] that [GetContainerImages] copies, by name. *)
Definition named_fields (c : ContainerImages) : list (string * option string) := [
  ("AgentImage", ci_AgentImage c);
  ("AnsibleeeImage", ci_AnsibleeeImage c);
  ("ApacheImage", ci_ApacheImage c);
  ("EdpmFrrImage", ci_EdpmFrrImage c);
  ("EdpmIscsidImage", ci_EdpmIscsidImage c);
  ("EdpmLogrotateCrondImage", ci_EdpmLogrotateCrondImage c);
  ("EdpmMultipathdImage", ci_EdpmMultipathdImage c);
  ("EdpmNeutronDhcpAgentImage", ci_EdpmNeutronDhcpAgentImage c);
  ("EdpmNeutronMetadataAgentImage", ci_EdpmNeutronMetadataAgentImage c);
  ("EdpmNeutronOvnAgentImage", ci_EdpmNeutronOvnAgentImage c);
  ("EdpmNeutronSriovAgentImage", ci_EdpmNeutronSriovAgentImage c);
  ("EdpmNodeExporterImage", ci_EdpmNodeExporterImage c);
  ("EdpmOvnBgpAgentImage", ci_EdpmOvnBgpAgentImage c);
  ("CeilometerComputeImage", ci_CeilometerComputeImage c);
  ("CeilometerIpmiImage", ci_CeilometerIpmiImage c);
  ("NovaComputeImage", ci_NovaComputeImage c);
  ("OvnControllerImage", ci_OvnControllerImage c);
  ("OsContainerImage", ci_OsContainerImage c)
].

(** [reflect.Indirect(v.FieldByName(name)).String()]: the text of the field
    that holds a string pointer; reflection prints a missing field and a nil
    pointer alike. *)
Definition invalid_value : string := "<invalid Value>".
Definition FieldByName (c : ContainerImages) (name : string) : string :=
  match list_find (λ f, f.1 = name) (named_fields c) with
  | Some (_, (_, v)) => default invalid_value v
  | None => default invalid_value (ci_Others c !! name)
  end.

Section version.
Context {W : Type} {K : KubeClient W}.

Definition multiple_versions : string :=
  "Found multiple OpenStackVersions when at most 1 should exist".

(** [GetVersion] *)
Definition GetVersion (namespace : string) : M W (result (option OpenStackVersion)) (result (option OpenStackVersion)) :=
  versions ← op (ListVersions namespace);
  match versions with
  | Fail err => return_ (Fail err)
  | Ok items =>
      match items with
      | _ :: _ :: _ => return_ (Fail (errors_New multiple_versions))
      | [v] => mret (Ok (Some v))
      | [] => mret (Ok None)
      end
  end.
End version.

(** A field, its default and its value at start-up. *)
Definition set_up (GetEnvVar : string → string → string) (d v : string * option string) : Prop :=
  v.1 = d.1 ∧ ∃ env default_, d.2 = Some default_ ∧ v.2 = Some (GetEnvVar env default_).

(** At start-up every container image gets a value: the one of an
    environment variable over the built-in default of the same field, no
    default being missing.  An execution then uses these images when the
    namespace has no OpenStackVersion, and exactly the images of the
    OpenStackVersion otherwise. *)
Theorem container_images_spec (GetEnvVar : string → string → string) :
  ∃ images, SetupDefaults GetEnvVar = Some images ∧
    Forall2 (set_up GetEnvVar) (named_fields ContainerImageDefaults)
      (named_fields (GetContainerImages images None)) ∧
    ∀ version, named_fields (GetContainerImages images (Some version)) =
      named_fields (ver_ContainerImages version).
Proof.
  unfold SetupDefaults, getImageDefault. simpl. eexists. split_and!; [reflexivity| |done].
  unfold named_fields. simpl. repeat (constructor; [split; [done|by eexists _, _]|]). constructor.
Qed.
