(* ===== verification/ApiTypes.v ===== *)
(** The methods of the API types (api/v1beta1/*_types.go): [IsReady],
    [InitConditions], [GetAnsibleEESpec], and the check for duplicate nodes. *)

From stdpp Require Import base gmap strings list.
From S2P Require Import Prelude GoStd Conditions Types.

Section operations.
Context {CO : ConditionOps}.

Definition NodeSet_IsReady (instance : OpenStackDataPlaneNodeSet) : bool :=
  cond_is_true (ns_Conditions instance) ReadyCondition.
Definition Deployment_IsReady (instance : OpenStackDataPlaneDeployment) : bool :=
  cond_is_true (d_Conditions instance) ReadyCondition.
Definition Service_IsReady (instance : OpenStackDataPlaneService) : bool :=
  cond_is_true (svc_Conditions instance) ReadyCondition.

(** The list a NodeSet's conditions are initialised from. *)
Definition NodeSet_condition_list (instance : OpenStackDataPlaneNodeSet) : Conditions :=
  [ UnknownCondition DeploymentReadyCondition InitReason DeploymentReadyInitMessage [];
    UnknownCondition InputReadyCondition InitReason InputReadyInitMessage [];
    UnknownCondition SetupReadyCondition InitReason InitReason [];
    UnknownCondition NodeSetIPReservationReadyCondition InitReason InitReason [];
    UnknownCondition NodeSetDNSDataReadyCondition InitReason InitReason [];
    UnknownCondition ServiceAccountReadyCondition InitReason ServiceAccountReadyInitMessage [] ] ++
  (if decide (entries (b_BaremetalHosts (ns_BaremetalSetTemplate (ns_Spec instance))) = ∅)
   then []
   else [UnknownCondition NodeSetBareMetalProvisionReadyCondition InitReason InitReason []]).

(** [OpenStackDataPlaneNodeSet.InitConditions] (pointer receiver) *)
Definition NodeSet_InitConditions (instance : OpenStackDataPlaneNodeSet) : OpenStackDataPlaneNodeSet :=
  let s := ns_Status instance in
  mkNodeSet (ns_Meta instance) (ns_Spec instance)
    (mkNodeSetStatus (cond_init [] (NodeSet_condition_list instance)) (Some ∅)
       (nss_AllHostnames s) (nss_AllIPs s) (nss_ConfigMapHashes s) (nss_SecretHashes s)
       (nss_DNSClusterAddresses s) (nss_ContainerImages s) (nss_CtlplaneSearchDomain s)
       (nss_ConfigHash s) (nss_DeployedConfigHash s) (nss_ObservedGeneration s)
       (nss_DeployedVersion s)).

Definition NodeSet_GetAnsibleEESpec (instance : OpenStackDataPlaneNodeSet) : AnsibleEESpec :=
  mkAeeSpec (t_ExtraMounts (ns_NodeTemplate (ns_Spec instance))) (ns_Env (ns_Spec instance))
    None None (ns_NetworkAttachments (ns_Spec instance)) "" "" "" "" (ns_Name instance).

Definition Deployment_condition_list : Conditions :=
  [ UnknownCondition DeploymentReadyCondition InitReason DeploymentReadyInitMessage [];
    UnknownCondition InputReadyCondition InitReason InputReadyInitMessage [] ].
(** The conditions each NodeSet of a Deployment starts from. *)
Definition initial_nodeset_conditions : Conditions :=
  cond_set [] (UnknownCondition NodeSetDeploymentReadyCondition InitReason DeploymentReadyInitMessage []).

(** [OpenStackDataPlaneDeployment.InitConditions] (pointer receiver) *)
Definition Deployment_InitConditions (instance : OpenStackDataPlaneDeployment) : OpenStackDataPlaneDeployment :=
  let s := d_Status instance in
  mkDeployment (d_Meta instance) (d_Spec instance)
    (mkDeploymentStatus
       (fold_left (λ m nodeSet, <[nodeSet := initial_nodeset_conditions]> m)
          (d_NodeSets (d_Spec instance)) ∅)
       (ds_ConfigMapHashes s) (ds_SecretHashes s) (ds_NodeSetHashes s) (ds_ContainerImages s)
       (cond_init [] Deployment_condition_list) (ds_ObservedGeneration s)
       (ds_DeployedVersion s) false).

(** [OpenStackDataPlaneService.InitConditions] has a value receiver: it
    initialises the conditions of a copy, which is dropped. *)
Definition Service_InitConditions (instance : OpenStackDataPlaneService) :
    OpenStackDataPlaneService * OpenStackDataPlaneService :=
  let copy := mkService (svc_Meta instance) (svc_Spec instance)
    (cond_init (svc_Conditions instance)
       [UnknownCondition ReadyCondition InitReason InitReason []]) in
  (instance, copy).
End operations.

(** ** Duplicate nodes *)

(** [field.Error] *)
Inductive FieldError : Type :=
  | FInvalid (path detail : string)
  | FForbidden (path detail : string).

Section duplicates.
Context {MR : MapRange}.

(** The names the nodes of the existing NodeSets go by. *)
Definition node_names (node : NodeSection) : list string :=
  n_HostName node ::
  (if decide (ao_AnsibleHost (n_Ansible node) = "") then []
   else [ao_AnsibleHost (n_Ansible node)]).
Definition existingNodeNames (nodeSetList : list OpenStackDataPlaneNodeSet) : list string :=
  fold_left (λ names existing,
    fold_left (λ names node, names ++ node_names node)
      (range_values "duplicateNodeCheck/existing" (ns_Nodes (ns_Spec existing))) names)
    nodeSetList [].

Definition duplicateNodeCheck (r : OpenStackDataPlaneNodeSetSpec)
    (nodeSetList : list OpenStackDataPlaneNodeSet) : list FieldError :=
  let existing := existingNodeNames nodeSetList in
  fold_left (λ errors newNode,
    errors ++
      (if contains existing (n_HostName newNode) ||
          contains existing (ao_AnsibleHost (n_Ansible newNode))
       then [FInvalid "spec.nodes"
              ("node " +:+ n_HostName newNode +:+ " already exists in another cluster")]
       else []))
    (range_values "duplicateNodeCheck/new" (ns_Nodes r)) [].
End duplicates.

(** ** Facts *)

Section init_facts.
Context {CO : ConditionOps} {CL : ConditionLaws CO}.

Lemma status_init_unknown cs ts t :
  (∀ c, c ∈ cs → Status c = CUnknown) →
  status_of (fold_left cond_set cs ts) t =
    if decide (t ∈ (CType <$> cs)) then Some CUnknown else status_of ts t.
Proof.
  revert ts. induction cs as [|c cs IH]; intros ts Hu.
  - rewrite decide_False; [done|apply not_elem_of_nil].
  - rewrite fmap_cons. simpl. rewrite IH by (intros; apply Hu; by right). rewrite status_set.
    destruct (decide (t ∈ (CType <$> cs))) as [Hin|Hin].
    + by rewrite decide_True by (by right).
    + destruct (decide (t = CType c)) as [->|Hne].
      * rewrite decide_True by left. f_equal. apply Hu. left.
      * by rewrite decide_False by (by rewrite elem_of_cons; intros [?|?]).
Qed.

(** After [Init] every listed condition and Ready are Unknown, and nothing
    else is present. *)
Lemma status_cond_init cl t :
  (∀ c, c ∈ cl → Status c = CUnknown) →
  status_of (cond_init [] cl) t =
    if decide (t = ReadyCondition ∨ t ∈ (CType <$> cl)) then Some CUnknown else None.
Proof.
  intros Hu. rewrite init_spec, status_init_unknown by done.
  rewrite status_Unknown_set, status_nil. repeat case_decide; naive_solver.
Qed.
End init_facts.

Section init_properties.
Context {CO : ConditionOps} {CL : ConditionLaws CO}.

(** The condition types a NodeSet reports on. *)
Definition NodeSet_types (instance : OpenStackDataPlaneNodeSet) : list string :=
  [DeploymentReadyCondition; InputReadyCondition; SetupReadyCondition;
   NodeSetIPReservationReadyCondition; NodeSetDNSDataReadyCondition;
   ServiceAccountReadyCondition] ++
  (if decide (entries (b_BaremetalHosts (ns_BaremetalSetTemplate (ns_Spec instance))) = ∅)
   then [] else [NodeSetBareMetalProvisionReadyCondition]).

Lemma NodeSet_condition_list_types instance :
  CType <$> NodeSet_condition_list instance = NodeSet_types instance.
Proof.
  unfold NodeSet_condition_list, NodeSet_types. rewrite fmap_app. simpl.
  rewrite !UnknownCondition_type. case_decide; simpl; [done|]. by rewrite UnknownCondition_type.
Qed.

Lemma NodeSet_condition_list_unknown instance c :
  c ∈ NodeSet_condition_list instance → Status c = CUnknown.
Proof.
  unfold NodeSet_condition_list. rewrite elem_of_app, !elem_of_cons.
  case_decide; rewrite ?elem_of_cons, ?elem_of_nil; intros Hin;
    destruct_or?; subst; try done; apply UnknownCondition_status.
Qed.

(** [InitConditions] of a NodeSet forgets every earlier condition and
    leaves Ready and exactly the conditions the NodeSet reports on (the
    baremetal one only when there are baremetal hosts), all Unknown; it
    resets the deployment statuses and touches nothing else. *)
Theorem NodeSet_InitConditions_spec (instance : OpenStackDataPlaneNodeSet) (t : string) :
  status_of (ns_Conditions (NodeSet_InitConditions instance)) t =
    (if decide (t = ReadyCondition ∨ t ∈ NodeSet_types instance) then Some CUnknown else None) ∧
  nss_DeploymentStatuses (ns_Status (NodeSet_InitConditions instance)) = Some ∅ ∧
  ns_Spec (NodeSet_InitConditions instance) = ns_Spec instance ∧
  ns_Meta (NodeSet_InitConditions instance) = ns_Meta instance.
Proof.
  split; [|done]. unfold ns_Conditions. simpl.
  rewrite status_cond_init by apply NodeSet_condition_list_unknown.
  by rewrite NodeSet_condition_list_types.
Qed.

Lemma fold_insert_const {A} (l : list string) (m : gmap string A) (a : A) k :
  fold_left (λ m k, <[k := a]> m) l m !! k = if decide (k ∈ l) then Some a else m !! k.
Proof.
  revert m. induction l as [|x l IH]; intros m.
  - rewrite decide_False; [done|apply not_elem_of_nil].
  - simpl. rewrite IH. destruct (decide (k ∈ l)).
    + by rewrite decide_True by (by right).
    + destruct (decide (k = x)) as [->|].
      * by rewrite decide_True, lookup_insert_eq by left.
      * rewrite decide_False, lookup_insert_ne by (rewrite ?elem_of_cons; naive_solver). done.
Qed.

Lemma status_initial_nodeset t :
  status_of initial_nodeset_conditions t =
    if decide (t = NodeSetDeploymentReadyCondition) then Some CUnknown else None.
Proof. unfold initial_nodeset_conditions. by rewrite status_Unknown_set, status_nil. Qed.

Lemma Deployment_InitConditions_nodesets instance name :
  ds_NodeSetConditions (d_Status (Deployment_InitConditions instance)) !! name =
    if decide (name ∈ d_NodeSets (d_Spec instance)) then Some initial_nodeset_conditions else None.
Proof. simpl. by rewrite fold_insert_const, lookup_empty. Qed.

Lemma status_Deployment_init instance t :
  status_of (d_Conditions (Deployment_InitConditions instance)) t =
    if decide (t ∈ [ReadyCondition; DeploymentReadyCondition; InputReadyCondition])
    then Some CUnknown else None.
Proof.
  unfold d_Conditions. simpl. rewrite status_cond_init.
  - unfold Deployment_condition_list. simpl. rewrite !UnknownCondition_type.
    rewrite (decide_ext _ (t ∈ [ReadyCondition; DeploymentReadyCondition; InputReadyCondition])); [done|].
    rewrite !elem_of_cons. tauto.
  - unfold Deployment_condition_list. intros c. rewrite !elem_of_cons, elem_of_nil.
    intros [->|[->|[]]]; apply UnknownCondition_status.
Qed.

(** [InitConditions] of a Deployment gives every NodeSet of the spec,
    and no other, one condition, NodeSetDeploymentReady, which is Unknown;
    its own conditions are Ready, DeploymentReady and InputReady, Unknown;
    and the Deployment is not deployed. *)
Theorem Deployment_InitConditions_spec (instance : OpenStackDataPlaneDeployment) (name t : string) :
  let status := d_Status (Deployment_InitConditions instance) in
  (λ cs, status_of cs t) <$> (ds_NodeSetConditions status !! name) =
    (if decide (name ∈ d_NodeSets (d_Spec instance))
     then Some (if decide (t = NodeSetDeploymentReadyCondition) then Some CUnknown else None)
     else None) ∧
  status_of (ds_Conditions status) t =
    (if decide (t ∈ [ReadyCondition; DeploymentReadyCondition; InputReadyCondition])
     then Some CUnknown else None) ∧
  ds_Deployed status = false.
Proof.
  intros status. split_and!; [| |done].
  - unfold status. rewrite Deployment_InitConditions_nodesets.
    destruct (decide (name ∈ _)); [|done]. simpl. f_equal. apply status_initial_nodeset.
  - apply (status_Deployment_init instance t).
Qed.
End init_properties.

Section duplicate_properties.
Context {MR : MapRange} {MRL : MapRangeLaws MR}.

Lemma elem_of_fold_app2 {A B C} (f : B → list C) (g : A → list B) (l : list A) acc x :
  x ∈ fold_left (λ acc a, fold_left (λ acc b, acc ++ f b) (g a) acc) l acc ↔
    x ∈ acc ∨ ∃ a b, a ∈ l ∧ b ∈ g a ∧ x ∈ f b.
Proof.
  revert acc. induction l as [|a l IH]; intros acc; simpl.
  - setoid_rewrite elem_of_nil. naive_solver.
  - rewrite IH, elem_of_fold_app. setoid_rewrite elem_of_cons. naive_solver.
Qed.

Lemma elem_of_existingNodeNames l x :
  x ∈ existingNodeNames l ↔
    ∃ nodeset name node, nodeset ∈ l ∧ ns_Nodes (ns_Spec nodeset) !! name = Some node ∧
      x ∈ node_names node.
Proof.
  unfold existingNodeNames. rewrite elem_of_fold_app2, elem_of_nil.
  setoid_rewrite elem_of_range_values. naive_solver.
Qed.

Lemma elem_of_node_names x node :
  x ∈ node_names node ↔
    x = n_HostName node ∨ (x = ao_AnsibleHost (n_Ansible node) ∧ x ≠ "").
Proof.
  unfold node_names. case_decide as Hh; rewrite !elem_of_cons, elem_of_nil; naive_solver.
Qed.

Lemma not_nil_elem {A} (l : list A) : l ≠ [] ↔ ∃ x, x ∈ l.
Proof.
  destruct l as [|x l]; [|split; [exists x; by left|done]].
  setoid_rewrite elem_of_nil. naive_solver.
Qed.

(** A new node goes by a name some existing node goes by. *)
Definition clashes (r : OpenStackDataPlaneNodeSetSpec) (l : list OpenStackDataPlaneNodeSet) : Prop :=
  ∃ name node nodeset name' node',
    ns_Nodes r !! name = Some node ∧ nodeset ∈ l ∧
    ns_Nodes (ns_Spec nodeset) !! name' = Some node' ∧
    (n_HostName node ∈ node_names node' ∨ ao_AnsibleHost (n_Ansible node) ∈ node_names node').

Lemma duplicateNodeCheck_errors (r : OpenStackDataPlaneNodeSetSpec)
    (l : list OpenStackDataPlaneNodeSet) :
  duplicateNodeCheck r l ≠ [] ↔ clashes r l.
Proof.
  rewrite not_nil_elem. unfold duplicateNodeCheck, clashes.
  setoid_rewrite elem_of_fold_app. setoid_rewrite elem_of_nil.
  setoid_rewrite elem_of_range_values. split.
  - intros (e & [[]|(node & [name Hn] & He)]).
    destruct (_ || _) eqn:Hc; [|by apply elem_of_nil in He].
    rewrite orb_true_iff, !contains_true, !elem_of_existingNodeNames in Hc. naive_solver.
  - intros (name & node & ns & name' & node' & Hn & Hin & Hn' & Hc).
    assert (contains (existingNodeNames l) (n_HostName node)
            || contains (existingNodeNames l) (ao_AnsibleHost (n_Ansible node)) = true) as Ht.
    { rewrite orb_true_iff, !contains_true, !elem_of_existingNodeNames. naive_solver. }
    eexists. right. exists node. rewrite Ht. split; [eauto|by left].
Qed.

Lemma duplicateNodeCheck_nil r l : duplicateNodeCheck r l = [] ↔ ¬ clashes r l.
Proof. rewrite <- duplicateNodeCheck_errors. destruct (duplicateNodeCheck r l); naive_solver. Qed.

(** [duplicateNodeCheck] reports an error exactly when the host name or
    the Ansible host of a new node is the host name, or the non-empty
    Ansible host, of a node of an existing NodeSet; in whatever order Go
    iterates over the maps. *)
Theorem duplicateNodeCheck_spec (r : OpenStackDataPlaneNodeSetSpec)
    (l : list OpenStackDataPlaneNodeSet) :
  duplicateNodeCheck r l ≠ [] ↔ clashes r l.
Proof. apply duplicateNodeCheck_errors. Qed.
End duplicate_properties.

(** ** The properties at concrete objects *)

Import ListConditions.

Lemma NodeSet_InitConditions_witness :
  status_of (ns_Conditions (NodeSet_InitConditions (nodeset_of "openstack" "edpm" ∅ true)))
    SetupReadyCondition = Some CUnknown.
Proof. by rewrite (proj1 (NodeSet_InitConditions_spec _ _)). Defined.

Lemma Deployment_InitConditions_witness :
  (λ cs, status_of cs NodeSetDeploymentReadyCondition) <$>
    (ds_NodeSetConditions (d_Status (Deployment_InitConditions
       (deployment_of "openstack" "deploy" ["edpm-a"; "edpm-b"]))) !! "edpm-b") =
  Some (Some CUnknown).
Proof.
  rewrite (proj1 (Deployment_InitConditions_spec _ "edpm-b" NodeSetDeploymentReadyCondition)).
  reflexivity.
Defined.

Lemma duplicateNodeCheck_witness :
  duplicateNodeCheck (ns_Spec (nodeset_of "openstack" "b" {[ "n2" := named_node "host" ]} true))
    [nodeset_of "openstack" "a" {[ "n1" := named_node "host" ]} true] ≠ [].
Proof.
  apply duplicateNodeCheck_spec.
  exists "n2", (named_node "host"), (nodeset_of "openstack" "a" {[ "n1" := named_node "host" ]} true),
    "n1", (named_node "host").
  split_and!; [done|by left|done|]. left. by left.
Defined.
