(* ===== verification/Webhooks.v ===== *)
(** The admission webhooks (api/v1beta1/*_webhook.go): defaulting and
    validation of NodeSets, Services and Deployments. *)

From stdpp Require Import base gmap strings list.
From S2P Require Import Prelude GoStd Conditions Types Fqdn Cluster Sim ApiTypes.

(** ** OpenStackDataPlaneNodeSet: Default *)

Section default.
Context {MR : MapRange}.

(** One iteration of the first loop: the host name, and the node as it is
    written back. *)
Definition default_host (preProvisioned : bool) (domain nodeName host : string) : string :=
  let host := if decide (host = "") then nodeName else host in
  if negb preProvisioned && (negb (NodeHostNameIsFQDN host) && bool_decide (domain ≠ ""))
  then join "." [nodeName; domain] else host.
Definition default_node (preProvisioned : bool) (domain nodeName : string)
    (node : NodeSection) : NodeSection :=
  mkNode (n_ExtraMounts node) (n_Networks node) (n_UserData node) (n_NetworkData node)
    (n_Ansible node) (default_host preProvisioned domain nodeName (n_HostName node)) (n_ManagementNetwork node) (n_PreprovisioningNetworkDataName node).
Definition default_nodes (spec : OpenStackDataPlaneNodeSetSpec) : gmap string NodeSection :=
  insert_all fst (λ kv, default_node (ns_PreProvisioned spec)
      (b_DomainName (ns_BaremetalSetTemplate spec)) kv.1 kv.2)
    (range "Default/nodes" (ns_Nodes spec)) (ns_Nodes spec).

Definition node_instance (node : NodeSection) : InstanceSpec :=
  mkInstance "" (n_UserData node) (n_NetworkData node) (n_PreprovisioningNetworkDataName node).
Definition nodeSetHostMap (nodes : gmap string NodeSection) : gmap string InstanceSpec :=
  insert_all n_HostName node_instance
    (range_values "Default/hosts" nodes) ∅.

Definition set_AnsibleUser (user : string) (t : NodeTemplate) : NodeTemplate :=
  mkTemplate (t_ExtraMounts t) (t_Networks t) (t_UserData t) (t_NetworkData t)
    (t_AnsibleSSHPrivateKeySecret t) (t_ManagementNetwork t)
    (mkAnsibleOpts user (ao_AnsibleHost (t_Ansible t)) (ao_AnsibleVars (t_Ansible t))
       (ao_AnsibleVarsFrom (t_Ansible t)) (ao_AnsiblePort (t_Ansible t))).
Definition set_hosts (hosts : gmap string InstanceSpec) (sshSecret : string)
    (b : OpenStackBaremetalSetSpec) : OpenStackBaremetalSetSpec :=
  mkBaremetalSpec (Some hosts) (b_DomainName b) (b_CloudUserName b) sshSecret
    (b_OSContainerImageURL b) (b_AgentImageURL b) (b_ApacheImageURL b) (b_CtlplaneGateway b)
    (b_BootstrapDNS b) (b_DNSSearchDomains b) (b_Other b).
Definition set_spec_parts (b : OpenStackBaremetalSetSpec) (t : NodeTemplate)
    (nodes : gmap string NodeSection) (s : OpenStackDataPlaneNodeSetSpec) :
    OpenStackDataPlaneNodeSetSpec :=
  mkNodeSetSpec b t nodes (ns_Env s) (ns_NetworkAttachments s) (ns_Services s) (ns_Tags s)
    (ns_SecretMaxSize s) (ns_PreProvisioned s) (ns_TLSEnabled s).

(** [OpenStackDataPlaneNodeSetSpec.Default] *)
Definition NodeSetSpec_Default (spec : OpenStackDataPlaneNodeSetSpec) :
    OpenStackDataPlaneNodeSetSpec :=
  let b := ns_BaremetalSetTemplate spec in
  let t := ns_NodeTemplate spec in
  let nodes := default_nodes spec in
  if negb (ns_PreProvisioned spec) then
    let t' := set_AnsibleUser (b_CloudUserName b) t in
    let sshSecret :=
      if decide (b_DeploymentSSHSecret b = "") then t_AnsibleSSHPrivateKeySecret t'
      else b_DeploymentSSHSecret b in
    set_spec_parts (set_hosts (nodeSetHostMap nodes) sshSecret b) t' nodes spec
  else if decide (ao_AnsibleUser (t_Ansible t) = "") then
    set_spec_parts b (set_AnsibleUser "cloud-admin" t) nodes spec
  else set_spec_parts b t nodes spec.

Definition NodeSet_Default (r : OpenStackDataPlaneNodeSet) : OpenStackDataPlaneNodeSet :=
  mkNodeSet (ns_Meta r) (NodeSetSpec_Default (ns_Spec r)) (ns_Status r).
End default.

(** ** Validation *)

(** The [apierrors] the webhooks answer with. *)
Inductive AdmissionError : Type :=
  | NewInvalid (kind name : string) (errors : list FieldError)
  | NewConflict (resource name : string) (e : Err)
  | NewInternalError (e : Err)
  | ApiError (e : Err).

Section nodeset_validation.
Context {W : Type} {KC : KubeClient W} {CO : ConditionOps} {V : Validation} {MR : MapRange}.

(** [OpenStackDataPlaneNodeSetSpec.ValidateCreate] *)
Definition NodeSetSpec_ValidateCreate (r : OpenStackDataPlaneNodeSetSpec)
    (nodeSetList : list OpenStackDataPlaneNodeSet) : list FieldError :=
  if ns_PreProvisioned r && bool_decide (length nodeSetList ≠ 0)
  then duplicateNodeCheck r nodeSetList
  else [].

Definition NodeSet_ValidateCreate (r : OpenStackDataPlaneNodeSet) :
    M W (option AdmissionError) (option AdmissionError) :=
  l ← op (ListNodeSets (ns_Namespace r));
  match l with
  | Fail err => return_ (Some (ApiError err))
  | Ok nodeSetList =>
      let errors :=
        match hostname_rfc1123 (ns_Name r) with
        | Some _ =>
            [FInvalid "Name" (sprintf
               "Error validating OpenStackDataPlaneNodeSet name %s, name must follow RFC1123"
               [ns_Name r])]
        | None => []
        end in
      let errors := errors ++ NodeSetSpec_ValidateCreate (ns_Spec r) nodeSetList in
      if decide (0 < length errors) then
        return_ (Some (NewInvalid "OpenStackDataPlaneNodeSet" (ns_Name r) errors))
      else mret None
  end.

(** [OpenStackDataPlaneNodeSetSpec.ValidateUpdate] *)
Definition NodeSetSpec_ValidateUpdate (r oldSpec : OpenStackDataPlaneNodeSetSpec) : list FieldError :=
  if negb (bool_decide (ns_BaremetalSetTemplate r = ns_BaremetalSetTemplate oldSpec)) then
    match BaremetalSetValidate (ns_BaremetalSetTemplate r) (ns_BaremetalSetTemplate oldSpec) with
    | Some err => [FForbidden "spec.baremetalSetTemplate" (Error err)]
    | None => []
    end
  else [].

(** The body of the loop over the deployments of the old status. *)
Definition ValidateUpdate_check (r : OpenStackDataPlaneNodeSet) (entry : string * Conditions) :
    M W (option AdmissionError) () :=
  let '(deployName, deployConditions) := entry in
  let deployCondition := cond_get deployConditions NodeSetDeploymentReadyCondition in
  if negb (cond_is_true deployConditions NodeSetDeploymentReadyCondition) &&
     negb (cond_is_error deployCondition)
  then
    c ← deref deployCondition;
    return_ (Some (NewConflict "OpenStackDataPlaneNodeSet" (ns_Name r)
      (Errorf "could not patch openstackdataplanenodeset while openstackdataplanedeployment %s (blocked on %s condition) is running"
         [deployName; CType c])))
  else mret ().
(** [old] is [None] when the object is not a NodeSet. *)
Definition NodeSet_ValidateUpdate (r : OpenStackDataPlaneNodeSet)
    (old : option OpenStackDataPlaneNodeSet) :
    M W (option AdmissionError) (option AdmissionError) :=
  match old with
  | None =>
      return_ (Some (NewInternalError (errors_New
        "expected a OpenStackDataPlaneNodeSet object, but got *v1beta1.OpenStackDataPlaneNodeSet")))
  | Some oldNodeSet =>
      match NodeSetSpec_ValidateUpdate (ns_Spec r) (ns_Spec oldNodeSet) with
      | (_ :: _) as errors =>
          return_ (Some (NewInvalid "OpenStackDataPlaneNodeSet" (ns_Name r) errors))
      | [] =>
          match nss_DeploymentStatuses (ns_Status oldNodeSet) with
          | None => mret None
          | Some statuses =>
              _ ← for_each (range "ValidateUpdate" statuses) (ValidateUpdate_check r);
              mret None
          end
      end
  end.

(** [OpenStackDataPlaneNodeSetSpec.ValidateDelete] *)
Definition NodeSetSpec_ValidateDelete (r : OpenStackDataPlaneNodeSetSpec) : list FieldError := [].
Definition NodeSet_ValidateDelete (r : OpenStackDataPlaneNodeSet) :
    M W (option AdmissionError) (option AdmissionError) :=
  let errors := NodeSetSpec_ValidateDelete (ns_Spec r) in
  if decide (length errors ≠ 0)
  then return_ (Some (NewInvalid "OpenStackDataPlaneNodeSet" (ns_Name r) errors))
  else mret None.
End nodeset_validation.

(** ** OpenStackDataPlaneService and OpenStackDataPlaneDeployment *)

Definition ServiceSpec_Default (name : string) (spec : OpenStackDataPlaneServiceSpec) :
    OpenStackDataPlaneServiceSpec :=
  if decide (s_EDPMServiceType spec = "") then
    mkServiceSpec (s_ConfigMaps spec) (s_Secrets spec) (s_DataSources spec) (s_TLSCerts spec)
      (s_PlaybookContents spec) (s_Playbook spec) (s_CACerts spec)
      (s_OpenStackAnsibleEERunnerImage spec) (s_CertsFrom spec) (s_AddCertMounts spec)
      (s_DeployOnAllNodeSets spec) (s_ContainerImageFields spec) name
  else spec.
Definition Service_Default (r : OpenStackDataPlaneService) : OpenStackDataPlaneService :=
  mkService (svc_Meta r) (ServiceSpec_Default (svc_Name r) (svc_Spec r)) (svc_Conditions r).

(** The validators of both types run a list of checks that is empty so far. *)
Definition ServiceSpec_ValidateCreate (spec : OpenStackDataPlaneServiceSpec) : list FieldError := [].
Definition ServiceSpec_ValidateUpdate (spec : OpenStackDataPlaneServiceSpec) : list FieldError := [].
Definition ServiceSpec_ValidateDelete (spec : OpenStackDataPlaneServiceSpec) : list FieldError := [].
Definition service_answer (r : OpenStackDataPlaneService) (errors : list FieldError) : option AdmissionError :=
  if decide (length errors ≠ 0)
  then Some (NewInvalid "OpenStackDataPlaneService" (svc_Name r) errors) else None.
Definition Service_ValidateCreate (r : OpenStackDataPlaneService) : option AdmissionError :=
  service_answer r (ServiceSpec_ValidateCreate (svc_Spec r)).
Definition Service_ValidateUpdate (r : OpenStackDataPlaneService) : option AdmissionError :=
  service_answer r (ServiceSpec_ValidateUpdate (svc_Spec r)).
Definition Service_ValidateDelete (r : OpenStackDataPlaneService) : option AdmissionError :=
  service_answer r (ServiceSpec_ValidateDelete (svc_Spec r)).

Definition DeploymentSpec_Default (spec : OpenStackDataPlaneDeploymentSpec) :
    OpenStackDataPlaneDeploymentSpec := spec.
Definition Deployment_Default (r : OpenStackDataPlaneDeployment) : OpenStackDataPlaneDeployment :=
  mkDeployment (d_Meta r) (DeploymentSpec_Default (d_Spec r)) (d_Status r).
Definition DeploymentSpec_ValidateCreate (spec : OpenStackDataPlaneDeploymentSpec) : list FieldError := [].
Definition DeploymentSpec_ValidateUpdate (spec : OpenStackDataPlaneDeploymentSpec) : list FieldError := [].
Definition DeploymentSpec_ValidateDelete (spec : OpenStackDataPlaneDeploymentSpec) : list FieldError := [].
Definition deployment_answer (r : OpenStackDataPlaneDeployment) (errors : list FieldError) :
    option AdmissionError :=
  if decide (length errors ≠ 0)
  then Some (NewInvalid "OpenStackDataPlaneDeployment" (d_Name r) errors) else None.
Definition Deployment_ValidateCreate (r : OpenStackDataPlaneDeployment) : option AdmissionError :=
  deployment_answer r (DeploymentSpec_ValidateCreate (d_Spec r)).
Definition Deployment_ValidateUpdate (r : OpenStackDataPlaneDeployment) : option AdmissionError :=
  deployment_answer r (DeploymentSpec_ValidateUpdate (d_Spec r)).
Definition Deployment_ValidateDelete (r : OpenStackDataPlaneDeployment) : option AdmissionError :=
  deployment_answer r (DeploymentSpec_ValidateDelete (d_Spec r)).

(** ** Properties of Default *)

Lemma join_dot_nonempty a b : join "." [a; b] ≠ "".
Proof. by destruct a; cbn. Qed.

(** No two nodes go by one host name. *)
Definition distinct_hosts (nodes : gmap string NodeSection) : Prop :=
  ∀ k1 k2 n1 n2, nodes !! k1 = Some n1 → nodes !! k2 = Some n2 →
    n_HostName n1 = n_HostName n2 → k1 = k2.

Section default_facts.
Context {MR : MapRange} {MRL : MapRangeLaws MR}.

Lemma default_nodes_lookup spec k :
  default_nodes spec !! k =
    default_node (ns_PreProvisioned spec) (b_DomainName (ns_BaremetalSetTemplate spec)) k <$>
      ns_Nodes spec !! k.
Proof.
  unfold default_nodes. rewrite (insert_all_range _ (default_node _ _)).
  by destruct (ns_Nodes spec !! k).
Qed.

Lemma host_names_NoDup site nodes :
  distinct_hosts nodes → NoDup (n_HostName <$> range_values site nodes).
Proof.
  intros Hd. unfold range_values. rewrite <- list_fmap_compose.
  apply NoDup_fmap_2_strong; [|apply range_NoDup].
  intros [k1 n1] [k2 n2] H1%elem_of_range H2%elem_of_range He.
  pose proof (Hd _ _ _ _ H1 H2 He). naive_solver.
Qed.

Lemma nodeSetHostMap_keys nodes h :
  is_Some (nodeSetHostMap nodes !! h) ↔ ∃ k n, nodes !! k = Some n ∧ n_HostName n = h.
Proof.
  unfold nodeSetHostMap. rewrite insert_all_keys, lookup_empty, list_elem_of_fmap.
  setoid_rewrite elem_of_range_values. rewrite is_Some_alt. naive_solver.
Qed.

Lemma nodeSetHostMap_lookup nodes k n :
  distinct_hosts nodes → nodes !! k = Some n →
  nodeSetHostMap nodes !! n_HostName n = Some (node_instance n).
Proof.
  intros Hd Hn. apply insert_all_elem; [by apply host_names_NoDup|].
  apply elem_of_range_values. eauto.
Qed.

Lemma Default_nodes spec : ns_Nodes (NodeSetSpec_Default spec) = default_nodes spec.
Proof. unfold NodeSetSpec_Default. by repeat case_match. Qed.

Lemma Default_hosts spec :
  ns_PreProvisioned spec = false →
  b_BaremetalHosts (ns_BaremetalSetTemplate (NodeSetSpec_Default spec)) =
    Some (nodeSetHostMap (default_nodes spec)).
Proof. unfold NodeSetSpec_Default. by intros ->. Qed.
End default_facts.

(** The host map does not depend on the order of the loop. *)
Lemma nodeSetHostMap_order (MR1 MR2 : MapRange) (L1 : MapRangeLaws MR1) (L2 : MapRangeLaws MR2)
    nodes :
  distinct_hosts nodes → @nodeSetHostMap MR1 nodes = @nodeSetHostMap MR2 nodes.
Proof.
  intros Hd. apply map_eq. intros h. destruct (@nodeSetHostMap MR2 nodes !! h) as [i|] eqn:H2.
  - destruct (proj1 (nodeSetHostMap_keys (MR := MR2) nodes h)) as (k & n & Hn & <-); [by rewrite H2|].
    rewrite (nodeSetHostMap_lookup _ _ _ Hd Hn) in H2. simplify_eq.
    by rewrite (nodeSetHostMap_lookup _ _ _ Hd Hn).
  - apply eq_None_not_Some. intros (k & n & Hn & <-)%nodeSetHostMap_keys.
    by rewrite (nodeSetHostMap_lookup _ _ _ Hd Hn) in H2.
Qed.

Lemma default_host_idem pre domain k h :
  default_host pre domain k (default_host pre domain k h) = default_host pre domain k h.
Proof.
  unfold default_host at 2 3. set (h' := if decide (h = "") then k else h).
  assert (h' = "" → k = "") as Hk by (unfold h'; by case_decide).
  destruct (negb pre && (negb (NodeHostNameIsFQDN h') && bool_decide (domain ≠ ""))) eqn:Hc;
    unfold default_host.
  - rewrite decide_False by apply join_dot_nonempty. by case_match.
  - destruct (decide (h' = "")) as [He|He]; [|by rewrite Hc].
    rewrite He in Hc |- *. rewrite (Hk He). by rewrite Hc.
Qed.

Lemma default_node_idem pre domain k n :
  default_node pre domain k (default_node pre domain k n) = default_node pre domain k n.
Proof. unfold default_node. simpl. by rewrite default_host_idem. Qed.

Lemma Default_nodes_idem (MR1 MR2 : MapRange) (L1 : MapRangeLaws MR1) (L2 : MapRangeLaws MR2) spec :
  @default_nodes MR2 (@NodeSetSpec_Default MR1 spec) = @default_nodes MR1 spec.
Proof.
  apply map_eq. intros k. rewrite default_nodes_lookup, Default_nodes, default_nodes_lookup.
  destruct (ns_Nodes spec !! k); [|done]. simpl. f_equal.
  unfold NodeSetSpec_Default. repeat case_match; simpl; by rewrite default_node_idem.
Qed.

(** C31. Defaulting a NodeSet is idempotent: admitting a defaulted NodeSet
    again (each time with its own iteration order over the nodes) changes
    nothing, when no two nodes go by one host name. *)
Theorem NodeSetSpec_Default_idempotent (MR1 MR2 : MapRange) (L1 : MapRangeLaws MR1)
    (L2 : MapRangeLaws MR2) (spec : OpenStackDataPlaneNodeSetSpec) :
  distinct_hosts (@default_nodes MR1 spec) →
  @NodeSetSpec_Default MR2 (@NodeSetSpec_Default MR1 spec) = @NodeSetSpec_Default MR1 spec.
Proof.
  intros Hd. unfold NodeSetSpec_Default at 1. rewrite (Default_nodes_idem MR1 MR2 L1 L2).
  unfold NodeSetSpec_Default. destruct (ns_PreProvisioned spec) eqn:Hp; simpl.
  - case_decide as Hu; simpl; rewrite Hp; simpl; [done|]. by rewrite decide_False.
  - rewrite Hp. simpl. rewrite (nodeSetHostMap_order MR2 MR1 L2 L1 _ Hd).
    unfold set_spec_parts, set_hosts. simpl. do 2 f_equal. by repeat case_decide.
Qed.

(** The baremetal hosts of a defaulted NodeSet that is not
    pre-provisioned are exactly the host names of its nodes, and with distinct
    host names each host gets the user data, network data and
    pre-provisioning network of its node; every node has a host name. *)
Theorem NodeSetSpec_Default_hosts (MR : MapRange) (L : MapRangeLaws MR)
    (spec : OpenStackDataPlaneNodeSetSpec) :
  ns_PreProvisioned spec = false →
  let spec' := NodeSetSpec_Default spec in
  let hosts := entries (b_BaremetalHosts (ns_BaremetalSetTemplate spec')) in
  (∀ host, is_Some (hosts !! host) ↔
    ∃ nodeName node, ns_Nodes spec' !! nodeName = Some node ∧ n_HostName node = host) ∧
  (distinct_hosts (ns_Nodes spec') → ∀ nodeName node,
    ns_Nodes spec' !! nodeName = Some node → hosts !! n_HostName node = Some (node_instance node)) ∧
  (∀ nodeName node, nodeName ≠ "" → ns_Nodes spec' !! nodeName = Some node → n_HostName node ≠ "").
Proof.
  intros Hp spec' hosts. unfold hosts, spec'. rewrite Default_hosts, Default_nodes by done. simpl.
  split_and!.
  - intros host. apply nodeSetHostMap_keys.
  - intros Hd nodeName node Hn. by eapply nodeSetHostMap_lookup.
  - intros nodeName node Hne. rewrite default_nodes_lookup.
    intros (n & _ & ->)%fmap_Some. simpl. unfold default_host.
    case_match; [apply join_dot_nonempty|]. by case_decide.
Qed.

(** ** Properties of the validation *)

Section validation_facts.
Context {W : Type} {KC : KubeClient W} {CO : ConditionOps} {V : Validation}.
Context {MR : MapRange} {MRL : MapRangeLaws MR}.

(** A deployment that no longer blocks an update. *)
Definition deployment_finished (cs : Conditions) : bool :=
  cond_is_true cs NodeSetDeploymentReadyCondition ||
  cond_is_error (cond_get cs NodeSetDeploymentReadyCondition).

(** The answers to an update that a running deployment blocks. *)
Definition blocked_answer (r : OpenStackDataPlaneNodeSet) (statuses : gmap string Conditions)
    (w : W) (a : outcome (option AdmissionError) () * W) : Prop :=
  a.2 = w ∧ ∃ name cs, statuses !! name = Some cs ∧ deployment_finished cs = false ∧
    match cond_get cs NodeSetDeploymentReadyCondition with
    | Some _ => ∃ e, a.1 = Return (Some (NewConflict "OpenStackDataPlaneNodeSet" (ns_Name r) e))
    | None => a.1 = Panic
    end.

Lemma ValidateUpdate_loop (r : OpenStackDataPlaneNodeSet) (statuses : gmap string Conditions) (w : W) :
  let l := range "ValidateUpdate" statuses in
  if forallb (λ x, deployment_finished x.2) l
  then for_each l (ValidateUpdate_check r) w = (Next (), w)
  else blocked_answer r statuses w (for_each l (ValidateUpdate_check r) w).
Proof.
  intros l. apply for_each_checks; intros [name cs] Hin%elem_of_range; simpl;
    unfold deployment_finished; rewrite <- negb_orb; intros Hf; rewrite Hf; simpl; [done|].
  unfold blocked_answer, mbind, M_bind, deref, return_.
  destruct (cond_get cs _) as [c|] eqn:Hc; (split; [|done]);
    (split; [done|]); exists name, cs; rewrite Hc; unfold deployment_finished; rewrite Hc;
    repeat split; eauto.
Qed.

Lemma forallb_range (site : string) (f : Conditions → bool) (m : gmap string Conditions) :
  forallb (λ x, f x.2) (range site m) = true ↔ ∀ name cs, m !! name = Some cs → f cs = true.
Proof.
  rewrite forallb_forall. split.
  - intros H name cs Hm%(elem_of_range site). apply list_elem_of_In in Hm. by apply (H _ Hm).
  - intros H [name cs] Hin%list_elem_of_In%elem_of_range. by eapply H.
Qed.

(** C34. An update of a NodeSet is admitted exactly when its baremetal
    template is unchanged or accepted by the baremetal validator, and every
    deployment recorded in the status of the old object is over (its
    NodeSetDeploymentReady is True or an error).  When only a deployment is
    in the way the answer is a conflict, provided every recorded deployment
    has that condition; without it the webhook panics on the nil pointer
    instead.  The webhook never changes the cluster. *)
Theorem NodeSet_ValidateUpdate_spec (r old : OpenStackDataPlaneNodeSet) (w : W) :
  let statuses := entries (nss_DeploymentStatuses (ns_Status old)) in
  let spec_errors := NodeSetSpec_ValidateUpdate (ns_Spec r) (ns_Spec old) in
  let running name cs := statuses !! name = Some cs ∧ deployment_finished cs = false in
  let m := NodeSet_ValidateUpdate r (Some old) in
  (m w).2 = w ∧
  (run m w = Some None ↔
    spec_errors = [] ∧ ∀ name cs, statuses !! name = Some cs → deployment_finished cs = true) ∧
  (spec_errors ≠ [] →
    run m w = Some (Some (NewInvalid "OpenStackDataPlaneNodeSet" (ns_Name r) spec_errors))) ∧
  (spec_errors = [] → (∃ name cs, running name cs) →
    (run m w = None ∧ ∃ name cs, running name cs ∧
       cond_get cs NodeSetDeploymentReadyCondition = None) ∨
    ∃ e, run m w = Some (Some (NewConflict "OpenStackDataPlaneNodeSet" (ns_Name r) e))).
Proof.
  intros statuses spec_errors running m. unfold m, NodeSet_ValidateUpdate. fold spec_errors.
  destruct spec_errors as [|e es]; [|repeat split; naive_solver].
  unfold statuses, running. destruct (nss_DeploymentStatuses _) as [m0|]; simpl;
    [|by setoid_rewrite lookup_empty; repeat split; naive_solver].
  unfold run, mbind, M_bind. pose proof (ValidateUpdate_loop r m0 w) as H. simpl in H.
  destruct (forallb _ _) eqn:Hall.
  - rewrite forallb_range in Hall. rewrite H. simpl.
    split_and!; [done|naive_solver|done|].
    intros _ (name & cs & Hm & Hf). by rewrite (Hall _ _ Hm) in Hf.
  - destruct H as [Hw (name & cs & Hm & Hf & Ha)].
    destruct (for_each _ _ w) as [a w']; simpl in *; subst w'.
    destruct (cond_get cs _) eqn:Hc; [destruct Ha as [e ->]|rewrite Ha]; simpl; split_and!; try done.
    + split; [done|]. intros [_ Hd]. by rewrite (Hd _ _ Hm) in Hf.
    + eauto.
    + split; [done|]. intros [_ Hd]. by rewrite (Hd _ _ Hm) in Hf.
    + intros _ _. left. eauto 10.
Qed.

(** What lets a NodeSet in, beside those that exist. *)
Definition may_be_created (r : OpenStackDataPlaneNodeSet) (existing : list OpenStackDataPlaneNodeSet) : Prop :=
  hostname_rfc1123 (ns_Name r) = None ∧
  ¬ (ns_PreProvisioned (ns_Spec r) = true ∧ clashes (ns_Spec r) existing).

Lemma create_spec_errors r existing :
  NodeSetSpec_ValidateCreate r existing = [] ↔ ¬ (ns_PreProvisioned r = true ∧ clashes r existing).
Proof.
  unfold NodeSetSpec_ValidateCreate.
  destruct (ns_PreProvisioned r); simpl; [|split; [by intros _ [? _]|done]].
  pose proof (duplicateNodeCheck_nil r existing) as Hc.
  destruct existing as [|n l]; simpl; [|rewrite Hc; tauto].
  split; [|done]. intros _ [_ (? & ? & ? & ? & ? & _ & ?%not_elem_of_nil & _)]. done.
Qed.

Lemma ValidateCreate_answer (r : OpenStackDataPlaneNodeSet) (w : W) :
  match (ListNodeSets (ns_Namespace r) w).2 with
  | Fail err => run (NodeSet_ValidateCreate r) w = Some (Some (ApiError err))
  | Ok existing =>
      (may_be_created r existing ∧ run (NodeSet_ValidateCreate r) w = Some None) ∨
      (¬ may_be_created r existing ∧ ∃ e errors, run (NodeSet_ValidateCreate r) w =
         Some (Some (NewInvalid "OpenStackDataPlaneNodeSet" (ns_Name r) (e :: errors))))
  end.
Proof.
  unfold NodeSet_ValidateCreate, may_be_created, run, mbind, M_bind, op.
  destruct (ListNodeSets (ns_Namespace r) w) as [w' [existing|err]]; simpl; [|done].
  pose proof (create_spec_errors (ns_Spec r) existing) as Hd.
  destruct (hostname_rfc1123 (ns_Name r)) as [e|]; simpl; [right; naive_solver|].
  destruct (NodeSetSpec_ValidateCreate _ _) as [|e es]; simpl; [left; naive_solver|].
  right. split; [|by eauto]. intros [_ Hx]. by apply Hd in Hx.
Qed.

Lemma created_listed (r : OpenStackDataPlaneNodeSet) (w : W) :
  run (NodeSet_ValidateCreate r) w = Some None →
  ∃ existing, (ListNodeSets (ns_Namespace r) w).2 = Ok existing ∧ may_be_created r existing.
Proof.
  intros Hr. pose proof (ValidateCreate_answer r w) as H. rewrite Hr in H.
  destruct (ListNodeSets _ w).2 as [existing|err]; [|done].
  destruct H as [[Hm _]|[_ (? & ? & ?)]]; [by eauto|done].
Qed.

(** C35. When the existing NodeSets of the namespace cannot be listed, that is
    the answer to a creation.  Otherwise a NodeSet is let in when its name is an
    RFC 1123 host name and it is not a pre-provisioned NodeSet one of whose nodes
    goes by a name of an existing node; and else it is refused as invalid, with
    an error at least. *)
Theorem NodeSet_ValidateCreate_spec (r : OpenStackDataPlaneNodeSet) (w : W) :
  match (ListNodeSets (ns_Namespace r) w).2 with
  | Fail err => run (NodeSet_ValidateCreate r) w = Some (Some (ApiError err))
  | Ok existing =>
      (may_be_created r existing ∧ run (NodeSet_ValidateCreate r) w = Some None) ∨
      (¬ may_be_created r existing ∧ ∃ e errors, run (NodeSet_ValidateCreate r) w =
         Some (Some (NewInvalid "OpenStackDataPlaneNodeSet" (ns_Name r) (e :: errors))))
  end.
Proof. apply ValidateCreate_answer. Qed.
End validation_facts.

(** ** The properties at concrete objects *)

Import ListConditions.

(** Two nodes, one named by its key, in a NodeSet with a domain. *)
Definition two_nodes : gmap string NodeSection :=
  {[ "n1" := named_node ""; "n2" := named_node "host2.example.com" ]}.
Definition baremetal_spec : OpenStackDataPlaneNodeSetSpec :=
  set_spec_parts (mkBaremetalSpec None "example.com" "cloud-admin" "" "" "" "" "" [] [] "")
    zeroTemplate two_nodes zeroNodeSetSpec.

Lemma two_nodes_distinct : distinct_hosts (@default_nodes list_range baremetal_spec).
Proof.
  intros k1 k2 n1 n2. rewrite !default_nodes_lookup. simpl. unfold two_nodes.
  intros (m1 & H1 & ->)%fmap_Some (m2 & H2 & ->)%fmap_Some.
  apply lookup_insert_Some in H1 as [[<- <-]|[_ [<- <-]%lookup_singleton_Some]];
    apply lookup_insert_Some in H2 as [[<- <-]|[_ [<- <-]%lookup_singleton_Some]];
    intros Heq; vm_compute in Heq; congruence.
Qed.

Lemma NodeSetSpec_Default_idempotent_witness :
  @NodeSetSpec_Default reversed_range (@NodeSetSpec_Default list_range baremetal_spec) =
    @NodeSetSpec_Default list_range baremetal_spec.
Proof.
  apply (NodeSetSpec_Default_idempotent list_range reversed_range list_range_laws reversed_range_laws).
  exact two_nodes_distinct.
Defined.

Lemma NodeSetSpec_Default_hosts_witness :
  is_Some (entries (b_BaremetalHosts (ns_BaremetalSetTemplate (NodeSetSpec_Default baremetal_spec)))
             !! "n1.example.com").
Proof.
  apply (proj1 (NodeSetSpec_Default_hosts list_range list_range_laws baremetal_spec eq_refl)).
  exists "n1", (named_node "n1.example.com"). split; vm_compute; reflexivity.
Defined.

(** A NodeSet whose status records one deployment with the given condition. *)
Definition recorded (st : ConditionStatus) : OpenStackDataPlaneNodeSet :=
  set_ns_Status (λ s, mkNodeSetStatus []
    (Some {[ "deploy" := [mkCondition NodeSetDeploymentReadyCondition st "" 0 "Init" ""] ]})
    ∅ ∅ None None None None "" "" "" 0 "") (nodeset_of "openstack" "edpm" ∅ true).

Lemma NodeSet_ValidateUpdate_witness :
  run (NodeSet_ValidateUpdate (nodeset_of "openstack" "edpm" ∅ true) (Some (recorded CTrue)))
    empty_sim = Some None ∧
  run (NodeSet_ValidateUpdate (nodeset_of "openstack" "edpm" ∅ true) (Some (recorded CUnknown)))
    empty_sim ≠ Some None.
Proof.
  split.
  - apply (proj1 (proj2 (NodeSet_ValidateUpdate_spec (nodeset_of "openstack" "edpm" ∅ true)
             (recorded CTrue) empty_sim))).
    split; [done|]. intros name cs H. simpl in H. by apply lookup_singleton_Some in H as [_ <-].
  - intros [_ Hf]%(proj1 (proj2 (NodeSet_ValidateUpdate_spec
      (nodeset_of "openstack" "edpm" ∅ true) (recorded CUnknown) empty_sim))).
    by specialize (Hf "deploy" _ eq_refl).
Defined.

Definition one_nodeset : Sim :=
  set_nodesets {[ "openstack/a" := nodeset_of "openstack" "a" {[ "n1" := named_node "host" ]} true ]}
    empty_sim.

Lemma NodeSet_ValidateCreate_witness :
  run (NodeSet_ValidateCreate (nodeset_of "openstack" "b" {[ "n2" := named_node "other" ]} true))
    one_nodeset = Some None.
Proof.
  destruct (NodeSet_ValidateCreate_spec
    (nodeset_of "openstack" "b" {[ "n2" := named_node "other" ]} true) one_nodeset)
    as [[_ H]|[_ (e & errors & H)]]; [exact H|].
  vm_compute in H. discriminate H.
Defined.

Example creations :
  run (NodeSet_ValidateCreate (nodeset_of "openstack" "b" {[ "n2" := named_node "other" ]} true))
    one_nodeset = Some None ∧
  run (NodeSet_ValidateCreate (nodeset_of "openstack" "b" {[ "n2" := named_node "host" ]} true))
    one_nodeset ≠ Some None.
Proof. split; vm_compute; done. Qed.
