(* ===== verification/Admission.v ===== *)
(** The NodeSets of a cluster whose API server asks the webhooks: what holds
    of every NodeSet that was let in, and between those of a namespace. *)

From stdpp Require Import base gmap strings list.
From S2P Require Import Prelude GoStd Conditions Types Fqdn Cluster Sim ApiTypes Webhooks.

(** ** The store, and what the API server lets happen to it *)

Abbreviation Store := (gmap (string * string) OpenStackDataPlaneNodeSet).
Definition store_key (n : OpenStackDataPlaneNodeSet) : string * string := (ns_Namespace n, ns_Name n).

Section admission.
Context {W : Type} {KC : KubeClient W} {CO : ConditionOps} {V : Validation}.
Context {MR : MapRange} {MRL : MapRangeLaws MR}.

(** The NodeSets the webhook lists are those of the store. *)
Definition shows (s : Store) (ns : string) (w : W) : Prop :=
  ∃ l, (ListNodeSets ns w).2 = Ok l ∧ ∀ n, n ∈ l ↔ s !! store_key n = Some n ∧ ns_Namespace n = ns.

(** A request is defaulted first, and what comes of it is validated and
    stored; the status of an object is not part of a request. *)
Inductive admission_step (s : Store) : Store → Prop :=
  | step_create r (w : W) :
      shows s (ns_Namespace r) w → s !! store_key r = None →
      run (NodeSet_ValidateCreate (NodeSet_Default r)) w = Some None →
      admission_step s (<[store_key r := NodeSet_Default r]> s)
  | step_update r old (w : W) :
      s !! store_key r = Some old → ns_Status r = ns_Status old →
      run (NodeSet_ValidateUpdate (NodeSet_Default r) (Some old)) w = Some None →
      admission_step s (<[store_key r := NodeSet_Default r]> s)
  | step_status f k old :
      s !! k = Some old → admission_step s (<[k := set_ns_Status f old]> s)
  | step_delete k old (w : W) :
      s !! k = Some old → run (NodeSet_ValidateDelete old) w = Some None →
      admission_step s (delete k s).

(** ** Every NodeSet that was let in *)

(** A spec as the defaulting leaves it. *)
Definition defaulted (spec : OpenStackDataPlaneNodeSetSpec) : Prop :=
  (∀ nodeName node, nodeName ≠ "" → ns_Nodes spec !! nodeName = Some node → n_HostName node ≠ "") ∧
  (if ns_PreProvisioned spec then ao_AnsibleUser (t_Ansible (ns_NodeTemplate spec)) ≠ ""
   else ao_AnsibleUser (t_Ansible (ns_NodeTemplate spec)) = b_CloudUserName (ns_BaremetalSetTemplate spec) ∧
     ∀ host, is_Some (entries (b_BaremetalHosts (ns_BaremetalSetTemplate spec)) !! host) ↔
       ∃ nodeName node, ns_Nodes spec !! nodeName = Some node ∧ n_HostName node = host).
Definition well_formed (k : string * string) (n : OpenStackDataPlaneNodeSet) : Prop :=
  store_key n = k ∧ hostname_rfc1123 (ns_Name n) = None ∧ defaulted (ns_Spec n).

Lemma default_host_nonempty pre domain nodeName host :
  nodeName ≠ "" → default_host pre domain nodeName host ≠ "".
Proof.
  intros Hn. unfold default_host. case_match; [apply join_dot_nonempty|]. by case_decide.
Qed.
Lemma Default_defaulted spec : defaulted (NodeSetSpec_Default spec).
Proof.
  split.
  - intros nodeName node Hne. rewrite Default_nodes, default_nodes_lookup.
    intros (n & _ & ->)%fmap_Some. by apply default_host_nonempty.
  - destruct (ns_PreProvisioned spec) eqn:Hp; unfold NodeSetSpec_Default; rewrite Hp; simpl.
    + case_decide as Hu; simpl; by rewrite Hp.
    + rewrite Hp. split; [done|]. intros host. apply nodeSetHostMap_keys.
Qed.

(** The name and the namespace survive the defaulting. *)
Lemma Default_key r : store_key (NodeSet_Default r) = store_key r.
Proof. done. Qed.

Lemma well_formed_step s s' :
  admission_step s s' → map_Forall well_formed s → map_Forall well_formed s'.
Proof.
  intros Hs Hall. destruct Hs as [r w _ _ Hv|r old w Hold _ _|f k old Hold|k old w _ _].
  - apply map_Forall_insert_2; [|done]. apply created_listed in Hv as (l & _ & Hname & _).
    split_and!; [done|exact Hname|apply Default_defaulted].
  - apply map_Forall_insert_2; [|done]. destruct (Hall _ _ Hold) as (Hk & Hname & _).
    split_and!; [done| |apply Default_defaulted].
    unfold store_key in Hk. injection Hk as _ Hk. change (ns_Name (NodeSet_Default r)) with (ns_Name r). by rewrite <- Hk.
  - apply map_Forall_insert_2; [|done]. exact (Hall _ _ Hold).
  - by apply map_Forall_delete.
Qed.

(** C29. Whatever requests the webhooks let in, in whatever order, with the
    status written and objects deleted in between: every stored NodeSet is well
    formed.  It has an RFC 1123 name, all its nodes have host names, and it
    has an Ansible user; that of a baremetal NodeSet is the cloud user, and
    its baremetal hosts are exactly the host names of its nodes. *)
Theorem admitted_well_formed (s : Store) :
  rtc admission_step ∅ s → map_Forall well_formed s.
Proof.
  intros Hs. assert (map_Forall well_formed (∅ : Store)) as H0 by apply map_Forall_empty.
  induction Hs as [|s1 s2 s3 H12 _ IH]; [done|]. apply IH. by eapply well_formed_step.
Qed.

(** ** Pre-provisioned NodeSets do not share nodes *)

Definition goes_by (n : OpenStackDataPlaneNodeSet) (x : string) : Prop :=
  ∃ name node, ns_Nodes (ns_Spec n) !! name = Some node ∧ x ∈ node_names node.
Definition pre_provisioned (n : OpenStackDataPlaneNodeSet) : Prop := ns_PreProvisioned (ns_Spec n) = true.
Definition disjoint_names (n1 n2 : OpenStackDataPlaneNodeSet) : Prop :=
  pre_provisioned n1 → pre_provisioned n2 → ns_Namespace n1 = ns_Namespace n2 →
  ∀ x, goes_by n1 x → goes_by n2 x → False.
Definition all_disjoint (s : Store) : Prop :=
  ∀ k1 k2 n1 n2, s !! k1 = Some n1 → s !! k2 = Some n2 → k1 ≠ k2 → disjoint_names n1 n2.
(** A NodeSet that is pre-provisioned afterwards was so before, with all the
    names it has now. *)
Definition keeps_names (s s' : Store) : Prop :=
  ∀ k n n', s !! k = Some n → s' !! k = Some n' → pre_provisioned n' →
    pre_provisioned n ∧ ∀ x, goes_by n' x → goes_by n x.

Lemma disjoint_sym n1 n2 : disjoint_names n1 n2 → disjoint_names n2 n1.
Proof. intros H Hp2 Hp1 Hns x H2 H1. by eapply H. Qed.
(** Replacing one NodeSet: it is enough to look at that one. *)
Lemma all_disjoint_insert s k n :
  all_disjoint s → (∀ k2 n2, s !! k2 = Some n2 → k2 ≠ k → disjoint_names n n2) →
  all_disjoint (<[k := n]> s).
Proof.
  intros Hs Hn k1 k2 n1 n2 [[<- <-]|[Hk1 H1]]%lookup_insert_Some [[<- <-]|[Hk2 H2]]%lookup_insert_Some Hne.
  - done.
  - by apply (Hn k2).
  - apply disjoint_sym. by apply (Hn k1).
  - by apply (Hs k1 k2).
Qed.
Lemma all_disjoint_update s k n n' :
  all_disjoint s → s !! k = Some n → ns_Namespace n' = ns_Namespace n →
  keeps_names s (<[k := n']> s) → all_disjoint (<[k := n']> s).
Proof.
  intros Hs Hk Hns Hkeep. pose proof (Hkeep k n n' Hk (lookup_insert_eq _ _ _)) as Hn.
  apply all_disjoint_insert; [done|]. intros k2 n2 H2 Hne Hp1 Hp2 Hsame x H1 Hx2.
  destruct (Hn Hp1) as [Hp Hx].
  eapply (Hs k k2); [done|exact H2|done|done|done|congruence|by apply Hx|done].
Qed.

Lemma created_disjoint s r w k2 n2 :
  map_Forall well_formed s → shows s (ns_Namespace r) w →
  run (NodeSet_ValidateCreate (NodeSet_Default r)) w = Some None →
  s !! k2 = Some n2 → disjoint_names (NodeSet_Default r) n2.
Proof.
  intros Hwf (l & Hl & Hin) Hv H2 Hp1 Hp2 Hns x (name & node & Hn & Hx) (name' & node' & Hn' & Hx').
  apply created_listed in Hv as (l' & Hl' & _ & Hc).
  change (ns_Namespace (NodeSet_Default r)) with (ns_Namespace r) in Hl', Hns.
  rewrite Hl in Hl'. injection Hl' as <-. apply Hc. split; [exact Hp1|].
  exists name, node, n2, name', node'. split_and!; [done| |done|].
  - apply Hin. destruct (Hwf _ _ H2) as [Hk _]. by rewrite Hk.
  - apply elem_of_node_names in Hx as [->|[-> _]]; auto.
Qed.

Lemma all_disjoint_step s s' :
  admission_step s s' → keeps_names s s' → map_Forall well_formed s → all_disjoint s → all_disjoint s'.
Proof.
  intros Hs Hkeep Hwf Hd. destruct Hs as [r w Hl Hnew Hv|r old w Hold _ _|f k old Hold|k old w _ _].
  - apply all_disjoint_insert; [done|]. intros k2 n2 H2 _. by eapply created_disjoint.
  - eapply all_disjoint_update; [done|done| |done]. destruct (Hwf _ _ Hold) as [Hk _].
    unfold store_key in Hk. injection Hk as Hk _. by rewrite Hk.
  - by eapply all_disjoint_update.
  - intros k1 k2 n1 n2 [_ H1]%lookup_delete_Some [_ H2]%lookup_delete_Some. by apply Hd.
Qed.

(** C30. Two pre-provisioned NodeSets of a namespace never share the name of a
    node, be it a host name or an Ansible host, however many are created,
    edited and deleted, as long as the edits do two things to none of them:
    make a NodeSet pre-provisioned that was not so before, and give a
    pre-provisioned NodeSet a name it did not have.  The webhook checks neither
    in an update ([update_can_clash]). *)
Theorem preprovisioned_disjoint (s : Store) :
  rtc (λ s s', admission_step s s' ∧ keeps_names s s') ∅ s → all_disjoint s.
Proof.
  intros Hs.
  assert (map_Forall well_formed (∅ : Store) ∧ all_disjoint ∅) as H0.
  { split; [apply map_Forall_empty|]. intros k1 k2 n1 n2 [=]. }
  enough (map_Forall well_formed s ∧ all_disjoint s) as [_ ?] by done.
  induction Hs as [|s1 s2 s3 [H12 Hk] _ IH]; [done|]. apply IH. destruct H0 as [Hwf Hd].
  split; [by eapply well_formed_step|by eapply all_disjoint_step].
Qed.
End admission.

(** ** The properties at a concrete store *)

Import ListConditions.

Definition on_host (name host : string) : OpenStackDataPlaneNodeSet :=
  NodeSet_Default (nodeset_of "openstack" name {[ "n1" := named_node host ]} true).
Definition store_a : Store := {[ ("openstack", "a") := on_host "a" "host1" ]}.
Definition store_ab : Store := <[("openstack", "b") := on_host "b" "host2"]> store_a.
(** The second NodeSet is edited to take the host of the first. *)
Definition store_clash : Store := <[("openstack", "b") := on_host "b" "host1"]> store_ab.

Definition world_of (s : list OpenStackDataPlaneNodeSet) : Sim :=
  set_nodesets (list_to_map ((λ n, (key (ns_Namespace n) (ns_Name n), n)) <$> s)) empty_sim.

Lemma step_a : admission_step (W := Sim) ∅ store_a.
Proof.
  apply (step_create ∅ (nodeset_of "openstack" "a" {[ "n1" := named_node "host1" ]} true) (world_of [])).
  - exists []. split; [reflexivity|]. intros n. split; [by intros ?%not_elem_of_nil|by intros [[=] _]].
  - reflexivity.
  - vm_compute. reflexivity.
Qed.
Lemma step_ab : admission_step (W := Sim) store_a store_ab.
Proof.
  apply (step_create store_a (nodeset_of "openstack" "b" {[ "n1" := named_node "host2" ]} true)
    (world_of [on_host "a" "host1"])).
  - exists [on_host "a" "host1"]. split; [reflexivity|]. intros n. rewrite list_elem_of_singleton. split.
    + intros ->. split; [reflexivity|reflexivity].
    + intros [Hn _]. unfold store_a in Hn. by apply lookup_singleton_Some in Hn as [_ <-].
  - reflexivity.
  - vm_compute. reflexivity.
Qed.
Lemma step_clash : admission_step (W := Sim) store_ab store_clash.
Proof.
  apply (step_update store_ab (nodeset_of "openstack" "b" {[ "n1" := named_node "host1" ]} true)
    (on_host "b" "host2") empty_sim); [reflexivity|reflexivity|vm_compute; reflexivity].
Qed.

Lemma keeps_at (s : Store) k n : s !! k = None → keeps_names s (<[k := n]> s).
Proof.
  intros Hk k' n1 n2 H1 [[<- _]|[_ H2]]%lookup_insert_Some Hp; [congruence|].
  rewrite H1 in H2. by injection H2 as ->.
Qed.
Lemma admitted_well_formed_witness : map_Forall well_formed store_clash.
Proof.
  apply (admitted_well_formed (W := Sim)).
  eapply rtc_l; [apply step_a|]. eapply rtc_l; [apply step_ab|]. apply rtc_once, step_clash.
Defined.
Lemma preprovisioned_disjoint_witness : all_disjoint store_ab.
Proof.
  apply (preprovisioned_disjoint (W := Sim)).
  eapply rtc_l; [split; [apply step_a|by apply keeps_at]|].
  apply rtc_once. split; [apply step_ab|by apply keeps_at].
Defined.

(** A baremetal NodeSet may share names with a pre-provisioned one. *)
Definition baremetal_on (name host : string) : OpenStackDataPlaneNodeSet :=
  NodeSet_Default (nodeset_of "openstack" name {[ "n1" := named_node host ]} false).
Definition store_mixed : Store := <[("openstack", "b") := baremetal_on "b" "host1"]> store_a.
Lemma step_mixed : admission_step (W := Sim) store_a store_mixed.
Proof.
  apply (step_create store_a (nodeset_of "openstack" "b" {[ "n1" := named_node "host1" ]} false)
    (world_of [on_host "a" "host1"])).
  - exists [on_host "a" "host1"]. split; [reflexivity|]. intros n. rewrite list_elem_of_singleton. split.
    + intros ->. split; [reflexivity|reflexivity].
    + intros [Hn _]. unfold store_a in Hn. by apply lookup_singleton_Some in Hn as [_ <-].
  - reflexivity.
  - vm_compute. reflexivity.
Qed.
Lemma store_clash_shares : ¬ all_disjoint store_clash.
Proof.
  intros Hd. assert (goes_by (on_host "a" "host1") "host1" ∧ goes_by (on_host "b" "host1") "host1") as [Ha Hb].
  { split; eexists "n1", _; (split; [vm_compute; reflexivity|by left]). }
  eapply (Hd ("openstack", "a") ("openstack", "b")); [reflexivity|reflexivity|done|reflexivity..|exact Ha|exact Hb].
Qed.

(** Nothing checks the names in an update: it can give a pre-provisioned
    NodeSet the node of another. *)
Theorem update_can_clash :
  rtc (admission_step (W := Sim)) ∅ store_ab ∧
  admission_step (W := Sim) store_ab store_clash ∧ ¬ all_disjoint store_clash.
Proof.
  split; [eapply rtc_l; [apply step_a|]; apply rtc_once, step_ab|].
  split; [apply step_clash|apply store_clash_shares].
Qed.

(** And it can make a NodeSet pre-provisioned that has the node of another. *)
Theorem update_can_turn :
  rtc (admission_step (W := Sim)) ∅ store_mixed ∧
  ∃ s, admission_step (W := Sim) store_mixed s ∧ ¬ all_disjoint s.
Proof.
  split; [eapply rtc_l; [apply step_a|]; apply rtc_once, step_mixed|].
  exists store_clash. split; [|apply store_clash_shares].
  replace store_clash with (<[("openstack", "b") := on_host "b" "host1"]> store_mixed)
    by (unfold store_clash, store_ab, store_mixed; by rewrite !insert_insert_eq).
  apply (step_update store_mixed (nodeset_of "openstack" "b" {[ "n1" := named_node "host1" ]} true)
    (baremetal_on "b" "host1") empty_sim); [reflexivity|reflexivity|vm_compute; reflexivity].
Qed.
