(* ===== verification/DataSource.v ===== *)
(** pkg/util/datasource.go: the ConfigMap or Secret a DataSource refers to. *)

From stdpp Require Import base gmap strings list.
From S2P Require Import Prelude GoStd Types Cluster Sim.

(** [dataSource.Optional != nil && *dataSource.Optional] *)
Definition is_optional (e : EnvSource) : bool :=
  match es_Optional e with Some b => b | None => false end.
(** The empty objects the answers are read into. *)
Definition emptyConfigMap : ConfigMap := mkConfigMap "" ∅ ∅.
Definition emptySecret : Secret := mkSecret "" ∅ ∅.

Section operations.
Context {W : Type} {KC : KubeClient W}.

Definition GetDataSourceCmSecret (namespace : string) (dataSource : DataSource) :
    M W (result (option ConfigMap * option Secret)) (result (option ConfigMap * option Secret)) :=
  match ds_ConfigMapRef dataSource, ds_SecretRef dataSource with
  | Some cm, _ =>
      r ← op (GetConfigMap (mkNN namespace (es_Name cm)));
      match r with
      | Ok configMap => mret (Ok (Some configMap, None))
      | Fail err =>
          if IsNotFound err && is_optional cm
          then mret (Ok (Some emptyConfigMap, None))
          else return_ (Fail err)
      end
  | None, Some s =>
      r ← op (GetSecret (mkNN namespace (es_Name s)));
      match r with
      | Ok secret => mret (Ok (None, Some secret))
      | Fail err =>
          if IsNotFound err && is_optional s
          then mret (Ok (None, Some emptySecret))
          else return_ (Fail err)
      end
  | None, None => mret (Ok (None, None))
  end.
End operations.

Section facts.
Context {W : Type} {KC : KubeClient W}.

Lemma GetDataSource_no_panic (namespace : string) (d : DataSource) (w : W) :
  sat (GetDataSourceCmSecret namespace d) w (λ o _, o ≠ Panic).
Proof.
  unfold GetDataSourceCmSecret.
  destruct (ds_ConfigMapRef d) as [cm|]; [|destruct (ds_SecretRef d) as [s|]; [|done]];
    apply sat_bind, sat_op;
    [destruct (GetConfigMap _ w) as [w' [c|err]]|destruct (GetSecret _ w) as [w' [c|err]]];
    simpl; try done; by destruct (_ && _).
Qed.

(** A data source whose object can be read. *)
Lemma source_goes (H : W → Prop) source ns w :
  (∀ ref, ds_ConfigMapRef source = Some ref → answers H (GetConfigMap (mkNN ns (es_Name ref))) (λ _, True)) →
  (∀ ref, ds_SecretRef source = Some ref → answers H (GetSecret (mkNN ns (es_Name ref))) (λ _, True)) →
  H w → goes (GetDataSourceCmSecret ns source) w (λ r w', (∃ a, r = Ok a) ∧ H w').
Proof.
  intros Hc Hs Hw. unfold GetDataSourceCmSecret.
  destruct (ds_ConfigMapRef source) as [ref|]; [|destruct (ds_SecretRef source) as [ref|]].
  - apply goes_bind. eapply (goes_answer _); [by apply Hc|done|].
    intros c w' _ Hw'. apply goes_ret. eauto.
  - apply goes_bind. eapply (goes_answer _); [by apply Hs|done|].
    intros c w' _ Hw'. apply goes_ret. eauto.
  - apply goes_ret. eauto.
Qed.

(** Reading a data source fails exactly when the object it names could
    not be read for another reason than being absent while marked optional;
    a ConfigMap reference hides a Secret reference; and it never yields a
    ConfigMap and a Secret together. *)
Theorem GetDataSourceCmSecret_spec (namespace : string) (d : DataSource) (w : W) :
  match run (GetDataSourceCmSecret namespace d) w with
  | None => False
  | Some (Fail err) =>
      (∃ cm, ds_ConfigMapRef d = Some cm ∧
         (GetConfigMap (mkNN namespace (es_Name cm)) w).2 = Fail err ∧
         ¬ (IsNotFound err = true ∧ es_Optional cm = Some true)) ∨
      (∃ s, ds_ConfigMapRef d = None ∧ ds_SecretRef d = Some s ∧
         (GetSecret (mkNN namespace (es_Name s)) w).2 = Fail err ∧
         ¬ (IsNotFound err = true ∧ es_Optional s = Some true))
  | Some (Ok (Some cm, Some s)) => False
  | Some (Ok (Some cm, None)) => is_Some (ds_ConfigMapRef d)
  | Some (Ok (None, Some s)) => ds_ConfigMapRef d = None ∧ is_Some (ds_SecretRef d)
  | Some (Ok (None, None)) => ds_ConfigMapRef d = None ∧ ds_SecretRef d = None
  end.
Proof.
  unfold GetDataSourceCmSecret, run, mbind, M_bind, op, is_optional.
  destruct (ds_ConfigMapRef d) as [cm|]; [|destruct (ds_SecretRef d) as [s|]; [|done]].
  - destruct (GetConfigMap _ w) as [w' [c|err]] eqn:Hg; simpl; [eauto|].
    destruct (IsNotFound err) eqn:Hn, (es_Optional cm) as [[]|] eqn:Ho; simpl; eauto;
      left; exists cm; rewrite Hg; (split_and!; [done..|intuition congruence]).
  - destruct (GetSecret _ w) as [w' [c|err]] eqn:Hg; simpl; [eauto|].
    destruct (IsNotFound err) eqn:Hn, (es_Optional s) as [[]|] eqn:Ho; simpl; eauto;
      right; exists s; rewrite Hg; (split_and!; [done..|intuition congruence]).
Qed.
End facts.

(** An optional ConfigMap that is missing. *)
Lemma GetDataSourceCmSecret_witness :
  let d := mkDataSource "" (Some (mkEnvSource "vars" (Some true))) None in
  run (GetDataSourceCmSecret "openstack" d) empty_sim = Some (Ok (Some emptyConfigMap, None)) ∧
  is_Some (ds_ConfigMapRef d).
Proof.
  split; [reflexivity|].
  exact (GetDataSourceCmSecret_spec "openstack"
    (mkDataSource "" (Some (mkEnvSource "vars" (Some true))) None) empty_sim).
Defined.
