(* ===== verification/AnsibleExec.v ===== *)
(** pkg/util/ansible_execution.go: the name, the labels and the content of
    the OpenStackAnsibleEE object that runs one service. *)

From stdpp Require Import base gmap strings list pretty.
From S2P Require Import Prelude GoStd Conditions Types Cluster Sim.

(** pkg/util/const.go *)
Definition AnsibleExecutionServiceNameLen : nat := 53.
Definition AnsibleExcecutionNameLabelLen : nat := 63.

Definition getAnsibleExecutionNamePrefix (serviceName : string) : string :=
  if decide (AnsibleExecutionServiceNameLen < String.length serviceName)
  then str_take AnsibleExecutionServiceNameLen serviceName
  else serviceName.

Definition GetAnsibleExecutionNameAndLabels (service : OpenStackDataPlaneService)
    (deploymentName nodeSetName : string) : string * gmap string string :=
  let executionName :=
    sprintf "%s-%s" [getAnsibleExecutionNamePrefix (svc_Name service); deploymentName] in
  let executionName :=
    if negb (s_DeployOnAllNodeSets (svc_Spec service))
    then sprintf "%s-%s" [executionName; nodeSetName] else executionName in
  let executionName :=
    if decide (AnsibleExcecutionNameLabelLen < String.length executionName)
    then str_take AnsibleExcecutionNameLabelLen executionName else executionName in
  (executionName,
   <["openstackdataplaneservice" := svc_Name service]>
   (<["openstackdataplanedeployment" := deploymentName]>
    (<["openstackdataplanenodeset" := nodeSetName]> ∅))).

(** ** The object *)

(** A secret mounted under a sub path, and the pair of lists it goes to. *)
Definition secret_volume (name secretName key path : string) : Volume :=
  mkVolume name (VSecret secretName [mkKTP key path]).
Definition add_mount (m : VolMounts) (volume : Volume) (mount : VolumeMount) : VolMounts :=
  mkVolMounts (vs_Volumes m ++ [volume]) (vs_Mounts m ++ [mount]).

Section operations.
Context {W : Type} {KC : KubeClient W} {MR : MapRange}.

(** The loop over the ssh keys. *)
Definition mount_ssh_keys (onAll : bool) (nodeSetName : string)
    (sshKeySecrets : gmap string string) (mounts : VolMounts) : VolMounts :=
  fold_left (λ mounts sshKeyNodeName,
    let sshKeySecret := default "" (sshKeySecrets !! sshKeyNodeName) in
    if onAll then
      let name := sprintf "ssh-key-%s" [sshKeyNodeName] in
      let subPath := sprintf "ssh_key_%s" [sshKeyNodeName] in
      add_mount mounts (secret_volume name sshKeySecret "ssh-privatekey" subPath)
        (mkMount name (sprintf "/runner/env/ssh_key/%s" [subPath]) subPath)
    else if decide (sshKeyNodeName ≠ nodeSetName) then mounts
    else
      add_mount mounts (secret_volume "ssh-key" sshKeySecret "ssh-privatekey" "ssh_key")
        (mkMount "ssh-key" "/runner/env/ssh_key" "ssh_key"))
    (sorted_keys "AnsibleExecution/sshKeys" sshKeySecrets) mounts.

(** The loop over the inventories. *)
Definition mount_inventories (onAll : bool) (nodeSetName : string)
    (inventorySecrets : gmap string string) (mounts : VolMounts) : VolMounts :=
  fold_left (λ mounts '(inventoryIndex, nodeName),
    let secretName := default "" (inventorySecrets !! nodeName) in
    if onAll then
      let name := "inventory-" +:+ itoa (Z.of_nat inventoryIndex) in
      add_mount mounts (secret_volume name secretName "inventory" name)
        (mkMount name (sprintf "/runner/inventory/%s" [name]) name)
    else if decide (nodeName ≠ nodeSetName) then mounts
    else
      add_mount mounts (secret_volume "inventory" secretName "inventory" "inventory")
        (mkMount "inventory" "/runner/inventory/hosts" "inventory"))
    (imap pair (sorted_keys "AnsibleExecution/invKeys" inventorySecrets)) mounts.

(** The mounts an execution gets. *)
Definition execution_mounts (service : OpenStackDataPlaneService) (nodeSetName : string)
    (sshKeySecrets inventorySecrets : gmap string string) : VolMounts :=
  let onAll := s_DeployOnAllNodeSets (svc_Spec service) in
  mount_inventories onAll nodeSetName inventorySecrets
    (mount_ssh_keys onAll nodeSetName sshKeySecrets (mkVolMounts [] [])).

(** The variables the callback captures: the command line builder, and the
    map [aeeSpec.ExtraVars], which the object shares when it is not empty
    (it is the [AnsibleExtraVars] map of the Deployment). *)
Record Capture : Type := mkCapture {
  cap_cmdLineArguments : string;
  cap_ExtraVars : gomap string;
}.

Definition cmdline_flags (aeeSpec : AnsibleEESpec) : string :=
  (if decide (a_AnsibleTags aeeSpec = "") then ""
   else sprintf "--tags %s " [a_AnsibleTags aeeSpec]) +:+
  (if decide (a_AnsibleLimit aeeSpec = "") then ""
   else sprintf "--limit %s " [a_AnsibleLimit aeeSpec]) +:+
  (if decide (a_AnsibleSkipTags aeeSpec = "") then ""
   else sprintf "--skip-tags %s " [a_AnsibleSkipTags aeeSpec]).

(** The variables set on top of what [ExtraVars] holds. *)
Definition set_extra_vars (deployment : OpenStackDataPlaneDeployment)
    (service : OpenStackDataPlaneService) (nodeSetName : string)
    (vars : gmap string string) : gmap string string :=
  let vars := <["edpm_override_hosts" :=
    if s_DeployOnAllNodeSets (svc_Spec service) then quoted "all" else quoted nodeSetName]> vars in
  let vars := <["edpm_service_type" :=
    if decide (s_EDPMServiceType (svc_Spec service) ≠ "")
    then quoted (s_EDPMServiceType (svc_Spec service)) else quoted (svc_Name service)]> vars in
  if decide (0 < length (ServicesOverride (d_Spec deployment)))
  then <["edpm_services_override" :=
    quoted (print_list (ServicesOverride (d_Spec deployment)))]> vars
  else vars.

Definition non_empty_or {A} (new : string) (x : A) (old : A) : A :=
  if decide (0 < String.length new) then x else old.

(** The assignments of the callback to the spec of the object, given the
    command line built so far and the final variables. *)
Definition mutate_spec (deployment : OpenStackDataPlaneDeployment)
    (service : OpenStackDataPlaneService) (sshKeySecrets inventorySecrets : gmap string string)
    (aeeSpec : AnsibleEESpec) (nodeSetName : string) (cmdLineArguments : string)
    (vars : gmap string string) (spec : OpenStackAnsibleEESpec) : OpenStackAnsibleEESpec :=
  mkEESpec (a_NetworkAttachments aeeSpec)
    (match a_DNSConfig aeeSpec with Some c => Some c | None => ee_DNSConfig spec end)
    (non_empty_or (a_OpenStackAnsibleEERunnerImage aeeSpec)
       (a_OpenStackAnsibleEERunnerImage aeeSpec) (ee_Image spec))
    (Some vars)
    (non_empty_or cmdLineArguments (trim_space cmdLineArguments) (ee_CmdLine spec))
    (non_empty_or (a_ServiceAccountName aeeSpec) (a_ServiceAccountName aeeSpec)
       (ee_ServiceAccountName spec))
    (non_empty_or (s_PlaybookContents (svc_Spec service)) (s_PlaybookContents (svc_Spec service))
       (ee_Play spec))
    (non_empty_or (s_Playbook (svc_Spec service)) (s_Playbook (svc_Spec service)) (ee_Playbook spec))
    (d_BackoffLimit (d_Spec deployment))
    (a_ExtraMounts aeeSpec ++
      [execution_mounts service nodeSetName sshKeySecrets inventorySecrets])
    (a_Env aeeSpec).

(** The callback of [CreateOrPatch]. *)
Definition mutate_AnsibleEE (deployment : OpenStackDataPlaneDeployment)
    (service : OpenStackDataPlaneService) (sshKeySecrets inventorySecrets : gmap string string)
    (aeeSpec : AnsibleEESpec) (nodeSetName : string) (cap : Capture) (ee : OpenStackAnsibleEE) :
    Capture * result OpenStackAnsibleEE :=
  let spec := ee_Spec ee in
  let shared := bool_decide (entries (cap_ExtraVars cap) ≠ ∅) in
  let vars := if shared then cap_ExtraVars cap else ee_ExtraVars spec in
  let cmdLineArguments := cap_cmdLineArguments cap +:+ cmdline_flags aeeSpec in
  let vars := set_extra_vars deployment service nodeSetName (entries (make_if_nil vars)) in
  let spec' := mutate_spec deployment service sshKeySecrets inventorySecrets aeeSpec nodeSetName
    cmdLineArguments vars spec in
  (mkCapture cmdLineArguments (if shared then Some vars else cap_ExtraVars cap),
   SetOwnerAnsibleEE deployment (mkEE (ee_Meta ee) spec' (ee_JobStatus ee) (ee_Conditions ee))).

(** [GetAnsibleExecution]: its object is only read when the error is nil,
    or NotFound, and then it is nil. *)
Definition GetAnsibleExecution (obj : ObjectMeta) (labelSelector : gmap string string) :
    M W (result OpenStackAnsibleEE) (result OpenStackAnsibleEE) :=
  l ← op (ListAnsibleEEs (m_Namespace obj) labelSelector);
  match l with
  | Fail err => return_ (Fail err)
  | Ok [] =>
      return_ (Fail (NewNotFound "OpenStackAnsibleEE"
        (sprintf "with label %s" [print_map labelSelector])))
  | Ok [ansibleEE] => mret (Ok ansibleEE)
  | Ok _ =>
      return_ (Fail (Errorf "multiple OpenStackAnsibleEE's found with label %s"
        [print_map labelSelector]))
  end.

(** [AnsibleExecution]: the error, and what the map [aeeSpec.ExtraVars] holds
    afterwards. *)
Definition AnsibleExecution (deployment : OpenStackDataPlaneDeployment)
    (service : OpenStackDataPlaneService) (sshKeySecrets inventorySecrets : gmap string string)
    (aeeSpec : AnsibleEESpec) (nodeSet : OpenStackDataPlaneNodeSet) :
    M W (gomap string * option Err) (gomap string * option Err) :=
  let '(executionName, labels) :=
    GetAnsibleExecutionNameAndLabels service (d_Name deployment) (ns_Name nodeSet) in
  found ← call (GetAnsibleExecution (d_Meta deployment) labels);
  ansibleEE ←
    match found with
    | Ok ee => mret ee
    | Fail err =>
        if negb (IsNotFound err) then return_ (a_ExtraVars aeeSpec, Some err)
        else mret (mkEE (mkMeta executionName (d_Namespace deployment) labels 0 true)
                     zeroEESpec "" [])
    end;
  r ← op (CreateOrPatchAnsibleEE ansibleEE
    (mutate_AnsibleEE deployment service sshKeySecrets inventorySecrets aeeSpec (ns_Name nodeSet))
    (mkCapture "" (a_ExtraVars aeeSpec)));
  let '(cap, answer) := r in
  match answer with
  | Fail err => return_ (cap_ExtraVars cap, Some err)
  | Ok _ => mret (cap_ExtraVars cap, None)
  end.
End operations.

(** ** Names and labels *)

Lemma prefix_length s :
  String.length (getAnsibleExecutionNamePrefix s) = min AnsibleExecutionServiceNameLen (String.length s).
Proof.
  unfold getAnsibleExecutionNamePrefix. case_decide; [rewrite length_str_take|]; lia.
Qed.

(** The name before it is cut. *)
Definition full_execution_name (service : OpenStackDataPlaneService)
    (deploymentName nodeSetName : string) : string :=
  let base := getAnsibleExecutionNamePrefix (svc_Name service) +:+ "-" +:+ deploymentName in
  if s_DeployOnAllNodeSets (svc_Spec service) then base else base +:+ "-" +:+ nodeSetName.

Lemma execution_name_cut service deploymentName nodeSetName :
  (GetAnsibleExecutionNameAndLabels service deploymentName nodeSetName).1 =
    let full := full_execution_name service deploymentName nodeSetName in
    if decide (AnsibleExcecutionNameLabelLen < String.length full)
    then str_take AnsibleExcecutionNameLabelLen full else full.
Proof.
  unfold GetAnsibleExecutionNameAndLabels, full_execution_name. rewrite !sprintf_dash.
  by destruct (s_DeployOnAllNodeSets _).
Qed.

Lemma GetAnsibleExecutionNameAndLabels_labels s d n s' d' n' :
  (GetAnsibleExecutionNameAndLabels s d n).2 = (GetAnsibleExecutionNameAndLabels s' d' n').2 →
  svc_Name s = svc_Name s' ∧ d = d' ∧ n = n'.
Proof.
  simpl. intros Hl. split_and!.
  - apply (f_equal (.!! "openstackdataplaneservice")) in Hl. by simplify_map_eq.
  - apply (f_equal (.!! "openstackdataplanedeployment")) in Hl. by simplify_map_eq.
  - apply (f_equal (.!! "openstackdataplanenodeset")) in Hl. by simplify_map_eq.
Qed.

(** C20. The name of an execution is at most 63 bytes long (a label value);
    the labels determine the service, the deployment and the NodeSet; and the
    name is the uncut one whenever that fits. *)
Theorem GetAnsibleExecutionNameAndLabels_spec (service service' : OpenStackDataPlaneService)
    (deployment deployment' nodeSet nodeSet' : string) :
  let '(name, labels) := GetAnsibleExecutionNameAndLabels service deployment nodeSet in
  String.length name ≤ 63 ∧
  (String.length (full_execution_name service deployment nodeSet) ≤ 63 →
    name = full_execution_name service deployment nodeSet) ∧
  (labels = (GetAnsibleExecutionNameAndLabels service' deployment' nodeSet').2 →
    svc_Name service = svc_Name service' ∧ deployment = deployment' ∧ nodeSet = nodeSet').
Proof.
  destruct (GetAnsibleExecutionNameAndLabels service deployment nodeSet) as [name labels] eqn:He.
  pose proof (execution_name_cut service deployment nodeSet) as Hn. rewrite He in Hn. simpl in Hn.
  unfold AnsibleExcecutionNameLabelLen in Hn. split_and!.
  - rewrite Hn. case_decide; [rewrite length_str_take|]; lia.
  - intros Hl. rewrite Hn, decide_False by lia. done.
  - intros Hl. apply GetAnsibleExecutionNameAndLabels_labels. by rewrite He.
Qed.

(** Executions of different NodeSets can get one name: when the service
    prefix and the deployment name already fill the 63 bytes, the NodeSet is
    cut off, although the labels of the executions differ. *)
Theorem execution_name_collision (service : OpenStackDataPlaneService)
    (deployment nodeSet nodeSet' : string) :
  62 ≤ String.length (getAnsibleExecutionNamePrefix (svc_Name service)) + String.length deployment →
  nodeSet ≠ nodeSet' →
  let e := GetAnsibleExecutionNameAndLabels service deployment nodeSet in
  let e' := GetAnsibleExecutionNameAndLabels service deployment nodeSet' in
  e.1 = e'.1 ∧ e.2 ≠ e'.2.
Proof.
  intros Hlen Hne e e'. unfold e, e'. split.
  - rewrite !execution_name_cut. unfold full_execution_name.
    destruct (s_DeployOnAllNodeSets _); [done|]. cbv zeta.
    set (base := getAnsibleExecutionNamePrefix _ +:+ "-" +:+ deployment).
    assert (63 ≤ String.length base) by (unfold base; rewrite !length_string_app; simpl; lia).
    unfold AnsibleExcecutionNameLabelLen.
    rewrite !decide_True by (rewrite !length_string_app; simpl; lia).
    by rewrite !str_take_app by done.
  - by intros (_ & _ & ?)%GetAnsibleExecutionNameAndLabels_labels.
Qed.

(** ** Mounts *)

(** Mount the elements that satisfy [P]. *)
Definition add_selected {A} (P : A → bool) (f : A → Volume) (g : A → VolumeMount)
    (l : list A) (m : VolMounts) : VolMounts :=
  fold_left (λ m x, if P x then add_mount m (f x) (g x) else m) l m.

Lemma add_selected_spec {A} (P : A → bool) (f : A → Volume) (g : A → VolumeMount) l m :
  add_selected P f g l m =
    mkVolMounts (vs_Volumes m ++ (f <$> filter P l)) (vs_Mounts m ++ (g <$> filter P l)).
Proof.
  unfold add_selected. revert m. induction l as [|x l IH]; intros m; simpl.
  - rewrite !app_nil_r. by destruct m.
  - rewrite IH, filter_cons. destruct (P x) eqn:Hx.
    + rewrite decide_True by done. simpl. by rewrite <- !app_assoc.
    + by rewrite decide_False by auto.
Qed.

Section mounts.
Context {MR : MapRange} {MRL : MapRangeLaws MR}.

(** Whether the secrets of NodeSet [k] go into an execution for [n]. *)
Definition selected (onAll : bool) (n k : string) : bool := onAll || bool_decide (k = n).

Definition ssh_name (onAll : bool) (k : string) : string :=
  if onAll then "ssh-key-" +:+ k else "ssh-key".
Definition ssh_path (onAll : bool) (k : string) : string :=
  if onAll then "ssh_key_" +:+ k else "ssh_key".
Definition ssh_volume (onAll : bool) (secrets : gmap string string) (k : string) : Volume :=
  secret_volume (ssh_name onAll k) (default "" (secrets !! k)) "ssh-privatekey" (ssh_path onAll k).
Definition ssh_mount (onAll : bool) (k : string) : VolumeMount :=
  mkMount (ssh_name onAll k)
    (if onAll then "/runner/env/ssh_key/" +:+ ssh_path onAll k else "/runner/env/ssh_key")
    (ssh_path onAll k).
Definition inventory_name (onAll : bool) (i : nat) : string :=
  if onAll then "inventory-" +:+ itoa (Z.of_nat i) else "inventory".
Definition inventory_volume (onAll : bool) (secrets : gmap string string) (e : nat * string) : Volume :=
  secret_volume (inventory_name onAll e.1) (default "" (secrets !! e.2)) "inventory"
    (inventory_name onAll e.1).
Definition inventory_mount (onAll : bool) (e : nat * string) : VolumeMount :=
  mkMount (inventory_name onAll e.1)
    (if onAll then "/runner/inventory/" +:+ inventory_name onAll e.1 else "/runner/inventory/hosts")
    (inventory_name onAll e.1).

Lemma mount_ssh_keys_selected onAll n secrets m :
  mount_ssh_keys onAll n secrets m =
    add_selected (selected onAll n) (ssh_volume onAll secrets) (ssh_mount onAll)
      (sorted_keys "AnsibleExecution/sshKeys" secrets) m.
Proof.
  apply fold_left_ext_eq. intros m' k. unfold selected. destruct onAll; cbn.
  - by rewrite !string_app_nil_r.
  - by repeat case_decide; try case_bool_decide; subst.
Qed.

Lemma mount_inventories_selected onAll n secrets m :
  mount_inventories onAll n secrets m =
    add_selected (λ e, selected onAll n e.2) (inventory_volume onAll secrets) (inventory_mount onAll)
      (imap pair (sorted_keys "AnsibleExecution/invKeys" secrets)) m.
Proof.
  apply fold_left_ext_eq. intros m' [i k]. unfold selected. destruct onAll; cbn.
  - by rewrite !string_app_nil_r.
  - by repeat case_decide; try case_bool_decide; subst.
Qed.

Lemma NoDup_imap_pair {A} (l : list A) (P : nat * A → bool) : NoDup (filter P (imap pair l)).*1.
Proof.
  apply NoDup_fmap_2_strong; [|apply NoDup_filter].
  - intros [i a] [j b] [_ Ha]%list_elem_of_filter [_ Hb]%list_elem_of_filter; simpl; intros ->.
    apply elem_of_lookup_imap in Ha as (i' & a' & [= <- <-] & Ha).
    apply elem_of_lookup_imap in Hb as (j' & b' & [= <- <-] & Hb). congruence.
  - apply NoDup_fmap_1 with (f := fst). rewrite fmap_imap.
    rewrite (imap_ext _ (λ i _, id i)) by done. apply NoDup_alt. intros i j k.
    rewrite !list_lookup_imap. intros (? & ? & ->)%fmap_Some (? & ? & ?)%fmap_Some. done.
Qed.

(** Without [DeployOnAllNodeSets] at most one key is selected. *)
Lemma selected_one n k1 k2 :
  selected false n k1 = true → selected false n k2 = true → k1 = k2.
Proof. unfold selected. simpl. intros ->%bool_decide_eq_true ->%bool_decide_eq_true. done. Qed.

Lemma ssh_names_NoDup onAll n (secrets : gmap string string) site :
  NoDup (ssh_name onAll <$> filter (selected onAll n) (sorted_keys site secrets)).
Proof.
  apply NoDup_fmap_2_strong; [|by apply NoDup_filter, sorted_keys_NoDup].
  intros x y [Hx _]%list_elem_of_filter [Hy _]%list_elem_of_filter.
  destruct onAll; simpl; [by intros ?%(inj _)|].
  intros _. apply Is_true_true in Hx, Hy. by eapply selected_one.
Qed.

Lemma inventory_names_NoDup onAll n (secrets : gmap string string) site :
  NoDup ((λ e, inventory_name onAll e.1) <$>
    filter (λ e, selected onAll n e.2) (imap pair (sorted_keys site secrets))).
Proof.
  apply NoDup_fmap_2_strong.
  - intros [i x] [j y] [Hx Hi]%list_elem_of_filter [Hy Hj]%list_elem_of_filter.
    apply elem_of_lookup_imap in Hi as (i' & x' & [= <- <-] & Hi).
    apply elem_of_lookup_imap in Hj as (j' & y' & [= <- <-] & Hj).
    destruct onAll; simpl.
    + intros Heq%(inj _)%(inj _)%(inj _). subst. congruence.
    + intros _. apply Is_true_true in Hx, Hy.
      assert (x = y) as <- by (by eapply selected_one). f_equal.
      exact (NoDup_lookup _ _ _ _ (sorted_keys_NoDup site secrets) Hi Hj).
  - eapply NoDup_fmap_1 with (f := fst), NoDup_imap_pair.
Qed.

Lemma execution_mounts_lists service n ssh inv :
  let onAll := s_DeployOnAllNodeSets (svc_Spec service) in
  let keys := filter (selected onAll n) (sorted_keys "AnsibleExecution/sshKeys" ssh) in
  let invs := filter (λ e, selected onAll n e.2)
    (imap pair (sorted_keys "AnsibleExecution/invKeys" inv)) in
  execution_mounts service n ssh inv =
    mkVolMounts ((ssh_volume onAll ssh <$> keys) ++ (inventory_volume onAll inv <$> invs))
      ((ssh_mount onAll <$> keys) ++ (inventory_mount onAll <$> invs)).
Proof.
  cbv zeta. unfold execution_mounts. cbv zeta.
  by rewrite mount_inventories_selected, mount_ssh_keys_selected, !add_selected_spec.
Qed.

(** C19. The volumes mounted for an execution have distinct names, each
    mount refers to the volume of its position, an execution for one NodeSet
    mounts the ssh key and the inventory of that NodeSet and of no other,
    and an execution of a service that deploys on all NodeSets those of every
    NodeSet of the deployment. *)
Theorem execution_mounts_spec (service : OpenStackDataPlaneService) (nodeSetName : string)
    (sshKeySecrets inventorySecrets : gmap string string) :
  let mounts := execution_mounts service nodeSetName sshKeySecrets inventorySecrets in
  let wanted k := s_DeployOnAllNodeSets (svc_Spec service) = true ∨ k = nodeSetName in
  NoDup (v_Name <$> vs_Volumes mounts) ∧
  vm_Name <$> vs_Mounts mounts = v_Name <$> vs_Volumes mounts ∧
  (∀ secret, (∃ v path, v ∈ vs_Volumes mounts ∧
      v_Source v = VSecret secret [mkKTP "ssh-privatekey" path]) ↔
    ∃ k, wanted k ∧ sshKeySecrets !! k = Some secret) ∧
  (∀ secret, (∃ v path, v ∈ vs_Volumes mounts ∧
      v_Source v = VSecret secret [mkKTP "inventory" path]) ↔
    ∃ k, wanted k ∧ inventorySecrets !! k = Some secret).
Proof.
  intros mounts wanted. unfold mounts. rewrite execution_mounts_lists. cbv zeta. simpl.
  set (onAll := s_DeployOnAllNodeSets (svc_Spec service)) in *.
  assert (∀ k, selected onAll nodeSetName k ↔ wanted k) as Hsel.
  { intros k. unfold selected, wanted. destruct onAll; simpl; [naive_solver|].
    rewrite bool_decide_spec. naive_solver. }
  rewrite !fmap_app, <- !list_fmap_compose. split_and!; [|done|..].
  - apply NoDup_app. split_and!.
    + apply ssh_names_NoDup.
    + intros x (k & -> & _)%list_elem_of_fmap ([i k'] & Heq & _)%list_elem_of_fmap.
      by destruct onAll.
    + apply inventory_names_NoDup.
  - intros secret. split.
    + intros (v & path & Hv & Hs). apply elem_of_app in Hv as [Hv|Hv];
        apply list_elem_of_fmap in Hv as (k & -> & [Hk Hin]%list_elem_of_filter); [|done].
      apply elem_of_sorted_keys in Hin as [s Hk'].
      exists k. split; [by apply Hsel|]. simpl in Hs. rewrite Hk' in Hs. naive_solver.
    + intros (k & Hw & Hk). eexists (ssh_volume onAll sshKeySecrets k), _. split.
      * apply elem_of_app. left. apply list_elem_of_fmap. exists k. split; [done|].
        apply list_elem_of_filter. split; [by apply Hsel|]. by apply elem_of_sorted_keys.
      * simpl. by rewrite Hk.
  - intros secret. split.
    + intros (v & path & Hv & Hs). apply elem_of_app in Hv as [Hv|Hv];
        apply list_elem_of_fmap in Hv as (k & -> & [Hk Hin]%list_elem_of_filter); [done|].
      destruct k as [i k]. apply elem_of_lookup_imap in Hin as (? & ? & [= <- <-] & Hin).
      apply list_elem_of_lookup_2, elem_of_sorted_keys in Hin as [s Hk'].
      exists k. split; [by apply Hsel|]. simpl in Hs. rewrite Hk' in Hs. naive_solver.
    + intros (k & Hw & Hk).
      assert (k ∈ sorted_keys "AnsibleExecution/invKeys" inventorySecrets) as [i Hi]%list_elem_of_lookup
        by (by apply elem_of_sorted_keys).
      eexists (inventory_volume onAll inventorySecrets (i, k)), _. split.
      * apply elem_of_app. right. apply list_elem_of_fmap. exists (i, k). split; [done|].
        apply list_elem_of_filter. split; [by apply Hsel|]. apply elem_of_lookup_imap. eauto.
      * simpl. by rewrite Hk.
Qed.
End mounts.

(** ** Variables and the object as a whole *)

Section object.
Context {W : Type} {KC : KubeClient W} {KL : KubeLaws KC} {MR : MapRange}.

Lemma set_extra_vars_idem d s n vars :
  set_extra_vars d s n (set_extra_vars d s n vars) = set_extra_vars d s n vars.
Proof.
  apply map_eq. intros k. unfold set_extra_vars. cbv zeta.
  repeat case_decide; rewrite !lookup_insert; repeat case_decide; done.
Qed.

Lemma set_extra_vars_nonempty d s n vars : set_extra_vars d s n vars ≠ ∅.
Proof. unfold set_extra_vars. case_decide; apply insert_non_empty. Qed.

Lemma base_vars (shared own : gomap string) :
  entries (if bool_decide (entries shared ≠ ∅) then shared else own) =
    if decide (entries shared = ∅) then entries own else entries shared.
Proof. by case_bool_decide; case_decide. Qed.

(** The callback on an object it produced, started as for another call. *)
Definition capture_start (aeeSpec : AnsibleEESpec) : Capture := mkCapture "" (a_ExtraVars aeeSpec).

Context (deployment : OpenStackDataPlaneDeployment) (service : OpenStackDataPlaneService).
Context (ssh inv : gmap string string) (aeeSpec : AnsibleEESpec) (nodeSetName : string).

Let mutate := mutate_AnsibleEE deployment service ssh inv aeeSpec nodeSetName.

(** C18. The variables of an execution: the target hosts are "all" for a
    service that deploys on all NodeSets and the NodeSet otherwise; the
    service type is the declared one, or the name of the service; the
    override lists the services of the deployment exactly when it has some;
    the variables of the Deployment, when there are any, replace the ones
    the object had, and every other variable is kept. *)
Theorem mutate_AnsibleEE_vars (ee ee' : OpenStackAnsibleEE) (cap : Capture) :
  mutate (capture_start aeeSpec) ee = (cap, Ok ee') →
  let base := if decide (entries (a_ExtraVars aeeSpec) = ∅)
              then entries (ee_ExtraVars (ee_Spec ee)) else entries (a_ExtraVars aeeSpec) in
  ∃ vars, ee_ExtraVars (ee_Spec ee') = Some vars ∧
    vars !! "edpm_override_hosts" =
      Some (quoted (if s_DeployOnAllNodeSets (svc_Spec service) then "all" else nodeSetName)) ∧
    vars !! "edpm_service_type" =
      Some (quoted (if decide (s_EDPMServiceType (svc_Spec service) = "")
                    then svc_Name service else s_EDPMServiceType (svc_Spec service))) ∧
    vars !! "edpm_services_override" =
      (if decide (ServicesOverride (d_Spec deployment) = []) then base !! "edpm_services_override"
       else Some (quoted (print_list (ServicesOverride (d_Spec deployment))))) ∧
    ∀ k, k ∉ ["edpm_override_hosts"; "edpm_service_type"; "edpm_services_override"] →
      vars !! k = base !! k.
Proof.
  intros Hm base. unfold mutate, mutate_AnsibleEE in Hm.
  injection Hm as _ Hm%SetOwnerAnsibleEE_same. subst ee'. simpl.
  eexists. split; [done|].
  rewrite base_vars. fold base.
  unfold set_extra_vars. destruct (ServicesOverride (d_Spec deployment)) as [|x l]; simpl.
  - rewrite !lookup_insert. simpl. split_and!.
    + by destruct (s_DeployOnAllNodeSets _).
    + by repeat case_decide.
    + done.
    + intros k Hk. rewrite !lookup_insert. repeat case_decide; subst; set_solver.
  - rewrite !lookup_insert. simpl. split_and!.
    + by destruct (s_DeployOnAllNodeSets _).
    + by repeat case_decide.
    + done.
    + intros k Hk. rewrite !lookup_insert. repeat case_decide; subst; set_solver.
Qed.

Lemma non_empty_or_idem {A} (c : string) (x y : A) :
  non_empty_or c x (non_empty_or c x y) = non_empty_or c x y.
Proof. unfold non_empty_or. by repeat case_decide. Qed.

Lemma mutate_spec_idem cmd vars spec :
  let f := mutate_spec deployment service ssh inv aeeSpec nodeSetName cmd vars in
  f (f spec) = f spec.
Proof.
  unfold mutate_spec. simpl. rewrite !non_empty_or_idem. by destruct (a_DNSConfig aeeSpec).
Qed.

(** C17. Reconciling an execution again does not change it: the callback,
    run on the object it produced (with the variables map as the first run
    left it, since the object and the Deployment share it), yields the same
    object.  So a running job is not disturbed. *)
Theorem mutate_AnsibleEE_idempotent (ee ee' : OpenStackAnsibleEE) (cap : Capture) :
  mutate (capture_start aeeSpec) ee = (cap, Ok ee') →
  (mutate (mkCapture "" (cap_ExtraVars cap)) ee').2 = Ok ee'.
Proof.
  intros Hm. unfold mutate, mutate_AnsibleEE in Hm |- *.
  injection Hm as <- Hm. pose proof (SetOwnerAnsibleEE_same _ _ _ Hm) as He'.
  rewrite <- He' in Hm. rewrite <- Hm. simpl. f_equal.
  set (base := entries _) in *. set (vars := set_extra_vars _ _ _ base) in *.
  transitivity (mkEE (ee_Meta ee') (mutate_spec deployment service ssh inv aeeSpec nodeSetName
    ("" +:+ cmdline_flags aeeSpec) vars (ee_Spec ee')) (ee_JobStatus ee') (ee_Conditions ee')).
  - do 2 f_equal. pose proof (set_extra_vars_nonempty deployment service nodeSetName base).
    destruct (bool_decide (entries (a_ExtraVars aeeSpec) ≠ ∅)) eqn:Hb; simpl.
    + rewrite bool_decide_eq_true_2 by done. simpl. apply set_extra_vars_idem.
    + rewrite Hb, He'. simpl. apply set_extra_vars_idem.
  - rewrite He'. simpl. by rewrite mutate_spec_idem.
Qed.
End object.

(** ** Looking an execution up by its labels *)

Section lookup.
Context {W : Type} {KC : KubeClient W} {KL : KubeLaws KC}.

Lemma GetAnsibleExecution_total obj labels (w : W) : run (GetAnsibleExecution obj labels) w ≠ None.
Proof.
  unfold GetAnsibleExecution, run, mbind, M_bind, op.
  by destruct (ListAnsibleEEs _ _ w) as [w' [[|ee [|ee2 l]]|err]].
Qed.

(** Looking an execution up yields the object with the labels when
    exactly one has them; a NotFound error when none has; another error when
    several have, or when they could not be listed (with that error). *)
Theorem GetAnsibleExecution_spec (obj : ObjectMeta) (labels : gmap string string) (w : W) :
  let answer := (ListAnsibleEEs (m_Namespace obj) labels w).2 in
  ∃ r, run (GetAnsibleExecution obj labels) w = Some r ∧
    match r with
    | Ok ee => answer = Ok [ee]
    | Fail err =>
        answer = Fail err ∨ (answer = Ok [] ∧ IsNotFound err = true) ∨
        (∃ l, answer = Ok l ∧ 2 ≤ length l ∧ IsNotFound err = false)
    end.
Proof.
  intros answer. unfold answer, GetAnsibleExecution, run, mbind, M_bind, op.
  destruct (ListAnsibleEEs _ _ w) as [w' [l|err]]; simpl;
    [|eexists; split; [done|by left]].
  destruct l as [|ee [|ee2 l]]; simpl; eexists; (split; [done|]); [|done|].
  - right. left. split; [done|]. apply NewNotFound_IsNotFound.
  - right. right. eexists. split; [done|]. simpl. split; [lia|done].
Qed.
End lookup.

(** ** The properties at concrete objects *)

Definition long_service : OpenStackDataPlaneService :=
  service_of "openstack" "a-service-with-a-name-of-more-than-fifty-three-characters" false.

Lemma execution_name_collision_witness :
  (GetAnsibleExecutionNameAndLabels long_service "edpm-deployment" "edpm-compute").1 =
  (GetAnsibleExecutionNameAndLabels long_service "edpm-deployment" "edpm-networker").1.
Proof.
  apply (execution_name_collision long_service "edpm-deployment" "edpm-compute" "edpm-networker");
    [vm_compute; lia|done].
Defined.

Lemma execution_mounts_witness :
  ∃ v path, v ∈ vs_Volumes (execution_mounts (service_of "openstack" "ovn" false) "edpm-a"
      {[ "edpm-a" := "key-a"; "edpm-b" := "key-b" ]} ∅) ∧
    v_Source v = VSecret "key-a" [mkKTP "ssh-privatekey" path].
Proof.
  apply (proj1 (proj2 (proj2 (execution_mounts_spec (service_of "openstack" "ovn" false) "edpm-a"
    {[ "edpm-a" := "key-a"; "edpm-b" := "key-b" ]} ∅)))).
  exists "edpm-a". split; [by right|done].
Defined.

Definition sample_ee : OpenStackAnsibleEE := mkEE (meta "openstack" "ee") zeroEESpec "" [].
Definition sample_mutate (cap : Capture) (ee : OpenStackAnsibleEE) :=
  mutate_AnsibleEE (deployment_of "openstack" "deploy" ["edpm"]) (service_of "openstack" "ovn" true)
    {[ "edpm" := "key" ]} {[ "edpm" := "inventory" ]} zeroAeeSpec "edpm" cap ee.

Lemma mutate_AnsibleEE_vars_witness :
  ∃ cap ee' vars, sample_mutate (capture_start zeroAeeSpec) sample_ee = (cap, Ok ee') ∧
    ee_ExtraVars (ee_Spec ee') = Some vars ∧
    vars !! "edpm_override_hosts" = Some (quoted "all").
Proof.
  edestruct (mutate_AnsibleEE_vars (deployment_of "openstack" "deploy" ["edpm"])
    (service_of "openstack" "ovn" true) {[ "edpm" := "key" ]} {[ "edpm" := "inventory" ]} zeroAeeSpec
    "edpm" sample_ee) as (vars & H1 & H2 & _); [reflexivity|].
  eexists _, _, vars. split; [reflexivity|]. split; [exact H1|exact H2].
Defined.

Lemma mutate_AnsibleEE_idempotent_witness :
  ∃ cap ee', sample_mutate (capture_start zeroAeeSpec) sample_ee = (cap, Ok ee') ∧
    (sample_mutate (mkCapture "" (cap_ExtraVars cap)) ee').2 = Ok ee'.
Proof.
  eexists _, _. split; [reflexivity|].
  apply (mutate_AnsibleEE_idempotent (deployment_of "openstack" "deploy" ["edpm"])
    (service_of "openstack" "ovn" true) {[ "edpm" := "key" ]} {[ "edpm" := "inventory" ]} zeroAeeSpec
    "edpm" sample_ee). reflexivity.
Defined.

Lemma GetAnsibleExecution_witness :
  ∃ r, run (GetAnsibleExecution (meta "openstack" "deploy") ∅) empty_sim = Some r ∧
    match r with Ok _ => False | Fail err => IsNotFound err = true end.
Proof.
  destruct (GetAnsibleExecution_spec (meta "openstack" "deploy") ∅ empty_sim) as (r & Hr & H).
  exists r. split; [exact Hr|]. destruct r as [ee|err]; [discriminate H|].
  destruct H as [H|[[_ H]|(l & H & Hl & _)]]; [discriminate H|exact H|].
  injection H as <-. vm_compute in Hl. lia.
Defined.
