(* ===== verification/Service.v ===== *)
(** pkg/deployment/service.go: reading services, creating the default ones
    from the service files, and the check that a service for all NodeSets is
    listed once. *)

From stdpp Require Import base gmap strings list.
From S2P Require Import Prelude GoStd Conditions Types Cluster Sim.

(** [Check if service name is already in a list] *)
Fixpoint serviceInList (service : string) (services : list string) : bool :=
  match services with
  | [] => false
  | svc :: services => if decide (svc = service) then true else serviceInList service services
  end.

Section operations.
Context {W : Type} {KC : KubeClient W} {P : Process W} {V : Validation}.

(** [GetService]: [ns] is the namespace of the object being reconciled
    ([helper.GetBeforeObject().GetNamespace()]). *)
Definition GetService {R} (ns service : string) : M W R (result OpenStackDataPlaneService) :=
  op (GetServiceObj (mkNN ns service)).

(** The body of the loop of [EnsureServices] over the files. *)
Definition EnsureService (instance : OpenStackDataPlaneNodeSet) (servicesPath file : string) :
    M W (option Err) () :=
  let servicePath := path_join [servicesPath; file] in
  if negb (has_suffix file ".yaml") then mret ()
  else
    data ← op (ReadFile servicePath);
    match UnmarshalServiceYAML data with
    | Fail err => return_ (Some err)
    | Ok serviceObj =>
        if decide (y_Kind serviceObj ≠ "OpenStackDataPlaneService") then mret ()
        else
          match DecodeMetadata (y_Metadata serviceObj) with
          | Fail err => return_ (Some err)
          | Ok name =>
              match hostname_rfc1123 name with
              | Some err => return_ (Some err)
              | None =>
                  if negb (serviceInList name (ns_Services (ns_Spec instance))) then mret ()
                  else
                    match DecodeServiceSpec (y_Spec serviceObj) with
                    | Fail err => return_ (Some err)
                    | Ok serviceObjSpec =>
                        r ← op (CreateOrPatchService
                          (mkService (meta (ns_Namespace instance) name) zeroServiceSpec [])
                          (λ ensureService, Ok (mkService (svc_Meta ensureService) serviceObjSpec
                                                 (svc_Conditions ensureService))));
                        match r with
                        | Fail err => return_ (Some (wrap_err "error ensuring service: " err))
                        | Ok _ => mret ()
                        end
                    end
              end
          end
    end.

Definition EnsureServices (instance : OpenStackDataPlaneNodeSet) : M W (option Err) (option Err) :=
  env ← op (LookupEnv "OPERATOR_SERVICES");
  servicesPath ←
    match env with
    | Some p => mret p
    | None => _ ← op (Setenv "OPERATOR_SERVICES" "config/services"); mret "config/services"
    end;
  services ← op (ReadDir servicesPath);
  match services with
  | Fail err => return_ (Some err)
  | Ok services => _ ← for_each services (EnsureService instance servicesPath); mret None
  end.

(** The body of the second loop; the accumulator is [globalServices]. *)
Definition check_global (ns : string) (globalServices : list string) (svc : string) :
    M W (option Err) (list string) :=
  r ← GetService ns svc;
  match r with
  | Fail err => return_ (Some err)
  | Ok service =>
      if s_DeployOnAllNodeSets (svc_Spec service) then
        if serviceInList (svc_Name service) globalServices
        then return_ (Some (Errorf "global service %s defined multiple times" [svc_Name service]))
        else mret (globalServices ++ [svc_Name service])
      else mret globalServices
  end.

Definition CheckGlobalServiceExecutionConsistency (ns : string)
    (nodesets : list OpenStackDataPlaneNodeSet) : M W (option Err) (option Err) :=
  let allServices :=
    fold_left (λ allServices nodeset, allServices ++ ns_Services (ns_Spec nodeset)) nodesets [] in
  _ ← for_acc allServices (check_global ns) [];
  mret None.
End operations.

(** ** Facts *)

Lemma serviceInList_true s l : serviceInList s l = true ↔ s ∈ l.
Proof.
  induction l as [|x l IH]; simpl; [split; [done|by intros ?%not_elem_of_nil]|].
  rewrite elem_of_cons. case_decide; [naive_solver|rewrite IH; naive_solver].
Qed.

Lemma all_services l :
  fold_left (λ acc nodeset, acc ++ ns_Services (ns_Spec nodeset)) l [] =
    concat ((λ nodeset, ns_Services (ns_Spec nodeset)) <$> l).
Proof.
  assert (∀ acc, fold_left (λ acc nodeset, acc ++ ns_Services (ns_Spec nodeset)) l acc =
    acc ++ concat ((λ nodeset, ns_Services (ns_Spec nodeset)) <$> l)) as H; [|apply H].
  induction l as [|n l IH]; intros acc; simpl; [by rewrite app_nil_r|].
  by rewrite IH, app_assoc.
Qed.

(** The services an API server answers for a name, when its answers do not
    change during a call. *)
Class StableServices {W} (KC : KubeClient W) (ns : string) (w : W)
    (svc : string → result OpenStackDataPlaneService) : Prop :=
  stable_services name : GetServiceObj (mkNN ns name) w = (w, svc name).

Section consistency.
Context {W : Type} {KC : KubeClient W} {ns : string} {w : W}.
Context {svc : string → result OpenStackDataPlaneService} {ST : StableServices KC ns w svc}.

Definition is_global (s : OpenStackDataPlaneService) : bool := s_DeployOnAllNodeSets (svc_Spec s).

(** [found] are the services the names stand for, none of the global ones
    being in [gs] or listed twice. *)
Definition consistent (gs all : list string) : Prop :=
  ∃ found, Forall2 (λ name s, svc name = Ok s) all found ∧
    NoDup (gs ++ (svc_Name <$> filter is_global found)).

Lemma consistent_nil gs : NoDup gs → consistent gs [].
Proof. exists []. split; [constructor|]. simpl. by rewrite app_nil_r. Qed.

Lemma consistent_cons gs name all s :
  svc name = Ok s →
  consistent gs (name :: all) ↔
    if is_global s then svc_Name s ∉ gs ∧ consistent (gs ++ [svc_Name s]) all
    else consistent gs all.
Proof.
  intros Hs. unfold consistent.
  assert (consistent gs (name :: all) ↔ ∃ found, Forall2 (λ name s, svc name = Ok s) all found ∧
    NoDup (gs ++ (svc_Name <$> filter is_global (s :: found)))) as Hc.
  { split.
    - intros (found & Hf & HQ). inversion Hf as [|? s' ? found' Hs' Hf']; subst.
      rewrite Hs in Hs'. injection Hs' as <-. eauto.
    - intros (found & Hf & HQ). exists (s :: found). split; [by constructor|done]. }
  unfold consistent in Hc. rewrite Hc. setoid_rewrite filter_bool_cons.
  destruct (is_global s); simpl; [|done]. setoid_rewrite <- app_assoc. simpl. split.
  - intros (found & Hf & Hnd). split; [|eauto].
    intros Hin. apply NoDup_app in Hnd as (_ & Hd & _). destruct (Hd _ Hin). by left.
  - intros (_ & found & Hf & Hnd). eauto.
Qed.

Lemma check_global_loop all gs :
  NoDup gs →
  ∃ o, for_acc all (check_global ns) gs w = (o, w) ∧
    match o with
    | Next _ => consistent gs all
    | Return r => r ≠ None ∧ ¬ consistent gs all
    | Panic => False
    end.
Proof.
  revert gs. induction all as [|name all IH]; intros gs Hgs; simpl.
  - eexists. split; [done|]. by apply consistent_nil.
  - unfold mbind, M_bind, check_global at 1, GetService, op, mbind, M_bind.
    rewrite stable_services. destruct (svc name) as [s|e] eqn:Hs; simpl.
    2:{ eexists. split; [done|]. split; [done|]. intros (found & Hf & _). inversion Hf. congruence. }
    pose proof (consistent_cons gs name all s Hs) as Hc. unfold is_global in Hc.
    destruct (s_DeployOnAllNodeSets (svc_Spec s)).
    + destruct (serviceInList (svc_Name s) gs) eqn:Hin; simpl.
      * apply serviceInList_true in Hin. eexists. split; [done|]. split; [done|]. tauto.
      * assert (svc_Name s ∉ gs) as Hn by (intros Hx%serviceInList_true; congruence).
        destruct (IH (gs ++ [svc_Name s])) as (o & Ho & HP).
        { apply NoDup_app. split_and!; [done| |apply NoDup_singleton].
          intros x Hx ->%list_elem_of_singleton. done. }
        exists o. split; [done|]. destruct o; tauto.
    + destruct (IH gs Hgs) as (o & Ho & HP). exists o. split; [done|]. destruct o; tauto.
Qed.

(** C37. The consistency check passes exactly when every service of every
    NodeSet can be read and no service that deploys on all NodeSets is
    listed twice among them. *)
Theorem CheckGlobalServiceExecutionConsistency_spec (nodesets : list OpenStackDataPlaneNodeSet) :
  run (CheckGlobalServiceExecutionConsistency ns nodesets) w = Some None ↔
    ∃ found, Forall2 (λ name s, svc name = Ok s)
        (concat ((λ n, ns_Services (ns_Spec n)) <$> nodesets)) found ∧
      NoDup (svc_Name <$> filter is_global found).
Proof.
  unfold CheckGlobalServiceExecutionConsistency. rewrite all_services. unfold run, mbind, M_bind.
  destruct (check_global_loop (concat ((λ n, ns_Services (ns_Spec n)) <$> nodesets)) []
    NoDup_nil_2) as (o & Ho & HP).
  unfold consistent in HP. simpl in HP. unfold fmap in Ho, HP |- *. rewrite Ho.
  destruct o as [gs|r|]; simpl; [done| |done]. split; [|tauto]. intros [= ->]. tauto.
Qed.
End consistency.

Section ensure.
Context {W : Type} {KC : KubeClient W} {P : Process W} {V : Validation}.
Context (instance : OpenStackDataPlaneNodeSet) (I : W → Prop).

(** What reading files and creating the services of this NodeSet keeps. *)
Class KeptByEnsure : Prop := {
  kept_env name w : I w → I (LookupEnv name w).1;
  kept_setenv name v w : I w → I (Setenv name v w).1;
  kept_readdir path w : I w → I (ReadDir path w).1;
  kept_readfile path w : I w → I (ReadFile path w).1;
  kept_create s mutate w :
    svc_Name s ∈ ns_Services (ns_Spec instance) → svc_Namespace s = ns_Namespace instance →
    hostname_rfc1123 (svc_Name s) = None → I w → I (CreateOrPatchService s mutate w).1;
}.

Lemma EnsureService_keeps (K : KeptByEnsure) path file w :
  I w → sat (EnsureService instance path file) w (λ o w', I w' ∧ o ≠ Panic).
Proof.
  intros Hw. unfold EnsureService. destruct (negb _); [done|].
  apply sat_bind, sat_op.
  assert (I (ReadFile (path_join [path; file]) w).1) as Hf by (by apply kept_readfile).
  destruct (UnmarshalServiceYAML _) as [y|e]; [|done]. case_decide; [done|].
  destruct (DecodeMetadata _) as [name|e]; [|done].
  destruct (hostname_rfc1123 name) eqn:Hn; [done|].
  destruct (serviceInList name _) eqn:Hin; simpl; [|done].
  destruct (DecodeServiceSpec _) as [spec|e]; [|done].
  apply sat_bind, sat_op. apply serviceInList_true in Hin.
  match goal with |- context [CreateOrPatchService ?s ?f ?w] =>
    assert (I (CreateOrPatchService s f w).1) by (by apply kept_create) end.
  by destruct (CreateOrPatchService _ _ _).2.
Qed.

(** C38. Ensuring the services of a NodeSet creates or updates no service but
    those the NodeSet lists, in its namespace and under a valid name: what
    survives these writes (and reading the service files) survives the whole
    run, whatever its outcome, and the run does not panic. *)
Theorem EnsureServices_keeps (K : KeptByEnsure) (w : W) :
  I w → sat (EnsureServices instance) w (λ o w', I w' ∧ o ≠ Panic).
Proof.
  intros Hw. unfold EnsureServices. apply sat_bind, sat_op.
  assert (I (LookupEnv "OPERATOR_SERVICES" w).1) as H1 by (by apply kept_env).
  apply sat_bind.
  apply sat_mono with (Q := λ o w', I w' ∧ ∃ p, o = Next p).
  { destruct (LookupEnv _ w).2; [by split; [|eexists]|].
    apply sat_bind, sat_op. split; [by apply kept_setenv|eauto]. }
  intros o w1 [Hw1 [p ->]]. apply sat_bind, sat_op.
  assert (I (ReadDir p w1).1) as H2 by (by apply kept_readdir).
  destruct (ReadDir p w1).2 as [files|e]; [|done].
  apply sat_bind. apply sat_for_acc with (I := λ _ _ w', I w'); [done| |done].
  intros file l [] w2 _ Hw2. eapply sat_mono; [by apply EnsureService_keeps|].
  intros [[]|r|] w3 [? ?]; done.
Qed.
End ensure.

(** ** The properties at concrete objects *)

Definition nodeset_services (name : string) (services : list string) : OpenStackDataPlaneNodeSet :=
  mkNodeSet (meta "openstack" name)
    (mkNodeSetSpec zeroBaremetalSpec zeroTemplate ∅ [] [] services None 0 true false)
    zeroNodeSetStatus.
Definition two_services : Sim :=
  set_services {[ "openstack/ovn" := service_of "openstack" "ovn" false;
                  "openstack/ssh" := service_of "openstack" "ssh" true ]} empty_sim.

Lemma CheckGlobalServiceExecutionConsistency_witness :
  run (CheckGlobalServiceExecutionConsistency "openstack"
    [nodeset_services "a" ["ovn"; "ssh"]; nodeset_services "b" ["ovn"]]) two_services = Some None ∧
  run (CheckGlobalServiceExecutionConsistency "openstack"
    [nodeset_services "a" ["ovn"; "ssh"]; nodeset_services "b" ["ssh"]]) two_services ≠ Some None.
Proof.
  assert (StableServices sim_kube "openstack" two_services
    (λ name, (GetServiceObj (mkNN "openstack" name) two_services).2)) as ST by (intros name; reflexivity).
  split.
  - apply (CheckGlobalServiceExecutionConsistency_spec
      [nodeset_services "a" ["ovn"; "ssh"]; nodeset_services "b" ["ovn"]]).
    exists [service_of "openstack" "ovn" false; service_of "openstack" "ssh" true;
            service_of "openstack" "ovn" false].
    split; [repeat constructor|apply NoDup_singleton].
  - intros H. apply (CheckGlobalServiceExecutionConsistency_spec
      [nodeset_services "a" ["ovn"; "ssh"]; nodeset_services "b" ["ssh"]]) in H
      as (found & Hf & Hnd).
    vm_compute in Hf. inversion Hf as [|? a ? l Ha Hf1]; subst.
    inversion Hf1 as [|? b ? l1 Hb Hf2]; subst. inversion Hf2 as [|? c ? l2 Hc Hf3]; subst.
    inversion Hf3; subst. injection Ha as <-. injection Hb as <-. injection Hc as <-.
    apply NoDup_cons in Hnd as [Hn _]. destruct Hn. by left.
Defined.

(** The bootstrap service, which has a file but is not listed, is not created. *)
Definition no_bootstrap (w : Sim) : Prop :=
  services w !! "openstack/bootstrap" = None ∧ faults w = [].

Lemma ovn_only_kept : KeptByEnsure (nodeset_services "edpm" ["ovn"]) no_bootstrap.
Proof.
  split; try done.
  intros s mutate w Hn%list_elem_of_singleton Hns _ [Hb Hf]. simpl. rewrite Hns, Hn.
  unfold upsert, faulty, no_bootstrap. rewrite Hf. destruct (mutate _); simpl; [|done].
  split; [|done]. by rewrite lookup_insert_ne.
Qed.

Lemma EnsureServices_witness :
  sat (EnsureServices (nodeset_services "edpm" ["ovn"])) two_services
    (λ o w', services w' !! "openstack/bootstrap" = None).
Proof.
  eapply sat_mono.
  - apply (EnsureServices_keeps (nodeset_services "edpm" ["ovn"]) no_bootstrap ovn_only_kept).
    by split.
  - by intros o w' [[? _] _].
Defined.
