(* ===== verification/Cert.v ===== *)
(** pkg/deployment/cert.go: the TLS certificates of the nodes of a NodeSet,
    and the secrets they are delivered in. *)

From Stdlib Require Import Ascii.
From stdpp Require Import base gmap strings list sorting pretty.
From S2P Require Import Prelude GoStd Conditions Types Cluster Sim.

(** pkg/deployment/const.go *)
Definition CtlPlaneNetwork : string := "ctlplane".
Definition DNSNamesStr : string := "dnsnames".
Definition IPValuesStr : string := "ips".
Definition NodeSetLabel : string := "osdpns".
Definition ServiceLabel : string := "osdp-service".
Definition ServiceKeyLabel : string := "osdp-service-cert-key".
Definition HostnameLabel : string := "hostname".

Definition GetServiceCertsSecretName (instance : OpenStackDataPlaneNodeSet) (serviceName certKey : string)
    (index : nat) : string :=
  sprintf "%s-%s-%s-certs-%s" [ns_Name instance; serviceName; certKey; itoa (Z.of_nat index)].

(** ** createSecretsDataStructure *)

(** [len(certsData[k]) + len(k)] *)
Definition entry_size (certsData : gmap string string) (k : string) : Z :=
  add64 (slen (default "" (certsData !! k))) (slen k).
Definition put_entry (certsData : gmap string string) (k : string) (m : gmap string string) :
    gmap string string := <[k := default "" (certsData !! k)]> m.

(** [sz], and the three assignments to [*cur] *)
Definition group_size (certsData : gmap string string) (k0 k1 k2 : string) : Z :=
  add64 (add64 (entry_size certsData k0) (entry_size certsData k1)) (entry_size certsData k2).
Definition put_group (certsData : gmap string string) (k0 k1 k2 : string) (m : gmap string string) :
    gmap string string :=
  put_entry certsData k2 (put_entry certsData k1 (put_entry certsData k0 m)).

(** The loop, on the keys from index [k] on.  [cur] is the index in [ci] of
    the map [*cur] points to.  [None] is a panic: an index out of range, or the
    nil pointer [cur]. *)
Fixpoint pack_certs (secretMaxSize : Z) (certsData : gmap string string) (keys : list string)
    (totalSize : Z) (ci : list (gmap string string)) (cur : option nat) :
    option (list (gmap string string)) :=
  match keys with
  | [] | [_] => Some ci
  | [_; _] => None
  | k0 :: k1 :: k2 :: keys =>
      let sz := group_size certsData k0 k1 k2 in
      let '(ci, cur, totalSize) :=
        if decide (secretMaxSize < add64 totalSize sz)%Z
        then (ci ++ [∅], Some (length ci), 0%Z) else (ci, cur, totalSize) in
      let totalSize := add64 totalSize sz in
      match cur with
      | None => None
      | Some i =>
          let ci := alter (put_group certsData k0 k1 k2) i ci in
          pack_certs secretMaxSize certsData keys totalSize ci cur
      end
  end.
Definition createSecretsDataStructure `{MapRange} (secretMaxSize : Z) (certsData : gmap string string) :
    option (list (gmap string string)) :=
  pack_certs secretMaxSize certsData (sorted_keys "createSecretsDataStructure" certsData)
    secretMaxSize [] None.

(** ** EnsureTLSCerts *)

Section operations.
Context {W : Type} {KC : KubeClient W} {LC : LibCommon W} {CM : CertManager W} {MR : MapRange}.

(** [GetTLSNodeCert]: the secret is only read when the result is empty and
    the error nil. *)
Definition GetTLSNodeCert (instance : OpenStackDataPlaneNodeSet) (certName : string) (issuer : Issuer)
    (labels : gmap string string) (commonName : string) (hostnames ips usages : list string) :
    M W (Secret * Result * option Err) (Secret * Result * option Err) :=
  let noSecret := mkSecret "" ∅ ∅ in
  let annotation k default_ :=
    match iss_Annotations issuer !! k with
    | Some d => if decide (d ≠ "") then Some d else default_
    | None => default_
    end in
  let durationString :=
    default CertDefaultDuration (annotation CertDurationAnnotation None) in
  match ParseDuration durationString with
  | Fail err =>
      return_ (noSecret, emptyResult, Some (wrap_err
        (sprintf "error parsing duration annotation %s - " [CertDurationAnnotation]) err))
  | Ok duration =>
      renewBefore ←
        match annotation CertRenewBeforeAnnotation None with
        | None => mret None
        | Some r =>
            match ParseDuration r with
            | Fail err =>
                return_ (noSecret, emptyResult, Some (wrap_err
                  (sprintf "error parsing renewBefore annotation %s - " [CertRenewBeforeAnnotation]) err))
            | Ok rb => mret (Some rb)
            end
        end;
      let request := mkCertRequest commonName (iss_Name issuer) certName duration renewBefore
        hostnames ips labels usages [iss_Name issuer] in
      r ← op (EnsureCert request instance);
      let '(certSecret, result, err) := r in
      match err with
      | Some err => return_ (noSecret, emptyResult, Some err)
      | None =>
          if decide (result ≠ emptyResult) then return_ (noSecret, result, None)
          else mret (certSecret, emptyResult, None)
      end
  end.

(** The host names, or the IPs, that go into a certificate. *)
Definition names_in_cert (site what : string) (cert : OpenstackDataPlaneServiceCert)
    (names : gmap string string) : list string :=
  if contains (sc_Contents cert) what then
    if decide (length (sc_Networks cert) = 0)
    then range_values site names
    else (λ network, default "" (names !! to_lower network)) <$> sc_Networks cert
  else [].

Definition zeroCert : OpenstackDataPlaneServiceCert := mkServiceCert [] [] "" [] "".

(** The body of the loop over the nodes; the accumulator is [certsData]. *)
Definition node_certs (instance : OpenStackDataPlaneNodeSet)
    (allHostnames allIPs : gmap string (gmap string string)) (service : OpenStackDataPlaneService)
    (certKey : string) (certsData : gmap string string) (entry : string * NodeSection) :
    M W (Result * option Err) (gmap string string) :=
  let '(nodeName, node) := entry in
  let cert := default zeroCert (entries (s_TLSCerts (svc_Spec service)) !! certKey) in
  let hostName := n_HostName node in
  let labels : gmap string string :=
    <[HostnameLabel := hostName]> (<[ServiceLabel := svc_Name service]>
      (<[ServiceKeyLabel := certKey]> (<[NodeSetLabel := ns_Name instance]> ∅))) in
  let certName := svc_Name service +:+ "-" +:+ certKey +:+ "-" +:+ hostName in
  let dnsNames := default ∅ (allHostnames !! hostName) in
  let ipsMap := default ∅ (allIPs !! hostName) in
  let hosts := names_in_cert "EnsureTLSCerts/dnsNames" DNSNamesStr cert dnsNames in
  let ips := names_in_cert "EnsureTLSCerts/ipsMap" IPValuesStr cert ipsMap in
  let issuerLabelSelector : gmap string string :=
    if decide (sc_Issuer cert = "") then {[ RootCAIssuerInternalLabel := "" ]}
    else {[ sc_Issuer cert := "" ]} in
  i ← op (GetIssuerByLabels (ns_Namespace instance) issuerLabelSelector);
  match i with
  | Fail err => return_ (emptyResult, Some err)
  | Ok issuer =>
      match dnsNames !! CtlPlaneNetwork with
      | None =>
          return_ (emptyResult, Some (Errorf
            "control plane network not found for node %s , tls-e requires a control plane network to be present"
            [nodeName]))
      | Some baseName =>
          c ← call (GetTLSNodeCert instance certName issuer labels baseName hosts ips
                (sc_KeyUsages cert));
          let '(certSecret, result, err) := c in
          if decide (err ≠ None ∨ result ≠ emptyResult) then return_ (result, err)
          else
            let data k := default "" (sec_Data certSecret !! k) in
            mret (<[baseName +:+ "-ca.crt" := data "ca.crt"]>
              (<[baseName +:+ "-tls.crt" := data "tls.crt"]>
                (<[baseName +:+ "-tls.key" := data "tls.key"]> certsData)))
      end
  end.

(** The loop over the nodes. *)
Definition collect_certs (instance : OpenStackDataPlaneNodeSet)
    (allHostnames allIPs : gmap string (gmap string string)) (service : OpenStackDataPlaneService)
    (certKey : string) : M W (Result * option Err) (gmap string string) :=
  for_acc (range "EnsureTLSCerts/nodes" (ns_Nodes (ns_Spec instance)))
    (node_certs instance allHostnames allIPs service certKey) ∅.

(** The secret with index [i] of the [n] secrets of a service. *)
Definition certs_secret (instance : OpenStackDataPlaneNodeSet) (serviceName certKey : string)
    (n i : nat) (data : gmap string string) : Secret :=
  mkSecret (GetServiceCertsSecretName instance serviceName certKey i)
    (<["secretNumber" := itoa (Z.of_nat i)]> {[ "numberOfSecrets" := itoa (Z.of_nat n) ]}) data.

(** The body of the loop over the secrets, and the loop. *)
Definition write_secret (instance : OpenStackDataPlaneNodeSet) (service : OpenStackDataPlaneService)
    (certKey : string) (n : nat) (entry : nat * gmap string string) : M W (Result * option Err) () :=
  let '(i, data) := entry in
  r ← op (CreateOrPatchSecret instance (ns_Namespace instance)
        (certs_secret instance (svc_Name service) certKey n i data));
  match r with
  | Fail err =>
      return_ (emptyResult, Some (wrap_err
        (sprintf "error creating certs secret for %s - " [svc_Name service]) err))
  | Ok result =>
      if decide (result ≠ OperationResultNone)
      then return_ (mkResult false (seconds 5), None) else mret ()
  end.
Definition write_secrets (instance : OpenStackDataPlaneNodeSet) (service : OpenStackDataPlaneService)
    (certKey : string) (ci : list (gmap string string)) : M W (Result * option Err) () :=
  for_each (imap pair ci) (write_secret instance service certKey (length ci)).

Definition EnsureTLSCerts (instance : OpenStackDataPlaneNodeSet)
    (allHostnames allIPs : gmap string (gmap string string)) (service : OpenStackDataPlaneService)
    (certKey : string) : M W (Result * option Err) (Result * option Err) :=
  certsData ← collect_certs instance allHostnames allIPs service certKey;
  ci ← deref (createSecretsDataStructure (ns_SecretMaxSize (ns_Spec instance)) certsData);
  _ ← write_secrets instance service certKey ci;
  mret (emptyResult, None).
End operations.

(** ** createSecretsDataStructure: facts *)

(** The entries of [certsData] under the given keys, and their size. *)
Definition restrict (certsData : gmap string string) (ks : list string) : gmap string string :=
  filter (λ kv, kv.1 ∈ ks) certsData.
Definition key_bytes (certsData : gmap string string) (k : string) : Z :=
  slen (default "" (certsData !! k)) + slen k.
Definition bytes (certsData : gmap string string) (ks : list string) : Z :=
  foldr (λ k n, key_bytes certsData k + n)%Z 0%Z ks.

Section pack.
Context (certsData : gmap string string) (max : Z).
Local Open Scope Z_scope.

Lemma key_bytes_nonneg k : 0 ≤ key_bytes certsData k.
Proof. unfold key_bytes, slen. lia. Qed.
Lemma bytes_nonneg ks : 0 ≤ bytes certsData ks.
Proof. induction ks as [|k ks IH]; simpl; [done|]. pose proof (key_bytes_nonneg k). lia. Qed.
Lemma bytes_app ks ks' : bytes certsData (ks ++ ks') = bytes certsData ks + bytes certsData ks'.
Proof. induction ks as [|k ks IH]; simpl; [done|]. rewrite IH. lia. Qed.

Lemma restrict_nil : restrict certsData [] = ∅.
Proof.
  apply map_eq. intros k. rewrite lookup_empty. apply map_lookup_filter_None. right.
  intros v _. simpl. apply not_elem_of_nil.
Qed.

Lemma put_restrict k ks :
  is_Some (certsData !! k) → put_entry certsData k (restrict certsData ks) = restrict certsData (ks ++ [k]).
Proof.
  intros [v Hv]. unfold put_entry, restrict. rewrite Hv. simpl. apply map_eq. intros k'.
  destruct (decide (k' = k)) as [->|Hne].
  - rewrite lookup_insert_eq. symmetry. apply map_lookup_filter_Some. split; [done|]. simpl.
    rewrite elem_of_app. right. by left.
  - rewrite lookup_insert_ne by done. apply option_eq. intros v'.
    rewrite !map_lookup_filter_Some. simpl.
    rewrite elem_of_app, list_elem_of_singleton. naive_solver.
Qed.

(** A secret that does not hold a single group fits the limit. *)
Definition good_part (part : list string) : Prop :=
  (∃ n, length part = 3 * S n)%nat ∧ (bytes certsData part ≤ max ∨ length part = 3%nat).

(** The parts filled so far: all but the one being filled, and that one. *)
Definition filled (parts : list (list string)) (totalSize : Z) (cur : option nat) : Prop :=
  Forall good_part parts ∧
  match last parts with
  | None => totalSize = max ∧ cur = None
  | Some part => totalSize = bytes certsData part ∧ cur = Some (pred (length parts))
  end.

Lemma alter_last (parts : list (list string)) part (f : gmap string string → gmap string string) :
  alter f (length parts) ((restrict certsData <$> parts) ++ [restrict certsData part]) =
    (restrict certsData <$> parts) ++ [f (restrict certsData part)].
Proof.
  rewrite <- (length_fmap (restrict certsData) parts) at 1.
  by rewrite <- (Nat.add_0_r (length _)), alter_app_r.
Qed.

Lemma group_size_bytes k0 k1 k2 :
  bytes certsData [k0; k1; k2] < 2 ^ 63 → group_size certsData k0 k1 k2 = bytes certsData [k0; k1; k2].
Proof.
  simpl. intros H. pose proof (key_bytes_nonneg k0). pose proof (key_bytes_nonneg k1).
  pose proof (key_bytes_nonneg k2). unfold group_size, entry_size, add64, key_bytes in *.
  rewrite !(wrap64_id (slen _ + slen _)) by (unfold int64; lia).
  rewrite !wrap64_id; unfold int64; try rewrite !wrap64_id; unfold int64; lia.
Qed.

Lemma group_pos k0 k1 k2 : NoDup [k0; k1; k2] → 0 < bytes certsData [k0; k1; k2].
Proof.
  intros Hnd. simpl. unfold key_bytes, slen.
  assert (k0 ≠ "" ∨ k1 ≠ "") as [Hk|Hk].
  { destruct k0; [|by left]. right. intros ->. apply NoDup_cons in Hnd as [Hn _]. destruct Hn. left. }
  - destruct k0; [done|]. simpl. lia.
  - destruct k1; [done|]. simpl. lia.
Qed.

Lemma put_group_restrict k0 k1 k2 ks :
  is_Some (certsData !! k0) → is_Some (certsData !! k1) → is_Some (certsData !! k2) →
  put_group certsData k0 k1 k2 (restrict certsData ks) = restrict certsData (ks ++ [k0; k1; k2]).
Proof. intros. unfold put_group. by rewrite !put_restrict, <- !app_assoc by done. Qed.

(** One round of the loop starts a new part or fills up the last one. *)
Lemma pack_round k0 k1 k2 parts totalSize cur :
  is_Some (certsData !! k0) → is_Some (certsData !! k1) → is_Some (certsData !! k2) →
  NoDup [k0; k1; k2] → filled parts totalSize cur → - 2 ^ 63 ≤ max →
  bytes certsData (concat parts) + bytes certsData [k0; k1; k2] + Z.max 0 max < 2 ^ 63 →
  let ci := restrict certsData <$> parts in
  let sz := group_size certsData k0 k1 k2 in
  let '(ci, cur, totalSize) :=
    if decide (max < add64 totalSize sz) then (ci ++ [∅], Some (length ci), 0) else (ci, cur, totalSize) in
  ∃ i parts', cur = Some i ∧ alter (put_group certsData k0 k1 k2) i ci = restrict certsData <$> parts' ∧
    filled parts' (add64 totalSize sz) (Some i) ∧ concat parts' = concat parts ++ [k0; k1; k2].
Proof.
  intros H0 H1 H2 Hnd [Hg Hl] Hmin Hmax ci sz. unfold sz, ci.
  pose proof (group_pos _ _ _ Hnd) as Hpos. pose proof (bytes_nonneg (concat parts)).
  rewrite group_size_bytes by lia. set (b := bytes certsData [k0; k1; k2]) in *.
  assert (∀ n, int64 n → wrap64 n = n) as Hw by apply wrap64_id. unfold int64 in Hw.
  destruct (last parts) as [part|] eqn:Hlast.
  - apply last_Some in Hlast as [ps ->]. destruct Hl as [-> ->].
    rewrite concat_app, bytes_app in *. simpl in *. rewrite app_nil_r in *.
    pose proof (bytes_nonneg part). pose proof (bytes_nonneg (concat ps)).
    unfold add64. rewrite (Hw (_ + b)) by lia. apply Forall_app in Hg as [Hg Hp].
    case_decide as Hd.
    + eexists _, ((ps ++ [part]) ++ [[k0; k1; k2]]). rewrite length_fmap.
      split_and!; [done| | |].
      * rewrite <- restrict_nil, alter_last, put_group_restrict by done. by rewrite !fmap_app.
      * split.
        { rewrite !Forall_app. split_and!; [done..|]. constructor; [|done].
          split; [by exists 0%nat|by right]. }
        rewrite last_snoc, Hw by lia. split; [done|]. rewrite !length_app. simpl. f_equal. lia.
      * by rewrite !concat_app; simpl; rewrite !app_nil_r.
    + eexists _, (ps ++ [part ++ [k0; k1; k2]]). split_and!; [done| | |].
      * rewrite length_app, fmap_app. simpl. rewrite Nat.add_1_r. simpl.
        by rewrite alter_last, put_group_restrict, fmap_app.
      * split.
        { rewrite Forall_app. split; [done|]. constructor; [|done].
          apply Forall_singleton in Hp as [[n Hn] _].
          split; [exists (S n); rewrite length_app; simpl; lia|]. left. rewrite bytes_app. change (bytes certsData [k0; k1; k2]) with b. lia. }
        rewrite last_snoc, bytes_app, Hw by lia. split; [done|]. rewrite !length_app. done.
      * by rewrite concat_app; simpl; rewrite app_nil_r, <- app_assoc.
  - apply last_None in Hlast as ->. destruct Hl as [-> ->]. unfold add64.
    rewrite (Hw (max + b)) by lia. rewrite decide_True by lia.
    eexists _, [[k0; k1; k2]]. split_and!; [done| | |done].
    + simpl. rewrite <- restrict_nil, put_group_restrict by done. done.
    + split; [constructor; [|done]; split; [by exists 0%nat|by right]|].
      simpl. rewrite Hw by lia. done.
Qed.

Lemma pack_certs_spec keys parts totalSize cur :
  Forall (λ k, is_Some (certsData !! k)) keys → NoDup keys →
  (∃ n, length keys = 3 * n)%nat → filled parts totalSize cur →
  - 2 ^ 63 ≤ max → bytes certsData (concat parts) + bytes certsData keys + Z.max 0 max < 2 ^ 63 →
  ∃ parts', pack_certs max certsData keys totalSize (restrict certsData <$> parts) cur =
      Some (restrict certsData <$> parts') ∧
    concat parts' = concat parts ++ keys ∧ Forall good_part parts'.
Proof.
  intros Hin Hnd [n Hn] Hf Hmin Hmax.
  revert keys parts totalSize cur Hin Hnd Hn Hf Hmax.
  induction n as [|n IH]; intros keys parts totalSize cur Hin Hnd Hn Hf Hmax.
  - destruct keys; [|done]. exists parts. simpl. rewrite app_nil_r.
    split_and!; [by destruct parts|done|apply Hf].
  - destruct keys as [|k0 [|k1 [|k2 keys]]]; simpl in Hn; try lia.
    apply Forall_cons in Hin as [H0 Hin]. apply Forall_cons in Hin as [H1 Hin].
    apply Forall_cons in Hin as [H2 Hin].
    change (k0 :: k1 :: k2 :: keys) with ([k0; k1; k2] ++ keys) in *.
    rewrite bytes_app in Hmax. apply NoDup_app in Hnd as (Hg & _ & Hnd).
    pose proof (bytes_nonneg keys). pose proof (bytes_nonneg (concat parts)).
    pose proof (pack_round k0 k1 k2 parts totalSize cur H0 H1 H2 Hg Hf Hmin ltac:(lia)) as Hr.
    cbv zeta in Hr. simpl app. cbn [pack_certs].
    destruct (if decide (max < _) then _ else _) as [[ci cur'] total'].
    destruct Hr as (i & parts' & -> & Ha & Hf' & Hc). rewrite Ha.
    destruct (IH keys parts' _ _ Hin Hnd ltac:(lia) Hf') as (parts'' & Hp & Hc' & Hg').
    { rewrite Hc, bytes_app. lia. }
    exists parts''. split_and!; [done| |done]. by rewrite Hc', Hc, <- app_assoc.
Qed.
End pack.

(** The bytes of keys and values in a secret. *)
Definition secret_bytes (m : gmap string string) : Z := bytes m (map_to_list m).*1.

Lemma bytes_perm m l l' : l ≡ₚ l' → bytes m l = bytes m l'.
Proof. induction 1; simpl; lia. Qed.

Lemma bytes_ext m m' l : (∀ k, k ∈ l → m !! k = m' !! k) → bytes m l = bytes m' l.
Proof.
  induction l as [|k l IH]; intros H; simpl; [done|]. unfold key_bytes.
  rewrite IH, (H k) by (intros; try apply H; by (left || right)). done.
Qed.

Section restrict.
Context (certsData : gmap string string) (part : list string).
Hypothesis part_keys : ∀ k, k ∈ part → is_Some (certsData !! k).
Hypothesis part_NoDup : NoDup part.

Lemma restrict_lookup k v :
  restrict certsData part !! k = Some v ↔ certsData !! k = Some v ∧ k ∈ part.
Proof. unfold restrict. by rewrite map_lookup_filter_Some. Qed.

Lemma restrict_keys : (map_to_list (restrict certsData part)).*1 ≡ₚ part.
Proof.
  apply NoDup_Permutation; [apply NoDup_fst_map_to_list|done|]. intros k.
  rewrite list_elem_of_fmap. split.
  - intros ([k' v] & -> & Hm). apply elem_of_map_to_list, restrict_lookup in Hm. by destruct Hm.
  - intros Hk. destruct (part_keys k Hk) as [v Hv]. exists (k, v). split; [done|].
    by apply elem_of_map_to_list, restrict_lookup.
Qed.

Lemma restrict_size : size (restrict certsData part) = length part.
Proof. by rewrite <- length_map_to_list, <- (length_fmap fst), restrict_keys. Qed.

Lemma restrict_bytes : secret_bytes (restrict certsData part) = bytes certsData part.
Proof.
  unfold secret_bytes. rewrite (bytes_perm _ _ _ restrict_keys). apply bytes_ext.
  intros k Hk. destruct (part_keys k Hk) as [v Hv]. rewrite Hv. by apply restrict_lookup.
Qed.
End restrict.

(** A key lies in one part only. *)
Lemma concat_NoDup_part {A} (parts : list (list A)) i j p q x :
  NoDup (concat parts) → parts !! i = Some p → parts !! j = Some q → x ∈ p → x ∈ q → i = j.
Proof.
  revert i j. induction parts as [|r parts IH]; intros i j Hnd Hi Hj Hp Hq; [done|].
  simpl in Hnd. apply NoDup_app in Hnd as (_ & Hd & Hnd).
  assert (∀ k y s, parts !! k = Some s → y ∈ s → y ∈ concat parts) as Hin.
  { intros k y s Hk Hy. apply list_elem_of_In, in_concat. exists s.
    split; apply list_elem_of_In; [by eapply list_elem_of_lookup_2|done]. }
  destruct i as [|i], j as [|j]; simpl in *; simplify_eq; [done| | |f_equal; by eapply IH].
  - by destruct (Hd x Hp); eapply Hin.
  - by destruct (Hd x Hq); eapply Hin.
Qed.

Lemma elem_of_concat_part {A} (parts : list (list A)) x :
  x ∈ concat parts ↔ ∃ i p, parts !! i = Some p ∧ x ∈ p.
Proof.
  rewrite list_elem_of_In, in_concat. split.
  - intros (p & Hp & Hx). apply list_elem_of_In, list_elem_of_lookup in Hp as [i Hi].
    exists i, p. split; [done|]. by apply list_elem_of_In.
  - intros (i & p & Hi & Hx). exists p.
    split; apply list_elem_of_In; [by eapply list_elem_of_lookup_2|done].
Qed.

Lemma concat_NoDup_in {A} (parts : list (list A)) p :
  NoDup (concat parts) → p ∈ parts → NoDup p.
Proof.
  induction parts as [|q parts IH]; [by intros _ ?%not_elem_of_nil|].
  simpl. intros (Hq & _ & Hp)%NoDup_app [->|?]%elem_of_cons; auto.
Qed.

(** *** The files of the nodes *)

Fixpoint chars (s : string) : list Ascii.ascii :=
  match s with "" => [] | String c s => c :: chars s end.
Lemma chars_app s s' : chars (s +:+ s') = chars s ++ chars s'.
Proof. induction s as [|c s IH]; [done|]. rewrite string_app_cons. simpl. by rewrite IH. Qed.
#[export] Instance chars_inj : Inj (=) (=) chars.
Proof. intros s. induction s as [|c s IH]; intros [|d t]; simpl; [done..|]. intros [= -> ?]. f_equal. auto. Qed.

(** The ends of two equal texts, read backwards. *)
Lemma ends_eq a b s t :
  a +:+ s = b +:+ t → reverse (chars s) ++ reverse (chars a) = reverse (chars t) ++ reverse (chars b).
Proof. intros H. by rewrite <- !reverse_app, <- !chars_app, H. Qed.

(** The three files of a node with the given base name. *)
Definition suffixes : list string := ["-ca.crt"; "-tls.crt"; "-tls.key"].
Definition file_keys (base : string) : list string := (λ s, base +:+ s) <$> suffixes.

Lemma file_key_inj a b s t :
  s ∈ suffixes → t ∈ suffixes → a +:+ s = b +:+ t → a = b ∧ s = t.
Proof.
  intros Hs Ht H%ends_eq. unfold suffixes in *. rewrite !elem_of_cons, elem_of_nil in Hs, Ht.
  destruct_or?; subst; try done; cbn in H; try discriminate H; injection H as H;
    apply (inj reverse), (inj chars) in H; done.
Qed.

Lemma file_keys_NoDup bases : NoDup bases → NoDup (concat (file_keys <$> bases)).
Proof.
  assert (∀ b, NoDup (file_keys b)) as Hb.
  { intros b. apply NoDup_fmap_2_strong.
    - intros s t Hs Ht Heq. by apply (file_key_inj b b s t) in Heq as [_ ?].
    - apply (bool_decide_unpack (NoDup suffixes)). by vm_compute. }
  induction 1 as [|b bases Hin _ IH]; [constructor|]. rewrite fmap_cons. cbn [concat].
  apply NoDup_app. split_and!; [done| |done].
  intros k (s & -> & Hs)%list_elem_of_fmap (i & p & Hi & Hk)%elem_of_concat_part.
  apply list_lookup_fmap_Some in Hi as (b' & -> & Hi).
  apply list_elem_of_fmap in Hk as (t & Heq & Ht).
  apply (file_key_inj b b' s t Hs Ht) in Heq as [-> _]. destruct Hin. by eapply list_elem_of_lookup_2.
Qed.


(** The base names are such that sorting keeps the files of a node together:
    none is another one followed by a dash and more. *)
Definition unmixed (bases : list string) : Prop :=
  ∀ b b', b ∈ bases → b' ∈ bases → ¬ ∃ u, b' = b +:+ String "-"%char u.

(** The order of the files of two nodes does not depend on the files. *)
Lemma dashed_compare b b' :
  b ≠ b' → (¬ ∃ u, b' = b +:+ String "-"%char u) → (¬ ∃ u, b = b' +:+ String "-"%char u) →
  ∃ c, c ≠ Eq ∧ ∀ u u', String.compare (b +:+ String "-"%char u) (b' +:+ String "-"%char u') = c.
Proof.
  revert b'. induction b as [|x b IH]; intros [|y b'] Hne H1 H2.
  - done.
  - exists (Ascii.compare "-"%char y). split.
    + intros <-%Ascii.compare_eq_iff. apply H1. by exists b'.
    + intros u u'. rewrite string_app_nil, string_app_cons. cbn [String.compare].
      destruct (Ascii.compare "-"%char y) eqn:Hy; [|done..]. apply Ascii.compare_eq_iff in Hy as <-.
      destruct H1. by exists b'.
  - exists (Ascii.compare x "-"%char). split.
    + intros ->%Ascii.compare_eq_iff. apply H2. by exists b.
    + intros u u'. rewrite string_app_nil, string_app_cons. cbn [String.compare].
      destruct (Ascii.compare x "-"%char) eqn:Hx; [|done..]. apply Ascii.compare_eq_iff in Hx as ->.
      destruct H2. by exists b.
  - assert (Ascii.compare x y ≠ Eq → ∀ u u', String.compare (String x b +:+ String "-"%char u)
      (String y b' +:+ String "-"%char u') = Ascii.compare x y) as Hother.
    { intros Hxy u u'. rewrite !string_app_cons. cbn [String.compare]. by destruct (Ascii.compare x y). }
    destruct (Ascii.compare x y) eqn:Hxy; [|by exists Lt; auto|by exists Gt; auto].
    apply Ascii.compare_eq_iff in Hxy as <-.
    destruct (IH b') as (c & Hc & Hall); [congruence|intros [u ->]; apply H1; by exists u|
      intros [u ->]; apply H2; by exists u|].
    exists c. split; [done|]. intros u u'. rewrite !string_app_cons. cbn [String.compare].
    assert (Ascii.compare x x = Eq) as -> by (unfold Ascii.compare; apply N.compare_refl). apply Hall.
Qed.

(** Nodes in the order of their first files. *)
Definition files_le (b b' : string) : Prop := String.le (b +:+ "-ca.crt") (b' +:+ "-ca.crt").
#[export] Instance files_le_dec : RelDecision files_le.
Proof. intros b b'. unfold files_le. apply _. Defined.
#[export] Instance files_le_trans : Transitive files_le.
Proof. intros b1 b2 b3. unfold files_le. apply transitivity. Qed.
#[export] Instance files_le_total : Total files_le.
Proof. intros b1 b2. unfold files_le. apply total, _. Qed.

Lemma le_compare c s t : String.compare s t = c → c ≠ Gt → String.le s t.
Proof. unfold String.le, String.leb. intros -> Hc. by destruct c. Qed.
Lemma file_keys_sorted b : StronglySorted String.le (file_keys b).
Proof.
  assert (∀ s t, String.compare s t = Lt → String.le (b +:+ s) (b +:+ t)) as H.
  { intros s t Hst. apply (le_compare Lt); [|done].
    induction b as [|x b IH]; [done|]. rewrite !string_app_cons. cbn [String.compare].
    assert (Ascii.compare x x = Eq) as -> by (unfold Ascii.compare; apply N.compare_refl). apply IH. }
  unfold file_keys, suffixes. cbn [fmap list_fmap]. repeat constructor; by apply H.
Qed.
Lemma suffix_dash s : s ∈ suffixes → ∃ u, s = String "-"%char u.
Proof. unfold suffixes. rewrite !elem_of_cons, elem_of_nil. intros [->|[->|[->|[]]]]; by eexists. Qed.

(** All the files, sorted, are the files of the nodes in that order. *)
Lemma grouped_sorted bases :
  NoDup bases → unmixed bases → StronglySorted files_le bases →
  StronglySorted String.le (concat (file_keys <$> bases)).
Proof.
  intros Hnd Hu Hs. revert Hnd Hu. induction Hs as [|b bases Hs IH Hb]; intros Hnd Hu; [constructor|].
  apply NoDup_cons in Hnd as [Hin Hnd]. rewrite fmap_cons. cbn [concat]. apply StronglySorted_app. split_and!; [|apply file_keys_sorted|].
  2:{ apply IH; [done|]. intros x y Hx Hy. apply Hu; by right. }
  intros k k' (s & -> & Hsx)%list_elem_of_fmap (i & p & Hi & Hk)%elem_of_concat_part.
  apply list_lookup_fmap_Some in Hi as (b' & -> & Hi). apply list_elem_of_lookup_2 in Hi.
  apply list_elem_of_fmap in Hk as (s' & -> & Hsx').
  rewrite Forall_forall in Hb. specialize (Hb b' Hi).
  destruct (dashed_compare b b') as (c & Hc & Hall); [by intros ->|apply Hu; [left|by right]|apply Hu; [by right|left]|].
  destruct (suffix_dash s Hsx) as [u ->], (suffix_dash s' Hsx') as [u' ->].
  apply (le_compare c); [apply Hall|]. intros ->. unfold files_le, String.le, String.leb in Hb.
  by rewrite (Hall "ca.crt" "ca.crt") in Hb.
Qed.

(** Parts of whole groups that make up a list of groups take each group whole. *)
Lemma parts_grouped bases (parts : list (list string)) p b :
  concat parts = concat (file_keys <$> bases) → Forall (λ p, ∃ n, length p = 3 * n) parts →
  NoDup (concat parts) → p ∈ parts → b ∈ bases →
  (∀ s, s ∈ suffixes → b +:+ s ∉ p) ∨ (∀ s, s ∈ suffixes → b +:+ s ∈ p).
Proof.
  intros Hc Hl Hnd Hp Hb. revert bases Hc Hb.
  induction Hl as [|q parts [n Hq] Hl IH]; intros bases Hc Hb; [by apply not_elem_of_nil in Hp|].
  assert (∃ bs1 bs2, bases = bs1 ++ bs2 ∧ q = concat (file_keys <$> bs1) ∧ concat parts = concat (file_keys <$> bs2))
    as (bs1 & bs2 & -> & Hq1 & Hc2).
  { clear -Hc Hq. simpl in Hc. revert q bases Hc Hq.
    induction n as [|n IHn]; intros q bases Hc Hq.
    - destruct q; [|done]. exists [], bases. done.
    - destruct bases as [|b bases].
      { destruct q; [simpl in Hq; lia|]. by simpl in Hc. }
      rewrite fmap_cons in Hc. cbn [concat] in Hc.
      destruct q as [|x [|y [|z q]]]; simpl in Hq; try lia.
      unfold file_keys at 1 in Hc. simpl in Hc. injection Hc as -> -> -> Hc.
      destruct (IHn q bases Hc ltac:(lia)) as (bs1 & bs2 & -> & -> & ?).
      by exists (b :: bs1), bs2. }
  assert (∀ s, s ∈ suffixes → b ∈ bs1 → b +:+ s ∈ q) as Hin.
  { intros s Hs Hb1. rewrite Hq1. apply elem_of_concat_part. apply list_elem_of_lookup in Hb1 as [i Hi].
    exists i, (file_keys b). split; [by apply list_lookup_fmap_Some; eauto|]. by apply list_elem_of_fmap_2. }
  assert (∀ s, s ∈ suffixes → b ∈ bs2 → b +:+ s ∈ concat parts) as Hout.
  { intros s Hs Hb2. rewrite Hc2. apply elem_of_concat_part. apply list_elem_of_lookup in Hb2 as [i Hi].
    exists i, (file_keys b). split; [by apply list_lookup_fmap_Some; eauto|]. by apply list_elem_of_fmap_2. }
  simpl in Hnd. apply NoDup_app in Hnd as (_ & Hd & Hnd).
  apply elem_of_cons in Hp as [->|Hp]; apply elem_of_app in Hb as [Hb|Hb].
  - right. auto.
  - left. intros s Hs Hbs. by eapply Hd, Hout.
  - left. intros s Hs Hbs. eapply (Hd (b +:+ s)); [by apply Hin|].
    apply list_elem_of_lookup in Hp as [i Hi]. apply elem_of_concat_part. eauto.
  - by apply (IH Hnd Hp bs2).
Qed.

Section structure.
Context {MR : MapRange} {MRL : MapRangeLaws MR} (certsData : gmap string string) (max : Z).

Lemma createSecrets_parts :
  (∃ n, size certsData = 3 * n) → (- 2 ^ 63 ≤ max)%Z →
  (secret_bytes certsData + Z.max 0 max < 2 ^ 63)%Z →
  ∃ parts, createSecretsDataStructure max certsData = Some (restrict certsData <$> parts) ∧
    concat parts = sorted_keys "createSecretsDataStructure" certsData ∧
    Forall (good_part certsData max) parts.
Proof.
  intros [n Hn] Hmin Hmax. unfold createSecretsDataStructure.
  set (keys := sorted_keys _ certsData).
  assert (keys ≡ₚ (map_to_list certsData).*1) as Hp
    by (unfold keys, sorted_keys; by rewrite sort_strings_perm, range_perm).
  apply (pack_certs_spec certsData max keys [] max None).
  - apply Forall_forall. intros k. apply elem_of_sorted_keys.
  - apply sorted_keys_NoDup.
  - exists n. by rewrite Hp, length_fmap, length_map_to_list.
  - split; [done|]. done.
  - done.
  - simpl. unfold secret_bytes in Hmax. rewrite (bytes_perm _ _ _ Hp). lia.
Qed.

(** Parts of the keys keep every entry, and each in one part. *)
Lemma parts_lossless parts :
  concat parts = sorted_keys "createSecretsDataStructure" certsData →
  (∀ k v, certsData !! k = Some v ↔
     ∃ i m, (restrict certsData <$> parts) !! i = Some m ∧ m !! k = Some v) ∧
  (∀ i j m m' k, (restrict certsData <$> parts) !! i = Some m → (restrict certsData <$> parts) !! j = Some m' →
     is_Some (m !! k) → is_Some (m' !! k) → i = j).
Proof.
  intros Hc. assert (NoDup (concat parts)) as Hnd by (rewrite Hc; apply sorted_keys_NoDup). split.
  - intros k v. setoid_rewrite list_lookup_fmap_Some. split.
    + intros Hv. assert (k ∈ concat parts) as (i & p & Hi & Hkp)%elem_of_concat_part
        by (rewrite Hc; apply elem_of_sorted_keys; by rewrite Hv).
      exists i, (restrict certsData p). split; [by exists p|]. by apply restrict_lookup.
    + intros (i & m & (p & -> & Hi) & Hm). by apply restrict_lookup in Hm as [? _].
  - intros i j m m' k. rewrite !list_lookup_fmap_Some.
    intros (p & -> & Hi) (q & -> & Hj) [v Hv%restrict_lookup] [v' Hv'%restrict_lookup].
    by eapply concat_NoDup_part; [..|apply Hv|apply Hv'].
Qed.

(** The entries are the files of these nodes. *)
Definition files_of (bases : list string) : Prop :=
  NoDup bases ∧ ∀ k, is_Some (certsData !! k) ↔ k ∈ concat (file_keys <$> bases).
Lemma files_of_perm bases : files_of bases → (map_to_list certsData).*1 ≡ₚ concat (file_keys <$> bases).
Proof.
  intros [Hnd Hk]. apply NoDup_Permutation; [apply NoDup_fst_map_to_list|by apply file_keys_NoDup|].
  intros k. rewrite <- Hk, list_elem_of_fmap. split.
  - intros ([k' v] & -> & Hm%elem_of_map_to_list). simpl. by rewrite Hm.
  - intros [v Hv]. exists (k, v). split; [done|]. by apply elem_of_map_to_list.
Qed.
Lemma sorted_groups bases :
  files_of bases → unmixed bases →
  sorted_keys "createSecretsDataStructure" certsData = concat (file_keys <$> merge_sort files_le bases).
Proof.
  intros Hf Hu. assert (merge_sort files_le bases ≡ₚ bases) as Hp by apply merge_sort_Permutation.
  apply (StronglySorted_unique String.le); [apply sort_strings_sorted|apply grouped_sorted|].
  - rewrite Hp. apply Hf.
  - intros b b'. rewrite Hp. apply Hu.
  - apply (StronglySorted_merge_sort _).
  - unfold sorted_keys. by rewrite sort_strings_perm, range_perm, (files_of_perm bases Hf), Hp.
Qed.

(** The secrets take the entries in the order of their names. *)
Lemma parts_ordered parts i j p q k k' :
  concat parts = sorted_keys "createSecretsDataStructure" certsData →
  i < j → parts !! i = Some p → parts !! j = Some q → k ∈ p → k' ∈ q → String.le k k'.
Proof.
  intros Hc. pose proof (sort_strings_sorted (range "createSecretsDataStructure" certsData).*1) as Hs.
  change (sort_strings _) with (sorted_keys "createSecretsDataStructure" certsData) in Hs. rewrite <- Hc in Hs.
  clear Hc. revert i j. induction parts as [|r parts IH]; intros i j Hij Hi Hj Hk Hk'; [done|].
  simpl in Hs. apply StronglySorted_app in Hs as (Hrs & _ & Hs).
  destruct i as [|i], j as [|j]; simpl in *; simplify_eq; [lia| |lia|by apply (IH Hs i j); [lia|..]].
  apply Hrs; [done|]. apply elem_of_concat_part. eauto.
Qed.

(** C15. The certificate files of a service (three per node) are packed into
    secrets without loss: every file is in exactly one secret with its
    content; the secrets take the files in the order of their names, three or
    a multiple of three each; and a secret exceeds the maximal size only when
    it holds just three.  The three files of a node share a secret, as long as no
    node's base name is another one's followed by a dash and more (their
    files then mix in the order: [createSecretsDataStructure_mixes]).  This
    holds for every maximal size that does not overflow 64 bits with the
    data. *)
Theorem createSecretsDataStructure_spec :
  (∃ n, size certsData = 3 * n) → (- 2 ^ 63 ≤ max)%Z →
  (secret_bytes certsData + Z.max 0 max < 2 ^ 63)%Z →
  ∃ ci, createSecretsDataStructure max certsData = Some ci ∧
    (∀ k v, certsData !! k = Some v ↔ ∃ i m, ci !! i = Some m ∧ m !! k = Some v) ∧
    (∀ i j m m' k, ci !! i = Some m → ci !! j = Some m' →
       is_Some (m !! k) → is_Some (m' !! k) → i = j) ∧
    (∀ i j m m' k k', i < j → ci !! i = Some m → ci !! j = Some m' →
       is_Some (m !! k) → is_Some (m' !! k') → String.le k k') ∧
    (∀ m, m ∈ ci → (∃ n, size m = 3 * S n) ∧ ((secret_bytes m ≤ max)%Z ∨ size m = 3)) ∧
    (∀ bases m b, files_of bases → unmixed bases → m ∈ ci → b ∈ bases →
       (∀ s, s ∈ suffixes → m !! (b +:+ s) = None) ∨ (∀ s, s ∈ suffixes → is_Some (m !! (b +:+ s)))).
Proof.
  intros Hn Hmin Hmax. destruct (createSecrets_parts Hn Hmin Hmax) as (parts & Hp & Hc & Hg).
  exists (restrict certsData <$> parts). split; [done|].
  destruct (parts_lossless parts Hc) as [Hall Hone].
  assert (NoDup (concat parts)) as Hnd by (rewrite Hc; apply sorted_keys_NoDup).
  assert (∀ p k, p ∈ parts → k ∈ p → is_Some (certsData !! k)) as Hkp.
  { intros p k [i Hi]%list_elem_of_lookup Hk. apply (elem_of_sorted_keys "createSecretsDataStructure").
    rewrite <- Hc. apply elem_of_concat_part; eauto. }
  rewrite Forall_forall in Hg. split_and!; [done..| | |].
  - intros i j m m' k k' Hij. rewrite !list_lookup_fmap_Some.
    intros (p & -> & Hi) (q & -> & Hj) [v Hv%restrict_lookup] [v' Hv'%restrict_lookup].
    eapply parts_ordered; [done|exact Hij|done|done|apply Hv|apply Hv'].
  - intros m (p & -> & Hin)%list_elem_of_fmap. pose proof (concat_NoDup_in parts p Hnd Hin) as Hndp.
    rewrite restrict_size, restrict_bytes by eauto. by apply Hg.
  - intros bases m b Hf Hu (p & -> & Hin)%list_elem_of_fmap Hb.
    destruct (parts_grouped (merge_sort files_le bases) parts p b) as [Hno|Hyes].
    + rewrite Hc. by apply sorted_groups.
    + apply Forall_forall. intros q Hq. destruct (Hg q Hq) as [[n Hl] _]. eauto.
    + done.
    + done.
    + by rewrite merge_sort_Permutation.
    + left. intros s Hs. apply eq_None_not_Some. intros [v Hv%restrict_lookup]. by apply (Hno s Hs), Hv.
    + right. intros s Hs. destruct (Hkp p (b +:+ s) Hin (Hyes s Hs)) as [v Hv]. exists v.
      apply restrict_lookup. auto.
Qed.
End structure.

(** A limit near the largest integer overflows the sum it is compared with:
    no secret is ever started, and the nil pointer [cur] is written through. *)
Definition one_node_certs : gmap string string :=
  {[ "node-ca.crt" := "ca"; "node-tls.crt" := "crt"; "node-tls.key" := "key" ]}.

(** The packing panics for the largest 64-bit limit, which the CRD admits
    for secretMaxSize. *)
Theorem createSecretsDataStructure_overflow :
  createSecretsDataStructure (2 ^ 63 - 1) one_node_certs = None ∧
  createSecretsDataStructure 1048576 one_node_certs = Some [one_node_certs].
Proof. split_and?; vm_compute; reflexivity. Qed.

(** The keys are grouped by three in their order, which mixes the files of two
    nodes when the name of one is the other's with a suffix that sorts between
    "-ca.crt" and "-tls.crt". *)
Definition mixed_certs : gmap string string :=
  {[ "n-ca.crt" := "1"; "n-tls.crt" := "2"; "n-tls.key" := "3";
     "n-m-ca.crt" := "4"; "n-m-tls.crt" := "5"; "n-m-tls.key" := "6" ]}.

(** The certificate authority, certificate and key of a node need not
    come in one secret. *)
Theorem createSecretsDataStructure_mixes :
  createSecretsDataStructure 0 mixed_certs =
    Some [ {[ "n-ca.crt" := "1"; "n-m-ca.crt" := "4"; "n-m-tls.crt" := "5" ]};
           {[ "n-m-tls.key" := "6"; "n-tls.crt" := "2"; "n-tls.key" := "3" ]} ].
Proof. split_and?; vm_compute; reflexivity. Qed.

(** ** EnsureTLSCerts: the packing never panics on what it collects *)

(** The entries are the files of some nodes. *)
Definition node_files (certsData : gmap string string) : Prop := ∃ bases, files_of certsData bases.

Lemma node_files_size certsData : node_files certsData → ∃ n, size certsData = 3 * n.
Proof.
  intros (bases & Hf). exists (length bases). pose proof (files_of_perm certsData bases Hf) as Hp.
  rewrite <- length_map_to_list, <- (length_fmap fst), Hp. clear.
  induction bases as [|b bases IH]; [done|].
  rewrite fmap_cons. cbn [concat]. rewrite length_app, IH. simpl. lia.
Qed.

Lemma node_files_empty : node_files ∅.
Proof. exists []. split; [constructor|]. intros k. rewrite lookup_empty, is_Some_alt. simpl. set_solver. Qed.

Lemma node_files_insert certsData b x y z :
  node_files certsData →
  node_files (<[b +:+ "-ca.crt" := x]> (<[b +:+ "-tls.crt" := y]> (<[b +:+ "-tls.key" := z]> certsData))).
Proof.
  intros (bases & Hnd & Hk).
  assert (∀ bs, (∀ k, k ∈ concat (file_keys <$> bs) ↔ k ∈ file_keys b ∨ k ∈ concat (file_keys <$> bases)) →
    NoDup bs → node_files (<[b +:+ "-ca.crt" := x]> (<[b +:+ "-tls.crt" := y]>
      (<[b +:+ "-tls.key" := z]> certsData)))) as H.
  { intros bs Hbs Hnd'. exists bs. split; [done|]. intros k.
    rewrite Hbs, <- Hk, !lookup_insert_is_Some'. unfold file_keys, suffixes. simpl.
    rewrite !elem_of_cons, elem_of_nil. split; intros Hor; destruct_or!; subst; auto 6. }
  destruct (decide (b ∈ bases)) as [Hin|Hin].
  - apply (H bases); [|done]. intros k. split; [by right|]. intros [Hb|?]; [|done].
    apply list_elem_of_lookup in Hin as [i Hi]. apply elem_of_concat_part.
    exists i, (file_keys b). split; [by apply list_lookup_fmap_Some; eauto|done].
  - apply (H (b :: bases)); [|by constructor]. intros k. rewrite fmap_cons. cbn [concat]. apply elem_of_app.
Qed.

Section ensure.
Context {W : Type} {KC : KubeClient W} {LC : LibCommon W} {CM : CertManager W}.
Context {MR : MapRange} {MRL : MapRangeLaws MR}.
Context (instance : OpenStackDataPlaneNodeSet) (allHostnames allIPs : gmap string (gmap string string)).
Context (service : OpenStackDataPlaneService) (certKey : string).

Lemma GetTLSNodeCert_no_panic name issuer labels cn hosts ips usages w :
  sat (GetTLSNodeCert instance name issuer labels cn hosts ips usages) w (λ o _, o ≠ Panic).
Proof.
  unfold GetTLSNodeCert. cbv zeta. destruct (ParseDuration _) as [d|e]; [|done].
  apply sat_bind. apply sat_mono with (Q := λ o _, o ≠ Panic); [by repeat case_match|].
  intros [rb|r|] s H; [|done..]. apply sat_bind, sat_op.
  destruct (EnsureCert _ _ s) as [s' [[secret res] [e|]]]; simpl; [done|]. by case_decide.
Qed.

Lemma collect_certs_node_files w :
  sat (collect_certs instance allHostnames allIPs service certKey) w
    (λ o _, match o with
            | Next certs => node_files certs
            | Return r => r ≠ (emptyResult, None)
            | Panic => False
            end).
Proof.
  unfold collect_certs. apply sat_for_acc with (I := λ _ certs _, node_files certs);
    [apply node_files_empty| |done].
  intros [nodeName node] l certs s _ Hc. unfold node_certs. cbv zeta.
  apply sat_bind, sat_op. destruct (GetIssuerByLabels _ _ s) as [s' [issuer|e]]; simpl; [|done].
  destruct (_ !! CtlPlaneNetwork) as [baseName|]; [|done].
  apply sat_bind, sat_call. eapply sat_mono; [apply GetTLSNodeCert_no_panic|].
  intros [[[secret res] err]|[[secret res] err]|] s2 H; [..|done];
    (case_decide as Hd; [intros [= -> ->]; naive_solver|]); by apply node_files_insert.
Qed.

(** What [createSecretsDataStructure] makes of collected files. *)
Lemma collected_packs certs :
  node_files certs → (- 2 ^ 63 ≤ ns_SecretMaxSize (ns_Spec instance))%Z →
  (secret_bytes certs + Z.max 0 (ns_SecretMaxSize (ns_Spec instance)) < 2 ^ 63)%Z →
  is_Some (createSecretsDataStructure (ns_SecretMaxSize (ns_Spec instance)) certs).
Proof.
  intros Hf Hmin Hmax.
  destruct (createSecrets_parts certs _ (node_files_size certs Hf) Hmin Hmax) as (p & -> & _). eauto.
Qed.

(** The world in which the secret [i] is written, when the loop starts in [w]. *)
Definition world_of_secret (ci : list (gmap string string)) (i : nat) (w : W) : W :=
  (for_each (take i (imap pair ci)) (write_secret instance service certKey (length ci)) w).2.

(** Each secret was answered as up to date when its turn came. *)
Definition all_up_to_date (ci : list (gmap string string)) (w : W) : Prop :=
  ∀ i data, ci !! i = Some data →
    (CreateOrPatchSecret instance (ns_Namespace instance)
       (certs_secret instance (svc_Name service) certKey (length ci) i data)
       (world_of_secret ci i w)).2 = Ok OperationResultNone.

Lemma write_secret_outcome n i data w :
  let a := (CreateOrPatchSecret instance (ns_Namespace instance)
              (certs_secret instance (svc_Name service) certKey n i data) w).2 in
  match fst (write_secret instance service certKey n (i, data) w) with
  | Next _ => a = Ok OperationResultNone
  | Return r => r ≠ (emptyResult, None)
  | Panic => False
  end.
Proof.
  unfold write_secret, mbind, M_bind, op.
  destruct (CreateOrPatchSecret _ _ _ w) as [w' [r|e]]; simpl; [|done].
  case_decide as Hd; simpl; [done|]. destruct r; [done|by destruct Hd].
Qed.

Lemma write_secrets_spec ci w :
  sat (write_secrets instance service certKey ci) w
    (λ o _, match o with
            | Next _ => all_up_to_date ci w
            | Return r => r ≠ (emptyResult, None)
            | Panic => False
            end).
Proof.
  unfold sat. destruct (write_secrets instance service certKey ci w) as [o w'] eqn:Hw. simpl.
  pose proof (for_each_split _ _ _ _ _ Hw) as Hs. destruct o as [[]|r|].
  - intros i data Hi. pose proof (for_each_rounds _ _ _ _ Hw i (i, data)) as Hr.
    pose proof (write_secret_outcome (length ci) i data (world_of_secret ci i w)) as Ho.
    unfold world_of_secret in Ho. rewrite Hr in Ho; [exact Ho|].
    by rewrite list_lookup_imap, Hi.
  - destruct Hs as (d & [i data] & rest & w1 & _ & _ & Hb).
    pose proof (write_secret_outcome (length ci) i data w1) as Ho. by rewrite Hb in Ho.
  - destruct Hs as (d & [i data] & rest & w1 & _ & _ & Hb).
    pose proof (write_secret_outcome (length ci) i data w1) as Ho. by rewrite Hb in Ho.
Qed.

(** C16. Ensuring the certificates of a service never panics, when the limit
    does not overflow with the data collected.  It reports success (an empty
    result and no error) only when the certificates of every node were
    collected and each of the numbered secrets they are packed into was
    answered by the API server as already up to date. *)
Theorem EnsureTLSCerts_spec (w : W) :
  let limit := ns_SecretMaxSize (ns_Spec instance) in
  (- 2 ^ 63 ≤ limit)%Z →
  (∀ certs w', collect_certs instance allHostnames allIPs service certKey w = (Next certs, w') →
     (secret_bytes certs + Z.max 0 limit < 2 ^ 63)%Z) →
  ∃ answer, run (EnsureTLSCerts instance allHostnames allIPs service certKey) w = Some answer ∧
    (answer = (emptyResult, None) →
     ∃ certs w' ci, collect_certs instance allHostnames allIPs service certKey w = (Next certs, w') ∧
       createSecretsDataStructure limit certs = Some ci ∧
       all_up_to_date ci w').
Proof.
  intros limit Hmin Hmax. unfold run, EnsureTLSCerts, mbind, M_bind.
  pose proof (collect_certs_node_files w) as Hc. unfold sat in Hc.
  destruct (collect_certs _ _ _ _ _ w) as [[certs|r|] w1] eqn:Hw; simpl in Hc; 
    [|exists r; split; [done|by intros ->]|done].
  destruct (collected_packs certs Hc Hmin (Hmax _ _ eq_refl)) as [ci Hci].
  fold limit in Hci |- *. rewrite Hci. simpl. pose proof (write_secrets_spec ci w1) as Hl.
  unfold sat in Hl. destruct (write_secrets _ _ _ _ w1) as [[[]|r|] w2]; simpl in Hl; 
    [|exists r; split; [done|by intros ->]|done].
  eexists. split; [done|]. intros _. by exists certs, w1, ci.
Qed.
End ensure.

(** ** The properties at concrete objects *)

Lemma one_node_files : files_of one_node_certs ["node"].
Proof.
  split; [apply NoDup_singleton|]. intros k. unfold one_node_certs.
  rewrite !lookup_insert_is_Some', lookup_singleton_is_Some.
  change (concat _) with ["node-ca.crt"; "node-tls.crt"; "node-tls.key"].
  rewrite !elem_of_cons, elem_of_nil. naive_solver.
Qed.
Lemma createSecretsDataStructure_witness :
  ∃ ci, createSecretsDataStructure 1048576 one_node_certs = Some ci ∧
    (∀ m, m ∈ ci → (secret_bytes m ≤ 1048576)%Z ∨ size m = 3) ∧
    ∀ m, m ∈ ci → m !! "node-ca.crt" ≠ None → is_Some (m !! "node-tls.key").
Proof.
  destruct (createSecretsDataStructure_spec one_node_certs 1048576) as (ci & H & _ & _ & _ & Hs & Hg);
    [by exists 1|lia|vm_compute; reflexivity|].
  exists ci. split; [exact H|]. split; [intros m Hm; apply Hs, Hm|]. intros m Hm Hca.
  destruct (Hg ["node"] m "node" one_node_files) as [Hno|Hyes].
  - intros b b' ->%list_elem_of_singleton ->%list_elem_of_singleton [u [=]].
  - exact Hm.
  - left.
  - destruct Hca. apply (Hno "-ca.crt"). left.
  - apply (Hyes "-tls.key"). right. right. left.
Defined.

Definition tls_node : OpenStackDataPlaneNodeSet :=
  mkNodeSet (meta "openstack" "edpm")
    (mkNodeSetSpec zeroBaremetalSpec zeroTemplate {[ "n1" := named_node "n1.example.com" ]} [] [] ["ovn"]
       None 1048576 true true) zeroNodeSetStatus.
Definition tls_service : OpenStackDataPlaneService :=
  mkService (meta "openstack" "ovn")
    (mkServiceSpec [] [] [] (Some {[ "default" := mkServiceCert ["dnsnames"] [] "" [] "" ]}) "" "" "" "" ""
       true false [] "ovn") [].
Definition tls_hostnames : gmap string (gmap string string) :=
  {[ "n1.example.com" := {[ "ctlplane" := "n1.ctlplane.example.com" ]} ]}.

Lemma tls_collected :
  ∃ certs, collect_certs tls_node tls_hostnames ∅ tls_service "default" empty_sim = (Next certs, empty_sim) ∧
    (secret_bytes certs < 1000)%Z.
Proof. eexists. split; [vm_compute; reflexivity|vm_compute; reflexivity]. Qed.

Lemma EnsureTLSCerts_witness :
  ∃ answer, run (EnsureTLSCerts tls_node tls_hostnames ∅ tls_service "default") empty_sim = Some answer.
Proof.
  destruct (EnsureTLSCerts_spec tls_node tls_hostnames ∅ tls_service "default" empty_sim)
    as (answer & H & _); [simpl; lia| |exists answer; exact H].
  intros certs w' H. destruct tls_collected as (certs' & Hc & Hb).
  rewrite Hc in H. injection H as <- <-. simpl. lia.
Defined.
