(* ===== verification/Hashes.v ===== *)
(** pkg/deployment/hashes.go: the hashes of the ConfigMaps and Secrets a
    deployed service was configured from. *)

From stdpp Require Import base gmap strings list.
From S2P Require Import Prelude GoStd Conditions Types Cluster Sim DataSource Cert.

(** The two maps of the Deployment's status that are filled in. *)
Record HashMaps : Type := mkHashes {
  configMapHashes : gomap string;
  secretHashes : gomap string;
}.

Section operations.
Context {W : Type} {KC : KubeClient W} {LC : LibCommon W} {MR : MapRange}.

(** [configMapHashes[name], err = configmap.Hash(cm)]; the error is logged *)
Definition hash_configmap {R} (name : string) (cm : ConfigMap) : M (St W HashMaps) R () :=
  h ← get_obj;
  m ← map_set (configMapHashes h) name (ConfigMapHash cm).1;
  modify_obj (λ h, mkHashes m (secretHashes h)).
(** [secretHashes[name], err = secret.Hash(sec)]: the error *)
Definition hash_secret {R} (name : string) (sec : Secret) : M (St W HashMaps) R (option Err) :=
  h ← get_obj;
  m ← map_set (secretHashes h) name (SecretHash sec).1;
  _ ← modify_obj (λ h, mkHashes (configMapHashes h) m);
  mret (SecretHash sec).2.

Definition hash_datasource (namespace : string) (dataSource : DataSource) :
    M (St W HashMaps) (option Err) () :=
  r ← on_world (GetDataSourceCmSecret namespace dataSource);
  match r with
  | Fail err => return_ (Some err)
  | Ok (cm, sec) =>
      _ ← match cm with Some cm => hash_configmap (cm_Name cm) cm | None => mret () end;
      match sec with Some sec => _ ← hash_secret (sec_Name sec) sec; mret () | None => mret () end
  end.

Definition hash_named_configmap (namespace cmName : string) : M (St W HashMaps) (option Err) () :=
  r ← on_world (op (GetConfigMap (mkNN namespace cmName)));
  match r with
  | Fail err => return_ (Some err)
  | Ok cm => hash_configmap cmName cm
  end.

Definition hash_named_secret (namespace secretName : string) : M (St W HashMaps) (option Err) () :=
  r ← on_world (op (GetSecret (mkNN namespace secretName)));
  match r with
  | Fail err => return_ (Some err)
  | Ok sec => _ ← hash_secret secretName sec; mret ()
  end.

(** The certificate secrets of one key and one NodeSet. *)
Definition hash_certs (serviceName certKey : string) (nodeSet : OpenStackDataPlaneNodeSet) :
    M (St W HashMaps) (option Err) () :=
  let labelSelectorMap : gmap string string :=
    <[NodeSetLabel := ns_Name nodeSet]> (<[ServiceLabel := serviceName]>
      (<[ServiceKeyLabel := certKey]> ∅)) in
  secrets ← on_world (op (GetSecrets "" labelSelectorMap));
  match secrets with
  | Fail err => return_ (Some err)
  | Ok secrets =>
      for_each secrets (λ sec,
        err ← hash_secret (sec_Name sec) sec;
        match err with Some err => return_ (Some err) | None => mret () end)
  end.

(** The four loops over what the service refers to. *)
Definition hash_service (namespace serviceName : string) (nodeSets : list OpenStackDataPlaneNodeSet)
    (spec : OpenStackDataPlaneServiceSpec) : M (St W HashMaps) (option Err) () :=
  _ ← for_each (s_DataSources spec) (hash_datasource namespace);
  _ ← for_each (s_ConfigMaps spec) (hash_named_configmap namespace);
  _ ← for_each (s_Secrets spec) (hash_named_secret namespace);
  match s_TLSCerts spec with
  | None => mret ()
  | Some certs =>
      for_each (range "GetDeploymentHashesForService" certs).*1 (λ certKey,
        for_each nodeSets (hash_certs serviceName certKey))
  end.

Definition GetDeploymentHashesForService (namespace serviceName : string)
    (nodeSets : list OpenStackDataPlaneNodeSet) : M (St W HashMaps) (option Err) (option Err) :=
  r ← on_world (op (GetServiceObj (mkNN namespace serviceName)));
  match r with
  | Fail err => return_ (Some err)
  | Ok service =>
      _ ← hash_service namespace serviceName nodeSets (svc_Spec service);
      mret None
  end.
End operations.

Section facts.
Context {W : Type} {KC : KubeClient W} {LC : LibCommon W} {MR : MapRange}.

(** The two maps were made. *)
Definition hashes_made (h : HashMaps) : Prop := is_Some (configMapHashes h) ∧ is_Some (secretHashes h).
(** Names that have a hash; once recorded they stay. *)
Definition has_hashes (cms secs : list string) (h : HashMaps) : Prop :=
  is_Some (configMapHashes h) ∧ is_Some (secretHashes h) ∧
  (∀ n, n ∈ cms → is_Some (entries (configMapHashes h) !! n)) ∧
  (∀ n, n ∈ secs → is_Some (entries (secretHashes h) !! n)).

Lemma has_hashes_app cms secs cms' secs' h :
  has_hashes cms secs h → has_hashes cms' secs' h → has_hashes (cms ++ cms') (secs ++ secs') h.
Proof.
  intros (H1 & H2 & H3 & H4) (_ & _ & H5 & H6).
  split_and!; [done..| |]; intros n [?|?]%elem_of_app; auto.
Qed.

Lemma has_hashes_weaken cms secs cms' secs' h :
  cms' ⊆ cms → secs' ⊆ secs → has_hashes cms secs h → has_hashes cms' secs' h.
Proof. intros ?? (?&?&?&?). split_and!; auto. Qed.

(** A step that may return early, does not panic, and records hashes. *)
Definition records {A} (cms' secs' : list string) (m : M (St W HashMaps) (option Err) A) : Prop :=
  ∀ cms secs s, has_hashes cms secs (obj s) →
    sat m s (λ o s', match o with
                     | Next _ => has_hashes (cms ++ cms') (secs ++ secs') (obj s')
                     | Return r => r ≠ None ∧ has_hashes cms secs (obj s')
                     | Panic => False
                     end).

Lemma records_hash_configmap name cm : records [name] [] (hash_configmap name cm).
Proof.
  intros cms secs [w [[m|] h2]] H; [|by destruct H as [[? ?] _]].
  unfold sat. simpl. destruct H as (H1 & H2 & H3 & H4). split_and!; [done..| |].
  - intros n. unfold entries. simpl.
    rewrite elem_of_app, list_elem_of_singleton, lookup_insert_is_Some'.
    intros [?| ->]; [right; by apply H3|by left].
  - intros n. rewrite app_nil_r. apply H4.
Qed.

Lemma hash_secret_records name sec cms secs s :
  has_hashes cms secs (obj s) →
  sat (R := option Err) (hash_secret name sec) s
    (λ o s', o = Next (SecretHash sec).2 ∧ has_hashes cms (secs ++ [name]) (obj s')).
Proof.
  destruct s as [w [h1 [m|]]]; intros H; [|by destruct H as (_ & [? ?] & _)].
  unfold sat. simpl. destruct H as (H1 & H2 & H3 & H4). split; [done|]. split_and!; [done..|].
  intros n. unfold entries. simpl.
  rewrite elem_of_app, list_elem_of_singleton, lookup_insert_is_Some'.
  intros [?| ->]; [right; by apply H4|by left].
Qed.

Lemma records_mono {A} cms secs cms' secs' (m : M (St W HashMaps) (option Err) A) :
  cms' ⊆ cms → secs' ⊆ secs → records cms secs m → records cms' secs' m.
Proof.
  intros Hc Hs Hm a b s H. eapply sat_mono; [by apply Hm|].
  intros [x|r|] s'; [|done..]. apply has_hashes_weaken; set_solver.
Qed.

Lemma records_bind {A B} cms secs cms' secs' (m : M (St W HashMaps) (option Err) A)
    (k : A → M (St W HashMaps) (option Err) B) :
  records cms secs m → (∀ a, records cms' secs' (k a)) → records (cms ++ cms') (secs ++ secs') (m ≫= k).
Proof.
  intros Hm Hk a b s H. apply sat_bind. eapply sat_mono; [by apply Hm|].
  intros [x|r|] s' Hx; [|done..].
  eapply sat_mono; [by apply Hk|]. intros [y|r|] s''; [by rewrite <- !app_assoc| |done].
  intros [? Hh]. split; [done|]. eapply has_hashes_weaken; [..|exact Hh]; set_solver.
Qed.

Lemma records_ret {A} (a : A) : records [] [] (mret a).
Proof. intros cms secs s H. apply sat_ret. by rewrite !app_nil_r. Qed.
Lemma records_return {A} cms secs err : records (A := A) cms secs (return_ (Some err)).
Proof. intros a b s H. by apply sat_return. Qed.

Lemma records_world {A} (m : M W A A) (k : A → M (St W HashMaps) (option Err) ()) cms secs :
  (∀ w, run m w ≠ None) → (∀ a, records cms secs (k a)) →
  records cms secs (a ← on_world m; k a).
Proof.
  intros Hm Hk a b s H. apply sat_bind, sat_on_world. specialize (Hm (world s)).
  unfold sat, run in *. destruct (m (world s)) as [[x|x|] w]; simpl in *; [..|done];
    by apply (Hk x a b (mkSt w (obj s))).
Qed.

Lemma records_for_each {A} (l : list A) (f g : A → list string) body :
  (∀ x, records (f x) (g x) (body x)) → records (concat (f <$> l)) (concat (g <$> l)) (for_each l body).
Proof.
  intros Hb. unfold for_each. induction l as [|x l IH]; [apply records_ret|].
  rewrite !fmap_cons. apply records_bind; [apply Hb|intros []; exact IH].
Qed.

Lemma records_hash_certs serviceName certKey nodeSet : records [] [] (hash_certs serviceName certKey nodeSet).
Proof.
  unfold hash_certs. apply records_world; [intros w; unfold run, op; by destruct (GetSecrets _ _ _)|].
  intros [l|e]; [|apply records_return].
  assert (records (concat ((λ _ : Secret, []) <$> l)) (concat ((λ _ : Secret, []) <$> l))
    (for_each l (λ sec, err ← hash_secret (sec_Name sec) sec;
        match err with Some err => return_ (Some err) | None => mret () end))) as H.
  { apply records_for_each. intros sec cms secs s H. apply sat_bind.
    eapply sat_mono; [by apply hash_secret_records|]. intros o s' [-> Hs].
    destruct (SecretHash sec).2.
    - apply sat_return. split; [done|]. eapply has_hashes_weaken; [..|exact Hs]; set_solver.
    - apply sat_ret. eapply has_hashes_weaken; [..|exact Hs]; set_solver. }
  eapply records_mono; [..|exact H]; set_solver.
Qed.
End facts.

Section property.
Context {W : Type} {KC : KubeClient W} {LC : LibCommon W} {MR : MapRange}.

Lemma GetDataSourceCmSecret_total namespace d (w : W) : run (GetDataSourceCmSecret namespace d) w ≠ None.
Proof.
  unfold GetDataSourceCmSecret, run, mbind, M_bind, op.
  destruct (ds_ConfigMapRef d) as [cm|]; [|destruct (ds_SecretRef d) as [sec|]; [|done]].
  - destruct (GetConfigMap _ w) as [? []]; simpl; [done|]. by destruct (_ && _).
  - destruct (GetSecret _ w) as [? []]; simpl; [done|]. by destruct (_ && _).
Qed.

Lemma records_hash_datasource namespace d : records [] [] (hash_datasource namespace d).
Proof.
  unfold hash_datasource. apply records_world; [apply GetDataSourceCmSecret_total|].
  intros [[cm sec]|e]; [|apply records_return].
  apply (records_bind [] [] [] []).
  - destruct cm; [|apply records_ret].
    eapply records_mono; [..|apply records_hash_configmap]; set_solver.
  - intros []. destruct sec; [|apply records_ret].
    intros cms secs s' H. apply sat_bind. eapply sat_mono; [by apply hash_secret_records|].
    intros o s'' [-> Hs]. apply sat_ret. eapply has_hashes_weaken; [..|exact Hs]; set_solver.
Qed.

Lemma records_hash_named_configmap namespace n : records [n] [] (hash_named_configmap namespace n).
Proof.
  unfold hash_named_configmap.
  apply records_world; [intros w; unfold run, op; by destruct (GetConfigMap _ _)|].
  intros [cm|e]; [apply records_hash_configmap|apply records_return].
Qed.

Lemma records_hash_named_secret namespace n : records [] [n] (hash_named_secret namespace n).
Proof.
  unfold hash_named_secret.
  apply records_world; [intros w; unfold run, op; by destruct (GetSecret _ _)|].
  intros [sec|e]; [|apply records_return].
  intros cms secs s H. apply sat_bind. eapply sat_mono; [by apply hash_secret_records|].
  intros o s' [-> Hs]. apply sat_ret. by rewrite app_nil_r.
Qed.

Lemma concat_singletons {A} (l : list A) : concat ((λ x, [x]) <$> l) = l.
Proof. induction l as [|x l IH]; [done|]. rewrite fmap_cons. simpl. by f_equal. Qed.
Lemma concat_nils {A B} (l : list A) : concat ((λ _, @nil B) <$> l) = [].
Proof. by induction l. Qed.

Lemma records_loop {A} (l : list A) body :
  (∀ x, records [] [] (body x)) → records (W := W) [] [] (for_each l body).
Proof. intros Hb. pose proof (records_for_each l (λ _, []) (λ _, []) body Hb) as H. by rewrite !concat_nils in H. Qed.
Lemma records_loop_cms l body :
  (∀ n, records [n] [] (body n)) → records (W := W) l [] (for_each l body).
Proof.
  intros Hb. pose proof (records_for_each l (λ n, [n]) (λ _, []) body Hb) as H.
  by rewrite concat_singletons, concat_nils in H.
Qed.
Lemma records_loop_secs l body :
  (∀ n, records [] [n] (body n)) → records (W := W) [] l (for_each l body).
Proof.
  intros Hb. pose proof (records_for_each l (λ _, []) (λ n, [n]) body Hb) as H.
  by rewrite concat_singletons, concat_nils in H.
Qed.

Lemma records_hash_service namespace serviceName nodeSets spec :
  records (s_ConfigMaps spec) (s_Secrets spec) (hash_service namespace serviceName nodeSets spec).
Proof.
  unfold hash_service.
  apply (records_bind [] [] (s_ConfigMaps spec) (s_Secrets spec)); [|intros _].
  { apply records_loop. apply records_hash_datasource. }
  rewrite <- (app_nil_r (s_ConfigMaps spec)) at 1.
  apply (records_bind (s_ConfigMaps spec) [] [] (s_Secrets spec)); [|intros _].
  { apply records_loop_cms, records_hash_named_configmap. }
  rewrite <- (app_nil_r (s_Secrets spec)) at 1.
  apply (records_bind [] (s_Secrets spec) [] []); [|intros _].
  { apply records_loop_secs, records_hash_named_secret. }
  destruct (s_TLSCerts spec) as [certs|]; [|apply records_ret].
  apply records_loop. intros certKey. apply records_loop. apply records_hash_certs.
Qed.

(** *** The inputs of a service, while the reads do not change *)

(** What is hashed, and the name its hash is recorded under. *)
Inductive Input : Type :=
  | InConfigMap (name : string) (cm : ConfigMap)
  | InSecret (name : string) (sec : Secret).
Definition record_input (h : HashMaps) (i : Input) : HashMaps :=
  match i with
  | InConfigMap name cm =>
      mkHashes (Some (<[name := (ConfigMapHash cm).1]> (entries (configMapHashes h)))) (secretHashes h)
  | InSecret name sec =>
      mkHashes (configMapHashes h) (Some (<[name := (SecretHash sec).1]> (entries (secretHashes h))))
  end.
Definition record_inputs : list Input → HashMaps → HashMaps := fold_left record_input.

(** Two lists of inputs, one after the other; the first that cannot be had is
    the error. *)
Definition and_then (r1 r2 : result (list Input)) : result (list Input) :=
  match r1, r2 with
  | Fail err, _ => Fail err
  | Ok _, Fail err => Fail err
  | Ok l1, Ok l2 => Ok (l1 ++ l2)
  end.
Definition gather {A} (f : A → result (list Input)) (l : list A) : result (list Input) :=
  foldr (λ x, and_then (f x)) (Ok []) l.

(** The reads of these objects leave the world as it is. *)
Class StableInputs (w : W) : Prop := {
  stable_service nn : (GetServiceObj nn w).1 = w;
  stable_configmap nn : (GetConfigMap nn w).1 = w;
  stable_secret nn : (GetSecret nn w).1 = w;
  stable_certs ns labels : (GetSecrets ns labels w).1 = w;
}.

Section stable.
Context (w : W).

Definition source_inputs (ns : string) (d : DataSource) : result (list Input) :=
  match run (GetDataSourceCmSecret ns d) w with
  | Some (Ok (cm, sec)) =>
      Ok (option_list ((λ cm, InConfigMap (cm_Name cm) cm) <$> cm) ++
          option_list ((λ sec, InSecret (sec_Name sec) sec) <$> sec))
  | Some (Fail err) => Fail err
  | None => Ok []
  end.
Definition configmap_input (ns name : string) : result (list Input) :=
  match (GetConfigMap (mkNN ns name) w).2 with Ok cm => Ok [InConfigMap name cm] | Fail err => Fail err end.
Definition secret_input (ns name : string) : result (list Input) :=
  match (GetSecret (mkNN ns name) w).2 with Ok sec => Ok [InSecret name sec] | Fail err => Fail err end.
(** A certificate that cannot be hashed is an error. *)
Definition cert_input (sec : Secret) : result (list Input) :=
  match (SecretHash sec).2 with Some err => Fail err | None => Ok [InSecret (sec_Name sec) sec] end.
Definition cert_inputs (serviceName certKey : string) (nodeSet : OpenStackDataPlaneNodeSet) : result (list Input) :=
  match (GetSecrets "" (<[NodeSetLabel := ns_Name nodeSet]> (<[ServiceLabel := serviceName]>
                          (<[ServiceKeyLabel := certKey]> ∅))) w).2 with
  | Ok secrets => gather cert_input secrets
  | Fail err => Fail err
  end.
Definition service_inputs (ns serviceName : string) (nodeSets : list OpenStackDataPlaneNodeSet) :
    result (list Input) :=
  match (GetServiceObj (mkNN ns serviceName) w).2 with
  | Fail err => Fail err
  | Ok service =>
      let spec := svc_Spec service in
      and_then (gather (source_inputs ns) (s_DataSources spec))
        (and_then (gather (configmap_input ns) (s_ConfigMaps spec))
          (and_then (gather (secret_input ns) (s_Secrets spec))
            match s_TLSCerts spec with
            | None => Ok []
            | Some certs => gather (λ certKey, gather (cert_inputs serviceName certKey) nodeSets)
                              (range "GetDeploymentHashesForService" certs).*1
            end))
  end.

(** A step that hashes these inputs. *)
Definition hashes_as (m : M (St W HashMaps) (option Err) ()) (r : result (list Input)) : Prop :=
  ∀ h, hashes_made h →
    match r with
    | Ok l => m (mkSt w h) = (Next (), mkSt w (record_inputs l h))
    | Fail err => (m (mkSt w h)).1 = Return (Some err)
    end.

Lemma record_made l h : hashes_made h → hashes_made (record_inputs l h).
Proof.
  revert h. induction l as [|i l IH]; intros h H; [done|]. apply IH. destruct H as [[? ?] [? ?]], i; by split; eexists.
Qed.
Lemma hashes_ret : hashes_as (mret ()) (Ok []).
Proof. done. Qed.
Lemma hashes_and_then m (k : () → _) r1 r2 :
  hashes_as m r1 → hashes_as (k ()) r2 → hashes_as (m ≫= k) (and_then r1 r2).
Proof.
  intros Hm Hk h Hh. specialize (Hm h Hh). unfold mbind, M_bind. destruct r1 as [l1|e1]; simpl.
  - rewrite Hm. specialize (Hk _ (record_made l1 h Hh)). destruct r2 as [l2|e2]; [|done].
    rewrite Hk. unfold record_inputs. by rewrite fold_left_app.
  - destruct (m (mkSt w h)) as [o s']. simpl in Hm. by subst o.
Qed.
Lemma hashes_gather {A} (l : list A) body f :
  (∀ x, hashes_as (body x) (f x)) → hashes_as (for_each l body) (gather f l).
Proof.
  intros Hb. induction l as [|x l IH]; [apply hashes_ret|].
  by apply (hashes_and_then (body x)).
Qed.
Lemma hashes_configmap name cm : hashes_as (hash_configmap name cm) (Ok [InConfigMap name cm]).
Proof. intros [[m|] h2] [[? ?] _]; [done|done]. Qed.
Lemma hashes_secret name sec : hashes_as (_ ← hash_secret name sec; mret ()) (Ok [InSecret name sec]).
Proof. intros [h1 [m|]] [_ [? ?]]; [done|done]. Qed.

Context {SI : StableInputs w}.

(** A call that is answered and leaves the world as it is. *)
Lemma hashes_world {A} (m : M W A A) k a r :
  run m w = Some a → (m w).2 = w → hashes_as (k a) r → hashes_as (x ← on_world m; k x) r.
Proof.
  intros Hr Hw Hk h Hh. specialize (Hk h Hh). unfold mbind, M_bind, on_world. unfold run in Hr. cbn [world obj].
  destruct (m w) as [[x|x|] w']; simpl in *; [..|done]; injection Hr as ->; subst w'; exact Hk.
Qed.
Lemma hashes_op {A} (f : W → W * A) k r :
  (f w).1 = w → hashes_as (k (f w).2) r → hashes_as (x ← on_world (op f); k x) r.
Proof. intros Hw. apply hashes_world; unfold run, op; by destruct (f w). Qed.

Lemma GetDataSource_stays ns d : (GetDataSourceCmSecret ns d w).2 = w.
Proof.
  unfold GetDataSourceCmSecret, mbind, M_bind, op.
  destruct (ds_ConfigMapRef d) as [ref|]; [|destruct (ds_SecretRef d) as [ref|]; [|done]].
  - pose proof (stable_configmap (mkNN ns (es_Name ref))) as Hg.
    destruct (GetConfigMap _ w) as [w' []]; simpl in *; [done|]. by destruct (_ && _).
  - pose proof (stable_secret (mkNN ns (es_Name ref))) as Hg.
    destruct (GetSecret _ w) as [w' []]; simpl in *; [done|]. by destruct (_ && _).
Qed.
Lemma hashes_datasource ns d : hashes_as (hash_datasource ns d) (source_inputs ns d).
Proof.
  unfold source_inputs. pose proof (GetDataSourceCmSecret_total ns d w) as Ht.
  destruct (run (GetDataSourceCmSecret ns d) w) as [a|] eqn:Hr; [|done].
  apply (hashes_world _ _ a); [done|apply GetDataSource_stays|]. destruct a as [[cm sec]|err]; [|by intros h _].
  apply (hashes_and_then _ _ (Ok _) (Ok _)).
  - destruct cm; [apply hashes_configmap|apply hashes_ret].
  - destruct sec; [apply hashes_secret|apply hashes_ret].
Qed.
Lemma hashes_named_configmap ns n : hashes_as (hash_named_configmap ns n) (configmap_input ns n).
Proof.
  apply hashes_op; [apply stable_configmap|]. unfold configmap_input.
  destruct (GetConfigMap _ w).2; [apply hashes_configmap|by intros h _].
Qed.
Lemma hashes_named_secret ns n : hashes_as (hash_named_secret ns n) (secret_input ns n).
Proof.
  apply hashes_op; [apply stable_secret|]. unfold secret_input.
  destruct (GetSecret _ w).2; [apply hashes_secret|by intros h _].
Qed.
Lemma hashes_certs serviceName certKey nodeSet :
  hashes_as (hash_certs serviceName certKey nodeSet) (cert_inputs serviceName certKey nodeSet).
Proof.
  apply hashes_op; [apply stable_certs|]. unfold cert_inputs. destruct (GetSecrets _ _ w).2 as [l|err]; [|by intros h _].
  apply hashes_gather. intros sec. unfold cert_input.
  intros [h1 [m|]] [_ [? ?]]; [|done]. unfold hash_secret, mbind, M_bind. simpl. by destruct (SecretHash sec).2.
Qed.

Lemma GetDeploymentHashes_as ns serviceName nodeSets h :
  hashes_made h →
  match service_inputs ns serviceName nodeSets with
  | Ok l => GetDeploymentHashesForService ns serviceName nodeSets (mkSt w h) =
              (Next None, mkSt w (record_inputs l h))
  | Fail err => (GetDeploymentHashesForService ns serviceName nodeSets (mkSt w h)).1 = Return (Some err)
  end.
Proof.
  intros Hh. unfold GetDeploymentHashesForService, service_inputs, mbind, M_bind, on_world, op. cbn [world obj].
  pose proof (stable_service (mkNN ns serviceName)) as Hw.
  destruct (GetServiceObj _ w) as [w' [service|err]]; simpl in Hw; subst w'; [|done]. cbn [fst snd].
  set (r := and_then _ _). assert (hashes_as (hash_service ns serviceName nodeSets (svc_Spec service)) r) as Hs.
  { unfold hash_service. apply hashes_and_then; [apply hashes_gather, hashes_datasource|].
    apply hashes_and_then; [apply hashes_gather, hashes_named_configmap|].
    apply hashes_and_then; [apply hashes_gather, hashes_named_secret|].
    destruct (s_TLSCerts (svc_Spec service)) as [certs|].
    - apply hashes_gather. intros certKey. apply hashes_gather, hashes_certs.
    - apply hashes_ret. }
  specialize (Hs h Hh). destruct r as [l|err].
  - by rewrite Hs.
  - destruct (hash_service _ _ _ _ _) as [o s']. simpl in Hs. by subst o.
Qed.
End stable.

Lemma hashes_recorded namespace serviceName nodeSets cms secs (s : St W HashMaps) :
  has_hashes cms secs (obj s) →
  let m := GetDeploymentHashesForService namespace serviceName nodeSets in
  run m s ≠ None ∧ has_hashes cms secs (obj (m s).2) ∧
  (run m s = Some None → ∃ service,
    (GetServiceObj (mkNN namespace serviceName) (world s)).2 = Ok service ∧
    has_hashes (cms ++ s_ConfigMaps (svc_Spec service)) (secs ++ s_Secrets (svc_Spec service))
      (obj (m s).2)).
Proof.
  intros H m. unfold m, GetDeploymentHashesForService, run, mbind, M_bind, on_world, op.
  destruct (GetServiceObj (mkNN namespace serviceName) (world s)) as [w' [service|e]]; simpl; [|done].
  pose proof (records_hash_service namespace serviceName nodeSets (svc_Spec service) cms secs
    (mkSt w' (obj s)) H) as Hr. unfold sat in Hr.
  destruct (hash_service _ _ _ _ _) as [[[]|r|] s']; simpl in *; [| |done].
  - split_and!; [done| |eauto]. eapply has_hashes_weaken; [..|exact Hr]; set_solver.
  - destruct Hr as [Hr Hh]. split_and!; [done..|]. congruence.
Qed.

(** C39. Hashing a service never panics as long as the two maps exist, and
    never drops a hash, also when it fails; when it succeeds, there is a hash
    for every ConfigMap and every Secret the service lists.  While the reads
    do not change during the call, its effect is exactly that of the inputs of
    the service: those of its data sources, its ConfigMaps, its Secrets, and
    the certificate Secrets that carry the labels of the service, the key and a
    NodeSet, in this order.  When all of them can be read, and the certificates
    be hashed, it succeeds, and has recorded for each, under its name, the
    hash the library gives (the empty text for a ConfigMap, or another
    Secret, that the library cannot hash: that error is only logged), a
    later one of the same name on top of an earlier one; otherwise it answers
    the error of the first that cannot. *)
Theorem GetDeploymentHashesForService_spec (namespace serviceName : string)
    (nodeSets : list OpenStackDataPlaneNodeSet) (cms secs : list string) (s : St W HashMaps) :
  has_hashes cms secs (obj s) →
  let m := GetDeploymentHashesForService namespace serviceName nodeSets in
  run m s ≠ None ∧ has_hashes cms secs (obj (m s).2) ∧
  (run m s = Some None → ∃ service,
    (GetServiceObj (mkNN namespace serviceName) (world s)).2 = Ok service ∧
    has_hashes (cms ++ s_ConfigMaps (svc_Spec service)) (secs ++ s_Secrets (svc_Spec service))
      (obj (m s).2)) ∧
  (StableInputs (world s) →
   match service_inputs (world s) namespace serviceName nodeSets with
   | Ok inputs => m s = (Next None, mkSt (world s) (record_inputs inputs (obj s)))
   | Fail err => run m s = Some (Some err)
   end).
Proof.
  intros H m. destruct (hashes_recorded namespace serviceName nodeSets cms secs s H) as (? & ? & ?).
  split_and!; [done..|]. intros SI. assert (hashes_made (obj s)) as Hm by (destruct H as (? & ? & _); by split).
  pose proof (GetDeploymentHashes_as (world s) namespace serviceName nodeSets (obj s) Hm) as Hs.
  replace (mkSt (world s) (obj s)) with s in Hs by (by destruct s).
  destruct (service_inputs _ _ _ _); [exact Hs|]. unfold run, m. by rewrite Hs.
Qed.
End property.

(** ** The property at a concrete service *)

Definition ovn_inputs : Sim :=
  set_configmaps {[ "openstack/ovn-config" := mkConfigMap "ovn-config" ∅ ∅ ]}
    (set_services {[ "openstack/ovn" := mkService (meta "openstack" "ovn")
        (mkServiceSpec ["ovn-config"] [] [] None "" "" "" "" "" false false [] "ovn") [] ]} empty_sim).

Lemma sim_stable w : faults w = [] → StableInputs w.
Proof. intros Hf. split; intros; simpl; unfold fetch, faulty; rewrite ?Hf; simpl; by repeat case_match. Qed.

Lemma GetDeploymentHashesForService_witness :
  (GetDeploymentHashesForService "openstack" "ovn" []
     (mkSt ovn_inputs (mkHashes (Some ∅) (Some ∅)))) =
  (Next None, mkSt ovn_inputs
     (mkHashes (Some {[ "ovn-config" := (ConfigMapHash (mkConfigMap "ovn-config" ∅ ∅)).1 ]}) (Some ∅))).
Proof.
  destruct (GetDeploymentHashesForService_spec "openstack" "ovn" [] [] []
    (mkSt ovn_inputs (mkHashes (Some ∅) (Some ∅)))) as (_ & _ & _ & H).
  - split_and!; [by eexists|by eexists|by intros n ?%not_elem_of_nil|by intros n ?%not_elem_of_nil].
  - specialize (H (sim_stable ovn_inputs eq_refl)). cbn [world] in H.
    assert (service_inputs ovn_inputs "openstack" "ovn" [] =
      Ok [InConfigMap "ovn-config" (mkConfigMap "ovn-config" ∅ ∅)]) as Hi by (vm_compute; reflexivity).
    rewrite Hi in H. exact H.
Defined.
