(* ===== verification/Deployer.v ===== *)
(** pkg/deployment/deployment.go: the deployment of the services of one
    NodeSet, one after the other, each waiting for its AnsibleEE job.

    The [Deployer] is the state: the Deployment being reconciled (whose status
    is [d.Status]), the AnsibleEE spec that is built up, and what stays fixed.
    The map [aeeSpec.ExtraVars] is the [AnsibleExtraVars] map of the
    Deployment, so both change together. *)

From stdpp Require Import base gmap strings list pretty.
From S2P Require Import Prelude GoStd Conditions Types Cluster Sim DataSource AnsibleExec Images.
From S2P Require Import Service Cert.

(** pkg/deployment/const.go *)
Definition ConfigPaths : string := "/var/lib/openstack/configs".
Definition CertPaths : string := "/var/lib/openstack/certs".
Definition CACertPaths : string := "/var/lib/openstack/cacerts".

Record Deployer : Type := mkDeployer {
  dp_NodeSet : OpenStackDataPlaneNodeSet;
  dp_Deployment : OpenStackDataPlaneDeployment;
  dp_AeeSpec : AnsibleEESpec;
  dp_InventorySecrets : gmap string string;
  dp_AnsibleSSHPrivateKeySecrets : gmap string string;
  dp_Version : option OpenStackVersion;
}.

(** ** Access to the state *)

Definition set_Deployment (f : OpenStackDataPlaneDeployment → OpenStackDataPlaneDeployment)
    (d : Deployer) : Deployer :=
  mkDeployer (dp_NodeSet d) (f (dp_Deployment d)) (dp_AeeSpec d) (dp_InventorySecrets d)
    (dp_AnsibleSSHPrivateKeySecrets d) (dp_Version d).
Definition set_AeeSpec (f : AnsibleEESpec → AnsibleEESpec) (d : Deployer) : Deployer :=
  mkDeployer (dp_NodeSet d) (dp_Deployment d) (f (dp_AeeSpec d)) (dp_InventorySecrets d)
    (dp_AnsibleSSHPrivateKeySecrets d) (dp_Version d).
Definition set_ExtraMounts (m : list VolMounts) (a : AnsibleEESpec) : AnsibleEESpec :=
  mkAeeSpec m (a_Env a) (a_ExtraVars a) (a_DNSConfig a) (a_NetworkAttachments a)
    (a_OpenStackAnsibleEERunnerImage a) (a_AnsibleTags a) (a_AnsibleLimit a) (a_AnsibleSkipTags a)
    (a_ServiceAccountName a).
Definition set_RunnerImage (i : string) (a : AnsibleEESpec) : AnsibleEESpec :=
  mkAeeSpec (a_ExtraMounts a) (a_Env a) (a_ExtraVars a) (a_DNSConfig a) (a_NetworkAttachments a)
    i (a_AnsibleTags a) (a_AnsibleLimit a) (a_AnsibleSkipTags a) (a_ServiceAccountName a).
Definition set_ExtraVars (v : gomap string) (a : AnsibleEESpec) : AnsibleEESpec :=
  mkAeeSpec (a_ExtraMounts a) (a_Env a) v (a_DNSConfig a) (a_NetworkAttachments a)
    (a_OpenStackAnsibleEERunnerImage a) (a_AnsibleTags a) (a_AnsibleLimit a) (a_AnsibleSkipTags a)
    (a_ServiceAccountName a).
Definition set_AnsibleExtraVars (v : gomap string) (d : OpenStackDataPlaneDeployment) :
    OpenStackDataPlaneDeployment :=
  let s := d_Spec d in
  mkDeployment (d_Meta d)
    (mkDeploymentSpec (d_NodeSets s) (d_BackoffLimit s) (d_AnsibleTags s) (d_AnsibleLimit s)
       (d_AnsibleSkipTags s) v (d_ServicesOverride s) (d_DeploymentRequeueTime s)) (d_Status d).
Definition set_ds_ContainerImages (m : gomap string) (s : OpenStackDataPlaneDeploymentStatus) :
    OpenStackDataPlaneDeploymentStatus :=
  mkDeploymentStatus (ds_NodeSetConditions s) (ds_ConfigMapHashes s) (ds_SecretHashes s)
    (ds_NodeSetHashes s) m (ds_Conditions s) (ds_ObservedGeneration s) (ds_DeployedVersion s)
    (ds_Deployed s).

(** [d.Status.NodeSetConditions[d.NodeSet.Name]] *)
Definition dp_nsConditions (d : Deployer) : Conditions :=
  default [] (ds_NodeSetConditions (d_Status (dp_Deployment d)) !! ns_Name (dp_NodeSet d)).
Definition set_nsConditions (cs : Conditions) (d : Deployer) : Deployer :=
  set_Deployment (set_d_Status (set_ds_NodeSetConditions
    (λ m, <[ns_Name (dp_NodeSet d) := cs]> m))) d.

(** A condition was set through a local copy of the slice: what the map entry,
    if there is one, reads through the backing array it shares. *)
Definition alias_nsConditions `{ConditionOps} (c : Condition) (d : Deployer) : Deployer :=
  match ds_NodeSetConditions (d_Status (dp_Deployment d)) !! ns_Name (dp_NodeSet d) with
  | Some cs => set_nsConditions (cond_alias cs c) d
  | None => d
  end.

Section operations.
Context {W : Type} {KC : KubeClient W} {CO : ConditionOps} {V : Validation} {MR : MapRange}.
Context {PI : PackageImages}.

(** The namespace [GetService] looks in. *)
Definition dp_namespace (d : Deployer) : string := d_Namespace (dp_Deployment d).

(** ** Mounts *)

(** The loop over the keys of a ConfigMap or a Secret. *)
Definition item_mounts (baseMountPath name : string) (source : list KeyToPath → VolumeSource)
    (keys : list string) : VolMounts :=
  fold_left (λ m '(idx, key),
    let volume_name := sprintf "%s-%s" [name; itoa (Z.of_nat idx)] in
    add_mount m (mkVolume volume_name (source [mkKTP key key]))
      (mkMount volume_name (path_join [baseMountPath; key]) key))
    (imap pair (sort_strings keys)) (mkVolMounts [] []).
Definition configmap_mounts (baseMountPath : string) (cm : ConfigMap) : VolMounts :=
  item_mounts baseMountPath (cm_Name cm) (VConfigMap (cm_Name cm))
    ((range "addServiceExtraMounts/Data" (cm_Data cm)).*1 ++
     (range "addServiceExtraMounts/BinaryData" (cm_BinaryData cm)).*1).
Definition secret_mounts (baseMountPath : string) (sec : Secret) : VolMounts :=
  item_mounts baseMountPath (sec_Name sec) (VSecret (sec_Name sec))
    (range "addServiceExtraMounts/Secret" (sec_Data sec)).*1.

Definition append_mounts {R} (m : VolMounts) : M (St W Deployer) R () :=
  modify_obj (set_AeeSpec (λ a, set_ExtraMounts (a_ExtraMounts a ++ [m]) a)).

(** [addServiceExtraMounts] (the AeeSpec it returns is [d.AeeSpec], or nil
    with an error after which [Deploy] returns) *)
Definition addServiceExtraMounts (service : OpenStackDataPlaneService) :
    M (St W Deployer) (option Err) (option Err) :=
  let baseMountPath := path_join [ConfigPaths; svc_Name service] in
  let ns := svc_Namespace service in
  sources ← for_acc (s_DataSources (svc_Spec service)) (λ acc dataSource,
    let '(configMaps, secrets) := acc in
    r ← on_world (GetDataSourceCmSecret ns dataSource);
    match r with
    | Fail err => return_ (Some err)
    | Ok (cm, secret) =>
        mret (configMaps ++ option_list cm, secrets ++ option_list secret)
    end) ([], []);
  configMaps ← for_acc (s_ConfigMaps (svc_Spec service)) (λ configMaps cmName,
    r ← on_world (op (GetConfigMap (mkNN ns cmName)));
    match r with
    | Fail err => return_ (Some err)
    | Ok cm => mret (configMaps ++ [cm])
    end) sources.1;
  secrets ← for_acc (s_Secrets (svc_Spec service)) (λ secrets secretName,
    r ← on_world (op (GetSecret (mkNN ns secretName)));
    match r with
    | Fail err => return_ (Some err)
    | Ok sec => mret (secrets ++ [sec])
    end) sources.2;
  _ ← for_each configMaps (λ cm, append_mounts (configmap_mounts baseMountPath cm));
  _ ← for_each secrets (λ sec, append_mounts (secret_mounts baseMountPath sec));
  mret None.

(** The mounts of the certificates of one key. *)
Definition mount_cert (service : OpenStackDataPlaneService) (certKey : string) :
    M (St W Deployer) (option Err) () :=
  d ← get_obj;
  let secretName i := GetServiceCertsSecretName (dp_NodeSet d) (svc_Name service) certKey i in
  let ns := svc_Namespace service in
  r ← on_world (op (GetSecret (mkNN ns (secretName 0))));
  match r with
  | Fail err => return_ (Some err)
  | Ok certSecret =>
      let numberOfSecrets := atoi (default "" (sec_Labels certSecret !! "numberOfSecrets")) in
      sources ← for_acc (seq 0 (Z.to_nat numberOfSecrets)) (λ sources i,
        r ← on_world (op (GetSecret (mkNN ns (secretName i))));
        match r with
        | Fail err => return_ (Some err)
        | Ok _ => mret (sources ++ [secretName i])
        end) [];
      let cert := default zeroCert (entries (s_TLSCerts (svc_Spec service)) !! certKey) in
      let certMountDir :=
        if decide (sc_EDPMRoleServiceName cert = "") then s_EDPMServiceType (svc_Spec service)
        else sc_EDPMRoleServiceName cert in
      append_mounts (mkVolMounts [mkVolume (secretName 0) (VProjected sources)]
        [mkMount (secretName 0) (path_join [CertPaths; certMountDir; certKey]) ""])
  end.

(** The CA bundle of a service. *)
Definition mount_cacerts (service : OpenStackDataPlaneService) : M (St W Deployer) (option Err) () :=
  let bundle := s_CACerts (svc_Spec service) in
  r ← on_world (op (GetSecret (mkNN (svc_Namespace service) bundle)));
  match r with
  | Fail err => return_ (Some err)
  | Ok _ =>
      let name := sprintf "%s-%s" [svc_Name service; bundle] in
      append_mounts (mkVolMounts [mkVolume name (VSecret bundle [])]
        [mkMount name (path_join [CACertPaths; s_EDPMServiceType (svc_Spec service)]) ""])
  end.

(** The mounts of one service, after its certificates source is known. *)
Definition mount_service_certs (service : OpenStackDataPlaneService) : M (St W Deployer) (option Err) () :=
  _ ← match s_TLSCerts (svc_Spec service) with
      | None => mret ()
      | Some certs =>
          for_each (sorted_keys "addCertMounts" certs) (mount_cert service)
      end;
  if decide (0 < String.length (s_CACerts (svc_Spec service)))
  then mount_cacerts service else mret ().

Definition addCertMounts (services : list string) : M (St W Deployer) (option Err) (option Err) :=
  _ ← for_each services (λ svc,
    d ← get_obj;
    r ← on_world (GetService (dp_namespace d) svc);
    match r with
    | Fail err => return_ (Some err)
    | Ok service =>
        let spec := svc_Spec service in
        if bool_decide (s_CertsFrom spec ≠ "") && bool_decide (s_TLSCerts spec = None) &&
           bool_decide (s_CACerts spec = "")
        then
          if contains services (s_CertsFrom spec) then mret ()
          else
            r ← on_world (GetService (dp_namespace d) (s_CertsFrom spec));
            match r with
            | Fail err => return_ (Some err)
            | Ok service => mount_service_certs service
            end
        else mount_service_certs service
    end);
  mret None.

(** ** ConditionalDeploy *)

(** [DeployService]: after it the shared variables map is the one the
    execution left. *)
Definition DeployService (foundService : OpenStackDataPlaneService) :
    M (St W Deployer) (option Err) (option Err) :=
  d ← get_obj;
  r ← on_world (AnsibleExecution (dp_Deployment d) foundService
    (dp_AnsibleSSHPrivateKeySecrets d) (dp_InventorySecrets d) (dp_AeeSpec d) (dp_NodeSet d));
  let '(vars, err) := r in
  _ ← modify_obj (λ d, set_AeeSpec (set_ExtraVars vars) (set_Deployment (set_AnsibleExtraVars vars) d));
  match err with
  | Some err => return_ (Some err)
  | None => mret None
  end.

(** The four texts [Deploy] prepares for a service. *)
Record Messages : Type := mkMessages {
  readyCondition : string;
  readyMessage : string;
  readyWaitingMessage : string;
  readyErrorMessage : string;
  deployName : string;
}.

(** The job of an execution was found: what its state says.  The error, and
    the conditions. *)
Definition job_outcome (msg : Messages) (ansibleEE : OpenStackAnsibleEE) (nsConditions : Conditions) :
    M (St W Deployer) (option Err) (Conditions * option Err) :=
  let cs := nsConditions in
  let cs :=
    if decide (ee_JobStatus ansibleEE = JobStatusSucceeded)
    then cond_set cs (TrueCondition (readyCondition msg) (readyMessage msg) []) else cs in
  let cs :=
    if decide (ee_JobStatus ansibleEE = JobStatusRunning ∨ ee_JobStatus ansibleEE = JobStatusPending)
    then cond_set cs (FalseCondition (readyCondition msg) RequestedReason SeverityInfo
           (readyWaitingMessage msg) []) else cs in
  if decide (ee_JobStatus ansibleEE = JobStatusFailed) then
    let args := [m_Name (ee_Meta ansibleEE); m_Namespace (ee_Meta ansibleEE); ee_JobStatus ansibleEE] in
    ansibleCondition ← deref (cond_get (ee_Conditions ansibleEE) ReadyCondition);
    let errorMsg :=
      if decide (Reason ansibleCondition = JobReasonBackoffLimitExceeded)
      then sprintf "backoff limit reached for execution.name %s execution.namespace %s execution.status.jobstatus: %s" args
      else sprintf "execution.name %s execution.namespace %s execution.status.jobstatus: %s" args in
    let err := Errorf errorMsg [] in
    mret (cond_set cs (FalseCondition (readyCondition msg) (Reason ansibleCondition)
            (Severity ansibleCondition) (readyErrorMessage msg) [Error err]), Some err)
  else mret (cs, None).

(** The condition of a service that was requested and is awaited. *)
Definition requested (msg : Messages) : Condition :=
  FalseCondition (readyCondition msg) RequestedReason SeverityInfo (readyWaitingMessage msg) [].

(** The first half of [ConditionalDeploy]: an unknown condition starts the
    execution.  The local [nsConditions] it yields shares its backing array
    with the entry of the map until it is stored back. *)
Definition start_service (msg : Messages) (foundService : OpenStackDataPlaneService) :
    M (St W Deployer) (option Err) Conditions :=
  d ← get_obj;
  let nsConditions := dp_nsConditions d in
  if cond_is_unknown nsConditions (readyCondition msg) then
    err ← call (DeployService foundService);
    match err with
    | Some err => return_ (Some err)
    | None =>
        _ ← modify_obj (alias_nsConditions (requested msg));
        mret (cond_set nsConditions (requested msg))
    end
  else mret nsConditions.

(** The second half: a condition that is False waits for the job. *)
Definition check_job (msg : Messages) (foundService : OpenStackDataPlaneService)
    (nsConditions : Conditions) : M (St W Deployer) (option Err) (Conditions * option Err) :=
  if cond_is_false nsConditions (readyCondition msg) then
    d ← get_obj;
    let labelSelector :=
      (GetAnsibleExecutionNameAndLabels foundService (d_Name (dp_Deployment d))
         (ns_Name (dp_NodeSet d))).2 in
    found ← on_world (GetAnsibleExecution (d_Meta (dp_Deployment d)) labelSelector);
    match found with
    | Fail err =>
        if IsNotFound err then return_ None
        else
          (* the condition is set, and the nil [ansibleEE] dereferenced *)
          _ ← modify_obj (alias_nsConditions (FalseCondition (readyCondition msg) ErrorReason
                SeverityError (readyErrorMessage msg) [Error err]));
          panic
    | Ok ansibleEE => job_outcome msg ansibleEE nsConditions
    end
  else mret (nsConditions, None).

Definition ConditionalDeploy (msg : Messages) (foundService : OpenStackDataPlaneService) :
    M (St W Deployer) (option Err) (option Err) :=
  nsConditions ← start_service msg foundService;
  r ← check_job msg foundService nsConditions;
  let '(nsConditions, err) := r in
  _ ← modify_obj (set_nsConditions nsConditions);
  mret err.

(** ** Deploy *)

Definition service_messages (service : string) : Messages :=
  mkMessages (sprintf "Service%sDeploymentReady" [ToCamel service])
    (sprintf NodeSetServiceDeploymentReadyMessage [service])
    (sprintf NodeSetServiceDeploymentReadyWaitingMessage [service])
    (sprintf NodeSetServiceDeploymentErrorMessage [service] +:+ " error %s")
    service.

(** An error before the execution is reported in the condition of the
    service, and ends [Deploy]. *)
Definition fail_service {A} (msg : Messages) (nsConditions : Conditions) (err : Err) :
    M (St W Deployer) (option Result * option Err) A :=
  _ ← modify_obj (set_nsConditions (cond_set nsConditions
    (FalseCondition (readyCondition msg) ErrorReason SeverityError (readyErrorMessage msg) [Error err])));
  return_ (Some emptyResult, Some err).

(** The image the execution of a service runs in. *)
Definition runner_image (d : Deployer) (service : OpenStackDataPlaneService) : string :=
  let i :=
    match ci_AnsibleeeImage (GetContainerImages package_images (dp_Version d)) with
    | Some i => i
    | None => a_OpenStackAnsibleEERunnerImage (dp_AeeSpec d)
    end in
  if decide (0 < String.length (s_OpenStackAnsibleEERunnerImage (svc_Spec service)))
  then s_OpenStackAnsibleEERunnerImage (svc_Spec service) else i.

(** [d.Deployment.Status.ContainerImages[cif] = ...] *)
Definition record_image {R} (version : OpenStackVersion) (cif : string) : M (St W Deployer) R () :=
  d ← get_obj;
  m ← map_set (ds_ContainerImages (d_Status (dp_Deployment d))) cif
        (FieldByName (ver_ContainerImages version) cif);
  modify_obj (set_Deployment (set_d_Status (set_ds_ContainerImages m))).

(** The end of the loop: go on to the next service only when this one is
    deployed, after recording its images. *)
Definition finish_service (msg : Messages) (foundService : OpenStackDataPlaneService)
    (err : option Err) : M (St W Deployer) (option Result * option Err) () :=
  d ← get_obj;
  if bool_decide (err ≠ None) || negb (cond_is_true (dp_nsConditions d) (readyCondition msg))
  then return_ (Some emptyResult, err)
  else
    match dp_Version d with
    | None => mret ()
    | Some version =>
        for_each (s_ContainerImageFields (svc_Spec foundService)) (record_image version)
    end.

(** The body of the loop over the services. *)
Definition deploy_service (services : list string) (aeeSpecMounts : list VolMounts) (service : string) :
    M (St W Deployer) (option Result * option Err) () :=
  let msg := service_messages service in
  d ← get_obj;
  let nsConditions := dp_nsConditions d in
  found ← on_world (GetService (dp_namespace d) service);
  match found with
  | Fail err => fail_service msg nsConditions err
  | Ok foundService =>
      _ ← modify_obj (λ d, set_AeeSpec (set_RunnerImage (runner_image d foundService)) d);
      _ ← modify_obj (set_AeeSpec (set_ExtraMounts aeeSpecMounts));
      err ← call (addServiceExtraMounts foundService);
      _ ← match err with Some err => fail_service msg nsConditions err | None => mret () end;
      _ ←
        (if ns_TLSEnabled (ns_Spec (dp_NodeSet d)) && s_AddCertMounts (svc_Spec foundService) then
           err ← call (addCertMounts services);
           match err with Some err => fail_service msg nsConditions err | None => mret () end
         else mret ());
      err ← call (ConditionalDeploy msg foundService);
      finish_service msg foundService err
  end.

Definition Deploy (services : list string) :
    M (St W Deployer) (option Result * option Err) (option Result * option Err) :=
  d ← get_obj;
  let aeeSpecMounts := a_ExtraMounts (dp_AeeSpec d) in
  _ ← for_each services (deploy_service services aeeSpecMounts);
  mret (None, None).
End operations.

(** ** What deploying changes *)

(** Everything but the conditions of the NodeSet, the AnsibleEE spec, the
    extra variables and the recorded images. *)
Definition keeps_fixed (d d' : Deployer) : Prop :=
  let s := d_Status (dp_Deployment d) in
  let s' := d_Status (dp_Deployment d') in
  dp_NodeSet d' = dp_NodeSet d ∧ dp_Version d' = dp_Version d ∧
  d_Meta (dp_Deployment d') = d_Meta (dp_Deployment d) ∧
  d_NodeSets (d_Spec (dp_Deployment d')) = d_NodeSets (d_Spec (dp_Deployment d)) ∧
  d_ServicesOverride (d_Spec (dp_Deployment d')) = d_ServicesOverride (d_Spec (dp_Deployment d)) ∧
  ds_Conditions s' = ds_Conditions s ∧ ds_Deployed s' = ds_Deployed s ∧
  ds_ConfigMapHashes s' = ds_ConfigMapHashes s ∧ ds_SecretHashes s' = ds_SecretHashes s ∧
  ds_NodeSetHashes s' = ds_NodeSetHashes s ∧
  ds_ObservedGeneration s' = ds_ObservedGeneration s ∧
  (is_Some (ds_ContainerImages s) → is_Some (ds_ContainerImages s')) ∧
  (∀ name, name ≠ ns_Name (dp_NodeSet d) →
    ds_NodeSetConditions s' !! name = ds_NodeSetConditions s !! name).
(** ... and the conditions of the NodeSet too. *)
Definition keeps_conditions (d d' : Deployer) : Prop :=
  keeps_fixed d d' ∧
  ds_NodeSetConditions (d_Status (dp_Deployment d')) = ds_NodeSetConditions (d_Status (dp_Deployment d)).

#[export] Instance keeps_fixed_preorder : PreOrder keeps_fixed.
Proof.
  split; [intros d; unfold keeps_fixed; naive_solver|].
  intros d1 d2 d3 (H1&H2&H3&H4&H5&H6&H7&H8&H9&H10&H11&H12&H13)
    (K1&K2&K3&K4&K5&K6&K7&K8&K9&K10&K11&K12&K13).
  unfold keeps_fixed. split_and!; try congruence; [auto|].
  intros name Hn. rewrite K13 by congruence. auto.
Qed.
#[export] Instance keeps_conditions_preorder : PreOrder keeps_conditions.
Proof.
  split; [intros d; by split|].
  intros d1 d2 d3 [H1 H2] [K1 K2]. split; [by transitivity d2|congruence].
Qed.

Lemma keeps_conditions_ns d d' : keeps_conditions d d' → dp_nsConditions d' = dp_nsConditions d.
Proof. intros [(Hn & _) H]. unfold dp_nsConditions. by rewrite Hn, H. Qed.

Lemma keeps_set_AeeSpec f d : keeps_conditions d (set_AeeSpec f d).
Proof. by split. Qed.
Lemma keeps_set_ExtraVars v d :
  keeps_conditions d (set_AeeSpec (set_ExtraVars v) (set_Deployment (set_AnsibleExtraVars v) d)).
Proof. by split. Qed.
Lemma keeps_set_images m d :
  is_Some m → keeps_conditions d (set_Deployment (set_d_Status (set_ds_ContainerImages m)) d).
Proof. intros Hm. by split. Qed.
Lemma keeps_set_nsConditions cs d : keeps_fixed d (set_nsConditions cs d).
Proof.
  unfold keeps_fixed. simpl. split_and!; try done. intros name Hn. by apply lookup_insert_ne.
Qed.
Lemma keeps_alias `{ConditionOps} c d : keeps_fixed d (alias_nsConditions c d).
Proof.
  unfold alias_nsConditions. case_match; [apply keeps_set_nsConditions|reflexivity].
Qed.
#[export] Hint Resolve keeps_set_AeeSpec keeps_set_ExtraVars keeps_set_images
  keeps_set_nsConditions keeps_alias : frames.

Lemma nsConditions_set cs d : dp_nsConditions (set_nsConditions cs d) = cs.
Proof. unfold dp_nsConditions, set_nsConditions. simpl. by rewrite lookup_insert_eq. Qed.

Section frames.
Context {W : Type} {KC : KubeClient W} {CO : ConditionOps} {V : Validation} {MR : MapRange}.
Context {PI : PackageImages}.

Lemma frames_conditions_fixed {R A} (m : M (St W Deployer) R A) :
  frames keeps_conditions m → frames keeps_fixed m.
Proof. intros Hm s. by destruct (Hm s). Qed.

Lemma append_mounts_frame {R} m : frames keeps_conditions (append_mounts (R := R) (W := W) m).
Proof. unfold append_mounts. frame_tac. auto with frames. Qed.

Lemma addServiceExtraMounts_frame service : frames keeps_conditions (addServiceExtraMounts service).
Proof.
  unfold addServiceExtraMounts. cbv zeta. frame_tac; apply append_mounts_frame.
Qed.

Lemma mount_service_certs_frame service : frames keeps_conditions (mount_service_certs service).
Proof.
  unfold mount_service_certs, mount_cert, mount_cacerts. frame_tac; apply append_mounts_frame.
Qed.

Lemma addCertMounts_frame services : frames keeps_conditions (addCertMounts services).
Proof. unfold addCertMounts. frame_tac; apply mount_service_certs_frame. Qed.

Lemma DeployService_frame service : frames keeps_conditions (DeployService service).
Proof. unfold DeployService. frame_tac. auto with frames. Qed.

Lemma record_image_frame {R} v cif : frames keeps_conditions (record_image (R := R) (W := W) v cif).
Proof.
  intros s. unfold record_image, map_set, mbind, M_bind, get_obj, gets.
  destruct (ds_ContainerImages _) as [m|]; [|reflexivity].
  simpl. apply keeps_set_images. eauto.
Qed.

Lemma job_outcome_frame msg ee cs : frames keeps_conditions (job_outcome (W := W) msg ee cs).
Proof. unfold job_outcome. frame_tac. Qed.

Lemma ConditionalDeploy_frame msg service : frames keeps_fixed (ConditionalDeploy msg service).
Proof.
  unfold ConditionalDeploy, start_service, check_job. frame_tac; auto with frames.
  - apply frames_conditions_fixed, DeployService_frame.
  - apply frames_conditions_fixed, job_outcome_frame.
Qed.

Lemma fail_service_frame {A} msg cs err : frames keeps_fixed (fail_service (A := A) (W := W) msg cs err).
Proof. unfold fail_service. frame_tac. auto with frames. Qed.

Lemma deploy_service_frame services m service : frames keeps_fixed (deploy_service services m service).
Proof.
  unfold deploy_service, finish_service. frame_tac; auto with frames;
    try apply fail_service_frame; try apply ConditionalDeploy_frame; try (by apply keeps_set_AeeSpec);
    apply frames_conditions_fixed;
    first [apply addServiceExtraMounts_frame|apply addCertMounts_frame|apply record_image_frame].
Qed.

Lemma Deploy_frame services : frames keeps_fixed (Deploy services).
Proof. unfold Deploy. frame_tac. apply deploy_service_frame. Qed.
End frames.

(** ** ConditionalDeploy: what each state of a service leads to *)

Section conditional.
Context {W : Type} {KC : KubeClient W} {CO : ConditionOps} {CL : ConditionLaws CO}.
Context {V : Validation} {MR : MapRange} {PI : PackageImages}.
Context (msg : Messages) (service : OpenStackDataPlaneService).

Let ready := readyCondition msg.

Lemma status_requested cs t :
  status_of (cond_set cs (requested msg)) t = if decide (t = ready) then Some CFalse else status_of cs t.
Proof. apply status_False_set. Qed.

(** What the entry of the map reads after a condition was set on a copy. *)
Lemma alias_status c d t st :
  status_of (dp_nsConditions (alias_nsConditions c d)) t = Some st →
  status_of (cond_set (dp_nsConditions d) c) t = Some st.
Proof.
  unfold alias_nsConditions. destruct (_ !! ns_Name (dp_NodeSet d)) as [cs|] eqn:He.
  - rewrite nsConditions_set. unfold dp_nsConditions. rewrite He. simpl.
    intros (c' & Hg & ->)%fmap_Some. rewrite status_of_state, (alias_reads _ _ _ _ Hg). done.
  - unfold dp_nsConditions. rewrite He. simpl. by rewrite status_nil.
Qed.

(** After the first half, from the state [s]. *)
Definition started (s s' : St W Deployer) (cs : Conditions) : Prop :=
  let cs0 := dp_nsConditions (obj s) in
  (cond_is_unknown cs0 ready = false ∧ cs = cs0 ∧ s' = s) ∨
  (cond_is_unknown cs0 ready = true ∧ cs = cond_set cs0 (requested msg) ∧
   ∀ t st, status_of (dp_nsConditions (obj s')) t = Some st → status_of cs t = Some st).

Lemma start_service_spec s :
  sat (start_service msg service) s (λ o s', match o with
    | Next cs => started s s' cs
    | Return r => r ≠ None ∧ dp_nsConditions (obj s') = dp_nsConditions (obj s)
    | Panic => True
    end).
Proof.
  unfold start_service. apply sat_bind, sat_gets. cbv zeta.
  destruct (cond_is_unknown _ _) eqn:Hu.
  - apply sat_bind, sat_call.
    pose proof (DeployService_frame service s) as Hf%keeps_conditions_ns.
    unfold sat. destruct (DeployService service s) as [[[e|]|[e|]|] s'] eqn:Hd; simpl in Hf |- *; try done;
      right; (split_and!; [done..|]); intros t st; rewrite <- Hf; apply alias_status.
  - apply sat_ret. by left.
Qed.

(** What a found job makes of the condition, starting from [cs]. *)
Definition job_table (ee : OpenStackAnsibleEE) (cs cs' : Conditions) (err : option Err) : Prop :=
  (∀ t, t ≠ ready → status_of cs' t = status_of cs t) ∧
  (ee_JobStatus ee = JobStatusSucceeded → status_of cs' ready = Some CTrue ∧ err = None) ∧
  (ee_JobStatus ee = JobStatusRunning ∨ ee_JobStatus ee = JobStatusPending →
     status_of cs' ready = Some CFalse ∧ err = None) ∧
  (ee_JobStatus ee = JobStatusFailed → ∃ c,
     cond_get (ee_Conditions ee) ReadyCondition = Some c ∧ is_Some err ∧
     (λ c, (Status c, Reason c, Severity c)) <$> cond_get cs' ready =
       Some (CFalse, Reason c, Severity c)) ∧
  (ee_JobStatus ee ≠ JobStatusSucceeded → ee_JobStatus ee ≠ JobStatusRunning →
   ee_JobStatus ee ≠ JobStatusPending → ee_JobStatus ee ≠ JobStatusFailed →
     cs' = cs ∧ err = None).

Lemma job_outcome_spec ee cs (s : St W Deployer) :
  sat (job_outcome msg ee cs) s (λ o s', s' = s ∧ match o with
    | Next (cs', err) => job_table ee cs cs' err
    | Return _ => False
    | Panic => ee_JobStatus ee = JobStatusFailed ∧ cond_get (ee_Conditions ee) ReadyCondition = None
    end).
Proof.
  unfold job_outcome, job_table. cbv zeta.
  assert (JobStatusSucceeded ≠ JobStatusRunning ∧ JobStatusSucceeded ≠ JobStatusPending ∧
    JobStatusSucceeded ≠ JobStatusFailed ∧ JobStatusFailed ≠ JobStatusRunning ∧
    JobStatusFailed ≠ JobStatusPending) as (N1 & N2 & N3 & N4 & N5) by done.
  destruct (decide (ee_JobStatus ee = JobStatusSucceeded)) as [Hs|Hs].
  { destruct (decide (_ ∨ _)) as [[?|?]|_]; [congruence..|].
    destruct (decide (ee_JobStatus ee = JobStatusFailed)); [congruence|].
    apply sat_ret. split; [done|]. cbv beta iota. rewrite status_True_set, decide_True by done.
    split_and!; try (intros; exfalso; destruct_or?; congruence); [|done].
    intros t Ht. rewrite status_True_set. by rewrite decide_False. }
  destruct (decide (_ ∨ _)) as [Hr|Hr].
  { destruct (decide (ee_JobStatus ee = JobStatusFailed)); [intuition congruence|].
    apply sat_ret. split; [done|]. cbv beta iota. rewrite status_False_set, decide_True by done.
    split_and!; try (intros; exfalso; destruct_or?; congruence); [|done].
    intros t Ht. rewrite status_False_set. by rewrite decide_False. }
  destruct (decide (ee_JobStatus ee = JobStatusFailed)) as [Hf|Hf].
  2:{ apply sat_ret. split; [done|]. cbv beta iota. split_and!; try (intros; exfalso; destruct_or?; congruence); done. }
  apply sat_bind. destruct (cond_get (ee_Conditions ee) ReadyCondition) as [c|] eqn:Hc; [|done].
  apply sat_ret, sat_ret. split; [done|]. cbv beta iota.
  split_and!; try (intros; exfalso; destruct_or?; congruence).
  - intros t Ht. rewrite status_False_set. by rewrite decide_False.
  - intros _. exists c. split_and!; [done|eauto|].
    match goal with |- context [cond_set cs (FalseCondition ?t ?r ?sev ?m ?a)] =>
      pose proof (state_MarkFalse cs t r sev m a) as Hg; rewrite mark_false_spec in Hg; fold ready in Hg end.
    destruct (cond_get _ ready); [|done]. simpl in Hg |- *.
    unfold state in Hg. congruence.
Qed.

(** The execution of the service, looked up in the world [w]. *)
Definition lookup_job (d : Deployer) (w : W) : option (result OpenStackAnsibleEE) :=
  run (GetAnsibleExecution (d_Meta (dp_Deployment d))
    (GetAnsibleExecutionNameAndLabels service (d_Name (dp_Deployment d)) (ns_Name (dp_NodeSet d))).2) w.

Lemma check_job_spec cs s :
  sat (check_job msg service cs) s (λ o s',
    if cond_is_false cs ready then
      match lookup_job (obj s) (world s) with
      | Some (Ok ee) => obj s' = obj s ∧
          match o with
          | Next (cs', err) => job_table ee cs cs' err
          | Return _ => False
          | Panic => ee_JobStatus ee = JobStatusFailed ∧ cond_get (ee_Conditions ee) ReadyCondition = None
          end
      | Some (Fail err) => if IsNotFound err then o = Return None ∧ obj s' = obj s else o = Panic
      | None => False
      end
    else o = Next (cs, None) ∧ s' = s).
Proof.
  unfold check_job. fold ready. destruct (cond_is_false cs ready); [|by apply sat_ret].
  apply sat_bind, sat_gets. cbv zeta. apply sat_bind, sat_on_world_run.
  fold (lookup_job (obj s) (world s)). destruct (lookup_job _ _) as [[ee|err]|] eqn:Hj.
  - eapply sat_mono; [apply job_outcome_spec|]. by intros o s' [-> H].
  - destruct (IsNotFound err); done.
  - by apply GetAnsibleExecution_total in Hj.
Qed.

Lemma set_nsConditions_id d :
  is_Some (ds_NodeSetConditions (d_Status (dp_Deployment d)) !! ns_Name (dp_NodeSet d)) →
  set_nsConditions (dp_nsConditions d) d = d.
Proof.
  unfold dp_nsConditions. intros [cs Hcs]. rewrite Hcs. destruct d as [n [m sp st] a i k v].
  destruct st. unfold set_nsConditions, set_Deployment, set_d_Status, set_ds_NodeSetConditions.
  simpl in *. by rewrite insert_id.
Qed.

(** A service whose condition is True is not deployed again: nothing is
    called and nothing changes, and it counts as deployed at once (also when
    the condition was set for another service whose name has the same camel
    case, since the names only enter through the condition type). *)
Theorem ConditionalDeploy_deployed (s : St W Deployer) :
  status_of (dp_nsConditions (obj s)) ready = Some CTrue →
  ConditionalDeploy msg service s = (Next None, s).
Proof.
  intros Ht. unfold ConditionalDeploy, start_service, check_job, mbind, M_bind, get_obj, gets.
  fold ready. rewrite is_unknown_status, Ht, bool_decide_eq_false_2 by naive_solver. simpl.
  fold ready. rewrite is_false_status, Ht. simpl. destruct s as [w d]. do 2 f_equal. simpl.
  apply set_nsConditions_id. unfold dp_nsConditions in Ht. simpl in Ht.
  destruct (_ !! _); [eauto|]. simpl in Ht. by rewrite status_nil in Ht.
Qed.

(** While a service is awaited (its condition is False), the state of its
    job decides: without a job, nothing changes; a succeeded job makes the
    condition True; a running or pending one leaves it False; a failed one
    makes it False with the reason and severity of the job and is an error;
    and the conditions of the other services stay.  The function panics when
    the job could not be read for another reason than being absent, and when
    a failed job has no Ready condition. *)
Theorem ConditionalDeploy_requested (s : St W Deployer) :
  status_of (dp_nsConditions (obj s)) ready = Some CFalse →
  sat (ConditionalDeploy msg service) s (λ o s',
    match lookup_job (obj s) (world s) with
    | Some (Ok ee) =>
        match o with
        | Next err => job_table ee (dp_nsConditions (obj s)) (dp_nsConditions (obj s')) err
        | Return _ => False
        | Panic => ee_JobStatus ee = JobStatusFailed ∧ cond_get (ee_Conditions ee) ReadyCondition = None
        end
    | Some (Fail err) => if IsNotFound err then o = Return None ∧ obj s' = obj s else o = Panic
    | None => False
    end).
Proof.
  intros Hf. unfold ConditionalDeploy. apply sat_bind.
  unfold start_service. apply sat_bind, sat_gets. fold ready. cbv zeta.
  rewrite is_unknown_status, Hf, bool_decide_eq_false_2 by naive_solver. apply sat_ret.
  apply sat_bind. eapply sat_mono; [apply check_job_spec|]. intros o s'.
  rewrite is_false_status, Hf. simpl.
  destruct (lookup_job _ _) as [[ee|err]|]; [|destruct (IsNotFound err)|done].
  - intros [_ Ho]. destruct o as [[cs' err]|r|]; [|done..].
    apply sat_bind, sat_modify, sat_ret. simpl. by rewrite nsConditions_set.
  - by intros [-> ?].
  - by intros ->.
Qed.

Lemma ConditionalDeploy_sets_true (s : St W Deployer) :
  sat (ConditionalDeploy msg service) s (λ o s',
    o ≠ Panic → status_of (dp_nsConditions (obj s')) ready = Some CTrue →
    (∀ t, t ≠ ready →
       status_of (dp_nsConditions (obj s')) t = status_of (dp_nsConditions (obj s)) t) ∧
    (status_of (dp_nsConditions (obj s)) ready = Some CTrue ∨
     let s1 := (start_service msg service s).2 in
     ∃ ee, lookup_job (obj s1) (world s1) = Some (Ok ee) ∧ ee_JobStatus ee = JobStatusSucceeded)).
Proof.
  unfold ConditionalDeploy. apply sat_bind. pose proof (start_service_spec s) as Hst.
  unfold sat at 1. unfold sat at 1 in Hst.
  destruct (start_service msg service s) as [[cs|r|] s1]; simpl in Hst |- *;
    [|destruct Hst as [_ Hn]; rewrite Hn; auto|done].
  apply sat_bind. eapply sat_mono; [apply check_job_spec|]. intros o s2.
  assert (cond_is_false cs ready = false → cs = dp_nsConditions (obj s)) as Hnf.
  { intros Hf. destruct Hst as [(_ & -> & _)|(_ & -> & _)]; [done|].
    rewrite is_false_status, status_requested, decide_True in Hf by done. by simpl in Hf. }
  destruct (cond_is_false cs ready) eqn:Hf.
  2:{ intros [-> ->]. apply sat_bind, sat_modify, sat_ret. simpl.
      rewrite nsConditions_set, <- Hnf by done. auto. }
  rewrite is_false_status in Hf. apply bool_decide_eq_true in Hf.
  destruct (lookup_job _ _) as [[ee|err]|] eqn:Hj; [|destruct (IsNotFound err)|done].
  - intros [_ Ho]. destruct o as [[cs' err]|r|]; [|done..].
    apply sat_bind, sat_modify, sat_ret. simpl. rewrite nsConditions_set. intros _ Ht.
    destruct Ho as (Hother & _ & Hr & Hfail & Helse).
    assert (ee_JobStatus ee = JobStatusSucceeded) as Hs.
    { destruct (decide (ee_JobStatus ee = JobStatusSucceeded)); [done|exfalso].
      destruct (decide (ee_JobStatus ee = JobStatusRunning)); [by destruct Hr; [left|congruence]|].
      destruct (decide (ee_JobStatus ee = JobStatusPending)); [by destruct Hr; [right|congruence]|].
      destruct (decide (ee_JobStatus ee = JobStatusFailed)).
      - destruct Hfail as (c & _ & _ & Hc); [done|]. unfold status_of in Ht.
        destruct (cond_get cs' ready); simpl in *; congruence.
      - destruct Helse as [-> _]; congruence. }
    split; [|right; eauto]. intros t Hne. rewrite Hother by done. destruct Hst as [(_ & -> & _)|(_ & -> & _)]; [done|].
    by rewrite status_requested, decide_False.
  - intros [-> Ho] _ Ht. exfalso. rewrite Ho in Ht.
    destruct Hst as [(_ & -> & ->)|(_ & Hcs & Hread)]; [congruence|].
    apply Hread in Ht. congruence.
  - by intros ->.
Qed.

(** C13. A condition becomes True only when a job with the labels of the
    execution was found and had succeeded; and making one True leaves the
    status of every other condition as it was. *)
Theorem ConditionalDeploy_true (s : St W Deployer) :
  sat (ConditionalDeploy msg service) s (λ o s',
    o ≠ Panic → status_of (dp_nsConditions (obj s')) ready = Some CTrue →
    (∀ t, t ≠ ready →
       status_of (dp_nsConditions (obj s')) t = status_of (dp_nsConditions (obj s)) t) ∧
    (status_of (dp_nsConditions (obj s)) ready = Some CTrue ∨
     let s1 := (start_service msg service s).2 in
     ∃ ee, lookup_job (obj s1) (world s1) = Some (Ok ee) ∧ ee_JobStatus ee = JobStatusSucceeded)).
Proof. apply ConditionalDeploy_sets_true. Qed.
End conditional.

(** ** Deploy *)

Section deploy.
Context {W : Type} {KC : KubeClient W} {CO : ConditionOps} {CL : ConditionLaws CO}.
Context {V : Validation} {MR : MapRange} {PI : PackageImages}.

(** The condition of a service is True. *)
Definition deployed (d : Deployer) (service : string) : Prop :=
  status_of (dp_nsConditions d) (readyCondition (service_messages service)) = Some CTrue.

(** Statuses that stayed or became True. *)
Definition improves (cs cs' : Conditions) : Prop :=
  ∀ t, status_of cs' t = Some CTrue ∨ status_of cs' t = status_of cs t.
Lemma improves_refl cs : improves cs cs.
Proof. by right. Qed.
Lemma improves_trans cs1 cs2 cs3 : improves cs1 cs2 → improves cs2 cs3 → improves cs1 cs3.
Proof. intros H1 H2 t. destruct (H2 t) as [?| ->]; [by left|apply H1]. Qed.
Lemma improves_true cs cs' t : improves cs cs' → status_of cs t = Some CTrue → status_of cs' t = Some CTrue.
Proof. intros H Ht. by destruct (H t) as [?| ->]. Qed.
Lemma improves_present cs cs' t : improves cs cs' → is_Some (status_of cs t) → is_Some (status_of cs' t).
Proof. intros H Ht. by destruct (H t) as [->| ->]. Qed.

Lemma fail_service_spec {A} msg cs err (s : St W Deployer) :
  sat (fail_service (A := A) msg cs err) s (λ o _, o = Return (Some emptyResult, Some err)).
Proof. unfold fail_service. by apply sat_bind, sat_modify, sat_return. Qed.

Lemma frames_sat {R A} (P : Deployer → Deployer → Prop) (m : M (St W Deployer) R A) s :
  frames P m → sat m s (λ _ s', P (obj s) (obj s')).
Proof. intros Hm. apply Hm. Qed.

(** What a part that cannot change the conditions is followed by. *)
Lemma sat_bind_keeps {R A B} (m : M (St W Deployer) R A) (k : A → M (St W Deployer) R B) s
    (Q : outcome R B → St W Deployer → Prop) :
  frames keeps_conditions m → never_returns m →
  (∀ a s', keeps_conditions (obj s) (obj s') → sat (k a) s' Q) → (∀ s', Q Panic s') →
  sat (m ≫= k) s Q.
Proof.
  intros Hm Hn Hk Hp. apply sat_bind. specialize (Hm s). specialize (Hn s). unfold sat.
  destruct (m s) as [[a|r|] s'] eqn:He; simpl in *; [by apply Hk|by destruct (Hn r s')|auto].
Qed.

Lemma record_images_spec {R} v l (s : St W Deployer) :
  sat (R := R) (for_each l (record_image v)) s (λ o s',
    match o with Next _ => keeps_conditions (obj s) (obj s') | Return _ => False | Panic => True end).
Proof.
  apply sat_for_acc with (I := λ _ _ s', keeps_conditions (obj s) (obj s')); [reflexivity| |done].
  intros cif l' [] s1 _ K. pose proof (record_image_frame (R := R) v cif s1) as K1. revert K1.
  unfold sat, record_image, map_set, mbind, M_bind, get_obj, gets, modify_obj, modify.
  destruct (ds_ContainerImages _); simpl; [|done]. intros K1. by etransitivity.
Qed.

Lemma finish_service_next msg service err (s : St W Deployer) :
  sat (finish_service msg service err) s (λ o s', match o with
    | Next _ => err = None ∧ status_of (dp_nsConditions (obj s)) (readyCondition msg) = Some CTrue ∧
        dp_nsConditions (obj s') = dp_nsConditions (obj s)
    | Return r => r = (Some emptyResult, err) ∧ s' = s ∧
        (err ≠ None ∨ status_of (dp_nsConditions (obj s)) (readyCondition msg) ≠ Some CTrue)
    | Panic => True
    end).
Proof.
  unfold finish_service. apply sat_bind, sat_gets. rewrite is_true_status.
  destruct (decide (err = None)) as [->|He].
  2:{ rewrite bool_decide_eq_true_2 by done. apply sat_return. auto. }
  rewrite bool_decide_eq_false_2 by naive_solver. simpl.
  destruct (bool_decide (status_of _ _ = _)) eqn:Ht; simpl.
  - apply bool_decide_eq_true in Ht. destruct (dp_Version (obj s)) as [v|]; [|by apply sat_ret].
    eapply sat_mono; [apply record_images_spec|].
    intros [[]|r|] s' H; [|done..]. by apply keeps_conditions_ns in H.
  - apply bool_decide_eq_false in Ht. apply sat_return. auto.
Qed.

(** The loop goes past a service only when it is deployed, and what was
    deployed before stays so. *)
Lemma deploy_service_next services mounts service (s : St W Deployer) :
  sat (deploy_service services mounts service) s (λ o s', match o with
    | Next _ => deployed (obj s') service ∧ improves (dp_nsConditions (obj s)) (dp_nsConditions (obj s'))
    | Return (r, err) => r = Some emptyResult ∧ (err = None → ¬ deployed (obj s') service)
    | Panic => True
    end).
Proof.
  set (ready := readyCondition (service_messages service)).
  unfold deploy_service. cbv zeta. apply sat_bind, sat_gets.
  apply sat_bind_keeps; [apply frames_on_world, _|apply never_on_world| |done]. intros found s1 K1.
  destruct found as [foundService|err]; [|eapply sat_mono; [apply fail_service_spec|by intros o s' ->]].
  apply sat_bind_keeps; [apply frames_modify; auto with frames|apply never_modify| |done]. intros _ s2 K2.
  apply sat_bind_keeps; [apply frames_modify; auto with frames|apply never_modify| |done]. intros _ s3 K3.
  apply sat_bind_keeps; [apply frames_call, addServiceExtraMounts_frame|apply never_call| |done]. intros err s4 K4.
  apply sat_bind. destruct err as [err|];
    [eapply sat_mono; [apply fail_service_spec|by intros o s' ->]|]. apply sat_ret.
  apply sat_bind. eapply sat_mono with (Q := λ o s', match o with
    | Next _ => keeps_conditions (obj s4) (obj s')
    | Return (r, err) => r = Some emptyResult ∧ is_Some err
    | Panic => True
    end).
  { destruct (_ && _); [|by apply sat_ret].
    apply sat_bind_keeps; [apply frames_call, addCertMounts_frame|apply never_call| |done]. intros err s5 K5.
    destruct err; [eapply sat_mono; [apply fail_service_spec|by intros o s' ->]|by apply sat_ret]. }
  intros [[]|[r e]|] s5 K5; [|by destruct K5 as [-> [? ->]]|done].
  assert (keeps_conditions (obj s) (obj s5)) as K by (by repeat (etransitivity; [eassumption|])).
  apply keeps_conditions_ns in K. clear K1 K2 K3 K4 K5.
  apply sat_bind, sat_call. eapply sat_mono; [apply ConditionalDeploy_sets_true|].
  assert (∀ err (s6 : St W Deployer), (status_of (dp_nsConditions (obj s6)) ready = Some CTrue →
    improves (dp_nsConditions (obj s)) (dp_nsConditions (obj s6))) →
    sat (finish_service (service_messages service) foundService err) s6 (λ o s', match o with
      | Next _ => deployed (obj s') service ∧
          improves (dp_nsConditions (obj s)) (dp_nsConditions (obj s'))
      | Return (r, err) => r = Some emptyResult ∧ (err = None → ¬ deployed (obj s') service)
      | Panic => True
      end)) as Hend.
  { intros err s6 Hkeep. eapply sat_mono; [apply finish_service_next|].
    intros [[]|[r e]|] s7; [..|done].
    - intros (_ & Ht & K7). unfold deployed. rewrite K7. auto.
    - intros ([= -> ->] & -> & He). split; [done|]. intros ->. by destruct He. }
  intros [err|err|] s6 Htrue; [..|done]; apply Hend; intros Ht t;
    (destruct (decide (t = ready)) as [->|Hne]; [by left|right]);
    rewrite <- K; by apply Htrue.
Qed.

Lemma deploy_loop services mounts l (s : St W Deployer) :
  sat (for_each l (deploy_service services mounts)) s (λ o s', match o with
    | Next _ => (∀ service, service ∈ l → deployed (obj s') service) ∧
        improves (dp_nsConditions (obj s)) (dp_nsConditions (obj s'))
    | _ => True
    end).
Proof.
  apply sat_for_acc with (I := λ rest _ s', ∃ done, l = done ++ rest ∧
    (∀ service, service ∈ done → deployed (obj s') service) ∧
    improves (dp_nsConditions (obj s)) (dp_nsConditions (obj s'))).
  - exists []. split_and!; [done|by intros ? ?%not_elem_of_nil|apply improves_refl].
  - intros service rest [] s1 _ (done & -> & Hd & Hs). eapply sat_mono; [apply deploy_service_next|].
    intros [[]|r|] s2; [|done..]. intros [Hn Hk]. exists (done ++ [service]).
    split_and!; [by rewrite <- app_assoc| |by eapply improves_trans].
    intros x [Hx| ->%list_elem_of_singleton]%elem_of_app; [|done].
    eapply improves_true; [done|by apply Hd].
  - intros [] s1 (done & -> & Hd & Hs). rewrite app_nil_r. auto.
Qed.

Lemma Deploy_improves services (s : St W Deployer) :
  sat (Deploy services) s (λ o s', match o with
    | Next r => r = (None, None) ∧ (∀ service, service ∈ services → deployed (obj s') service) ∧
        improves (dp_nsConditions (obj s)) (dp_nsConditions (obj s'))
    | Return (r, err) => r = Some emptyResult
    | Panic => True
    end).
Proof.
  unfold Deploy. apply sat_bind, sat_gets. cbv zeta. apply sat_bind.
  set (mounts := a_ExtraMounts _).
  pose proof (deploy_loop services mounts services s) as Hall. unfold sat in *.
  destruct (for_each services (deploy_service services mounts) s) as [o s'] eqn:Hl.
  pose proof (for_each_split _ _ _ _ _ Hl) as Hsplit. simpl in *.
  destruct o as [[]|[r err]|]; [done| |done].
  destruct Hsplit as (d & service & rest & s2 & _ & _ & Hx).
  pose proof (deploy_service_next services mounts service s2) as Hlast.
  unfold sat in Hlast. rewrite Hx in Hlast. apply Hlast.
Qed.

(** C12. [Deploy] answers that a NodeSet is deployed (no result and no error)
    only when every service of the list is, in the final state.  Otherwise
    it answers with the empty result, after going through the services
    before the first one that is not deployed (all of them deployed) and
    stopping there: the services after it are not started. *)
Theorem Deploy_spec (services : list string) (s s' : St W Deployer)
    (o : outcome (option Result * option Err) (option Result * option Err)) :
  Deploy services s = (o, s') →
  match o with
  | Next r => r = (None, None) ∧ ∀ service, service ∈ services → deployed (obj s') service
  | Return (r, err) => r = Some emptyResult ∧
      ∃ done service rest s1, services = done ++ service :: rest ∧
        (∀ service', service' ∈ done → deployed (obj s1) service') ∧
        deploy_service services (a_ExtraMounts (dp_AeeSpec (obj s))) service s1 = (Return (r, err), s') ∧
        (err = None → ¬ deployed (obj s') service)
  | Panic => True
  end.
Proof.
  unfold Deploy, mbind at 1, M_bind at 1, get_obj, gets, mbind at 1, M_bind at 1.
  set (mounts := a_ExtraMounts (dp_AeeSpec (obj s))).
  destruct (for_each services (deploy_service services mounts) s) as [o1 s1] eqn:Hl.
  pose proof (for_each_split _ _ _ _ _ Hl) as Hsplit.
  pose proof (deploy_loop services mounts services s) as Hall. unfold sat in Hall. rewrite Hl in Hall.
  simpl in Hall. destruct o1 as [[]|[r err]|]; intros [= <- <-].
  - split; [done|]. apply Hall.
  - destruct Hsplit as (d & service & rest & s2 & -> & Hd & Hx).
    pose proof (deploy_loop (d ++ service :: rest) mounts d s) as Hdone. unfold sat in Hdone.
    rewrite Hd in Hdone. simpl in Hdone. destruct Hdone as [Hdone _].
    pose proof (deploy_service_next (d ++ service :: rest) mounts service s2) as Hlast.
    unfold sat in Hlast. rewrite Hx in Hlast. simpl in Hlast. destruct Hlast as [-> He].
    split; [done|]. by exists d, service, rest, s2.
  - done.
Qed.
End deploy.

(** ** The properties at concrete objects *)

Import ListConditions.

Definition sample_nodeset : OpenStackDataPlaneNodeSet := nodeset_services "edpm" ["ovn"].
Definition sample_deployment (cs : Conditions) : OpenStackDataPlaneDeployment :=
  mkDeployment (meta "openstack" "deploy") (mkDeploymentSpec ["edpm"] None "" "" "" None None 15)
    (mkDeploymentStatus {[ "edpm" := cs ]} None None None (Some ∅) [] 0 "" false).
Definition sample_deployer (cs : Conditions) : Deployer :=
  mkDeployer sample_nodeset (sample_deployment cs) zeroAeeSpec {[ "edpm" := "dataplanenodeset-edpm" ]}
    {[ "edpm" := "ssh-key" ]} None.
Definition ovn_service : OpenStackDataPlaneService := service_of "openstack" "ovn" false.
(** The job of the service, in the given state. *)
Definition ovn_job (jobStatus : string) : OpenStackAnsibleEE :=
  mkEE (mkMeta "ovn-deploy-edpm" "openstack"
          (GetAnsibleExecutionNameAndLabels ovn_service "deploy" "edpm").2 0 true)
    zeroEESpec jobStatus [mkCondition ReadyCondition CFalse SeverityError 0 JobReasonBackoffLimitExceeded ""].
Definition sample_world (jobStatus : string) : Sim :=
  set_ansibleees {[ "openstack/ovn-deploy-edpm" := ovn_job jobStatus ]}
    (set_services {[ "openstack/ovn" := ovn_service ]} empty_sim).
Definition ovn_messages : Messages := service_messages "ovn".

Lemma ConditionalDeploy_deployed_witness :
  let s := mkSt empty_sim (sample_deployer [TrueCondition (readyCondition ovn_messages) "" []]) in
  ConditionalDeploy ovn_messages ovn_service s = (Next None, s).
Proof. apply ConditionalDeploy_deployed. vm_compute. reflexivity. Defined.

Lemma ConditionalDeploy_requested_witness :
  let s := mkSt (sample_world JobStatusFailed) (sample_deployer [requested ovn_messages]) in
  sat (ConditionalDeploy ovn_messages ovn_service) s (λ o s',
    ∃ ee err, o = Next err ∧
      job_table ovn_messages ee (dp_nsConditions (obj s)) (dp_nsConditions (obj s')) err).
Proof.
  eapply sat_mono.
  - apply (ConditionalDeploy_requested ovn_messages ovn_service
      (mkSt (sample_world JobStatusFailed) (sample_deployer [requested ovn_messages]))).
    vm_compute. reflexivity.
  - intros o s'.
    assert (lookup_job ovn_service (sample_deployer [requested ovn_messages]) (sample_world JobStatusFailed)
      = Some (Ok (ovn_job JobStatusFailed))) as Hj by (vm_compute; reflexivity).
    cbn [obj world]. rewrite Hj.
    destruct o as [err|r|].
    + intros H. exists (ovn_job JobStatusFailed), err. exact (conj eq_refl H).
    + intros [].
    + intros [_ H]. discriminate H.
Defined.

Lemma ConditionalDeploy_true_witness :
  let s1 := (start_service ovn_messages ovn_service
    (mkSt (sample_world JobStatusSucceeded) (sample_deployer []))).2 in
  ∃ ee, lookup_job ovn_service (obj s1) (world s1) = Some (Ok ee) ∧ ee_JobStatus ee = JobStatusSucceeded.
Proof.
  pose proof (ConditionalDeploy_true ovn_messages ovn_service
    (mkSt (sample_world JobStatusSucceeded) (sample_deployer []))) as H.
  unfold sat in H. destruct H as [_ [H|H]].
  - vm_compute. discriminate.
  - vm_compute. reflexivity.
  - vm_compute in H. discriminate H.
  - exact H.
Defined.

Lemma Deploy_witness :
  ∃ s', Deploy ["ovn"] (mkSt (sample_world JobStatusSucceeded) (sample_deployer [])) = (Next (None, None), s') ∧
    deployed (obj s') "ovn".
Proof.
  destruct (Deploy ["ovn"] (mkSt (sample_world JobStatusSucceeded) (sample_deployer []))) as [o s'] eqn:Hd.
  pose proof (Deploy_spec ["ovn"] _ s' o Hd) as H.
  assert (o = Next (None, None)) as ->.
  { apply (f_equal fst) in Hd. simpl in Hd. rewrite <- Hd. vm_compute. reflexivity. }
  exists s'. split; [done|]. destruct H as [_ H]. apply H. by left.
Defined.
