(* ===== verification/CertMounts.v ===== *)
(** The way of the certificates, from the packing into secrets
    (pkg/deployment/cert.go) to the mounts of an execution
    (pkg/deployment/deployment.go). *)

From stdpp Require Import base gmap strings list pretty.
From S2P Require Import Prelude GoStd Conditions Types Cluster Sim Cert Deployer.

(** ** The names of the secrets *)

Lemma certs_name_inj instance serviceName certKey i j :
  GetServiceCertsSecretName instance serviceName certKey i =
  GetServiceCertsSecretName instance serviceName certKey j → i = j.
Proof.
  unfold GetServiceCertsSecretName. simpl. rewrite !string_app_nil_r. intros H.
  repeat (apply (inj (String.append _)) in H || injection H as H).
  apply (inj pretty) in H. lia.
Qed.

(** ** What the API server holds

    [holds ns s w]: reads of the secret answer [s], until it is written.  A
    [CreateOrPatchSecret] that had nothing to change shows that it is held. *)
Class SecretStore (W : Type) {KC : KubeClient W} {LC : LibCommon W} := {
  holds : string → Secret → W → Prop;
  holds_read ns s nn w : holds ns s w → holds ns s (GetSecret nn w).1;
  holds_answer ns s w : holds ns s w → (GetSecret (mkNN ns (sec_Name s)) w).2 = Ok s;
  holds_up_to_date n ns s w :
    (CreateOrPatchSecret n ns s w).2 = Ok OperationResultNone →
    holds ns s (CreateOrPatchSecret n ns s w).1;
  holds_others n ns s s' w : sec_Name s' ≠ sec_Name s →
    holds ns s w → holds ns s (CreateOrPatchSecret n ns s' w).1;
}.

Section delivery.
Context {W : Type} {KC : KubeClient W} {LC : LibCommon W} {CM : CertManager W} {SS : SecretStore W}.
Context {MR : MapRange} {MRL : MapRangeLaws MR}.
Context (instance : OpenStackDataPlaneNodeSet) (service : OpenStackDataPlaneService) (certKey : string).

Abbreviation secret_name := (GetServiceCertsSecretName instance (svc_Name service) certKey).

(** All the numbered secrets are held. *)
Definition delivered (ci : list (gmap string string)) (w : W) : Prop :=
  ∀ i data, ci !! i = Some data →
    holds (ns_Namespace instance) (certs_secret instance (svc_Name service) certKey (length ci) i data) w.

(** ** Writing *)

Lemma write_delivers ci (w w' : W) :
  write_secrets instance service certKey ci w = (Next (), w') → delivered ci w'.
Proof.
  intros Hw. cut (sat (write_secrets instance service certKey ci) w (λ o w', match o with
    | Next _ => delivered ci w' | _ => True end)); [unfold sat; by rewrite Hw|]. clear Hw w'.
  unfold write_secrets. apply (sat_for_acc _ _ _ _ (λ rest _ w', ∃ done, imap pair ci = done ++ rest ∧
    ∀ i data, ci !! i = Some data → i < length done →
      holds (ns_Namespace instance) (certs_secret instance (svc_Name service) certKey (length ci) i data) w')).
  - exists []. split; [done|]. simpl. intros; lia.
  - intros [i data] rest [] w1 _ (d & Hsplit & Hd).
    assert (i = length d ∧ ci !! i = Some data) as [Hi Hl].
    { assert (imap pair ci !! length d = Some (i, data)) as Hx
        by (rewrite Hsplit, lookup_app_r, Nat.sub_diag by done; done).
      rewrite list_lookup_imap in Hx. destruct (ci !! length d) eqn:He; simplify_eq/=. done. }
    unfold write_secret. apply sat_bind, sat_op.
    set (s := certs_secret _ _ _ _ _ _).
    pose proof (holds_up_to_date instance (ns_Namespace instance) s w1) as Hs.
    assert (∀ j data', ci !! j = Some data' → j < length d →
      holds (ns_Namespace instance) (certs_secret instance (svc_Name service) certKey (length ci) j data')
        (CreateOrPatchSecret instance (ns_Namespace instance) s w1).1) as Ho.
    { intros j data' Hj Hlt. apply holds_others; [|by apply Hd].
      simpl. intros Heq%certs_name_inj. lia. }
    destruct (CreateOrPatchSecret _ _ s w1) as [w2 [r|e]]; simpl in *; [|done].
    case_decide as Hr; [done|]. apply sat_ret. exists (d ++ [(i, data)]).
    split; [by rewrite <- app_assoc|]. rewrite length_app. simpl. intros j data' Hj Hlt.
    destruct (decide (j = i)) as [->|Hne]; [|apply Ho; [done|lia]].
    rewrite Hl in Hj. injection Hj as <-. apply Hs. destruct r; [done|by destruct Hr].
  - intros [] w1 (d & Hsplit & Hd). rewrite app_nil_r in Hsplit. intros i data Hi. apply Hd; [done|].
    rewrite <- Hsplit, length_imap. by eapply lookup_lt_Some.
Qed.

(** ** Mounting *)

Definition mount_dir : string :=
  let cert := default zeroCert (entries (s_TLSCerts (svc_Spec service)) !! certKey) in
  if decide (sc_EDPMRoleServiceName cert = "") then s_EDPMServiceType (svc_Spec service)
  else sc_EDPMRoleServiceName cert.
(** One volume, projected from all the secrets, mounted in the directory of the service. *)
Definition certs_mount (n : nat) : VolMounts :=
  mkVolMounts [mkVolume (secret_name 0) (VProjected (secret_name <$> seq 0 n))]
    [mkMount (secret_name 0) (path_join [CertPaths; mount_dir; certKey]) ""].

Lemma delivered_answers ci i data :
  svc_Namespace service = ns_Namespace instance → ci !! i = Some data →
  answers (delivered ci) (GetSecret (mkNN (svc_Namespace service) (secret_name i)))
    (.= certs_secret instance (svc_Name service) certKey (length ci) i data).
Proof.
  intros Hns Hi w Hw. rewrite Hns. split.
  - intros j data' Hj. apply holds_read, Hw, Hj.
  - eexists. split; [|done]. apply (holds_answer _ (certs_secret _ _ _ _ _ _)), Hw, Hi.
Qed.

Lemma mount_delivered ci (s : St W Deployer) :
  svc_Namespace service = ns_Namespace instance → dp_NodeSet (obj s) = instance →
  ci ≠ [] → (Z.of_nat (length ci) < 2 ^ 63)%Z → delivered ci (world s) →
  goes (mount_cert service certKey) s (λ _ s', delivered ci (world s') ∧
    obj s' = set_AeeSpec (λ a, set_ExtraMounts (a_ExtraMounts a ++ [certs_mount (length ci)]) a) (obj s)).
Proof.
  intros Hns Hn Hne Hlen Hw. unfold mount_cert. apply goes_bind, goes_get_obj. cbv zeta. rewrite Hn.
  assert (∃ data, ci !! 0 = Some data) as [data H0] by (destruct ci; [done|eauto]). clear Hne.
  apply goes_bind, goes_on_world.
  eapply (goes_answer (delivered ci)); [by apply (delivered_answers ci 0 data)|done|].
  intros ? w1 -> Hw1. cbn [sec_Labels certs_secret].
  assert (atoi (default "" ((<["secretNumber":=itoa (Z.of_nat 0)]> {["numberOfSecrets" := itoa (Z.of_nat (length ci))]}
    : gmap string string) !! "numberOfSecrets")) = Z.of_nat (length ci)) as ->.
  { rewrite lookup_insert_ne, lookup_singleton_eq by done. by apply atoi_itoa. }
  rewrite Nat2Z.id. apply goes_bind.
  apply goes_for_rest with (I := λ rest sources s', (secret_name <$> seq 0 (length ci)) = sources ++ (secret_name <$> rest) ∧
    delivered ci (world s') ∧ obj s' = obj s); [done| |].
  - intros i rest sources s1 Hin (Hs & Hw2 & Ho). apply elem_of_seq in Hin.
    destruct (lookup_lt_is_Some_2 ci i) as [data' Hi]; [lia|].
    apply goes_bind, goes_on_world.
    eapply (goes_answer (delivered ci)); [by apply delivered_answers|done|].
    intros ? w2 -> Hw3. apply goes_ret. split_and!; [|done|done]. by rewrite <- app_assoc.
  - intros sources s1 (Hs & Hw2 & Ho). rewrite app_nil_r in Hs. subst sources.
    apply goes_modify. split; [done|]. simpl. by rewrite Ho.
Qed.

(** C14. The certificates that were ensured are the ones an execution
    mounts: once [EnsureTLSCerts] reports success, the API server holds all
    the secrets it packed the files of the nodes into, and as long as they are
    held, [mount_cert] adds one mount, of a volume projected from exactly
    these secrets; and reading those back gives the files that were collected,
    each with its content, and nothing else.  This is for a service in the
    namespace of its NodeSet, a limit that does not overflow 64 bits with the
    data, and at least one file. *)
Theorem certs_delivered (allHostnames allIPs : gmap string (gmap string string)) (w w2 : W) :
  let limit := ns_SecretMaxSize (ns_Spec instance) in
  EnsureTLSCerts instance allHostnames allIPs service certKey w = (Next (emptyResult, None), w2) →
  (- 2 ^ 63 ≤ limit)%Z →
  (∀ certs w', collect_certs instance allHostnames allIPs service certKey w = (Next certs, w') →
     (secret_bytes certs + Z.max 0 limit < 2 ^ 63)%Z) →
  svc_Namespace service = ns_Namespace instance →
  ∃ certs w1 ci, collect_certs instance allHostnames allIPs service certKey w = (Next certs, w1) ∧
    createSecretsDataStructure limit certs = Some ci ∧ delivered ci w2 ∧
    ∀ s : St W Deployer, dp_NodeSet (obj s) = instance → certs ≠ ∅ → (Z.of_nat (length ci) < 2 ^ 63)%Z →
      delivered ci (world s) →
      goes (mount_cert service certKey) s (λ _ s',
        obj s' = set_AeeSpec (λ a, set_ExtraMounts (a_ExtraMounts a ++ [certs_mount (length ci)]) a) (obj s)) ∧
      ∀ k v, certs !! k = Some v ↔ ∃ name secret, name ∈ secret_name <$> seq 0 (length ci) ∧
        (GetSecret (mkNN (svc_Namespace service) name) (world s)).2 = Ok secret ∧
        sec_Data secret !! k = Some v.
Proof.
  intros limit He Hmin Hmax Hns. unfold EnsureTLSCerts, mbind, M_bind in He.
  pose proof (collect_certs_node_files instance allHostnames allIPs service certKey w) as Hf. unfold sat in Hf.
  destruct (collect_certs instance allHostnames allIPs service certKey w) as [[certs|r|] w1]; [|done..].
  simpl in Hf. specialize (Hmax _ _ eq_refl). fold limit in He.
  destruct (createSecrets_parts certs limit (node_files_size certs Hf) Hmin Hmax) as (parts & Hp & Hc & _).
  destruct (parts_lossless certs parts Hc) as [Hall _].
  rewrite Hp in He. revert Hp Hall He. generalize (restrict certs <$> parts). intros ci Hp Hall He.
  simpl in He. destruct (write_secrets instance service certKey ci w1) as [[[]|r|] w3] eqn:Hw; [|done..].
  injection He as ->. apply write_delivers in Hw.
  exists certs, w1, ci. split_and!; [done..|]. intros s Hn Hne Hlen Hheld. split.
  - eapply goes_mono; [apply (mount_delivered ci); try done|by intros ? s' [_ Ho]].
    intros ->. apply Hne, map_eq. intros k. rewrite lookup_empty. apply eq_None_not_Some. intros [v Hv].
    by apply Hall in Hv as (i & m & Hi & _).
  - intros k v. rewrite Hall. split.
    + intros (i & m & Hi & Hk). exists (secret_name i), (certs_secret instance (svc_Name service) certKey (length ci) i m).
      destruct (delivered_answers ci i m Hns Hi _ Hheld) as (_ & x & Hx & ->).
      split_and!; [|exact Hx|done].
      apply list_elem_of_fmap_2, elem_of_seq. apply lookup_lt_Some in Hi. lia.
    + intros (name & secret & (i & -> & Hi)%list_elem_of_fmap & Hs & Hk). apply elem_of_seq in Hi.
      destruct (lookup_lt_is_Some_2 ci i) as [m Hm]; [lia|].
      destruct (delivered_answers ci i m Hns Hm _ Hheld) as (_ & x & Hx & ->).
      rewrite Hx in Hs. injection Hs as <-. by exists i, m.
Qed.
End delivery.

(** ** The property at a concrete NodeSet *)

#[export, refine] Instance sim_secret_store : SecretStore Sim := {|
  holds ns s w := secrets w !! key ns (sec_Name s) = Some s
|}.
Proof.
  - done.
  - intros ns s w Hs. simpl. by rewrite Hs.
  - intros n ns s w. simpl. by case_decide.
  - intros n ns s s' w Hne Hs. simpl. case_decide; [done|]. simpl. rewrite lookup_insert_ne; [done|].
    unfold key. intros Hk. apply Hne. by do 2 apply (inj (String.append _)) in Hk.
Defined.

(** The secrets as a first run of [EnsureTLSCerts] leaves them, and a Deployer
    of the NodeSet there. *)
Definition ensured_world : Sim :=
  (EnsureTLSCerts tls_node tls_hostnames ∅ tls_service "default" empty_sim).2.
Definition tls_deployer : Deployer :=
  mkDeployer tls_node (sample_deployment []) zeroAeeSpec ∅ ∅ None.

Definition tls_certs : gmap string string :=
  {[ "n1.ctlplane.example.com-ca.crt" := "ca"; "n1.ctlplane.example.com-tls.crt" := "ovn-default-n1.example.com";
     "n1.ctlplane.example.com-tls.key" := "key" ]}.
Lemma tls_certs_collected :
  collect_certs tls_node tls_hostnames ∅ tls_service "default" ensured_world = (Next tls_certs, ensured_world) ∧
  createSecretsDataStructure 1048576 tls_certs = Some [tls_certs] ∧ (secret_bytes tls_certs < 1000)%Z.
Proof. split_and!; vm_compute; reflexivity. Qed.

Lemma next_inj {S R A} (a b : A) (s s' : S) : (Next (R := R) a, s) = (Next b, s') → b = a ∧ s' = s.
Proof. by intros [= -> ->]. Qed.

Lemma certs_delivered_witness :
  goes (mount_cert tls_service "default") (mkSt ensured_world tls_deployer) (λ _ s',
    obj s' = set_AeeSpec (λ a, set_ExtraMounts (a_ExtraMounts a ++
      [certs_mount tls_node tls_service "default" 1]) a) tls_deployer).
Proof.
  destruct tls_certs_collected as (Hcol & Hpack & Hbytes).
  pose proof (certs_delivered tls_node tls_service "default" tls_hostnames ∅ ensured_world ensured_world) as Hall.
  destruct Hall as (certs & w1 & ci & Hc & Hp & Hd & Hmount).
  - vm_compute. reflexivity.
  - simpl. lia.
  - intros certs w' Hc. rewrite Hcol in Hc. apply next_inj in Hc as [-> _]. simpl. lia.
  - reflexivity.
  - rewrite Hcol in Hc. apply next_inj in Hc as [-> ->].
    change (ns_SecretMaxSize (ns_Spec tls_node)) with 1048576%Z in Hp. rewrite Hpack in Hp. apply (inj Some) in Hp as <-.
    apply Hmount; [reflexivity| |reflexivity|exact Hd].
    intros Hempty. apply (f_equal size) in Hempty. vm_compute in Hempty. discriminate Hempty.
Defined.
