(* ===== verification/DeploymentController.v ===== *)
(** controllers/openstackdataplanedeployment_controller.go: the reconciliation
    of a Deployment. *)

From stdpp Require Import base gmap strings list.
From S2P Require Import Prelude GoStd Conditions Types Cluster Sim ApiTypes AnsibleExec Images.
From S2P Require Import Service Cert Hashes Deployer.

(** ** Access to the state *)

Definition set_ds_Deployed (b : bool) (s : OpenStackDataPlaneDeploymentStatus) :
    OpenStackDataPlaneDeploymentStatus :=
  mkDeploymentStatus (ds_NodeSetConditions s) (ds_ConfigMapHashes s) (ds_SecretHashes s)
    (ds_NodeSetHashes s) (ds_ContainerImages s) (ds_Conditions s) (ds_ObservedGeneration s)
    (ds_DeployedVersion s) b.
Definition set_ds_DeployedVersion (v : string) (s : OpenStackDataPlaneDeploymentStatus) :
    OpenStackDataPlaneDeploymentStatus :=
  mkDeploymentStatus (ds_NodeSetConditions s) (ds_ConfigMapHashes s) (ds_SecretHashes s)
    (ds_NodeSetHashes s) (ds_ContainerImages s) (ds_Conditions s) (ds_ObservedGeneration s)
    v (ds_Deployed s).
Definition set_ds_ObservedGeneration (g : Z) (s : OpenStackDataPlaneDeploymentStatus) :
    OpenStackDataPlaneDeploymentStatus :=
  mkDeploymentStatus (ds_NodeSetConditions s) (ds_ConfigMapHashes s) (ds_SecretHashes s)
    (ds_NodeSetHashes s) (ds_ContainerImages s) (ds_Conditions s) g
    (ds_DeployedVersion s) (ds_Deployed s).
Definition set_ds_hashes (h : HashMaps) (s : OpenStackDataPlaneDeploymentStatus) :
    OpenStackDataPlaneDeploymentStatus :=
  mkDeploymentStatus (ds_NodeSetConditions s) (configMapHashes h) (secretHashes h)
    (ds_NodeSetHashes s) (ds_ContainerImages s) (ds_Conditions s) (ds_ObservedGeneration s)
    (ds_DeployedVersion s) (ds_Deployed s).
Definition set_ds_NodeSetHashes (m : gomap string) (s : OpenStackDataPlaneDeploymentStatus) :
    OpenStackDataPlaneDeploymentStatus :=
  mkDeploymentStatus (ds_NodeSetConditions s) (ds_ConfigMapHashes s) (ds_SecretHashes s)
    m (ds_ContainerImages s) (ds_Conditions s) (ds_ObservedGeneration s)
    (ds_DeployedVersion s) (ds_Deployed s).
(** The four maps that are made when nil. *)
Definition make_maps (s : OpenStackDataPlaneDeploymentStatus) : OpenStackDataPlaneDeploymentStatus :=
  mkDeploymentStatus (ds_NodeSetConditions s) (make_if_nil (ds_ConfigMapHashes s))
    (make_if_nil (ds_SecretHashes s)) (make_if_nil (ds_NodeSetHashes s))
    (make_if_nil (ds_ContainerImages s)) (ds_Conditions s) (ds_ObservedGeneration s)
    (ds_DeployedVersion s) (ds_Deployed s).

(** [instance.Status.NodeSetConditions[name]] *)
Definition nodeset_conditions (name : string) (d : OpenStackDataPlaneDeployment) : Conditions :=
  default [] (ds_NodeSetConditions (d_Status d) !! name).
(** A condition was set through a local copy of that slice. *)
Definition alias_nodeset `{ConditionOps} (name : string) (c : Condition)
    (d : OpenStackDataPlaneDeployment) : OpenStackDataPlaneDeployment :=
  match ds_NodeSetConditions (d_Status d) !! name with
  | Some cs => set_d_Status (set_ds_NodeSetConditions (λ m, <[name := cond_alias cs c]> m)) d
  | None => d
  end.

(** Run a method of a [Deployer] whose Deployment is the instance. *)
Definition with_deployer {W R A} (mk : OpenStackDataPlaneDeployment → Deployer)
    (m : M (St W Deployer) A A) : M (St W OpenStackDataPlaneDeployment) R A := λ s,
  let '(o, s') := m (mkSt (world s) (mk (obj s))) in
  (match o with Next a | Return a => Next a | Panic => Panic end,
   mkSt (world s') (dp_Deployment (obj s'))).
(** Run a function that fills in the two maps of hashes. *)
Definition with_hashes {W R A} (m : M (St W HashMaps) A A) :
    M (St W OpenStackDataPlaneDeployment) R A := λ s,
  let h := mkHashes (ds_ConfigMapHashes (d_Status (obj s))) (ds_SecretHashes (d_Status (obj s))) in
  let '(o, s') := m (mkSt (world s) h) in
  (match o with Next a | Return a => Next a | Panic => Panic end,
   mkSt (world s') (set_d_Status (set_ds_hashes (obj s')) (obj s))).

Section operations.
Context {W : Type} {KC : KubeClient W} {LC : LibCommon W} {CM : CertManager W}.
Context {CO : ConditionOps} {V : Validation} {MR : MapRange} {PI : PackageImages}.

Abbreviation Answer := (Result * option Err)%type.
Abbreviation MD := (M (St W OpenStackDataPlaneDeployment)).

(** ** setHashes *)

(** The services whose inputs are hashed. *)
Definition hashed_services (instance : OpenStackDataPlaneDeployment)
    (nodeSets : list OpenStackDataPlaneNodeSet) : list string :=
  if decide (0 < length (ServicesOverride (d_Spec instance)))
  then ServicesOverride (d_Spec instance)
  else (range "setHashes"
          (insert_all id (λ _, ()) (concat ((λ n, ns_Services (ns_Spec n)) <$> nodeSets)) ∅)).*1.

Definition setHashes (nodeSets : list OpenStackDataPlaneNodeSet) : MD (option Err) (option Err) :=
  instance ← get_obj;
  _ ← for_each (hashed_services instance nodeSets) (λ serviceName,
    err ← with_hashes (GetDeploymentHashesForService (d_Namespace instance) serviceName nodeSets);
    match err with Some err => return_ (Some err) | None => mret () end);
  _ ← for_each nodeSets (λ nodeSet,
    d ← get_obj;
    m ← map_set (ds_NodeSetHashes (d_Status d)) (ns_Name nodeSet) (nss_ConfigHash (ns_Status nodeSet));
    modify_obj (set_d_Status (set_ds_NodeSetHashes m)));
  mret None.

(** ** The phases of Reconcile *)

Definition mark {R} (f : Conditions → Conditions) : MD R () := modify_obj (d_upd f).
(** [ctrl.Result{RequeueAfter: time.Second * DeploymentRequeueTime}] *)
Definition requeue (instance : OpenStackDataPlaneDeployment) : Result :=
  mkResult false (seconds (d_DeploymentRequeueTime (d_Spec instance))).

(** Ensure NodeSets *)
Definition fetch_nodesets : MD Answer (list OpenStackDataPlaneNodeSet) :=
  instance ← get_obj;
  for_acc (d_NodeSets (d_Spec instance)) (λ nodeSets nodeSet,
    r ← on_world (op (GetNodeSet (mkNN (d_Namespace instance) nodeSet)));
    match r with
    | Ok nodeSetInstance => mret (nodeSets ++ [nodeSetInstance])
    | Fail err =>
        if IsNotFound err then return_ (requeue instance, None)
        else
          _ ← mark (λ cs, MarkFalse cs SetupReadyCondition ErrorReason SeverityError
                DataPlaneNodeSetErrorMessage [Error err]);
          return_ (emptyResult, Some err)
    end) [].

(** Check that all nodeSets are SetupReady *)
Definition check_setup (nodeSets : list OpenStackDataPlaneNodeSet) : MD Answer () :=
  instance ← get_obj;
  for_each nodeSets (λ nodeSet,
    if negb (cond_is_true (ns_Conditions nodeSet) SetupReadyCondition)
    then return_ (requeue instance, None) else mret ()).

(** The services deployed on a NodeSet. *)
Definition effective_services (instance : OpenStackDataPlaneDeployment)
    (nodeSet : OpenStackDataPlaneNodeSet) : list string :=
  if decide (length (ServicesOverride (d_Spec instance)) ≠ 0)
  then ServicesOverride (d_Spec instance) else ns_Services (ns_Spec nodeSet).

(** An input error, reported on the Deployment and on the NodeSet. *)
Definition input_error {A} (nodeSetName message : string) (err : Err) : MD Answer A :=
  _ ← mark (λ cs, MarkFalse cs InputReadyCondition ErrorReason SeverityError message [Error err]);
  _ ← modify_obj (alias_nodeset nodeSetName (FalseCondition NodeSetDeploymentReadyCondition
        ErrorReason SeverityError message [Error err]));
  return_ (emptyResult, Some err).

(** get TLS certs *)
Definition ensure_certs (nodeSets : list OpenStackDataPlaneNodeSet) : MD Answer () :=
  instance ← get_obj;
  for_each nodeSets (λ nodeSet,
    if negb (ns_TLSEnabled (ns_Spec nodeSet)) then mret ()
    else
      for_each (effective_services instance nodeSet) (λ serviceName,
        r ← on_world (GetService (d_Namespace instance) serviceName);
        match r with
        | Fail err => input_error (ns_Name nodeSet) ServiceErrorMessage err
        | Ok service =>
            match s_TLSCerts (svc_Spec service) with
            | None => mret ()
            | Some certs =>
                for_each (range "Reconcile/TLSCerts" certs).*1 (λ certKey,
                  a ← on_world (EnsureTLSCerts nodeSet (nss_AllHostnames (ns_Status nodeSet))
                        (nss_AllIPs (ns_Status nodeSet)) service certKey);
                  let '(result, err) := a in
                  match err with
                  | Some err => input_error (ns_Name nodeSet) TLSInputErrorMessage err
                  | None => if decide (result ≠ emptyResult) then return_ (result, None) else mret ()
                  end)
            end
        end)).

(** Check that the global services are consistent *)
Definition check_consistency (nodeSets : list OpenStackDataPlaneNodeSet) : MD Answer () :=
  instance ← get_obj;
  match d_ServicesOverride (d_Spec instance) with
  | Some _ => mret ()
  | None =>
      err ← on_world (CheckGlobalServiceExecutionConsistency (d_Namespace instance) nodeSets);
      match err with
      | None => mret ()
      | Some err =>
          _ ← mark (λ cs, MarkFalse cs DeploymentReadyCondition ErrorReason SeverityError
                ServiceErrorMessage [Error err]);
          return_ (emptyResult, Some err)
      end
  end.

(** The AnsibleEE spec of a NodeSet, with the options of the Deployment. *)
Definition deployment_aee_spec (instance : OpenStackDataPlaneDeployment)
    (nodeSet : OpenStackDataPlaneNodeSet) : AnsibleEESpec :=
  let a := NodeSet_GetAnsibleEESpec nodeSet in
  let status := ns_Status nodeSet in
  let dns :=
    match nss_DNSClusterAddresses status with
    | Some addresses =>
        if decide (nss_CtlplaneSearchDomain status ≠ "")
        then Some (mkDNS addresses [nss_CtlplaneSearchDomain status]) else a_DNSConfig a
    | None => a_DNSConfig a
    end in
  mkAeeSpec (a_ExtraMounts a) (a_Env a) (d_AnsibleExtraVars (d_Spec instance)) dns
    (a_NetworkAttachments a) (a_OpenStackAnsibleEERunnerImage a) (d_AnsibleTags (d_Spec instance))
    (d_AnsibleLimit (d_Spec instance)) (d_AnsibleSkipTags (d_Spec instance)) (a_ServiceAccountName a).

(** The variables the loop over the NodeSets carries. *)
Record Progress : Type := mkProgress {
  shouldRequeue : bool;
  haveError : bool;
  deploymentErrMsg : string;
  backoffLimitReached : bool;
}.

(** The error of one NodeSet: the message so far, and the reason. *)
Definition note_error (p : Progress) (nodeSetName : string) (err : Err) (reason : string) : Progress :=
  let errMsg := sprintf "nodeSet: %s error: %s" [nodeSetName; Error err] in
  mkProgress (shouldRequeue p) true
    (if decide (String.length (deploymentErrMsg p) = 0) then errMsg
     else sprintf "%s & %s" [deploymentErrMsg p; errMsg])
    (bool_decide (reason = JobReasonBackoffLimitExceeded)).

(** What the answer of [Deploy] leads to for the NodeSet. *)
Definition report_nodeset (name : string) (p : Progress) (r : option Result * option Err) : MD Answer Progress :=
  let '(deployResult, err) := r in
  d ← get_obj;
  let nsConditions := nodeset_conditions name d in
  let mirrored := cond_mirror nsConditions NodeSetDeploymentReadyCondition in
  let nsConditions := cond_set_ptr nsConditions mirrored in
  _ ← match mirrored with Some c => modify_obj (alias_nodeset name c) | None => mret () end;
  p ← match err with
      | Some err =>
          c ← deref (cond_get nsConditions NodeSetDeploymentReadyCondition);
          mret (note_error p name err (Reason c))
      | None => mret p
      end;
  match deployResult with
  | Some _ => mret (mkProgress true (haveError p) (deploymentErrMsg p) (backoffLimitReached p))
  | None =>
      _ ← modify_obj (alias_nodeset name
            (TrueCondition NodeSetDeploymentReadyCondition DeploymentReadyMessage []));
      mret p
  end.

(** The body of the loop that deploys each nodeSet. *)
Definition deploy_nodeset (version : option OpenStackVersion)
    (globalInventorySecrets globalSSHKeySecrets : gmap string string)
    (p : Progress) (nodeSet : OpenStackDataPlaneNodeSet) : MD Answer Progress :=
  _ ← modify_obj (set_d_Status (set_ds_Deployed false));
  _ ← mark (λ cs, MarkFalse cs DeploymentReadyCondition RequestedReason SeverityInfo
        DeploymentReadyRunningMessage []);
  instance ← get_obj;
  r ← with_deployer
    (λ d, mkDeployer nodeSet d (deployment_aee_spec d nodeSet) globalInventorySecrets
            globalSSHKeySecrets version)
    (Deploy (effective_services instance nodeSet));
  report_nodeset (ns_Name nodeSet) p r.

(** After the loop. *)
Definition conclude (version : option OpenStackVersion) (nodeSets : list OpenStackDataPlaneNodeSet)
    (p : Progress) : MD Answer Answer :=
  if haveError p then
    let '(reason, severity) :=
      if backoffLimitReached p then (JobReasonBackoffLimitExceeded, SeverityError)
      else (ErrorReason, SeverityWarning) in
    _ ← mark (λ cs, MarkFalse cs DeploymentReadyCondition reason severity
          DeploymentReadyErrorMessage [deploymentErrMsg p]);
    return_ (emptyResult, Some (Errorf (deploymentErrMsg p) []))
  else if shouldRequeue p then return_ (emptyResult, None)
  else
    _ ← mark (λ cs, MarkTrue cs DeploymentReadyCondition DeploymentReadyMessage []);
    _ ← modify_obj (set_d_Status (set_ds_Deployed true));
    _ ← match version with
        | Some v => modify_obj (set_d_Status (set_ds_DeployedVersion (ver_TargetVersion v)))
        | None => mret ()
        end;
    _ ← call (setHashes nodeSets);
    mret (emptyResult, None).

(** Reconcile, from the point where the deferred function is installed. *)
Definition reconcile_body : MD Answer Answer :=
  _ ← modify_obj (set_d_Status make_maps);
  nodeSets ← fetch_nodesets;
  _ ← check_setup nodeSets;
  _ ← ensure_certs nodeSets;
  _ ← mark (λ cs, MarkTrue cs InputReadyCondition InputReadyMessage []);
  let globalInventorySecrets := fold_left (λ m nodeSet,
    <[ns_Name nodeSet := sprintf "dataplanenodeset-%s" [ns_Name nodeSet]]> m) nodeSets ∅ in
  let globalSSHKeySecrets := fold_left (λ m nodeSet,
    <[ns_Name nodeSet := t_AnsibleSSHPrivateKeySecret (ns_NodeTemplate (ns_Spec nodeSet))]> m)
    nodeSets ∅ in
  _ ← check_consistency nodeSets;
  instance ← get_obj;
  v ← on_world (GetVersion (d_Namespace instance));
  match v with
  | Fail err => return_ (emptyResult, Some err)
  | Ok version =>
      p ← for_acc nodeSets (deploy_nodeset version globalInventorySecrets globalSSHKeySecrets)
            (mkProgress false false "" false);
      conclude version nodeSets p
  end.

(** The deferred function, up to the patch. *)
Definition finish_status (savedConditions : Conditions) (d : OpenStackDataPlaneDeployment) :
    OpenStackDataPlaneDeployment :=
  d_upd (finish_conditions ReadyMessage savedConditions) d.

(** The body with the deferred function, which runs on every exit, also
    while a panic unwinds. *)
Definition with_status_patch (savedConditions : Conditions) (body : MD Answer Answer)
    (instance : OpenStackDataPlaneDeployment) : M W Answer Answer := λ w,
  let '(o, s) := body (mkSt w instance) in
  let '(w', err) := PatchDeployment (finish_status savedConditions (obj s)) (world s) in
  (match o with
   | Next a | Return a => Return (match err with Some err => (a.1, Some err) | None => a end)
   | Panic => Panic
   end, w').

(** What is done to the instance before the body. *)
Definition prepare (instance : OpenStackDataPlaneDeployment) : OpenStackDataPlaneDeployment :=
  set_d_Status (set_ds_ObservedGeneration (m_Generation (d_Meta instance)))
    (Deployment_InitConditions instance).

Definition Deployment_Reconcile (req : NamespacedName) : M W Answer Answer :=
  match hostname_rfc1123 (nn_Name req) with
  | Some err => return_ (emptyResult, Some err)
  | None =>
      r ← op (GetDeployment req);
      match r with
      | Fail err =>
          if IsNotFound err then return_ (emptyResult, None) else return_ (emptyResult, Some err)
      | Ok instance =>
          if ds_Deployed (d_Status instance) then return_ (emptyResult, None)
          else
            let savedConditions := d_Conditions instance in
            with_status_patch savedConditions reconcile_body (prepare instance)
      end
  end.
End operations.

(** ** What the phases leave of the Deployment *)

Section facts.
Context {W : Type} {KC : KubeClient W} {LC : LibCommon W} {CM : CertManager W}.
Context {CO : ConditionOps} {CL : ConditionLaws CO}.
Context {V : Validation} {MR : MapRange} {PI : PackageImages}.

(** Not deployed, and reporting neither DeploymentReady nor, until the
    deferred function runs, Ready. *)
Definition pending (d : OpenStackDataPlaneDeployment) : Prop :=
  ds_Deployed (d_Status d) = false ∧
  status_of (d_Conditions d) DeploymentReadyCondition ∈ [Some CUnknown; Some CFalse] ∧
  status_of (d_Conditions d) ReadyCondition = Some CUnknown.

Lemma pending_MarkFalse t r sev m a d :
  t ≠ ReadyCondition → pending d → pending (d_upd (λ cs, MarkFalse cs t r sev m a) d).
Proof.
  intros Ht (Hd & Hr & Hu). unfold pending, d_Conditions in *. simpl.
  rewrite !status_MarkFalse, (decide_False (P := ReadyCondition = t)) by congruence.
  split_and!; [done| |done]. case_decide; [set_solver|done].
Qed.

Lemma pending_alias name c d : pending d → pending (alias_nodeset name c d).
Proof. unfold alias_nodeset. by case_match. Qed.

Ltac guard_step :=
  lazymatch goal with
  | |- guards ?P (mret _) => apply (guards_ret P)
  | |- guards ?P (return_ _) => apply (guards_return P)
  | |- guards ?P get_obj => apply (guards_get_obj P)
  | |- guards ?P (on_world _) => apply (guards_on_world P)
  | |- guards ?P (mark _ ≫= λ _, return_ _) =>
      apply (guards_leave P); [intros; by apply pending_MarkFalse|done|by apply leaves_return]
  | |- guards ?P (_ ≫= _) => apply (guards_bind P); [|intros ?]
  | |- guards ?P (for_acc _ _ _) => apply (guards_for_acc P); intros ??
  | |- guards ?P (for_each _ _) => apply (guards_for_each P); intros ?
  | |- guards _ (if ?b then _ else _) => destruct b
  | |- guards _ (match ?x with _ => _ end) => destruct x
  end.
Ltac guard_tac := cbv zeta; repeat (guard_step; cbv zeta).

Lemma fetch_nodesets_guards : guards pending fetch_nodesets.
Proof. unfold fetch_nodesets. guard_tac. Qed.
Lemma check_setup_guards l : guards pending (check_setup (W := W) l).
Proof. unfold check_setup. guard_tac. Qed.
Lemma check_consistency_guards l : guards pending (check_consistency l).
Proof. unfold check_consistency. guard_tac. Qed.
Lemma input_error_guards {A} name m err : guards pending (input_error (W := W) (A := A) name m err).
Proof.
  unfold input_error, mark. apply guards_leave.
  - intros d. by apply pending_MarkFalse.
  - intros s Hs. simpl. by apply pending_alias.
  - by apply leaves_after.
Qed.
Lemma ensure_certs_guards l : guards pending (ensure_certs l).
Proof.
  unfold ensure_certs. guard_tac; try apply input_error_guards.
Qed.

Lemma fetch_nodesets_named `{!NamedReads KC} (s : St W OpenStackDataPlaneDeployment) :
  sat fetch_nodesets s (λ o _, match o with
    | Next l => ns_Name <$> l = d_NodeSets (d_Spec (obj s)) | _ => True end).
Proof.
  unfold fetch_nodesets. apply sat_bind, sat_gets.
  apply sat_for_acc with (I := λ rest l _, (ns_Name <$> l) ++ rest = d_NodeSets (d_Spec (obj s)));
    [done| |by intros l _; rewrite app_nil_r].
  intros name rest l s1 _ Hl. apply sat_bind, sat_on_world, sat_op. cbn [world].
  destruct (GetNodeSet _ (world s1)) as [w' [n|err]] eqn:Hg; cbn [fst snd].
  - apply sat_ret. apply named_reads in Hg. simpl in Hg.
    by rewrite fmap_app, <- app_assoc, <- Hl, <- Hg.
  - destruct (IsNotFound err); [done|]. unfold mark. by apply sat_bind, sat_modify, sat_return.
Qed.
Lemma fetch_nodesets_names `{!NamedReads KC} (s s' : St W OpenStackDataPlaneDeployment) nodeSets :
  fetch_nodesets s = (Next nodeSets, s') →
  ns_Name <$> nodeSets = d_NodeSets (d_Spec (obj s)).
Proof. intros Hf. pose proof (fetch_nodesets_named s) as Hs. unfold sat in Hs. by rewrite Hf in Hs. Qed.

Lemma check_setup_ready l (s s' : St W OpenStackDataPlaneDeployment) a :
  check_setup l s = (Next a, s') →
  ∀ nodeSet, nodeSet ∈ l → cond_is_true (ns_Conditions nodeSet) SetupReadyCondition = true.
Proof.
  unfold check_setup, mbind, M_bind, get_obj, gets. intros H nodeSet [i Hi]%list_elem_of_lookup.
  pose proof (for_each_rounds _ _ _ _ ltac:(by destruct a) _ _ Hi) as Hr. simpl in Hr.
  by destruct (cond_is_true _ _).
Qed.

(** ** Deploying the NodeSets *)

(** What stays of a Deployment while its NodeSets are deployed. *)
Definition same_deployment (d d' : OpenStackDataPlaneDeployment) : Prop :=
  d_Meta d' = d_Meta d ∧ d_NodeSets (d_Spec d') = d_NodeSets (d_Spec d) ∧
  d_ServicesOverride (d_Spec d') = d_ServicesOverride (d_Spec d) ∧
  ∀ t, t ≠ DeploymentReadyCondition →
    status_of (d_Conditions d') t = status_of (d_Conditions d) t.

#[export] Instance same_deployment_preorder : PreOrder same_deployment.
Proof.
  split; [by intros d|]. intros d1 d2 d3 (?&?&?&Hs1) (?&?&?&Hs2). split_and!; try congruence.
  intros t Ht. by rewrite Hs2, Hs1.
Qed.

Lemma effective_same d d' nodeSet :
  same_deployment d d' → effective_services d' nodeSet = effective_services d nodeSet.
Proof. intros (_&_&H&_). unfold effective_services, ServicesOverride. by rewrite H. Qed.

(** [with_deployer] keeps what the method of the Deployer keeps. *)
Lemma with_deployer_frame {R A} (P : OpenStackDataPlaneDeployment → OpenStackDataPlaneDeployment → Prop)
    mk (m : M (St W Deployer) A A) :
  frames keeps_fixed m → (∀ d, dp_Deployment (mk d) = d) →
  (∀ d dp, keeps_fixed (mk d) dp → P d (dp_Deployment dp)) →
  frames P (with_deployer (R := R) mk m).
Proof.
  intros Hm Hmk HP s. specialize (Hm (mkSt (world s) (mk (obj s)))). unfold with_deployer.
  destruct (m _) as [o s']; simpl in *. auto.
Qed.

Lemma deploy_nodeset_frame version inv ssh p nodeSet :
  frames same_deployment (deploy_nodeset version inv ssh p nodeSet).
Proof.
  assert (∀ name c d, same_deployment d (alias_nodeset name c d)) as Ha.
  { intros name c d. unfold alias_nodeset. by case_match. }
  unfold deploy_nodeset, report_nodeset, mark. frame_tac; try apply Ha.
  - done.
  - unfold same_deployment, d_Conditions. simpl. split_and!; [done..|].
    intros t Ht. by rewrite status_MarkFalse, decide_False.
  - apply with_deployer_frame; [apply Deploy_frame|done|].
    intros d dp (_&_&?&?&?&Hc&_). simpl in *. unfold same_deployment, d_Conditions.
    split_and!; [done..|]. intros t _. by rewrite Hc.
Qed.

(** The maps the status holds are made. *)
Definition maps_made (d : OpenStackDataPlaneDeployment) : Prop :=
  is_Some (ds_ConfigMapHashes (d_Status d)) ∧ is_Some (ds_SecretHashes (d_Status d)) ∧
  is_Some (ds_NodeSetHashes (d_Status d)) ∧ is_Some (ds_ContainerImages (d_Status d)).
(** The maps stay, and the conditions of the other NodeSets. *)
Definition only_nodeset (name : string) (d d' : OpenStackDataPlaneDeployment) : Prop :=
  (maps_made d → maps_made d') ∧
  ∀ other, other ≠ name → nodeset_conditions other d' = nodeset_conditions other d.
#[export] Instance only_nodeset_preorder name : PreOrder (only_nodeset name).
Proof.
  split; [by intros d|]. intros d1 d2 d3 [H1 K1] [H2 K2]. split; [auto|]. intros other Ho. by rewrite K2, K1.
Qed.
Lemma only_alias name c d : only_nodeset name d (alias_nodeset name c d).
Proof.
  unfold alias_nodeset, only_nodeset, nodeset_conditions. case_match; [|done]. split; [done|].
  intros other Ho. simpl. by rewrite lookup_insert_ne.
Qed.

Lemma deploy_nodeset_frame_maps version i k p nodeSet :
  frames (only_nodeset (ns_Name nodeSet)) (deploy_nodeset version i k p nodeSet).
Proof.
  unfold deploy_nodeset, report_nodeset, mark. frame_tac; try done; try apply only_alias.
  apply with_deployer_frame; [apply Deploy_frame|done|].
  intros d dp (_&_&_&_&_&_&_&Hc&Hs&Hn&_&Hi&Ho). simpl in *. split.
  - unfold maps_made. rewrite Hc, Hs, Hn. naive_solver.
  - intros other Hne. unfold nodeset_conditions. by rewrite Ho.
Qed.

(** Whatever happens, the Deployment stays pending while it is deployed. *)
Lemma deploy_nodeset_pending version inv ssh p nodeSet (s : St W OpenStackDataPlaneDeployment) :
  pending (obj s) → pending (obj (deploy_nodeset version inv ssh p nodeSet s).2).
Proof.
  enough (frames (λ d d', pending d → pending d') (deploy_nodeset (KC := KC) version inv ssh p nodeSet))
    as Hf by apply Hf.
  assert (PreOrder (λ d d', pending d → pending d')) by (split; unfold Reflexive, Transitive; auto).
  unfold deploy_nodeset, report_nodeset, mark. frame_tac; try apply pending_alias.
  - by intros (_ & ? & ?).
  - by apply pending_MarkFalse.
  - apply with_deployer_frame; [apply Deploy_frame|done|].
    intros d dp (_&_&_&_&_&Hc&Hd&_). unfold pending, d_Conditions. simpl in *. by rewrite Hc, Hd.
Qed.

Lemma alias_nodeset_set name c d :
  is_Some (status_of (nodeset_conditions name d) (CType c)) →
  nodeset_conditions name (alias_nodeset name c d) = cond_set (nodeset_conditions name d) c ∧
  (∀ name', name' ≠ name →
    nodeset_conditions name' (alias_nodeset name c d) = nodeset_conditions name' d).
Proof.
  unfold alias_nodeset, nodeset_conditions. intros Hs.
  destruct (ds_NodeSetConditions (d_Status d) !! name) as [cs|] eqn:He; simpl in Hs.
  - split; simpl.
    + rewrite lookup_insert_eq. simpl. apply alias_in_place. by apply is_Some_status.
    + intros name' Hn. by rewrite lookup_insert_ne.
  - rewrite status_nil in Hs. by destruct Hs.
Qed.

(** Every condition of every NodeSet stayed or became True. *)
Definition nodesets_improve (d d' : OpenStackDataPlaneDeployment) : Prop :=
  ∀ name, improves (nodeset_conditions name d) (nodeset_conditions name d').
Lemma nodesets_improve_trans d1 d2 d3 :
  nodesets_improve d1 d2 → nodesets_improve d2 d3 → nodesets_improve d1 d3.
Proof. intros H1 H2 name. by eapply improves_trans. Qed.

(** A NodeSet is deployed with these services. *)
Definition nodeset_deployed (services : list string) (nodeSet : OpenStackDataPlaneNodeSet)
    (d : OpenStackDataPlaneDeployment) : Prop :=
  let cs := nodeset_conditions (ns_Name nodeSet) d in
  status_of cs NodeSetDeploymentReadyCondition = Some CTrue ∧
  ∀ service, service ∈ services →
    status_of cs (readyCondition (service_messages service)) = Some CTrue.

Lemma nodeset_deployed_improves services nodeSet d d' :
  nodesets_improve d d' → nodeset_deployed services nodeSet d → nodeset_deployed services nodeSet d'.
Proof.
  intros Hi [H1 H2]. split; [|intros service Hin]; eapply improves_true; try apply Hi; auto.
Qed.

Lemma deploy_with_spec {R} mk services nodeSet (s : St W OpenStackDataPlaneDeployment) :
  (∀ d, dp_Deployment (mk d) = d ∧ dp_NodeSet (mk d) = nodeSet) →
  sat (R := R) (with_deployer mk (Deploy services)) s (λ o s', match o with
    | Next (r, err) => r = Some emptyResult ∨
        r = None ∧ err = None ∧ nodesets_improve (obj s) (obj s') ∧
        ∀ service, service ∈ services →
          status_of (nodeset_conditions (ns_Name nodeSet) (obj s'))
            (readyCondition (service_messages service)) = Some CTrue
    | Return _ => False
    | Panic => True
    end).
Proof.
  intros Hmk. destruct (Hmk (obj s)) as [Hd Hn].
  pose proof (Deploy_improves services (mkSt (world s) (mk (obj s)))) as HD.
  pose proof (Deploy_frame services (mkSt (world s) (mk (obj s)))) as HF.
  unfold sat, with_deployer in *.
  destruct (Deploy services _) as [[[r err]|[r err]|] s']; simpl in *; [|by left|done].
  destruct HD as ([= -> ->] & Hall & Hi). right. unfold deployed, dp_nsConditions in Hall, Hi.
  destruct HF as (HN & _ & _ & _ & _ & _ & _ & _ & _ & _ & _ & _ & Hother).
  rewrite HN, Hn, ?Hd in *. split_and!; [done..| |done].
  intros name. destruct (decide (name = ns_Name nodeSet)) as [->|Hne]; [done|].
  unfold nodeset_conditions. rewrite Hother by done. by right.
Qed.

(** The end of the round for a NodeSet whose services are all deployed. *)
Lemma mark_deployed name d c :
  CType c = NodeSetDeploymentReadyCondition →
  is_Some (status_of (nodeset_conditions name d) NodeSetDeploymentReadyCondition) →
  ∀ d1, (d1 = d ∨ ∃ c1, CType c1 = NodeSetDeploymentReadyCondition ∧ d1 = alias_nodeset name c1 d) →
  Status c = CTrue →
  nodesets_improve d (alias_nodeset name c d1) ∧
  status_of (nodeset_conditions name (alias_nodeset name c d1)) NodeSetDeploymentReadyCondition = Some CTrue.
Proof.
  intros Hc Hp d1 Hd1 Ht.
  assert (is_Some (status_of (nodeset_conditions name d1) NodeSetDeploymentReadyCondition) ∧
    (∀ t, t ≠ NodeSetDeploymentReadyCondition →
      status_of (nodeset_conditions name d1) t = status_of (nodeset_conditions name d) t) ∧
    (∀ name', name' ≠ name → nodeset_conditions name' d1 = nodeset_conditions name' d)) as (Hp1 & Hs1 & Ho1).
  { destruct Hd1 as [->|(c1 & Hc1 & ->)]; [done|]. rewrite <- Hc1 in Hp.
    apply alias_nodeset_set in Hp as [-> Ho]. split_and!; [..|done].
    - by rewrite status_set, decide_True.
    - intros t Hne. by rewrite status_set, decide_False by congruence. }
  rewrite <- Hc in Hp1. apply alias_nodeset_set in Hp1 as [Hset Ho]. split.
  - intros name'. destruct (decide (name' = name)) as [->|Hne].
    + intros t. rewrite Hset, status_set. case_decide as Htc; [left; by rewrite Ht|right].
      apply Hs1. congruence.
    + rewrite Ho, Ho1 by done. apply improves_refl.
  - by rewrite Hset, status_set, decide_True, Ht.
Qed.

Lemma deploy_nodeset_spec version inv ssh p nodeSet (s : St W OpenStackDataPlaneDeployment) :
  is_Some (status_of (nodeset_conditions (ns_Name nodeSet) (obj s)) NodeSetDeploymentReadyCondition) →
  sat (deploy_nodeset version inv ssh p nodeSet) s (λ o s', match o with
    | Next p' => shouldRequeue p' = true ∨
        p' = p ∧ nodesets_improve (obj s) (obj s') ∧
        nodeset_deployed (effective_services (obj s) nodeSet) nodeSet (obj s')
    | Return _ => False
    | Panic => True
    end).
Proof.
  intros Hp. unfold deploy_nodeset, report_nodeset, mark. cbv zeta.
  apply sat_bind, sat_modify, sat_bind, sat_modify, sat_bind, sat_gets. cbn [obj world].
  apply sat_bind. eapply sat_mono; [by apply (deploy_with_spec _ _ nodeSet)|].
  intros [[r err]|r|] s1; [|done..]. cbn [obj].
  intros Hr. apply sat_bind, sat_gets.
  set (mirrored := cond_mirror _ _).
  apply sat_bind. eapply sat_mono with (Q := λ o s2, o = Next () ∧
    (obj s2 = obj s1 ∨ ∃ c1, CType c1 = NodeSetDeploymentReadyCondition ∧
       obj s2 = alias_nodeset (ns_Name nodeSet) c1 (obj s1))).
  { destruct mirrored as [c1|] eqn:Hm; [|apply sat_ret; auto].
    apply sat_modify. split; [done|]. right. exists c1. split; [by eapply mirror_type|done]. }
  intros o s2 [-> Hs2]. destruct Hr as [->|(-> & -> & Hi & Hsvc)].
  - apply sat_bind. destruct err as [err|]; [apply sat_bind; destruct (cond_get _ _)|];
      cbn [deref]; try apply sat_ret; try (apply sat_panic; done); left; done.
  - apply sat_bind, sat_ret, sat_bind, sat_modify, sat_ret. right. cbn [obj]. split; [done|].
    change (d_Status _) with (d_Status (obj s)) in Hi.
    assert (is_Some (status_of (nodeset_conditions (ns_Name nodeSet) (obj s1))
              NodeSetDeploymentReadyCondition)) as Hp1 by (by eapply improves_present).
    destruct (mark_deployed (ns_Name nodeSet) (obj s1)
      (TrueCondition NodeSetDeploymentReadyCondition DeploymentReadyMessage [])
      (TrueCondition_type _ _ _) Hp1 (obj s2) Hs2 (TrueCondition_status _ _ _)) as [Hi2 Ht].
    split; [by eapply nodesets_improve_trans|]. split; [done|].
    intros service Hin. eapply improves_true; [apply Hi2|]. by apply Hsvc.
Qed.

Lemma sat_bind_any {S R A B} (m : M S R A) (k : A → M S R B) s (Q : outcome R B → Prop) :
  (∀ a s', sat (k a) s' (λ o _, Q o)) → (∀ r, Q (Return r)) → Q Panic → sat (m ≫= k) s (λ o _, Q o).
Proof. intros Hk Hr Hp. apply sat_bind. unfold sat at 1. destruct (m s) as [[a|r|] s']; simpl; auto. Qed.

(** Once a NodeSet asked for another round, the others do not take it back. *)
Lemma deploy_nodeset_requeue version inv ssh p nodeSet (s : St W OpenStackDataPlaneDeployment) :
  shouldRequeue p = true →
  sat (deploy_nodeset version inv ssh p nodeSet) s (λ o _,
    match o with Next p' => shouldRequeue p' = true | _ => True end).
Proof.
  intros Hp. unfold deploy_nodeset, report_nodeset. cbv zeta. do 3 (apply sat_bind_any; [intros ??|done..]).
  apply sat_bind_any; [intros [r err] ?|done..]. do 2 (apply sat_bind_any; [intros ??|done..]).
  apply sat_bind. eapply sat_mono with (Q := λ o _, match o with
    | Next p' => shouldRequeue p' = true | _ => True end).
  { destruct err as [err|]; [|done]. by apply sat_bind_any. }
  intros [p'|?|] ? Hp'; [|done..]. destruct r; [done|]. by apply sat_bind_any.
Qed.

Lemma deploy_loop_spec version inv ssh p nodeSets (s : St W OpenStackDataPlaneDeployment) :
  pending (obj s) →
  (∀ nodeSet, nodeSet ∈ nodeSets → is_Some (status_of
     (nodeset_conditions (ns_Name nodeSet) (obj s)) NodeSetDeploymentReadyCondition)) →
  sat (for_acc nodeSets (deploy_nodeset version inv ssh) p) s (λ o s', pending (obj s') ∧
    match o with
    | Next p' => same_deployment (obj s) (obj s') ∧ (shouldRequeue p' = true ∨
        p' = p ∧ ∀ nodeSet, nodeSet ∈ nodeSets →
          nodeset_deployed (effective_services (obj s) nodeSet) nodeSet (obj s'))
    | _ => True
    end).
Proof.
  intros Hpend Hpres.
  apply sat_for_acc with (I := λ rest p' s', pending (obj s') ∧ same_deployment (obj s) (obj s') ∧
    (shouldRequeue p' = true ∨ p' = p ∧ nodesets_improve (obj s) (obj s') ∧
     ∃ done, nodeSets = done ++ rest ∧ ∀ nodeSet, nodeSet ∈ done →
       nodeset_deployed (effective_services (obj s) nodeSet) nodeSet (obj s'))).
  - split_and!; [done|done|]. right. split_and!; [done|intros name; apply improves_refl|].
    exists []. split; [done|by intros ? ?%not_elem_of_nil].
  - intros nodeSet rest p1 s1 _ (Hp1 & Hsame & Hor).
    pose proof (deploy_nodeset_pending version inv ssh p1 nodeSet s1 Hp1) as Hp2.
    pose proof (deploy_nodeset_frame version inv ssh p1 nodeSet s1) as Hf2.
    apply sat_mono with (Q := λ o s2, (pending (obj s2) ∧ same_deployment (obj s1) (obj s2)) ∧
      match o with
      | Next p2 => shouldRequeue p2 = true ∨ p1 = p ∧ p2 = p1 ∧
          nodesets_improve (obj s) (obj s1) ∧ nodesets_improve (obj s1) (obj s2) ∧
          (∃ done, nodeSets = done ++ nodeSet :: rest ∧ ∀ nodeSet, nodeSet ∈ done →
            nodeset_deployed (effective_services (obj s) nodeSet) nodeSet (obj s1)) ∧
          nodeset_deployed (effective_services (obj s1) nodeSet) nodeSet (obj s2)
      | _ => True
      end).
    { apply sat_and; [done|]. destruct Hor as [Hr|(-> & Hi & done & -> & Hdone)].
      - eapply sat_mono; [by apply deploy_nodeset_requeue|]. intros [p2|r|] s2; auto.
      - eapply sat_mono; [apply deploy_nodeset_spec|].
        + eapply improves_present; [apply Hi|]. apply Hpres. set_solver.
        + intros [p2|r|] s2; [|done..]. intros [Hr|(-> & Hi2 & Hd)]; [by left|right].
          split_and!; eauto. }
    intros [p2|r|] s2 [[Hpen Hsm] H]; [|done..].
    split_and!; [done|by etransitivity|]. destruct H as [Hr|(-> & -> & Hi & Hi2 & (done & -> & Hdone) & Hd)];
      [by left|right].
    split_and!; [done|by eapply nodesets_improve_trans|].
    exists (done ++ [nodeSet]). split; [by rewrite <- app_assoc|].
    rewrite (effective_same (obj s)) in Hd by done.
    intros x [Hx| ->%list_elem_of_singleton]%elem_of_app; [|done].
    eapply nodeset_deployed_improves; eauto.
  - intros p' s' (Hp & Hsm & Hor). split_and!; [done..|].
    destruct Hor as [Hr|(-> & _ & done & -> & Hd)]; [by left|right]. rewrite app_nil_r. auto.
Qed.

(** ** The end of the body *)

Definition same_status (d d' : OpenStackDataPlaneDeployment) : Prop :=
  d_Conditions d' = d_Conditions d ∧ ds_Deployed (d_Status d') = ds_Deployed (d_Status d) ∧
  ds_NodeSetConditions (d_Status d') = ds_NodeSetConditions (d_Status d).
#[export] Instance same_status_preorder : PreOrder same_status.
Proof.
  split; [by intros d|]. intros d1 d2 d3 (?&?&?) (?&?&?). split_and!; congruence.
Qed.

Lemma setHashes_frame nodeSets : frames same_status (setHashes nodeSets).
Proof.
  unfold setHashes. frame_tac; try done.
  - intros st. unfold with_hashes. by destruct (GetDeploymentHashesForService _ _ _ _) as [[?|?|] st'].
  - intros st. unfold map_set. by destruct (ds_NodeSetHashes _).
Qed.

(** What a finished deployment reports. *)
Definition concluded (d d' : OpenStackDataPlaneDeployment) : Prop :=
  ds_Deployed (d_Status d') = true ∧
  (∀ t, status_of (d_Conditions d') t =
     if decide (t = DeploymentReadyCondition) then Some CTrue else status_of (d_Conditions d) t) ∧
  ds_NodeSetConditions (d_Status d') = ds_NodeSetConditions (d_Status d).

Lemma conclude_spec version nodeSets p (s : St W OpenStackDataPlaneDeployment) :
  pending (obj s) →
  sat (conclude version nodeSets p) s (λ o s',
    pending (obj s') ∨ shouldRequeue p = false ∧ haveError p = false ∧ concluded (obj s) (obj s')).
Proof.
  intros Hp. unfold conclude, mark. destruct (haveError p).
  - destruct (backoffLimitReached p);
      apply sat_bind, sat_modify, sat_return; left; by apply pending_MarkFalse.
  - destruct (shouldRequeue p); [by left|].
    match goal with |- sat ?m _ _ => enough (∀ s' : St W OpenStackDataPlaneDeployment, same_status
      (set_d_Status (set_ds_Deployed true) (d_upd (λ cs, MarkTrue cs DeploymentReadyCondition
         DeploymentReadyMessage []) (obj s))) (obj s') → concluded (obj s) (obj s')) as Hc end.
    + right. split_and!; [done..|]. apply Hc.
      unfold mbind at 1, M_bind at 1, modify_obj at 1, modify.
      unfold mbind at 1, M_bind at 1, modify_obj at 1, modify.
      match goal with |- same_status ?d (obj (?m ?s0).2) =>
        assert (frames same_status m) as Hf; [|exact (Hf s0)] end.
      frame_tac; try done. apply setHashes_frame.
    + intros s' (Hcs & Hd & Hn). unfold concluded. rewrite Hcs, Hd, Hn. split_and!; [done| |done].
      intros t. unfold d_Conditions. simpl. apply status_MarkTrue.
Qed.

(** ** The whole body *)

(** A Deployment whose statuses were initialised, and whose NodeSets have a
    condition to report on. *)
Definition initialised (d : OpenStackDataPlaneDeployment) : Prop :=
  pending d ∧
  (∀ t, status_of (d_Conditions d) t =
     if decide (t ∈ [ReadyCondition; DeploymentReadyCondition; InputReadyCondition])
     then Some CUnknown else None) ∧
  (∀ name, name ∈ d_NodeSets (d_Spec d) →
     is_Some (status_of (nodeset_conditions name d) NodeSetDeploymentReadyCondition)).

Lemma initialised_init instance : initialised (set_d_Status make_maps (prepare instance)).
Proof.
  assert (∀ t, status_of (d_Conditions (set_d_Status make_maps (prepare instance))) t =
     if decide (t ∈ [ReadyCondition; DeploymentReadyCondition; InputReadyCondition])
     then Some CUnknown else None) as Ht.
  { intros t. apply (status_Deployment_init instance t). }
  split_and!; [|done|].
  - unfold pending. rewrite !Ht, !decide_True by set_solver. split; [done|]. set_solver.
  - intros name Hin. unfold nodeset_conditions.
    change (ds_NodeSetConditions _) with (ds_NodeSetConditions (d_Status (Deployment_InitConditions instance))).
    rewrite Deployment_InitConditions_nodesets, decide_True by done. simpl.
    rewrite status_initial_nodeset, decide_True by done. eauto.
Qed.

(** The NodeSets the body works on. *)
Definition fetched (s : St W OpenStackDataPlaneDeployment) : list OpenStackDataPlaneNodeSet :=
  match (fetch_nodesets (mkSt (world s) (set_d_Status make_maps (obj s)))).1 with
  | Next nodeSets => nodeSets
  | _ => []
  end.

(** A Deployment that was deployed in the run from [s]. *)
Definition deployed_in (s : St W OpenStackDataPlaneDeployment) (d : OpenStackDataPlaneDeployment) : Prop :=
  ds_Deployed (d_Status d) = true ∧
  (ns_Name <$> fetched s) = d_NodeSets (d_Spec (obj s)) ∧
  ∀ nodeSet, nodeSet ∈ fetched s →
    cond_is_true (ns_Conditions nodeSet) SetupReadyCondition = true ∧
    nodeset_deployed (effective_services (obj s) nodeSet) nodeSet d.
Definition deployed_conditions (d : OpenStackDataPlaneDeployment) : Prop :=
  ∀ t, status_of (d_Conditions d) t =
    if decide (t = ReadyCondition) then Some CUnknown
    else if decide (t ∈ [DeploymentReadyCondition; InputReadyCondition]) then Some CTrue else None.

Lemma deployed_conditions_end m d d2 d3 :
  (∀ t, status_of (d_Conditions d) t =
     if decide (t ∈ [ReadyCondition; DeploymentReadyCondition; InputReadyCondition])
     then Some CUnknown else None) →
  same_deployment (d_upd (λ cs, MarkTrue cs InputReadyCondition m []) d) d2 →
  (∀ t, status_of (d_Conditions d3) t =
     if decide (t = DeploymentReadyCondition) then Some CTrue else status_of (d_Conditions d2) t) →
  deployed_conditions d3.
Proof.
  intros Ht (_ & _ & _ & Hcs) H3 t. rewrite H3.
  destruct (decide (t = DeploymentReadyCondition)) as [->|Hne].
  - rewrite decide_False by done. by rewrite decide_True by set_solver.
  - rewrite Hcs by done. unfold d_Conditions at 1. simpl. rewrite status_MarkTrue.
    destruct (decide (t = InputReadyCondition)) as [->|Hni].
    + rewrite decide_False by done. by rewrite decide_True by set_solver.
    + rewrite (decide_False (P := t ∈ [DeploymentReadyCondition; _])) by set_solver.
      trans (status_of (d_Conditions d) t); [done|]. rewrite Ht.
      destruct (decide (t = ReadyCondition)) as [->|Hnr].
      * by rewrite decide_True by set_solver.
      * by rewrite decide_False by set_solver.
Qed.

Lemma reconcile_body_spec `{!NamedReads KC} (w : W) instance :
  sat reconcile_body (mkSt w (prepare instance)) (λ o s',
    pending (obj s') ∨
    deployed_in (mkSt w (prepare instance)) (obj s') ∧ deployed_conditions (obj s')).
Proof.
  unfold reconcile_body, mark. apply sat_bind, sat_modify. cbn [obj world].
  pose proof (initialised_init instance) as (Hp & Ht & Hn).
  set (s := mkSt w (prepare instance)).
  set (d := set_d_Status make_maps (prepare instance)) in *.
  apply sat_bind. destruct (fetch_nodesets (mkSt w d)) as [o s1] eqn:Hf.
  pose proof (fetch_nodesets_guards (mkSt w d) Hp) as Hg. rewrite Hf in Hg. unfold sat at 1. rewrite Hf.
  cbn [fst snd]. destruct o as [nodeSets|r|]; [|by left..].
  assert (fetched s = nodeSets) as Hfetched by (unfold fetched; cbn [world obj s]; fold d; by rewrite Hf).
  apply fetch_nodesets_names in Hf as Hnames. cbn [obj] in Hg, Hnames.
  apply sat_bind. destruct (check_setup nodeSets s1) as [o s2] eqn:Hc. unfold sat at 1. rewrite Hc.
  pose proof (check_setup_guards nodeSets s1) as Hg2. rewrite Hg, Hc in Hg2. specialize (Hg2 Hp).
  cbn [fst snd]. destruct o as [u|r|]; [|by left..].
  pose proof (check_setup_ready _ _ _ _ Hc) as Hsetup. clear Hc Hf u.
  apply sat_bind. apply (sat_guards pending); [apply ensure_certs_guards|by rewrite Hg2|].
  intros [u|r|] s3 Hg3; [|by left..]. rewrite Hg2 in Hg3. clear u.
  apply sat_bind, sat_modify. rewrite Hg3. cbv zeta. cbn [obj world].
  set (d1 := d_upd _ d). assert (pending d1) as Hp1.
  { destruct Hp as (?&?&?). unfold pending, d1, d_Conditions in *. simpl. by rewrite !status_MarkTrue. }
  apply sat_bind. apply (sat_guards pending); [apply check_consistency_guards|done|].
  intros [u|r|] s4 Hg4; [|by left..]. cbn [obj] in Hg4. clear u.
  apply sat_bind, sat_gets, sat_bind, sat_on_world_run. destruct (run _ _) as [r|]; [|by left; rewrite Hg4].
  destruct r as [version|err]; [|apply sat_return; left; cbn [obj]; by rewrite Hg4].
  apply sat_bind. eapply sat_mono; [apply deploy_loop_spec; cbn [obj]; rewrite Hg4; [done|]|].
  { intros nodeSet Hin. apply (Hn (ns_Name nodeSet)).
    change (d_NodeSets _) with (d_NodeSets (d_Spec d)). rewrite <- Hnames. by apply list_elem_of_fmap_2. }
  intros [p|r|] s5 [Hp5 H5]; [|by left..]. cbn [obj] in H5. rewrite Hg4 in H5.
  eapply sat_mono; [by apply conclude_spec|]. intros o s6 [?|(Hreq & _ & Hd6 & Ht6 & Hn6)]; [by left|right].
  destruct H5 as [Hsame [?|[-> Hdone]]]; [congruence|]. split.
  - unfold deployed_in. rewrite Hfetched. split_and!; [done..|].
    intros nodeSet Hin. split; [auto|]. unfold nodeset_deployed, nodeset_conditions. rewrite Hn6.
    by apply Hdone.
  - eapply deployed_conditions_end; [apply Ht|apply Hsame|done].
Qed.

(** ** The deferred function *)

Lemma finish_status_Ready saved d :
  status_of (d_Conditions d) ReadyCondition = Some CUnknown →
  status_of (d_Conditions (finish_status saved d)) ReadyCondition = Some CTrue ↔
    all_true (d_Conditions d).
Proof. apply finish_Ready. Qed.
End facts.

(** ** Properties of the reconciliation *)

Section properties.
Context {W : Type} {KC : KubeClient W} {LC : LibCommon W} {CM : CertManager W}.
Context {CO : ConditionOps} {CL : ConditionLaws CO}.
Context {V : Validation} {MR : MapRange} {PI : PackageImages}.

(** The run of [Reconcile] on a Deployment that is not deployed yet: the
    state the body ends in, and the object that is patched. *)
Definition final_state (w : W) (instance : OpenStackDataPlaneDeployment) :
    St W OpenStackDataPlaneDeployment :=
  (reconcile_body (mkSt w (prepare instance))).2.
Definition patched (w : W) (instance : OpenStackDataPlaneDeployment) : OpenStackDataPlaneDeployment :=
  finish_status (d_Conditions instance) (obj (final_state w instance)).

(** What no reconciliation changes: the identity of a Deployment, its NodeSets
    and the services it asks for. *)
Definition same_request (d d' : OpenStackDataPlaneDeployment) : Prop :=
  d_Meta d' = d_Meta d ∧ d_NodeSets (d_Spec d') = d_NodeSets (d_Spec d) ∧
  d_ServicesOverride (d_Spec d') = d_ServicesOverride (d_Spec d).
#[export] Instance same_request_preorder : PreOrder same_request.
Proof.
  split; [by intros d|]. intros d1 d2 d3 (?&?&?) (?&?&?). unfold same_request. split_and!; congruence.
Qed.

Lemma with_deployer_request {R} n a i k v l :
  frames same_request (with_deployer (R := R) (λ d, mkDeployer n d (a d) i k v) (Deploy l)).
Proof.
  intros s. unfold with_deployer.
  pose proof (Deploy_frame l (mkSt (world s) (mkDeployer n (obj s) (a (obj s)) i k v))) as H.
  destruct (Deploy l _) as [o s']. destruct H as (_ & _ & Hm & Hn & Ho & _). by split_and!.
Qed.
Lemma with_hashes_request {R A} m : frames same_request (with_hashes (W := W) (R := R) (A := A) m).
Proof. intros s. unfold with_hashes. cbv zeta. by destruct (m _) as [o s']. Qed.
Lemma alias_nodeset_request name c d : same_request d (alias_nodeset name c d).
Proof. unfold alias_nodeset. by case_match. Qed.

Lemma reconcile_body_request : frames same_request reconcile_body.
Proof.
  unfold reconcile_body, fetch_nodesets, check_setup, ensure_certs, input_error, check_consistency,
    deploy_nodeset, report_nodeset, conclude, mark, setHashes.
  frame_tac; try done; try apply with_deployer_request; try apply with_hashes_request;
    try apply alias_nodeset_request; by apply frames_map_set, _.
Qed.
Lemma patched_request w instance : same_request instance (patched w instance).
Proof. exact (reconcile_body_request (mkSt w (prepare instance))). Qed.

(** What is patched, and where the run ends. *)
Lemma Reconcile_runs (req : NamespacedName) (w w1 : W) (instance : OpenStackDataPlaneDeployment) :
  hostname_rfc1123 (nn_Name req) = None →
  GetDeployment req w = (w1, Ok instance) →
  ds_Deployed (d_Status instance) = false →
  (Deployment_Reconcile req w).2 =
    (PatchDeployment (patched w1 instance) (world (final_state w1 instance))).1.
Proof.
  intros Hv Hg Hd. unfold Deployment_Reconcile, op, mbind, M_bind. rewrite Hv, Hg, Hd.
  unfold with_status_patch, patched, final_state.
  destruct (reconcile_body _) as [o s']. simpl. by destruct (PatchDeployment _ _).
Qed.

Lemma patched_consistent `{!NamedReads KC} (w : W) (instance : OpenStackDataPlaneDeployment) :
  let d := patched w instance in
  (status_of (d_Conditions d) ReadyCondition = Some CTrue ↔ ds_Deployed (d_Status d) = true) ∧
  (ds_Deployed (d_Status d) = true → deployed_in (mkSt w (prepare instance)) d).
Proof.
  pose proof (reconcile_body_spec w instance) as Hb. unfold sat in Hb.
  fold (final_state w instance) in Hb. cbv zeta. unfold patched.
  change (ds_Deployed (d_Status (finish_status ?c ?x))) with (ds_Deployed (d_Status x)).
  destruct Hb as [(Hf & Hr & Hu)|[Hdep Hcs]].
  - rewrite finish_status_Ready by done. rewrite Hf. split; [|done]. split; [|done]. intros Hall.
    rewrite elem_of_cons, list_elem_of_singleton in Hr.
    destruct Hr as [Hr|Hr]; by specialize (Hall DeploymentReadyCondition _ ltac:(done) Hr).
  - assert (status_of (d_Conditions (obj (final_state w instance))) ReadyCondition = Some CUnknown) as Hu
      by (by rewrite Hcs, decide_True).
    rewrite finish_status_Ready by done. split; [|done]. split; [intros _; apply Hdep|intros _].
    intros t st Ht. rewrite Hcs, decide_False by done. case_decide; [by intros [= <-]|done].
Qed.

(** C1. [Reconcile] of a Deployment that is not deployed yet always ends by
    patching its status, also when the body returns early or panics.  In the
    status it writes, Ready is True exactly when Deployed is; and then every
    NodeSet of the spec was fetched and had its setup complete, its
    NodeSetDeploymentReady condition is True and so is the condition of
    every service deployed on it. *)
Theorem Reconcile_deployed `{!NamedReads KC} (req : NamespacedName) (w w1 : W)
    (instance : OpenStackDataPlaneDeployment) :
  hostname_rfc1123 (nn_Name req) = None →
  GetDeployment req w = (w1, Ok instance) →
  ds_Deployed (d_Status instance) = false →
  let d := patched w1 instance in
  (Deployment_Reconcile req w).2 = (PatchDeployment d (world (final_state w1 instance))).1 ∧
  (status_of (d_Conditions d) ReadyCondition = Some CTrue ↔ ds_Deployed (d_Status d) = true) ∧
  (ds_Deployed (d_Status d) = true → deployed_in (mkSt w1 (prepare instance)) d).
Proof. intros Hv Hg Hd. split; [by apply Reconcile_runs|apply patched_consistent]. Qed.

(** The exits before the body: an invalid name is an error without any
    call; a Deployment that is gone, or one already deployed, ends without
    an error, and one that cannot be read with the error; in each case
    nothing but the read of the Deployment is done. *)
Theorem Reconcile_early (req : NamespacedName) (w : W) :
  match hostname_rfc1123 (nn_Name req) with
  | Some err => Deployment_Reconcile req w = (Return (emptyResult, Some err), w)
  | None =>
      let '(w1, answer) := GetDeployment req w in
      match answer with
      | Fail err =>
          Deployment_Reconcile req w =
            (Return (emptyResult, if IsNotFound err then None else Some err), w1)
      | Ok instance =>
          ds_Deployed (d_Status instance) = true →
          Deployment_Reconcile req w = (Return (emptyResult, None), w1)
      end
  end.
Proof.
  unfold Deployment_Reconcile, op, mbind, M_bind. destruct (hostname_rfc1123 _); [done|].
  destruct (GetDeployment req w) as [w1 [instance|err]]; [by intros ->|].
  by destruct (IsNotFound err).
Qed.

(** The text one error is reported with. *)
Definition error_text (e : string * Err * string) : string :=
  "nodeSet: " +:+ e.1.1 +:+ " error: " +:+ Error e.1.2.
Definition note_all (p : Progress) (errs : list (string * Err * string)) : Progress :=
  fold_left (λ p e, note_error p e.1.1 e.1.2 e.2) errs p.

Lemma note_error_text p name err reason :
  deploymentErrMsg (note_error p name err reason) =
    (if decide (deploymentErrMsg p = "") then error_text (name, err, reason)
     else deploymentErrMsg p +:+ " & " +:+ error_text (name, err, reason)).
Proof.
  assert (sprintf "nodeSet: %s error: %s" [name; Error err] = error_text (name, err, reason)) as Ht.
  { simpl. by rewrite string_app_nil_r. }
  unfold note_error. cbv zeta. cbn [deploymentErrMsg]. rewrite Ht.
  destruct (deploymentErrMsg p) as [|c m]; [done|]. rewrite !decide_False by done.
  simpl. by rewrite string_app_nil_r.
Qed.

Lemma note_all_more p errs :
  deploymentErrMsg p ≠ "" → haveError p = true →
  haveError (note_all p errs) = true ∧ shouldRequeue (note_all p errs) = shouldRequeue p ∧
  deploymentErrMsg (note_all p errs) =
    fold_left (λ m e, m +:+ " & " +:+ error_text e) errs (deploymentErrMsg p).
Proof.
  revert p. induction errs as [|[[name err] reason] errs IH]; intros p Hm He; [done|]. simpl.
  destruct (IH (note_error p name err reason)) as (H1 & H2 & H3); [|done|].
  - rewrite note_error_text, decide_False by done. by destruct (deploymentErrMsg p).
  - split_and!; [done|done|]. rewrite H3. by rewrite note_error_text, decide_False.
Qed.

(** The errors of several NodeSets are reported together: the Deployment
    is marked DeploymentReady False with a text that names each failing
    NodeSet with its error, in order, joined by an ampersand; the reason is
    that the backoff limit was reached only when that was the reason of the
    last of them; and [Reconcile] ends with an error. *)
Theorem conclude_errors (e : string * Err * string) (errs : list (string * Err * string))
    version nodeSets (s : St W OpenStackDataPlaneDeployment) :
  let p := note_all (mkProgress false false "" false) (e :: errs) in
  let text := fold_left (λ m e, m +:+ " & " +:+ error_text e) errs (error_text e) in
  let last := (List.last errs e).2 in
  sat (conclude version nodeSets p) s (λ o s',
    o = Return (emptyResult, Some (Errorf text [])) ∧ world s' = world s ∧
    state <$> cond_get (d_Conditions (obj s')) DeploymentReadyCondition =
      Some (if decide (last = JobReasonBackoffLimitExceeded)
            then (CFalse, SeverityError, last, sprintf DeploymentReadyErrorMessage [text])
            else (CFalse, SeverityWarning, ErrorReason, sprintf DeploymentReadyErrorMessage [text]))).
Proof.
  intros p text last.
  assert (haveError p = true ∧ deploymentErrMsg p = text) as [He Ht].
  { destruct e as [[name err] reason].
    destruct (note_all_more (note_error (mkProgress false false "" false) name err reason) errs)
      as (H1 & _ & H3); [by rewrite note_error_text|done|].
    split; [done|]. unfold p. simpl. by rewrite H3, note_error_text. }
  assert (backoffLimitReached p = bool_decide (last = JobReasonBackoffLimitExceeded)) as Hb.
  { unfold p, last. clear. generalize (mkProgress false false "" false). revert e.
    induction errs as [|e' errs IH]; intros e p; [done|].
    rewrite list_last_cons. apply (IH e' (note_error p e.1.1 e.1.2 e.2)). }
  unfold conclude, mark. rewrite He, Hb, Ht. case_bool_decide as Hl.
  - apply sat_bind, sat_modify, sat_return. split_and!; [done..|].
    unfold d_Conditions. simpl. by rewrite state_MarkFalse, decide_True, Hl.
  - apply sat_bind, sat_modify, sat_return. split_and!; [done..|].
    unfold d_Conditions. simpl. by rewrite state_MarkFalse, decide_False.
Qed.
End properties.

(** ** The properties at concrete objects *)

Import ListConditions.

Definition ready_nodeset : OpenStackDataPlaneNodeSet :=
  let n := sample_nodeset in
  let s := ns_Status n in
  mkNodeSet (ns_Meta n) (ns_Spec n)
    (mkNodeSetStatus [TrueCondition SetupReadyCondition "" []] (nss_DeploymentStatuses s)
       (nss_AllHostnames s) (nss_AllIPs s) (nss_ConfigMapHashes s) (nss_SecretHashes s)
       (nss_DNSClusterAddresses s) (nss_ContainerImages s) (nss_CtlplaneSearchDomain s)
       "config-hash" (nss_DeployedConfigHash s) (nss_ObservedGeneration s) (nss_DeployedVersion s)).
(** A Deployment of one NodeSet, whose job is in the given state. *)
Definition reconcile_world (jobStatus : string) : Sim :=
  set_nodesets {[ "openstack/edpm" := ready_nodeset ]}
    (set_deployments {[ "openstack/deploy" := deployment_of "openstack" "deploy" ["edpm"] ]}
       (sample_world jobStatus)).
Definition deploy_request : NamespacedName := mkNN "openstack" "deploy".

Lemma Reconcile_deployed_witness :
  let w := reconcile_world JobStatusSucceeded in
  let instance := deployment_of "openstack" "deploy" ["edpm"] in
  ds_Deployed (d_Status (patched w instance)) = true ∧
  nodeset_deployed ["ovn"] (named_as (mkNN "openstack" "edpm") ready_nodeset) (patched w instance).
Proof.
  pose proof (Reconcile_deployed deploy_request (reconcile_world JobStatusSucceeded)
    (reconcile_world JobStatusSucceeded) (deployment_of "openstack" "deploy" ["edpm"])) as H.
  destruct H as (_ & _ & H); [vm_compute; reflexivity..|].
  assert (ds_Deployed (d_Status (patched (reconcile_world JobStatusSucceeded)
    (deployment_of "openstack" "deploy" ["edpm"]))) = true) as Hd by (vm_compute; reflexivity).
  split; [exact Hd|]. apply H in Hd as (_ & _ & Hall).
  specialize (Hall (named_as (mkNN "openstack" "edpm") ready_nodeset)). apply Hall.
  assert (fetched (mkSt (reconcile_world JobStatusSucceeded)
    (prepare (deployment_of "openstack" "deploy" ["edpm"]))) =
      [named_as (mkNN "openstack" "edpm") ready_nodeset]) as -> by (vm_compute; reflexivity).
  by left.
Defined.

(** A running job leaves the Deployment not deployed. *)
Example running_not_deployed :
  let d := patched (reconcile_world JobStatusRunning) (deployment_of "openstack" "deploy" ["edpm"]) in
  (ds_Deployed (d_Status d), status_of (d_Conditions d) ReadyCondition) = (false, Some CFalse).
Proof. vm_compute. reflexivity. Qed.

Lemma Reconcile_early_witness :
  Deployment_Reconcile deploy_request empty_sim = (Return (emptyResult, None), empty_sim).
Proof. exact (Reconcile_early deploy_request empty_sim). Defined.
