(* ===== verification/Ipam.v ===== *)
(** pkg/deployment/ipam.go: the IP reservations (IPSets) and the DNS records
    (DNSData) of the nodes of a NodeSet. *)

From Stdlib Require Import Ascii.
From stdpp Require Import base gmap strings list.
From S2P Require Import Prelude GoStd Conditions Types Fqdn Cluster Sim Webhooks Cert.

(** What is collected about the network of a NodeSet. *)
Record DNSDetails : Type := mkDNSDetails {
  dns_IsReady : bool;
  dns_ServerAddresses : list string;
  dns_ClusterAddresses : option (list string);
  dns_CtlplaneSearchDomain : string;
  dns_Hostnames : gmap string (gmap string string);
  dns_AllIPs : gmap string (gmap string string);
}.
Definition zeroDNSDetails : DNSDetails := mkDNSDetails false [] None "" ∅ ∅.

(** ** The DNS records *)

(** [strings.Split(hostName, ".")[0]] *)
Definition short_name (hostName : string) : string := hd "" (split_on "."%char hostName).

(** The networks of a node, or else of the template. *)
Definition node_networks (instance : OpenStackDataPlaneNodeSet) (node : NodeSection) : list IPSetNetwork :=
  if decide (length (n_Networks node) = 0)
  then t_Networks (ns_NodeTemplate (ns_Spec instance)) else n_Networks node.

Section records.
Context `{MR : MapRange}.

(** [m[host][net] = value], for a host whose map was made *)
Definition set_net (host net value : string) (m : gmap string (gmap string string)) :
    gmap string (gmap string string) :=
  alter (λ nets, <[net := value]> nets) host m.

(** One reservation of an IPSet. *)
Definition record_reservation (hostName : string) (acc : list DNSHost * DNSDetails)
    (res : IPSetReservation) : list DNSHost * DNSDetails :=
  let '(allDNSRecords, d) := acc in
  let ctlplaneSearchDomain := "" in
  let netLower := to_lower (r_Network res) in
  let fqdnName := join "." [short_name hostName; r_DNSDomain res] in
  let '(fqdnNames, hostnames) :=
    if decide (fqdnName ≠ hostName)
    then ([fqdnName], set_net hostName netLower fqdnName (dns_Hostnames d))
    else ([], dns_Hostnames d) in
  let '(fqdnNames, hostnames) :=
    if NodeHostNameIsFQDN hostName && bool_decide (netLower = CtlPlaneNetwork)
    then (fqdnNames ++ [hostName], set_net hostName netLower hostName hostnames)
    else (fqdnNames, hostnames) in
  let allIPs := set_net hostName netLower (r_Address res) (dns_AllIPs d) in
  let searchDomain :=
    if bool_decide (netLower = CtlPlaneNetwork) && bool_decide (ctlplaneSearchDomain = "")
    then r_DNSDomain res else dns_CtlplaneSearchDomain d in
  (allDNSRecords ++ [mkDNSHost (r_Address res) fqdnNames],
   mkDNSDetails (dns_IsReady d) (dns_ServerAddresses d) (dns_ClusterAddresses d) searchDomain
     hostnames allIPs).

(** One node. *)
Definition record_node (instance : OpenStackDataPlaneNodeSet) (allIPSets : gmap string IPSet)
    (acc : list DNSHost * DNSDetails) (node : NodeSection) : list DNSHost * DNSDetails :=
  let '(allDNSRecords, d) := acc in
  let hostName := n_HostName node in
  let d := mkDNSDetails (dns_IsReady d) (dns_ServerAddresses d) (dns_ClusterAddresses d)
    (dns_CtlplaneSearchDomain d) (<[hostName := ∅]> (dns_Hostnames d)) (<[hostName := ∅]> (dns_AllIPs d)) in
  if decide (0 < length (node_networks instance node)) then
    match allIPSets !! hostName with
    | Some ipSet => fold_left (record_reservation hostName) (ip_Reservation ipSet) (allDNSRecords, d)
    | None => (allDNSRecords, d)
    end
  else (allDNSRecords, d).

(** The nodes in the order of their names. *)
Definition sorted_nodes (instance : OpenStackDataPlaneNodeSet) : list NodeSection :=
  omap (λ name, ns_Nodes (ns_Spec instance) !! name)
    (sorted_keys "createOrPatchDNSData" (ns_Nodes (ns_Spec instance))).
Definition dns_records (instance : OpenStackDataPlaneNodeSet) (allIPSets : gmap string IPSet)
    (d : DNSDetails) : list DNSHost * DNSDetails :=
  fold_left (record_node instance allIPSets) (sorted_nodes instance)
    ([], mkDNSDetails (dns_IsReady d) (dns_ServerAddresses d) (dns_ClusterAddresses d)
           (dns_CtlplaneSearchDomain d) ∅ ∅).
End records.

Section operations.
Context {W : Type} {KC : KubeClient W} {CO : ConditionOps} {MR : MapRange}.
Abbreviation MN := (M (St W OpenStackDataPlaneNodeSet)).

Definition checkDNSService (ns : string) (dnsDetails : DNSDetails) :
    M W (DNSDetails * option Err) (DNSDetails * option Err) :=
  r ← op (ListDNSMasqs ns);
  match r with
  | Fail err => return_ (dnsDetails, Some err)
  | Ok (_ :: _ :: _) =>
      return_ (dnsDetails, Some (errors_New NodeSetDNSDataMultipleDNSMasqErrorMessage))
  | Ok [] => return_ (dnsDetails, None)
  | Ok [dnsmasq] =>
      if negb (dm_IsReady dnsmasq) then return_ (dnsDetails, None)
      else
        mret (mkDNSDetails (dns_IsReady dnsDetails) (dm_DNSAddresses dnsmasq)
                (dm_DNSClusterAddresses dnsmasq) (dns_CtlplaneSearchDomain dnsDetails)
                (dns_Hostnames dnsDetails) (dns_AllIPs dnsDetails), None)
  end.

Definition createOrPatchDNSData (instance : OpenStackDataPlaneNodeSet)
    (allIPSets : gmap string IPSet) (dnsDetails : DNSDetails) :
    M W (DNSDetails * option Err) (DNSDetails * option Err) :=
  let '(allDNSRecords, dnsDetails) := dns_records instance allIPSets dnsDetails in
  let dnsData := mkDNSData (ns_Name instance) [] "" false in
  r ← op (CreateOrPatchDNSData (ns_Namespace instance) dnsData (λ dnsData,
        SetOwnerDNSData instance (mkDNSData (dd_Name dnsData) allDNSRecords "dnsdata" (dd_IsReady dnsData))));
  match r with
  | Fail err => return_ (dnsDetails, Some err)
  | Ok _ => mret (dnsDetails, None)
  end.

Definition ns_mark {R} (f : Conditions → Conditions) : MN R () := modify_obj (ns_upd f).

(** An error of EnsureDNSData. *)
Definition dns_error {A} (message : string) (d : DNSDetails) (err : Err) : MN (DNSDetails * option Err) A :=
  _ ← ns_mark (λ cs, MarkFalse cs NodeSetDNSDataReadyCondition ErrorReason SeverityError message []);
  return_ (d, Some err).
Definition dns_waiting {A} (d : DNSDetails) : MN (DNSDetails * option Err) A :=
  _ ← ns_mark (λ cs, MarkFalse cs NodeSetDNSDataReadyCondition RequestedReason SeverityInfo
        NodeSetDNSDataReadyWaitingMessage []);
  return_ (d, None).

Definition EnsureDNSData (allIPSets : gmap string IPSet) :
    MN (DNSDetails * option Err) (DNSDetails * option Err) :=
  instance ← get_obj;
  r ← on_world (checkDNSService (ns_Namespace instance) zeroDNSDetails);
  let '(dnsDetails, err) := r in
  _ ← match err with Some err => dns_error (Error err) dnsDetails err | None => mret () end;
  _ ← (if decide (dns_ClusterAddresses dnsDetails = None) then dns_waiting dnsDetails else mret ());
  r ← on_world (createOrPatchDNSData instance allIPSets dnsDetails);
  let '(dnsDetails, err) := r in
  _ ← match err with
      | Some err => dns_error NodeSetDNSDataReadyErrorMessage dnsDetails err
      | None => mret ()
      end;
  r ← on_world (op (GetDNSData (mkNN (ns_Namespace instance) (ns_Name instance))));
  match r with
  | Fail err => dns_error NodeSetDNSDataReadyErrorMessage dnsDetails err
  | Ok dnsData =>
      if negb (dd_IsReady dnsData) then dns_waiting dnsDetails
      else
        _ ← ns_mark (λ cs, MarkTrue cs NodeSetDNSDataReadyCondition NodeSetDNSDataReadyMessage []);
        mret (mkDNSDetails true (dns_ServerAddresses dnsDetails) (dns_ClusterAddresses dnsDetails)
                (dns_CtlplaneSearchDomain dnsDetails) (dns_Hostnames dnsDetails) (dns_AllIPs dnsDetails),
              None)
  end.

(** ** IP reservations *)

Abbreviation IPSets := (gmap string IPSet).

(** The reservation of one node. *)
Definition reserve_node (instance : OpenStackDataPlaneNodeSet) (allIPSets : IPSets)
    (entry : string * NodeSection) : M W (result IPSets) IPSets :=
  let '(nodeName, node) := entry in
  let nets := node_networks instance node in
  if decide (0 < length nets) then
    r ← op (CreateOrPatchIPSet (ns_Namespace instance) (mkIPSet (n_HostName node) [] [] [])
          (λ ipSet, SetOwnerIPSet instance
             (mkIPSet (ip_Name ipSet) nets (ip_Reservation ipSet) (ip_Conditions ipSet))));
    match r with
    | Fail err => return_ (Fail err)
    | Ok ipSet => mret (<[n_HostName node := ipSet]> allIPSets)
    end
  else
    return_ (Fail (Errorf (sprintf "No Networks defined for node %s or template" [nodeName]) [])).

Definition reserveIPs (instance : OpenStackDataPlaneNodeSet) : M W (result IPSets) (result IPSets) :=
  r ← op (ListNetConfigs (ns_Namespace instance));
  match r with
  | Fail err => return_ (Fail err)
  | Ok [] => return_ (Fail (Errorf "No NetConfig CR exists yet" []))
  | Ok (_ :: _) =>
      allIPSets ← for_acc (range "reserveIPs" (ns_Nodes (ns_Spec instance))) (reserve_node instance) ∅;
      mret (Ok allIPSets)
  end.

(** The answer: the IPSets, whether they are ready, an error. *)
Definition EnsureIPSets :
    MN (IPSets * bool * option Err) (IPSets * bool * option Err) :=
  instance ← get_obj;
  r ← on_world (reserveIPs instance);
  match r with
  | Fail err =>
      _ ← ns_mark (λ cs, MarkFalse cs NodeSetIPReservationReadyCondition ErrorReason SeverityError
            NodeSetIPReservationReadyErrorMessage []);
      return_ (∅, false, Some err)
  | Ok allIPSets =>
      _ ← for_each (range_values "EnsureIPSets" allIPSets) (λ s,
        if cond_is_false (ip_Conditions s) ReadyCondition then
          _ ← ns_mark (λ cs, MarkFalse cs NodeSetIPReservationReadyCondition RequestedReason
                SeverityInfo NodeSetIPReservationReadyWaitingMessage []);
          return_ (∅, false, None)
        else mret ());
      _ ← ns_mark (λ cs, MarkTrue cs NodeSetIPReservationReadyCondition
            NodeSetIPReservationReadyMessage []);
      mret (allIPSets, true, None)
  end.
End operations.

(** ** Facts about the records *)

#[local] Arguments record_reservation : simpl never.
#[local] Arguments record_node : simpl never.

Section record_facts.
Context `{MR : MapRange} {MRL : MapRangeLaws MR}.

(** [m[host][net]], read from a Go map of maps *)
Definition lookup2 (m : gmap string (gmap string string)) (host net : string) : option string :=
  nets ← m !! host; nets !! net.

Lemma set_net_present host net v m h : is_Some (m !! h) → is_Some (set_net host net v m !! h).
Proof. unfold set_net. by rewrite lookup_alter_is_Some. Qed.
Lemma lookup2_set_net host net v m net' :
  is_Some (m !! host) →
  lookup2 (set_net host net v m) host net' = if decide (net' = net) then Some v else lookup2 m host net'.
Proof.
  intros [nets Hn]. unfold lookup2, set_net. rewrite lookup_alter_eq, Hn. simpl. case_decide as Hd.
  - subst. apply lookup_insert_eq.
  - by apply lookup_insert_ne.
Qed.
Lemma set_net_other host net v m h : h ≠ host → set_net host net v m !! h = m !! h.
Proof. intros. by apply lookup_alter_ne. Qed.

(** The name of a host on the network of a reservation: on the control
    plane, a fully qualified host name is kept; elsewhere the short name is
    put under the domain of the network. *)
Definition network_host (hostName : string) (res : IPSetReservation) : option string :=
  let fqdnName := join "." [short_name hostName; r_DNSDomain res] in
  if NodeHostNameIsFQDN hostName && bool_decide (to_lower (r_Network res) = CtlPlaneNetwork)
  then Some hostName
  else if decide (fqdnName ≠ hostName) then Some fqdnName else None.

(** The maps of a host are there. *)
Definition host_known (host : string) (d : DNSDetails) : Prop :=
  is_Some (dns_Hostnames d !! host) ∧ is_Some (dns_AllIPs d !! host).

Lemma record_reservation_facts host records d res :
  host_known host d →
  let d' := (record_reservation host (records, d) res).2 in
  host_known host d' ∧
  (∀ net, lookup2 (dns_AllIPs d') host net =
     if decide (net = to_lower (r_Network res)) then Some (r_Address res)
     else lookup2 (dns_AllIPs d) host net) ∧
  (∀ net, lookup2 (dns_Hostnames d') host net =
     if decide (net = to_lower (r_Network res))
     then match network_host host res with Some h => Some h | None => lookup2 (dns_Hostnames d) host net end
     else lookup2 (dns_Hostnames d) host net) ∧
  (∀ h, h ≠ host → dns_Hostnames d' !! h = dns_Hostnames d !! h ∧ dns_AllIPs d' !! h = dns_AllIPs d !! h).
Proof.
  intros [Hh Ha]. unfold record_reservation, network_host. cbv zeta.
  destruct (decide (_ ≠ host)) as [Hne|Heq]; destruct (_ && bool_decide (_ = CtlPlaneNetwork));
    cbn -[set_net]; unfold host_known; cbn -[set_net];
    (split_and!; [auto using set_net_present|auto using set_net_present| | |]);
    intros; rewrite ?lookup2_set_net, ?set_net_other by auto using set_net_present;
    try done; repeat case_decide; congruence.
Qed.

Lemma record_reservations_facts host l records d :
  host_known host d → NoDup ((λ res, to_lower (r_Network res)) <$> l) →
  (∀ net, net ∈ ((λ res, to_lower (r_Network res)) <$> l) → lookup2 (dns_Hostnames d) host net = None) →
  let d' := (fold_left (record_reservation host) l (records, d)).2 in
  (∀ res, res ∈ l →
     lookup2 (dns_AllIPs d') host (to_lower (r_Network res)) = Some (r_Address res) ∧
     lookup2 (dns_Hostnames d') host (to_lower (r_Network res)) = network_host host res) ∧
  (∀ net, net ∉ ((λ res, to_lower (r_Network res)) <$> l) →
     lookup2 (dns_AllIPs d') host net = lookup2 (dns_AllIPs d) host net ∧
     lookup2 (dns_Hostnames d') host net = lookup2 (dns_Hostnames d) host net) ∧
  (∀ h, h ≠ host → dns_Hostnames d' !! h = dns_Hostnames d !! h ∧ dns_AllIPs d' !! h = dns_AllIPs d !! h).
Proof.
  revert records d. induction l as [|res l IH]; intros records d Hk Hnd Hnone; simpl.
  { split_and!; [by intros ? ?%not_elem_of_nil|done|done]. }
  rewrite fmap_cons, NoDup_cons in Hnd. destruct Hnd as [Hn Hnd]. cbv beta in Hn.
  destruct (record_reservation_facts host records d res Hk) as (Hk' & Hips & Hnames & Hother).
  destruct (record_reservation host (records, d) res) as [records' d1]. cbn [snd] in *.
  destruct (IH records' d1 Hk' Hnd) as (Hin & Hout & Ho).
  { intros net Hnet. rewrite Hnames, decide_False by congruence.
    apply Hnone. by right. }
  split_and!.
  - intros res' [->|Hres']%elem_of_cons; [|by apply Hin].
    destruct (Hout (to_lower (r_Network res)) Hn) as [-> ->]. rewrite Hips, Hnames, !decide_True by done.
    split; [done|]. destruct (network_host host res); [done|]. apply Hnone. left.
  - intros net Hnet. apply not_elem_of_cons in Hnet as [Hne Hnet].
    destruct (Hout net Hnet) as [-> ->]. by rewrite Hips, Hnames, !decide_False.
  - intros h Hh. destruct (Ho h Hh) as [-> ->]. by apply Hother.
Qed.

Lemma record_node_other instance ips records d node h :
  h ≠ n_HostName node →
  let d' := (record_node instance ips (records, d) node).2 in
  dns_Hostnames d' !! h = dns_Hostnames d !! h ∧ dns_AllIPs d' !! h = dns_AllIPs d !! h.
Proof.
  intros Hh. unfold record_node. cbv zeta.
  assert (∀ l records d0, host_known (n_HostName node) d0 →
    let d' := (fold_left (record_reservation (n_HostName node)) l (records, d0)).2 in
    dns_Hostnames d' !! h = dns_Hostnames d0 !! h ∧ dns_AllIPs d' !! h = dns_AllIPs d0 !! h) as Hfold.
  { intros l. induction l as [|res l IH]; intros recs d0 Hk; [done|]. simpl.
    destruct (record_reservation_facts (n_HostName node) recs d0 res Hk) as (Hk' & _ & _ & Ho).
    destruct (record_reservation _ (recs, d0) res) as [recs' d1]. cbn [snd] in *.
    destruct (IH recs' d1 Hk') as [-> ->]. by apply Ho. }
  destruct (decide _); [destruct (ips !! _)|]; simpl; rewrite ?lookup_insert_ne by done; try done.
  edestruct Hfold as [-> ->].
  - split; simpl; rewrite lookup_insert_eq; eauto.
  - simpl. by rewrite !lookup_insert_ne.
Qed.

Lemma elem_of_sorted_nodes instance node :
  node ∈ sorted_nodes instance ↔ ∃ name, ns_Nodes (ns_Spec instance) !! name = Some node.
Proof.
  unfold sorted_nodes. rewrite list_elem_of_omap. split; [naive_solver|].
  intros [name Hn]. exists name. split; [|done]. apply elem_of_sorted_keys. eauto.
Qed.

(** The later nodes leave a host alone. *)
Lemma record_nodes_other instance ips l acc h :
  h ∉ (n_HostName <$> l) →
  let d' := (fold_left (record_node instance ips) l acc).2 in
  dns_Hostnames d' !! h = dns_Hostnames acc.2 !! h ∧ dns_AllIPs d' !! h = dns_AllIPs acc.2 !! h.
Proof.
  revert acc. induction l as [|node l IH]; intros [records d] Hh; [done|].
  rewrite fmap_cons, not_elem_of_cons in Hh. destruct Hh as [Hne Hh].
  change (fold_left ?f (node :: l) ?a) with (fold_left f l (f a node)). cbv zeta.
  destruct (IH (record_node instance ips (records, d) node) Hh) as [-> ->].
  by apply record_node_other.
Qed.

Lemma sorted_nodes_hosts instance :
  distinct_hosts (ns_Nodes (ns_Spec instance)) → NoDup (n_HostName <$> sorted_nodes instance).
Proof.
  intros Hd. unfold sorted_nodes.
  pose proof (sorted_keys_NoDup "createOrPatchDNSData" (ns_Nodes (ns_Spec instance))) as Hnd.
  induction (sorted_keys _ _) as [|k ks IH]; [constructor|]. rewrite NoDup_cons in Hnd.
  destruct Hnd as [Hk Hnd]. simpl. destruct (_ !! k) as [node|] eqn:Hn; [|auto].
  rewrite fmap_cons, NoDup_cons. split; [|auto].
  rewrite list_elem_of_fmap. intros (node' & Heq & Hin).
  apply list_elem_of_omap in Hin as (k' & Hk' & Hn').
  assert (k = k') as -> by (by eapply Hd). done.
Qed.
End record_facts.

(** ** What the conditions of a NodeSet are changed by *)

Section same_but.
Context {CO : ConditionOps}.

(** Only conditions changed, and of those only the listed types. *)
Definition same_but (types : list string) (n n' : OpenStackDataPlaneNodeSet) : Prop :=
  n' = ns_upd (λ _, ns_Conditions n') n ∧
  ∀ t, t ∉ types → status_of (ns_Conditions n') t = status_of (ns_Conditions n) t.

#[export] Instance same_but_preorder types : PreOrder (same_but types).
Proof.
  split.
  - intros [m s []]. by split.
  - intros n1 n2 n3 [H1 H2] [K1 K2]. split.
    + rewrite K1, H1 at 1. done.
    + intros t Ht. by rewrite K2, H2.
Qed.
Lemma same_but_weaken types types' n n' : types ⊆ types' → same_but types n n' → same_but types' n n'.
Proof. intros Hs [H1 H2]. split; [done|]. intros t Ht. apply H2. set_solver. Qed.

Context {CL : ConditionLaws CO}.
Lemma same_but_MarkTrue t m a n : same_but [t] n (ns_upd (λ cs, MarkTrue cs t m a) n).
Proof.
  split; [done|]. intros t' Ht. unfold ns_Conditions. simpl.
  rewrite status_MarkTrue, decide_False by set_solver. done.
Qed.
Lemma same_but_MarkFalse t r s m a n : same_but [t] n (ns_upd (λ cs, MarkFalse cs t r s m a) n).
Proof.
  split; [done|]. intros t' Ht. unfold ns_Conditions. simpl.
  rewrite status_MarkFalse, decide_False by set_solver. done.
Qed.
Lemma same_but_MarkUnknown t r m a n : same_but [t] n (ns_upd (λ cs, MarkUnknown cs t r m a) n).
Proof.
  split; [done|]. intros t' Ht. unfold ns_Conditions. simpl.
  rewrite status_MarkUnknown, decide_False by set_solver. done.
Qed.

Lemma status_ns_MarkTrue t m a n :
  status_of (ns_Conditions (ns_upd (λ cs, MarkTrue cs t m a) n)) t = Some CTrue.
Proof. unfold ns_Conditions. simpl. by rewrite status_MarkTrue, decide_True. Qed.
Lemma status_ns_MarkFalse t r s m a n :
  status_of (ns_Conditions (ns_upd (λ cs, MarkFalse cs t r s m a) n)) t = Some CFalse.
Proof. unfold ns_Conditions. simpl. by rewrite status_MarkFalse, decide_True. Qed.
End same_but.
#[export] Hint Resolve same_but_MarkTrue same_but_MarkFalse same_but_MarkUnknown
  status_ns_MarkTrue status_ns_MarkFalse : cond.

(** ** Properties *)

Section properties.
Context {W : Type} {KC : KubeClient W} {CO : ConditionOps} {CL : ConditionLaws CO}.
Context {MR : MapRange} {MRL : MapRangeLaws MR}.

(** C23. When the nodes of a NodeSet have distinct host names, the node has
    networks (of its own or of the template), and the reservations of its
    host are on distinct networks (in lower case), then
    after the DNS records are built the host has, for each reservation, the
    reserved address under that network, and the host name [network_host]
    gives (the host name itself on the control plane when it is fully
    qualified, otherwise its short name in the domain of the network). *)
Theorem dns_records_spec (instance : OpenStackDataPlaneNodeSet) (allIPSets : gmap string IPSet)
    (d : DNSDetails) (name : string) (node : NodeSection) (ipSet : IPSet) (res : IPSetReservation) :
  distinct_hosts (ns_Nodes (ns_Spec instance)) →
  ns_Nodes (ns_Spec instance) !! name = Some node →
  node_networks instance node ≠ [] →
  allIPSets !! n_HostName node = Some ipSet →
  NoDup ((λ res, to_lower (r_Network res)) <$> ip_Reservation ipSet) →
  res ∈ ip_Reservation ipSet →
  let d' := (dns_records instance allIPSets d).2 in
  let net := to_lower (r_Network res) in
  lookup2 (dns_AllIPs d') (n_HostName node) net = Some (r_Address res) ∧
  lookup2 (dns_Hostnames d') (n_HostName node) net = network_host (n_HostName node) res.
Proof.
  intros Hdist Hnode Hnets Hip Hnd Hres d' net. unfold d', dns_records.
  destruct (list_elem_of_split (sorted_nodes instance) node) as (before & after & Heq);
    [apply elem_of_sorted_nodes; eauto|].
  pose proof (sorted_nodes_hosts instance Hdist) as Hh. rewrite Heq, fmap_app, fmap_cons in Hh.
  rewrite Heq, fold_left_app.
  change (fold_left ?f (node :: after) ?a) with (fold_left f after (f a node)).
  apply NoDup_app in Hh as (_ & _ & Hh). apply NoDup_cons in Hh as [Hh _].
  set (acc := fold_left _ before _). unfold lookup2.
  destruct (record_nodes_other instance allIPSets after (record_node instance allIPSets acc node) _ Hh)
    as [-> ->].
  destruct acc as [records d0]. unfold record_node. cbv zeta.
  rewrite decide_True by (destruct (node_networks instance node); simpl; [done|lia]). rewrite Hip.
  match goal with |- context [fold_left _ _ (_, ?d1)] => set (d1' := d1) end.
  destruct (record_reservations_facts (n_HostName node) (ip_Reservation ipSet) records d1') as (H & _ & _);
    [|done| |by apply H].
  - split; simpl; rewrite lookup_insert_eq; eauto.
  - intros n _. unfold lookup2. simpl. by rewrite lookup_insert_eq.
Qed.

(** The request for the IPSet of a node, with the networks of the node. *)
Definition ipset_request (instance : OpenStackDataPlaneNodeSet) (node : NodeSection) : W → W * result IPSet :=
  CreateOrPatchIPSet (ns_Namespace instance) (mkIPSet (n_HostName node) [] [] [])
    (λ ipSet, SetOwnerIPSet instance
       (mkIPSet (ip_Name ipSet) (node_networks instance node) (ip_Reservation ipSet) (ip_Conditions ipSet))).
(** Every node has an IPSet under its host name, and every IPSet is what the
    API server answered to the request for a node of that name. *)
Definition reserved_for (instance : OpenStackDataPlaneNodeSet) (nodes : list (string * NodeSection))
    (ips : gmap string IPSet) : Prop :=
  (∀ name node, (name, node) ∈ nodes → node_networks instance node ≠ [] ∧ is_Some (ips !! n_HostName node)) ∧
  ∀ host ip, ips !! host = Some ip → ∃ name node w w', (name, node) ∈ nodes ∧ n_HostName node = host ∧
    ipset_request instance node w = (w', Ok ip).

Lemma reserve_loop instance l (w : W) :
  sat (for_acc l (reserve_node instance) ∅) w (λ o _, match o with
    | Next ips => reserved_for instance l ips
    | Return r => ∃ err, r = Fail err
    | Panic => False
    end).
Proof.
  apply sat_for_acc with (I := λ rest ips _, ∃ done, l = done ++ rest ∧ reserved_for instance done ips).
  - exists []. split; [done|]. split; [by intros ?? ?%not_elem_of_nil|by intros ?? [=]].
  - intros [name node] rest ips w1 _ (done & -> & Hd & Ha). unfold reserve_node. cbv zeta.
    case_decide as Hn; [|apply sat_return; eauto].
    apply sat_bind, sat_op. fold (ipset_request instance node).
    destruct (ipset_request instance node w1) as [w2 [ip|err]] eqn:Hreq; simpl; [|apply sat_return; eauto].
    apply sat_ret. exists (done ++ [(name, node)]). split; [by rewrite <- app_assoc|]. split.
    + intros name' node' [Hin|[= -> ->]%list_elem_of_singleton]%elem_of_app; rewrite lookup_insert_is_Some'.
      * destruct (Hd _ _ Hin) as [Hnets ?]. auto.
      * split; [|by left]. intros He. rewrite He in Hn. simpl in Hn. lia.
    + intros host ip' [[<- <-]|[_ Hip]]%lookup_insert_Some.
      * exists name, node, w1, w2. split_and!; [|done..]. apply elem_of_app. right. left.
      * destruct (Ha _ _ Hip) as (name' & node' & v & v' & Hin & ? & ?).
        exists name', node', v, v'. split_and!; [|done..]. apply elem_of_app. by left.
  - intros ips w1 (done & -> & Hd). by rewrite app_nil_r.
Qed.

(** What [reserveIPs] answers, and without a panic. *)
Lemma reserveIPs_run instance (w : W) :
  match run (reserveIPs instance) w with
  | Some (Ok ips) => reserved_for instance (range "reserveIPs" (ns_Nodes (ns_Spec instance))) ips
  | Some (Fail _) => True
  | None => False
  end.
Proof.
  assert (sat (reserveIPs instance) w (λ o _, match o with
    | Next (Ok ips) | Return (Ok ips) => reserved_for instance (range "reserveIPs" (ns_Nodes (ns_Spec instance))) ips
    | Panic => False
    | _ => True
    end)) as H.
  { unfold reserveIPs. apply sat_bind, sat_op. destruct (ListNetConfigs _ w) as [w1 [[|]|]]; simpl;
      try (by apply sat_return).
    apply sat_bind. eapply sat_mono; [apply reserve_loop|]. intros [ips|r|] w2; [..|done].
    - intros Hall. by apply sat_ret.
    - by intros [err ->]. }
  unfold sat in H. unfold run. by destruct (fst (reserveIPs instance w)) as [[?|?]|[?|?]|].
Qed.
Lemma reserved_nodes instance ips :
  reserved_for instance (range "reserveIPs" (ns_Nodes (ns_Spec instance))) ips →
  ∀ name node, ns_Nodes (ns_Spec instance) !! name = Some node → is_Some (ips !! n_HostName node).
Proof. intros [H _] name node Hn. by apply (H name node), elem_of_range. Qed.

(** No IPSet has a False Ready condition. *)
Definition none_waits (ips : gmap string IPSet) : Prop :=
  map_Forall (λ _ ip, cond_is_false (ip_Conditions ip) ReadyCondition = false) ips.

Lemma EnsureIPSets_answer (s : St W OpenStackDataPlaneNodeSet) :
  sat EnsureIPSets s (λ o s',
    same_but [NodeSetIPReservationReadyCondition] (obj s) (obj s') ∧
    let status := status_of (ns_Conditions (obj s')) NodeSetIPReservationReadyCondition in
    match run (reserveIPs (obj s)) (world s) with
    | Some (Ok ips) =>
        reserved_for (obj s) (range "reserveIPs" (ns_Nodes (ns_Spec (obj s)))) ips ∧
        ((none_waits ips ∧ o = Next (ips, true, None) ∧ status = Some CTrue) ∨
         (¬ none_waits ips ∧ o = Return (∅, false, None) ∧ status = Some CFalse))
    | Some (Fail err) => o = Return (∅, false, Some err) ∧ status = Some CFalse
    | None => False
    end).
Proof.
  unfold EnsureIPSets, ns_mark. apply sat_bind, sat_gets, sat_bind, sat_on_world_run.
  pose proof (reserveIPs_run (obj s) (world s)) as Hr.
  destruct (run _ _) as [[ips|err]|]; [..|done].
  2:{ apply sat_bind, sat_modify, sat_return. cbn [obj]. auto with cond. }
  apply sat_bind, (sat_checks (λ ip, negb (cond_is_false (ip_Conditions ip) ReadyCondition))).
  - intros ip s' Hb%negb_true_iff. by rewrite Hb.
  - intros Hall. apply sat_bind, sat_modify, sat_ret. cbn [obj]. split; [auto with cond|]. split; [done|].
    left. split_and!; [|done|auto with cond]. intros host ip Hip.
    apply negb_true_iff, Hall, elem_of_range_values. eauto.
  - intros ip Hin Hb%negb_false_iff. rewrite Hb. apply sat_bind, sat_modify, sat_return.
    cbn [obj]. split; [auto with cond|]. split; [done|]. right. split_and!; [|done|auto with cond].
    apply elem_of_range_values in Hin as [host Hip]. intros Hn. specialize (Hn host ip Hip). simpl in Hn. congruence.
Qed.

(** What the reconciliation needs of it. *)
Lemma EnsureIPSets_sat (s : St W OpenStackDataPlaneNodeSet) :
  sat EnsureIPSets s (λ o s',
    same_but [NodeSetIPReservationReadyCondition] (obj s) (obj s') ∧
    match o with
    | Next r => ∃ ips, r = (ips, true, None) ∧
        status_of (ns_Conditions (obj s')) NodeSetIPReservationReadyCondition = Some CTrue ∧
        (∀ name node, ns_Nodes (ns_Spec (obj s)) !! name = Some node → is_Some (ips !! n_HostName node))
    | Return r => ∃ err, r = (∅, false, err) ∧
        status_of (ns_Conditions (obj s')) NodeSetIPReservationReadyCondition = Some CFalse
    | Panic => False
    end).
Proof.
  eapply sat_mono; [apply EnsureIPSets_answer|]. intros o s' [Hs H]. split; [exact Hs|].
  destruct (run _ _) as [[ips|err]|]; [|destruct H as [-> ?]; eauto|done].
  destruct H as (Hr & [(_ & -> & ?)|(_ & -> & ?)]); [|eauto]. exists ips. split_and!; [done..|]. by apply reserved_nodes.
Qed.


(** What building the records leaves of the details. *)
Lemma dns_records_kept instance ips d :
  let d' := (dns_records instance ips d).2 in
  dns_IsReady d' = dns_IsReady d ∧ dns_ClusterAddresses d' = dns_ClusterAddresses d.
Proof.
  set (kept := λ d d' : DNSDetails, dns_IsReady d' = dns_IsReady d ∧
    dns_ClusterAddresses d' = dns_ClusterAddresses d).
  assert (∀ host acc res, kept acc.2 (record_reservation host acc res).2) as Hres.
  { intros host [records d0] res. unfold kept, record_reservation. cbv zeta.
    destruct (decide (_ ≠ host)); by destruct (_ && bool_decide (_ = CtlPlaneNetwork)). }
  assert (∀ acc node, kept acc.2 (record_node instance ips acc node).2) as Hnode.
  { intros [records d0] node. unfold record_node. cbv zeta.
    destruct (decide _); [destruct (ips !! _) as [ip|]|]; [|done..].
    match goal with |- kept _ (fold_left _ _ (_, ?d2)).2 => set (d1 := d2) end.
    change (kept d1 (fold_left (record_reservation (n_HostName node)) (ip_Reservation ip) (records, d1)).2).
    change d1 with (records, d1).2 at 1. generalize (records, d1).
    induction (ip_Reservation ip) as [|res rest IH]; intros acc; [done|]. simpl.
    destruct (IH (record_reservation (n_HostName node) acc res)), (Hres (n_HostName node) acc res).
    split; congruence. }
  intros d'. unfold d', dns_records. clear d'.
  match goal with |- context [fold_left _ _ ?a] =>
    enough (kept a.2 (fold_left (record_node instance ips) (sorted_nodes instance) a).2) as Hk
      by exact Hk; generalize a end.
  induction (sorted_nodes instance) as [|node nodes IH]; intros acc; [done|]. simpl.
  destruct (IH (record_node instance ips acc node)), (Hnode acc node). split; congruence.
Qed.

(** *** The steps of [EnsureDNSData] *)

Section dns_steps.
Context (instance : OpenStackDataPlaneNodeSet) (allIPSets : gmap string IPSet).

(** The DNS service of the namespace: there is one, it is ready, and it has
    cluster addresses. *)
Definition dns_serves (w w' : W) (dnsmasq : DNSMasq) : Prop :=
  ListDNSMasqs (ns_Namespace instance) w = (w', Ok [dnsmasq]) ∧ dm_IsReady dnsmasq = true ∧
  is_Some (dm_DNSClusterAddresses dnsmasq).
(** There is no such service yet, but at most one. *)
Definition dns_not_serving (w : W) : Prop :=
  ∃ l, (ListDNSMasqs (ns_Namespace instance) w).2 = Ok l ∧ length l ≤ 1 ∧
    ∀ dnsmasq, dnsmasq ∈ l → dm_IsReady dnsmasq = true → dm_DNSClusterAddresses dnsmasq = None.

(** The details the service gives, and what the records add to them. *)
Definition service_details (dnsmasq : DNSMasq) : DNSDetails :=
  mkDNSDetails false (dm_DNSAddresses dnsmasq) (dm_DNSClusterAddresses dnsmasq) "" ∅ ∅.
Definition recorded_details (dnsmasq : DNSMasq) : DNSDetails :=
  (dns_records instance allIPSets (service_details dnsmasq)).2.
(** The records are written to the DNSData of the NodeSet. *)
Definition write_records (dnsmasq : DNSMasq) : W → W * result DNSData :=
  CreateOrPatchDNSData (ns_Namespace instance) (mkDNSData (ns_Name instance) [] "" false)
    (λ dnsData, SetOwnerDNSData instance
       (mkDNSData (dd_Name dnsData) (dns_records instance allIPSets (service_details dnsmasq)).1
          "dnsdata" (dd_IsReady dnsData))).
Definition read_dnsdata : W → W * result DNSData :=
  GetDNSData (mkNN (ns_Namespace instance) (ns_Name instance)).

(** Served, written, and read back in this state. *)
Definition dns_written (w w' : W) (dnsmasq : DNSMasq) (dnsData : DNSData) : Prop :=
  ∃ w1 w2 written, dns_serves w w1 dnsmasq ∧ write_records dnsmasq w1 = (w2, Ok written) ∧
    read_dnsdata w2 = (w', Ok dnsData).
(** What went wrong. *)
Definition dns_failed (w : W) (err : Err) : Prop :=
  (ListDNSMasqs (ns_Namespace instance) w).2 = Fail err ∨
  (∃ l, (ListDNSMasqs (ns_Namespace instance) w).2 = Ok l ∧ 2 ≤ length l ∧
     err = errors_New NodeSetDNSDataMultipleDNSMasqErrorMessage) ∨
  ∃ dnsmasq w1, dns_serves w w1 dnsmasq ∧
    ((write_records dnsmasq w1).2 = Fail err ∨
     ∃ w2 written, write_records dnsmasq w1 = (w2, Ok written) ∧ (read_dnsdata w2).2 = Fail err).

Lemma checkDNSService_run (w : W) :
  match run (checkDNSService (ns_Namespace instance) zeroDNSDetails) w with
  | Some (d, Some err) => d = zeroDNSDetails ∧ dns_failed w err
  | Some (d, None) => (dns_not_serving w ∧ dns_ClusterAddresses d = None ∧ dns_IsReady d = false) ∨
      ∃ dnsmasq, dns_serves w (checkDNSService (ns_Namespace instance) zeroDNSDetails w).2 dnsmasq ∧
        d = service_details dnsmasq
  | None => False
  end.
Proof.
  unfold dns_failed, dns_not_serving, dns_serves, run, checkDNSService, op, mbind, M_bind.
  destruct (ListDNSMasqs _ w) as [w1 [[|m [|m2 l]]|err]]; simpl.
  - left. split; [|done]. exists []. split_and!; [done|simpl; lia|by intros ? ?%not_elem_of_nil].
  - destruct (dm_IsReady m) eqn:Hm; simpl.
    + destruct (dm_DNSClusterAddresses m) as [c|] eqn:Hc.
      * right. exists m. unfold service_details. rewrite Hc. split_and!; [done|done|by eexists|done].
      * left. split; [|done]. exists [m]. split_and!; [done|simpl; lia|].
        by intros m' ->%list_elem_of_singleton.
    + left. split; [|done]. exists [m]. split_and!; [done|simpl; lia|].
      intros m' ->%list_elem_of_singleton. congruence.
  - split; [done|]. right. left. eexists. split_and!; [done|simpl; lia|done].
  - split; [done|]. by left.
Qed.

Lemma createOrPatchDNSData_run dnsmasq (w : W) :
  createOrPatchDNSData instance allIPSets (service_details dnsmasq) w =
    let '(w', r) := write_records dnsmasq w in
    match r with
    | Fail err => (Return (recorded_details dnsmasq, Some err), w')
    | Ok _ => (Next (recorded_details dnsmasq, None), w')
    end.
Proof.
  unfold createOrPatchDNSData, write_records, recorded_details.
  destruct (dns_records _ _ _) as [records d]. unfold op, mbind, M_bind. simpl.
  by destruct (CreateOrPatchDNSData _ _ _ w) as [w1 [?|?]].
Qed.

(** The details are ready. *)
Definition make_ready (d : DNSDetails) : DNSDetails :=
  mkDNSDetails true (dns_ServerAddresses d) (dns_ClusterAddresses d) (dns_CtlplaneSearchDomain d)
    (dns_Hostnames d) (dns_AllIPs d).
End dns_steps.

Lemma EnsureDNSData_answer (allIPSets : gmap string IPSet) (s : St W OpenStackDataPlaneNodeSet) :
  sat (EnsureDNSData allIPSets) s (λ o s',
    same_but [NodeSetDNSDataReadyCondition] (obj s) (obj s') ∧
    let status := status_of (ns_Conditions (obj s')) NodeSetDNSDataReadyCondition in
    match o with
    | Next (d, err) => err = None ∧ status = Some CTrue ∧
        ∃ dnsmasq dnsData, dns_written (obj s) allIPSets (world s) (world s') dnsmasq dnsData ∧
          dd_IsReady dnsData = true ∧ d = make_ready (recorded_details (obj s) allIPSets dnsmasq)
    | Return (d, err) => dns_IsReady d = false ∧ status = Some CFalse ∧
        match err with
        | Some err => dns_failed (obj s) allIPSets (world s) err
        | None => dns_not_serving (obj s) (world s) ∨
            ∃ dnsmasq dnsData, dns_written (obj s) allIPSets (world s) (world s') dnsmasq dnsData ∧
              dd_IsReady dnsData = false
        end
    | Panic => False
    end).
Proof.
  unfold EnsureDNSData, dns_error, dns_waiting, ns_mark. apply sat_bind, sat_gets, sat_bind, sat_on_world_run.
  pose proof (checkDNSService_run (obj s) allIPSets (world s)) as Hc.
  destruct (run _ (world s)) as [[d [err|]]|]; [..|done].
  { destruct Hc as [-> Hc]. apply sat_bind, sat_bind, sat_modify, sat_return. cbn [obj]. auto with cond. }
  apply sat_bind, sat_ret, sat_bind. destruct Hc as [(Hc & Hnone & Hd)|(m & Hm & ->)].
  { rewrite decide_True by done. apply sat_bind, sat_modify, sat_return. cbn [obj].
    split; [auto with cond|]. split_and!; [done|auto with cond|by left]. }
  assert (dns_ClusterAddresses (service_details m) ≠ None) as Hca.
  { destruct Hm as (_ & _ & [c Hm]). simpl. by rewrite Hm. }
  assert (dns_IsReady (recorded_details (obj s) allIPSets m) = false) as Hready by apply dns_records_kept.
  rewrite decide_False by done. apply sat_ret, sat_bind, sat_on_world. cbn [obj world].
  set (w1 := (checkDNSService _ _ _).2) in *. unfold sat. rewrite createOrPatchDNSData_run.
  destruct (write_records (obj s) allIPSets m w1) as [w2 [written|err]] eqn:Hw; cbn [fst snd];
    apply sat_bind.
  2:{ apply sat_bind, sat_modify, sat_return. cbn [obj]. split; [auto with cond|].
      split_and!; [done|auto with cond|]. right. right. exists m, w1. split; [done|]. left. by rewrite Hw. }
  apply sat_ret, sat_bind, sat_on_world, sat_op. cbn [obj world]. fold (read_dnsdata (obj s)).
  destruct (read_dnsdata (obj s) w2) as [w3 [dnsData|err]] eqn:Hg; cbn [fst snd].
  2:{ apply sat_bind, sat_modify, sat_return. cbn [obj]. split; [auto with cond|].
      split_and!; [done|auto with cond|]. right. right. exists m, w1. split; [done|]. right.
      exists w2, written. by rewrite Hg. }
  assert (dns_written (obj s) allIPSets (world s) w3 m dnsData) as Hwritten by (by exists w1, w2, written).
  destruct (dd_IsReady dnsData) eqn:Hr; simpl.
  - apply sat_bind, sat_modify, sat_ret. cbn [obj]. split; [auto with cond|].
    split_and!; [done|auto with cond|by exists m, dnsData].
  - apply sat_bind, sat_modify, sat_return. cbn [obj]. split; [auto with cond|].
    split_and!; [done|auto with cond|]. right. by exists m, dnsData.
Qed.

(** What the reconciliation needs of it. *)
Lemma EnsureDNSData_sat (allIPSets : gmap string IPSet) (s : St W OpenStackDataPlaneNodeSet) :
  sat (EnsureDNSData allIPSets) s (λ o s',
    same_but [NodeSetDNSDataReadyCondition] (obj s) (obj s') ∧
    match o with
    | Next (d, err) => err = None ∧ dns_IsReady d = true ∧
        status_of (ns_Conditions (obj s')) NodeSetDNSDataReadyCondition = Some CTrue
    | Return (d, err) => dns_IsReady d = false ∧
        status_of (ns_Conditions (obj s')) NodeSetDNSDataReadyCondition = Some CFalse
    | Panic => False
    end).
Proof.
  eapply sat_mono; [apply EnsureDNSData_answer|]. intros [[d err]|[d err]|] s' [Hs H]; cbv zeta in H; (split; [exact Hs|]); [|naive_solver|done].
  destruct H as (-> & ? & m & dd & _ & _ & ->). done.
Qed.

(** C21. [EnsureDNSData] never panics, and changes no condition but that of
    the DNS data.  It answers "ready", and marks the condition True, only when
    the namespace has exactly one DNS service, which is ready and has cluster
    addresses, the records of the nodes were written to the DNSData of the
    NodeSet, and that object, read afterwards, is ready; the details carry the
    addresses of that service and the host names and addresses of these
    records.  When the single service is not there or not ready or has no
    cluster addresses, or the DNSData is not ready after the write, it answers
    "not ready" without an error; and an error is that of listing the services,
    of there being several of them, of the write or of the read.  In all these
    cases it marks the condition False. *)
Theorem EnsureDNSData_spec (allIPSets : gmap string IPSet) (s : St W OpenStackDataPlaneNodeSet) :
  sat (EnsureDNSData allIPSets) s (λ o s',
    same_but [NodeSetDNSDataReadyCondition] (obj s) (obj s') ∧
    let status := status_of (ns_Conditions (obj s')) NodeSetDNSDataReadyCondition in
    match o with
    | Next (d, err) => err = None ∧ status = Some CTrue ∧
        ∃ dnsmasq dnsData, dns_written (obj s) allIPSets (world s) (world s') dnsmasq dnsData ∧
          dd_IsReady dnsData = true ∧ d = make_ready (recorded_details (obj s) allIPSets dnsmasq)
    | Return (d, err) => dns_IsReady d = false ∧ status = Some CFalse ∧
        match err with
        | Some err => dns_failed (obj s) allIPSets (world s) err
        | None => dns_not_serving (obj s) (world s) ∨
            ∃ dnsmasq dnsData, dns_written (obj s) allIPSets (world s) (world s') dnsmasq dnsData ∧
              dd_IsReady dnsData = false
        end
    | Panic => False
    end).
Proof. apply EnsureDNSData_answer. Qed.
End properties.

(** C24. The DNS records, and what is collected about the hosts, do not depend
    on the order in which Go iterates over the nodes: a reconciliation with
    the same inputs writes the same DNSData. *)
Theorem dns_records_deterministic (MR1 MR2 : MapRange) (L1 : MapRangeLaws MR1) (L2 : MapRangeLaws MR2)
    (instance : OpenStackDataPlaneNodeSet) (allIPSets : gmap string IPSet) (d : DNSDetails) :
  @dns_records MR1 instance allIPSets d = @dns_records MR2 instance allIPSets d.
Proof. unfold dns_records, sorted_nodes. by rewrite (sorted_keys_det MR1 MR2). Qed.

(** ** The properties at concrete objects *)

Import ListConditions.

Definition ctlplane_reservation : IPSetReservation :=
  mkReservation "ctlPlane" "subnet1" "192.168.122.100" 1500 "192.168.122.0/24" None
    (Some "192.168.122.1") [] "ctlplane.example.com".
Definition storage_reservation : IPSetReservation :=
  mkReservation "storage" "subnet1" "172.18.0.100" 1500 "172.18.0.0/24" (Some 21%Z)
    None [] "storage.example.com".
Definition node_ipset : IPSet :=
  mkIPSet "edpm-0" [] [ctlplane_reservation; storage_reservation] [].
Definition networked_node (host : string) : NodeSection :=
  let n := named_node host in
  mkNode (n_ExtraMounts n) [mkNet "ctlplane" ""; mkNet "storage" ""] (n_UserData n) (n_NetworkData n)
    (n_Ansible n) (n_HostName n) (n_ManagementNetwork n) (n_PreprovisioningNetworkDataName n).
Definition networked_nodeset : OpenStackDataPlaneNodeSet :=
  nodeset_of "openstack" "edpm" {[ "node0" := networked_node "edpm-0" ]} true.

Lemma distinct_hosts_singleton name node : distinct_hosts {[ name := node ]}.
Proof.
  intros k1 k2 n1 n2 [<- _]%lookup_singleton_Some [<- _]%lookup_singleton_Some _. reflexivity.
Qed.

Lemma dns_records_witness :
  let d := (dns_records networked_nodeset {[ "edpm-0" := node_ipset ]} zeroDNSDetails).2 in
  lookup2 (dns_AllIPs d) "edpm-0" "storage" = Some "172.18.0.100" ∧
  lookup2 (dns_Hostnames d) "edpm-0" "storage" = Some "edpm-0.storage.example.com".
Proof.
  apply (dns_records_spec networked_nodeset {[ "edpm-0" := node_ipset ]} zeroDNSDetails "node0"
    (networked_node "edpm-0") node_ipset storage_reservation).
  - apply distinct_hosts_singleton.
  - reflexivity.
  - discriminate.
  - reflexivity.
  - apply (bool_decide_unpack _). vm_compute. exact I.
  - right. left.
Defined.

Lemma dns_records_deterministic_witness :
  @dns_records list_range networked_nodeset {[ "edpm-0" := node_ipset ]} zeroDNSDetails =
  @dns_records reversed_range networked_nodeset {[ "edpm-0" := node_ipset ]} zeroDNSDetails.
Proof.
  apply dns_records_deterministic; [exact list_range_laws|exact reversed_range_laws].
Defined.

(** An API server with a network configuration, an IPSet that is reserved, a
    DNS service and DNS data. *)
Definition network_world : Sim :=
  mkSim [] ∅ ∅ ∅ ∅ ∅ {[ "openstack/edpm-0" := node_ipset ]}
    {[ "openstack/edpm" := mkDNSData "edpm" [] "dnsdata" true ]} ∅ ∅ []
    [mkDNSMasq true (Some ["10.0.0.1"]) ["192.168.122.80"]] ["netconfig"].


Lemma EnsureDNSData_witness :
  let s := mkSt network_world networked_nodeset in
  let s' := (EnsureDNSData {[ "edpm-0" := node_ipset ]} s).2 in
  status_of (ns_Conditions (obj s')) NodeSetDNSDataReadyCondition = Some CTrue.
Proof.
  pose proof (EnsureDNSData_spec {[ "edpm-0" := node_ipset ]} (mkSt network_world networked_nodeset))
    as [_ H].
  assert (∃ r, (EnsureDNSData {[ "edpm-0" := node_ipset ]} (mkSt network_world networked_nodeset)).1 = Next r)
    as [[d err] Hr] by (eexists; vm_compute; reflexivity).
  rewrite Hr in H. exact (proj1 (proj2 H)).
Defined.
