(* ===== verification/Net.v ===== *)
(** [net.ParseCIDR] of Go's standard library, as far as the operator uses it:
    whether the text is a CIDR, and the size of its mask. *)

From Stdlib Require Import Ascii.
From stdpp Require Import base strings list.
From S2P Require Import Prelude GoStd.

(** A decimal octet: one to three digits, no leading zero, at most 255. *)
Definition parse_octet (s : string) : bool :=
  match s with
  | "" => false
  | String "0"%char (String _ _) => false
  | _ => match digits 0 s with Some n => bool_decide (n ≤ 255)%Z | None => false end
  end.
Definition parse_ipv4 (s : string) : bool :=
  let fields := split_on "."%char s in
  bool_decide (length fields = 4) && forallb parse_octet fields.

Definition is_hex (c : ascii) : bool :=
  let n := N_of_ascii c in
  bool_decide (48 ≤ n ≤ 57)%N || bool_decide (97 ≤ n ≤ 102)%N || bool_decide (65 ≤ n ≤ 70)%N.
(** The leading hexadecimal digits, and the rest. *)
Fixpoint hex_digits (s : string) : string * string :=
  match s with
  | String c s' => if is_hex c then let '(d, r) := hex_digits s' in (String c d, r) else ("", s)
  | "" => ("", "")
  end.

(** The groups of an IPv6 address: [left] groups are still to be filled, and
    an ellipsis was seen or not. *)
Fixpoint parse_groups (left : nat) (ellipsis : bool) (s : string) : bool :=
  match left with
  | 0 => false (* text left over *)
  | S left' =>
      let '(d, rest) := hex_digits s in
      if decide (d = "" ∨ 4 < String.length d) then false
      else
        match rest with
        | String "."%char _ =>
            (* an IPv4 tail fills the last two groups *)
            if ellipsis then bool_decide (2 < left) && parse_ipv4 s else bool_decide (left = 2) && parse_ipv4 s
        | "" => if ellipsis then bool_decide (0 < left') else bool_decide (left' = 0)
        | String ":"%char "" => false
        | String ":"%char (String ":"%char rest) =>
            if ellipsis then false
            else match rest with "" => bool_decide (0 < left') | _ => parse_groups left' true rest end
        | String ":"%char rest => parse_groups left' ellipsis rest
        | _ => false
        end
  end.
Definition parse_ipv6 (s : string) : bool :=
  match s with
  | String ":"%char (String ":"%char "") => true
  | String ":"%char (String ":"%char rest) => parse_groups 8 true rest
  | _ => parse_groups 8 false s
  end.

(** [netip.ParseAddr] without a zone: the bit length of the address. *)
Fixpoint addr_kind (s : string) : option ascii :=
  match s with
  | "" => None
  | String c s =>
      if bool_decide (c = "."%char) || bool_decide (c = ":"%char) || bool_decide (c = "%"%char)
      then Some c else addr_kind s
  end.
Definition parse_addr (s : string) : option Z :=
  match addr_kind s with
  | Some "."%char => if parse_ipv4 s then Some 32%Z else None
  | Some ":"%char => if parse_ipv6 s then Some 128%Z else None
  | _ => None
  end.

(** The prefix length, when the text is a CIDR: the part after the first slash
    is a decimal number (leading zeros allowed, below 0xFFFFFF). *)
Definition parse_prefix (s : string) (bits : Z) : option Z :=
  match s with
  | "" => None
  | _ =>
      n ← digits 0 s;
      if bool_decide (n < 16777215)%Z && bool_decide (n ≤ bits)%Z then Some n else None
  end.
Definition ParseCIDR (s : string) : option Z :=
  match split2_on "/"%char s with
  | [addr; mask] => bits ← parse_addr addr; parse_prefix mask bits
  | _ => None
  end.

Example cidr_v4 : ParseCIDR "192.168.122.0/24" = Some 24%Z.
Proof. reflexivity. Qed.
Example cidr_v6 : ParseCIDR "fd00:fd00:fd00:2000::/64" = Some 64%Z.
Proof. reflexivity. Qed.
Example cidr_v6_tail : ParseCIDR "::ffff:10.0.0.1/96" = Some 96%Z ∧ ParseCIDR "1:2:3:4:5:6:7::/48" = Some 48%Z.
Proof. done. Qed.
Example cidr_bad :
  (ParseCIDR "192.168.122.0", ParseCIDR "192.168.01.0/24", ParseCIDR "10.0.0.0/33", ParseCIDR "1:2:3/64",
   ParseCIDR "1:2:3:4:5:6:7:8::/64")
  = (None, None, None, None, None).
Proof. reflexivity. Qed.

(** The mask size is within the address. *)
Lemma ParseCIDR_bounds s n : ParseCIDR s = Some n → (n ≤ 128)%Z.
Proof.
  unfold ParseCIDR. destruct (split2_on _ s) as [|addr [|mask [|]]]; try done.
  intros (bits & Hb & Hp)%bind_Some.
  assert (bits ≤ 128)%Z.
  { unfold parse_addr in Hb. repeat case_match; simplify_eq; lia. }
  unfold parse_prefix in Hp. destruct mask; [done|]. apply bind_Some in Hp as (n' & _ & Hp).
  destruct (_ && _) eqn:Hc; [|done]. simplify_eq. apply andb_true_iff in Hc as [_ Hc].
  apply bool_decide_eq_true in Hc. lia.
Qed.
