(* ===== verification/Baremetal.v ===== *)
(** pkg/deployment/baremetal.go: the OpenStackBaremetalSet of a NodeSet whose
    nodes are provisioned by the operator. *)

From stdpp Require Import base gmap strings list.
From S2P Require Import Prelude GoStd Conditions Types Cluster Sim Webhooks Cert Ipam Net.

Abbreviation BSpec := OpenStackBaremetalSetSpec.

Definition set_CtlPlaneIP (ip : string) (i : InstanceSpec) : InstanceSpec :=
  mkInstance ip (i_UserData i) (i_NetworkData i) (i_PreprovisioningNetworkDataName i).
Definition set_b_hosts (m : gomap InstanceSpec) (b : BSpec) : BSpec :=
  mkBaremetalSpec m (b_DomainName b) (b_CloudUserName b) (b_DeploymentSSHSecret b)
    (b_OSContainerImageURL b) (b_AgentImageURL b) (b_ApacheImageURL b) (b_CtlplaneGateway b)
    (b_BootstrapDNS b) (b_DNSSearchDomains b) (b_Other b).
Definition set_b_network (gateway : string) (dns domains : list string) (b : BSpec) : BSpec :=
  mkBaremetalSpec (b_BaremetalHosts b) (b_DomainName b) (b_CloudUserName b) (b_DeploymentSSHSecret b)
    (b_OSContainerImageURL b) (b_AgentImageURL b) (b_ApacheImageURL b) gateway dns domains (b_Other b).

(** ** The callback: the spec of the set, as the state *)

Section callback.
Context `{MR : MapRange}.

(** The error of [net.ParseCIDR] *)
Definition cidr_error (s : string) : Err := errors_New ("invalid CIDR address: " +:+ s).

Definition is_ctlplane (res : IPSetReservation) : bool :=
  bool_decide (to_lower (r_Network res) = CtlPlaneNetwork).

(** One reservation of the node. *)
Definition apply_reservation (dnsAddresses : list string) (instanceSpec : InstanceSpec)
    (res : IPSetReservation) : M BSpec (option Err) InstanceSpec :=
  if is_ctlplane res then
    match ParseCIDR (r_Cidr res) with
    | None => return_ (Some (cidr_error (r_Cidr res)))
    | Some ipPrefix =>
        gateway ← deref (r_Gateway res);
        _ ← modify (set_b_network gateway dnsAddresses [r_DNSDomain res]);
        mret (set_CtlPlaneIP (r_Address res +:+ "/" +:+ itoa ipPrefix) instanceSpec)
    end
  else mret instanceSpec.

(** One node. *)
Definition provision_node (ipSets : gmap string IPSet) (dnsAddresses : list string)
    (node : NodeSection) : M BSpec (option Err) () :=
  let hostName := n_HostName node in
  spec ← get;
  let instanceSpec := default zeroInstance (entries (b_BaremetalHosts spec) !! hostName) in
  instanceSpec ← match ipSets !! hostName with
    | None => mret (set_CtlPlaneIP (ao_AnsibleHost (n_Ansible node) +:+ "/24") instanceSpec)
    | Some ipSet => for_acc (ip_Reservation ipSet) (apply_reservation dnsAddresses) instanceSpec
    end;
  spec ← get;
  hosts ← map_set (b_BaremetalHosts spec) hostName instanceSpec;
  modify (set_b_hosts hosts).

(** The whole callback but the owner reference. *)
Definition provision (instance : OpenStackDataPlaneNodeSet) (ipSets : gmap string IPSet)
    (dnsAddresses : list string) : M BSpec (option Err) (option Err) :=
  _ ← modify (λ _, ns_BaremetalSetTemplate (ns_Spec instance));
  _ ← for_each (range_values "DeployBaremetalSet" (ns_Nodes (ns_Spec instance)))
        (provision_node ipSets dnsAddresses);
  mret None.
End callback.

Section operations.
Context {W : Type} {KC : KubeClient W} {CO : ConditionOps} {MR : MapRange}.

Definition mutate_baremetal (instance : OpenStackDataPlaneNodeSet) (ipSets : gmap string IPSet)
    (dnsAddresses : list string) (b : OpenStackBaremetalSet) : option (result OpenStackBaremetalSet) :=
  match provision instance ipSets dnsAddresses (bs_Spec b) with
  | (Next None, spec) | (Return None, spec) =>
      Some (SetOwnerBaremetalSet instance (mkBaremetalSet (bs_Name b) spec (bs_IsReady b)))
  | (Next (Some err), _) | (Return (Some err), _) => Some (Fail err)
  | (Panic, _) => None
  end.

(** The answer: whether the set is ready, and an error. *)
Definition DeployBaremetalSet (ipSets : gmap string IPSet) (dnsAddresses : list string) :
    M (St W OpenStackDataPlaneNodeSet) (bool * option Err) (bool * option Err) :=
  instance ← get_obj;
  if decide (b_BaremetalHosts (ns_BaremetalSetTemplate (ns_Spec instance)) = None)
  then return_ (false, Some (Errorf "no baremetal hosts set in baremetalSetTemplate" []))
  else
    let baremetalSet := mkBaremetalSet (ns_Name instance) (zeroBaremetalSpec) false in
    r ← on_world (op (CreateOrPatchBaremetalSet (ns_Namespace instance) baremetalSet
          (mutate_baremetal instance ipSets dnsAddresses)));
    r ← deref r;
    match r with
    | Fail err =>
        _ ← ns_mark (λ cs, MarkFalse cs NodeSetBareMetalProvisionReadyCondition ErrorReason
              SeverityError NodeSetBaremetalProvisionErrorMessage []);
        return_ (false, Some err)
    | Ok baremetalSet =>
        if negb (bs_IsReady baremetalSet) then
          _ ← ns_mark (λ cs, MarkFalse cs NodeSetBareMetalProvisionReadyCondition RequestedReason
                SeverityInfo NodeSetBaremetalProvisionReadyWaitingMessage []);
          return_ (false, None)
        else
          _ ← ns_mark (λ cs, MarkTrue cs NodeSetBareMetalProvisionReadyCondition
                NodeSetBaremetalProvisionReadyMessage []);
          mret (true, None)
    end.
End operations.

(** ** What is provisioned *)

Section facts.
Context `{MR : MapRange} {MRL : MapRangeLaws MR}.

(** What stays of the template: all but the hosts and their network. *)
Definition fixed_part (b : BSpec) : BSpec := set_b_hosts None (set_b_network "" [] [] b).

(** The control plane address of a reservation, with the prefix length of
    its network. *)
Definition reservation_ip (res : IPSetReservation) : option string :=
  if is_ctlplane res then
    prefix ← ParseCIDR (r_Cidr res); Some (r_Address res +:+ "/" +:+ itoa prefix)
  else None.
(** The address a node gets: of its last control plane reservation, or its
    Ansible host when no reservation was made for it. *)
Definition node_ip (ipSets : gmap string IPSet) (node : NodeSection) : option string :=
  match ipSets !! n_HostName node with
  | None => Some (ao_AnsibleHost (n_Ansible node) +:+ "/24")
  | Some ipSet => last (omap reservation_ip (ip_Reservation ipSet))
  end.
Definition with_ip (ip : option string) (i : InstanceSpec) : InstanceSpec :=
  match ip with Some ip => set_CtlPlaneIP ip i | None => i end.

(** The reservations that end the callback: a network that is not a CIDR,
    one without a gateway. *)
Definition bad_cidr (res : IPSetReservation) : Prop :=
  is_ctlplane res = true ∧ ParseCIDR (r_Cidr res) = None.
Definition no_gateway (res : IPSetReservation) : Prop :=
  is_ctlplane res = true ∧ r_Gateway res = None.

Lemma apply_reservations_spec dns (l : list IPSetReservation) i (spec : BSpec) :
  sat (for_acc l (apply_reservation dns) i) spec (λ o spec', match o with
    | Next i' => b_BaremetalHosts spec' = b_BaremetalHosts spec ∧
        fixed_part spec' = fixed_part spec ∧ i' = with_ip (last (omap reservation_ip l)) i
    | Return r => ∃ res, res ∈ l ∧ bad_cidr res ∧ r = Some (cidr_error (r_Cidr res))
    | Panic => ∃ res, res ∈ l ∧ no_gateway res
    end).
Proof.
  apply sat_for_acc with (I := λ rest i' spec', ∃ done, l = done ++ rest ∧
    b_BaremetalHosts spec' = b_BaremetalHosts spec ∧ fixed_part spec' = fixed_part spec ∧
    i' = with_ip (last (omap reservation_ip done)) i).
  - by exists [].
  - intros res rest i1 s1 _ (done & -> & Hh & Hf & ->). unfold apply_reservation.
    assert (res ∈ done ++ res :: rest) as Hin by set_solver.
    destruct (is_ctlplane res) eqn:Hc.
    2:{ apply sat_ret. exists (done ++ [res]). rewrite <- app_assoc. split_and!; [done..|].
        rewrite omap_app. simpl. unfold reservation_ip. by rewrite Hc, app_nil_r. }
    destruct (ParseCIDR (r_Cidr res)) as [prefix|] eqn:Hp; [|apply sat_return; by exists res].
    destruct (r_Gateway res) as [g|] eqn:Hg; [|apply sat_bind, sat_panic; by exists res].
    apply sat_bind, sat_ret, sat_bind, sat_modify, sat_ret. exists (done ++ [res]).
    rewrite <- app_assoc. split_and!; [done|done|done|].
    rewrite omap_app. simpl. unfold reservation_ip. rewrite Hc, Hp. simpl. rewrite last_snoc.
    by destruct (last _).
  - intros i1 s1 (done & -> & ? & ? & ->). by rewrite app_nil_r.
Qed.

Lemma provision_node_spec ipSets dns node (spec : BSpec) hosts :
  b_BaremetalHosts spec = Some hosts →
  sat (provision_node ipSets dns node) spec (λ o spec', match o with
    | Next _ => fixed_part spec' = fixed_part spec ∧
        b_BaremetalHosts spec' = Some (<[n_HostName node :=
          with_ip (node_ip ipSets node) (default zeroInstance (hosts !! n_HostName node))]> hosts)
    | Return r => ∃ ipSet res, ipSets !! n_HostName node = Some ipSet ∧ res ∈ ip_Reservation ipSet ∧
        bad_cidr res ∧ r = Some (cidr_error (r_Cidr res))
    | Panic => ∃ ipSet res, ipSets !! n_HostName node = Some ipSet ∧ res ∈ ip_Reservation ipSet ∧
        no_gateway res
    end).
Proof.
  intros Hh. unfold provision_node. cbv zeta. apply sat_bind, sat_get.
  rewrite Hh. cbn [entries default from_option]. set (i0 := default zeroInstance (hosts !! n_HostName node)).
  apply sat_bind. unfold node_ip. destruct (ipSets !! n_HostName node) as [ipSet|].
  - eapply sat_mono; [apply apply_reservations_spec|]. intros [i|r|] s1; [|naive_solver..].
    intros (Hb & Hf & ->). apply sat_bind, sat_get. rewrite Hb, Hh.
    apply sat_bind, sat_ret, sat_modify. by split.
  - apply sat_ret, sat_bind, sat_get. rewrite Hh.
    apply sat_bind, sat_ret, sat_modify. by split.
Qed.
End facts.

(** ** Properties *)

Section properties.
Context {MR : MapRange} {MRL : MapRangeLaws MR}.

(** C25. The callback that fills in the baremetal set.  When it ends without
    an error and the nodes have distinct host names, the entry of every
    node is the template's with the control plane address of the node: its
    reserved address with the prefix length of the network, or the Ansible
    host with /24 when nothing is reserved for it.  The entries of other
    hosts, and everything of the template but the hosts and their network,
    stay.  It ends with an error only for a control plane network that is
    no CIDR, and panics only for one that has no gateway. *)
Theorem provision_spec (instance : OpenStackDataPlaneNodeSet) (ipSets : gmap string IPSet)
    (dns : list string) (hosts : gmap string InstanceSpec) (spec0 : BSpec) :
  let template := ns_BaremetalSetTemplate (ns_Spec instance) in
  let nodes := ns_Nodes (ns_Spec instance) in
  b_BaremetalHosts template = Some hosts →
  distinct_hosts nodes →
  sat (provision instance ipSets dns) spec0 (λ o spec, match o with
    | Next r => r = None ∧ fixed_part spec = fixed_part template ∧
        ∃ hosts', b_BaremetalHosts spec = Some hosts' ∧
        (∀ name node, nodes !! name = Some node →
           hosts' !! n_HostName node =
             Some (with_ip (node_ip ipSets node) (default zeroInstance (hosts !! n_HostName node)))) ∧
        (∀ host, (∀ name node, nodes !! name = Some node → n_HostName node ≠ host) →
           hosts' !! host = hosts !! host)
    | Return r => ∃ host ipSet res, ipSets !! host = Some ipSet ∧ res ∈ ip_Reservation ipSet ∧
        bad_cidr res ∧ r = Some (cidr_error (r_Cidr res))
    | Panic => ∃ host ipSet res, ipSets !! host = Some ipSet ∧ res ∈ ip_Reservation ipSet ∧
        no_gateway res
    end).
Proof.
  intros template nodes Hh Hd. unfold provision. apply sat_bind, sat_modify, sat_bind.
  set (l := range_values "DeployBaremetalSet" nodes).
  assert (NoDup (n_HostName <$> l)) as Hnd by (by apply host_names_NoDup).
  apply sat_for_acc with (I := λ rest _ spec, ∃ done hosts', l = done ++ rest ∧
    fixed_part spec = fixed_part template ∧ b_BaremetalHosts spec = Some hosts' ∧
    (∀ node, node ∈ done → hosts' !! n_HostName node =
       Some (with_ip (node_ip ipSets node) (default zeroInstance (hosts !! n_HostName node)))) ∧
    (∀ host, host ∉ (n_HostName <$> done) → hosts' !! host = hosts !! host)).
  - exists [], hosts. split_and!; try done. by intros ? ?%not_elem_of_nil.
  - intros node rest [] spec _ (done & hosts' & Hl & Hf & Hs & Hdone & Hother).
    rewrite Hl, fmap_app, fmap_cons in Hnd. apply NoDup_app in Hnd as (_ & Hnd & _).
    assert (n_HostName node ∉ (n_HostName <$> done)) as Hn.
    { intros Hin. by apply (Hnd _ Hin), elem_of_cons; left. }
    eapply sat_mono; [by apply provision_node_spec|]. intros [[]|r|] spec'; [|naive_solver..].
    intros [Hf' Hs']. rewrite Hother in Hs' by done. eexists (done ++ [node]), _.
    rewrite <- app_assoc. split_and!; [done|congruence|exact Hs'|..].
    + intros x [Hx| ->%list_elem_of_singleton]%elem_of_app; [|by rewrite lookup_insert_eq].
      rewrite lookup_insert_ne; [by apply Hdone|]. intros He. apply Hn.
      apply list_elem_of_fmap. by exists x.
    + intros host. rewrite fmap_app, not_elem_of_app. intros [Hh1 Hh2].
      rewrite lookup_insert_ne; [by apply Hother|]. intros <-. apply Hh2. by left.
  - intros [] spec (done & hosts' & Hl & Hf & Hs & Hdone & Hother). rewrite app_nil_r in Hl. subst done.
    apply sat_ret. split_and!; [done..|]. exists hosts'. split_and!; [done|..].
    + intros name node Hn. apply Hdone, elem_of_range_values. eauto.
    + intros host Hno. apply Hother. rewrite list_elem_of_fmap. intros (node & -> & Hin).
      apply elem_of_range_values in Hin as [name Hn]. by eapply Hno.
Qed.
End properties.

Section deploy.
Context {W : Type} {KC : KubeClient W} {CO : ConditionOps} {CL : ConditionLaws CO} {MR : MapRange}.

Lemma DeployBaremetalSet_sat (ipSets : gmap string IPSet) (dns : list string)
    (s : St W OpenStackDataPlaneNodeSet) :
  let instance := obj s in
  let answer := (CreateOrPatchBaremetalSet (ns_Namespace instance)
    (mkBaremetalSet (ns_Name instance) zeroBaremetalSpec false)
    (mutate_baremetal instance ipSets dns) (world s)).2 in
  let status (s' : St W OpenStackDataPlaneNodeSet) :=
    status_of (ns_Conditions (obj s')) NodeSetBareMetalProvisionReadyCondition in
  sat (DeployBaremetalSet ipSets dns) s (λ o s',
    same_but [NodeSetBareMetalProvisionReadyCondition] (obj s) (obj s') ∧
    if decide (b_BaremetalHosts (ns_BaremetalSetTemplate (ns_Spec instance)) = None)
    then (∃ err, o = Return (false, Some err)) ∧ s' = s
    else match answer with
      | None => o = Panic
      | Some (Fail err) => o = Return (false, Some err) ∧ status s' = Some CFalse
      | Some (Ok b) =>
          if bs_IsReady b then o = Next (true, None) ∧ status s' = Some CTrue
          else o = Return (false, None) ∧ status s' = Some CFalse
      end).
Proof.
  intros instance answer status. unfold DeployBaremetalSet, ns_mark. apply sat_bind, sat_gets.
  subst instance. destruct (decide (_ = None)); [apply sat_return; split; [reflexivity|eauto]|].
  apply sat_bind, sat_on_world, sat_op. fold answer. destruct answer as [[b|err]|].
  - apply sat_bind, sat_ret. destruct (bs_IsReady b); simpl.
    + apply sat_bind, sat_modify, sat_ret. split; [apply same_but_MarkTrue|].
      split; [done|apply status_ns_MarkTrue].
    + apply sat_bind, sat_modify, sat_return. split; [apply same_but_MarkFalse|].
      split; [done|apply status_ns_MarkFalse].
  - apply sat_bind, sat_ret, sat_bind, sat_modify, sat_return. split; [apply same_but_MarkFalse|].
    split; [done|apply status_ns_MarkFalse].
  - apply sat_bind, sat_panic. by split.
Qed.

(** C26. [DeployBaremetalSet] answers ready exactly when it marks the
    provisioning condition True, and only when the set it wrote is ready;
    otherwise it answers not ready.  It changes no other condition; and it
    leaves the conditions alone when the template has no hosts, which is an
    error. *)
Theorem DeployBaremetalSet_spec (ipSets : gmap string IPSet) (dns : list string)
    (s : St W OpenStackDataPlaneNodeSet) :
  let instance := obj s in
  let answer := (CreateOrPatchBaremetalSet (ns_Namespace instance)
    (mkBaremetalSet (ns_Name instance) zeroBaremetalSpec false)
    (mutate_baremetal instance ipSets dns) (world s)).2 in
  let status (s' : St W OpenStackDataPlaneNodeSet) :=
    status_of (ns_Conditions (obj s')) NodeSetBareMetalProvisionReadyCondition in
  sat (DeployBaremetalSet ipSets dns) s (λ o s',
    same_but [NodeSetBareMetalProvisionReadyCondition] (obj s) (obj s') ∧
    if decide (b_BaremetalHosts (ns_BaremetalSetTemplate (ns_Spec instance)) = None)
    then (∃ err, o = Return (false, Some err)) ∧ s' = s
    else match answer with
      | None => o = Panic
      | Some (Fail err) => o = Return (false, Some err) ∧ status s' = Some CFalse
      | Some (Ok b) =>
          if bs_IsReady b then o = Next (true, None) ∧ status s' = Some CTrue
          else o = Return (false, None) ∧ status s' = Some CFalse
      end).
Proof. apply DeployBaremetalSet_sat. Qed.
End deploy.

(** ** The properties at concrete objects *)

Import ListConditions.

Definition baremetal_nodeset : OpenStackDataPlaneNodeSet :=
  let n := networked_nodeset in
  mkNodeSet (ns_Meta n)
    (mkNodeSetSpec (set_b_hosts (Some {[ "edpm-0" := zeroInstance ]}) zeroBaremetalSpec)
       (ns_NodeTemplate (ns_Spec n)) (ns_Nodes (ns_Spec n)) [] [] [] None 0 false false) (ns_Status n).

Lemma provision_witness :
  ∃ spec hosts',
    provision baremetal_nodeset {[ "edpm-0" := node_ipset ]} ["192.168.122.80"] zeroBaremetalSpec =
      (Next None, spec) ∧
    b_BaremetalHosts spec = Some hosts' ∧
    hosts' !! "edpm-0" = Some (set_CtlPlaneIP "192.168.122.100/24" zeroInstance).
Proof.
  pose proof (provision_spec baremetal_nodeset {[ "edpm-0" := node_ipset ]} ["192.168.122.80"]
    {[ "edpm-0" := zeroInstance ]} zeroBaremetalSpec eq_refl (distinct_hosts_singleton _ _)) as H.
  unfold sat in H. destruct (provision _ _ _ _) as [o spec] eqn:Hp.
  assert (o = Next None) as ->.
  { apply (f_equal fst) in Hp. simpl in Hp. rewrite <- Hp. vm_compute. reflexivity. }
  destruct H as (_ & _ & hosts' & Hs & Hn & _). exists spec, hosts'. split_and!; [done|exact Hs|].
  etransitivity; [exact (Hn "node0" (networked_node "edpm-0") eq_refl)|]. vm_compute. reflexivity.
Defined.

(** A control plane network without a gateway: the callback panics. *)
Example provision_no_gateway :
  let res := mkReservation "ctlplane" "subnet1" "192.168.122.100" 1500 "192.168.122.0/24" None None []
    "ctlplane.example.com" in
  fst (provision baremetal_nodeset {[ "edpm-0" := mkIPSet "edpm-0" [] [res] [] ]} [] zeroBaremetalSpec)
  = Panic.
Proof. vm_compute. reflexivity. Qed.

Lemma DeployBaremetalSet_witness :
  let s := mkSt empty_sim baremetal_nodeset in
  let s' := (DeployBaremetalSet {[ "edpm-0" := node_ipset ]} [] s).2 in
  status_of (ns_Conditions (obj s')) NodeSetBareMetalProvisionReadyCondition = Some CFalse.
Proof.
  pose proof (DeployBaremetalSet_spec {[ "edpm-0" := node_ipset ]} []
    (mkSt empty_sim baremetal_nodeset)) as [_ H].
  match type of H with context [decide ?P] => assert (¬ P) as HP by discriminate;
    destruct (decide P) as [HP'|_]; [destruct (HP HP')|] end.
  match type of H with context [match ?m with _ => _ end] =>
    assert (∃ b, m = Some (Ok b) ∧ bs_IsReady b = false) as (b & Hb & Hr)
      by (eexists; split; [vm_compute; reflexivity|reflexivity]); rewrite Hb, Hr in H end.
  exact (proj2 H).
Defined.
