(* ===== verification/Inventory.v ===== *)
(** pkg/deployment/inventory.go: the Ansible inventory of a NodeSet, written
    to a Secret. *)

From Stdlib Require Import Ascii.
From stdpp Require Import base gmap strings list.
From S2P Require Import Prelude GoStd Conditions Types Fqdn Cluster Sim DataSource Cert Ipam Net.

(** ** Variables

    The values of a [map[string]interface{}], by their Go type; [VYaml] is a
    value parsed from a user's text, in the notation of the parser. *)
Inductive Var : Type :=
  | VString (s : string)
  | VBool (b : bool)
  | VInt (n : Z)
  | VStrings (l : list string)
  | VStringMap (m : gmap string string)
  | VStringPtr (p : option string)
  | VIntPtr (p : option Z)
  | VYaml (v : string).
Abbreviation Vars := (gmap string Var).

(** The YAML parser, and lib-common's inventory.  A group keeps its hosts in a
    map by their names; the value that [AddHost] returns shares its variables
    with the group, so what the operator sets on it is in the group.  What is
    written is the text for a group with its variables and its hosts. *)
Class InventoryLib := {
  UnmarshalVar : string → result string;
  (** [group.AddHost(name)]: the hosts of the group afterwards *)
  AddHost : string → gmap string Vars → gmap string Vars;
  MarshalInventory : string → Vars → gmap string Vars → result string;
}.
(** There is a host of that name then, a new one without variables; the other
    hosts stay.  Whether a host that is there already is kept or replaced is
    left open. *)
Class InventoryLaws (IL : InventoryLib) : Prop := {
  AddHost_present name hosts : is_Some (AddHost name hosts !! name);
  AddHost_new name hosts : hosts !! name = None → AddHost name hosts !! name = Some ∅;
  AddHost_other name hosts k : k ≠ name → AddHost name hosts !! k = hosts !! k;
}.

Section variables.
Context {MR : MapRange} {IL : InventoryLib}.

(** [unmarshalAnsibleVars] *)
Definition unmarshalAnsibleVars (ansibleVars : gmap string string) : M Vars (option Err) () :=
  for_each (range "unmarshalAnsibleVars" ansibleVars) (λ kv,
    match UnmarshalVar kv.2 with
    | Fail err => return_ (Some err)
    | Ok v => modify (<[kv.1 := VYaml v]>)
    end).

Definition buildNetworkVars (networks : list IPSetNetwork) : list string * gmap string string :=
  fold_left (λ acc network,
    let '(nets, netsLower) := acc in
    let netName := net_Name network in
    if equal_fold netName CtlPlaneNetwork then acc
    else (nets ++ [netName], <[netName := to_lower netName]> netsLower)) networks ([], ∅).

(** The variables set from the options of a template or of a node. *)
Definition option_vars (ansible : AnsibleOpts) (managementNetwork : string) (vars : Vars) : Vars :=
  let vars := if decide (ao_AnsibleUser ansible ≠ "")
              then <["ansible_user" := VString (ao_AnsibleUser ansible)]> vars else vars in
  let vars := if decide (0 < ao_AnsiblePort ansible)%Z
              then <["ansible_port" := VString (itoa (ao_AnsiblePort ansible))]> vars else vars in
  if decide (managementNetwork ≠ "")
  then <["management_network" := VString managementNetwork]> vars else vars.
Definition network_vars (networks : list IPSetNetwork) (vars : Vars) : Vars :=
  if decide (length networks ≠ 0) then
    let '(nets, netsLower) := buildNetworkVars networks in
    <["networks_lower" := VStringMap netsLower]> (<["nodeset_networks" := VStrings nets]> vars)
  else vars.

(** The default images: the variable that is looked for in [AnsibleVars],
    the one that is set when it is not there, and the image. *)
Definition image_vars : list (string * string * (ContainerImages → option string)) :=
  [ ("edpm_frr_image", "edpm_frr_image", ci_EdpmFrrImage);
    ("edpm_iscsid_image", "edpm_iscsid_image", ci_EdpmIscsidImage);
    ("edpm_logrotate_crond_image", "edpm_logrotate_crond_image", ci_EdpmLogrotateCrondImage);
    ("edpm_multipathd_image", "edpm_multipathd_image", ci_EdpmMultipathdImage);
    ("edpm_neutron_dhcp_image", "edpm_neutron_dhcp_image", ci_EdpmNeutronDhcpAgentImage);
    ("edpm_neutron_metadata_agent_image", "edpm_neutron_metadata_agent_image",
       ci_EdpmNeutronMetadataAgentImage);
    ("edpm_neutron_ovn_agent_image", "edpm_neutron_ovn_agent_image", ci_EdpmNeutronOvnAgentImage);
    ("edpm_neutron_sriov_agent_image", "edpm_neutron_sriov_image", ci_EdpmNeutronSriovAgentImage);
    ("edpm_nova_compute_image", "edpm_nova_compute_image", ci_NovaComputeImage);
    ("edpm_ovn_controller_agent_image", "edpm_ovn_controller_agent_image", ci_OvnControllerImage);
    ("edpm_ovn_bgp_agent_image", "edpm_ovn_bgp_agent_image", ci_EdpmOvnBgpAgentImage);
    ("edpm_telemetry_ceilometer_compute_image", "edpm_telemetry_ceilometer_compute_image",
       ci_CeilometerComputeImage);
    ("edpm_telemetry_ceilometer_ipmi_image", "edpm_telemetry_ceilometer_ipmi_image",
       ci_CeilometerIpmiImage);
    ("edpm_telemetry_node_exporter_image", "edpm_telemetry_node_exporter_image",
       ci_EdpmNodeExporterImage) ].
Definition default_images (ansibleVars : gmap string string) (images : ContainerImages) (vars : Vars) : Vars :=
  fold_left (λ vars e, let '(checked, set, image) := e in
    if decide (ansibleVars !! checked = None) then <[set := VStringPtr (image images)]> vars else vars)
    image_vars vars.

Definition resolveGroupAnsibleVars (template : NodeTemplate) (images : ContainerImages) :
    M Vars (option Err) (option Err) :=
  let ansible := t_Ansible template in
  _ ← modify (option_vars ansible (t_ManagementNetwork template));
  _ ← modify (default_images (ao_AnsibleVars ansible) images);
  _ ← unmarshalAnsibleVars (ao_AnsibleVars ansible);
  _ ← modify (network_vars (t_Networks template));
  mret None.

Definition resolveHostAnsibleVars (node : NodeSection) : M Vars (option Err) (option Err) :=
  let ansible := n_Ansible node in
  _ ← modify (option_vars ansible (n_ManagementNetwork node));
  _ ← unmarshalAnsibleVars (ao_AnsibleVars ansible);
  _ ← modify (network_vars (n_Networks node));
  mret None.

(** ** The variables from IPAM *)

(** The addresses and routes of one reservation. *)
Definition reservation_vars (entry : string) (res : IPSetReservation) (vars : Vars) : Vars :=
  let vars := <[entry +:+ "_ip" := VString (r_Address res)]> vars in
  let vars := match ParseCIDR (r_Cidr res) with
              | Some netCidr => <[entry +:+ "_cidr" := VInt netCidr]> vars
              | None => vars
              end in
  let vars := if bool_decide (r_Vlan res ≠ None) || bool_decide (entry ≠ CtlPlaneNetwork)
              then <[entry +:+ "_vlan_id" := VIntPtr (r_Vlan res)]> vars else vars in
  <[entry +:+ "_host_routes" := VStrings (r_Routes res)]>
    (<[entry +:+ "_gateway_ip" := VStringPtr (r_Gateway res)]>
       (<[entry +:+ "_mtu" := VInt (r_MTU res)]> vars)).

(** One reservation; [dnsSearchDomains] is carried along. *)
Definition populate_reservation (dnsAddresses : list string) (hostName : string)
    (dnsSearchDomains : list string) (res : IPSetReservation) : M Vars () (list string) :=
  let entry := to_lower (r_Network res) in
  _ ← modify (reservation_vars entry res);
  dnsSearchDomains ←
    (if decide (entry = CtlPlaneNetwork) then
       _ ← modify (<[entry +:+ "_dns_nameservers" := VStrings dnsAddresses]>);
       if NodeHostNameIsFQDN hostName then
         _ ← modify (<["canonical_hostname" := VString hostName]>);
         domain ← deref (split2_on "."%char hostName !! 1);
         mret (if decide (domain ≠ r_DNSDomain res) then dnsSearchDomains ++ [domain] else dnsSearchDomains)
       else
         _ ← modify (<["canonical_hostname" := VString (join "." [hostName; r_DNSDomain res])]>);
         mret dnsSearchDomains
     else mret dnsSearchDomains);
  mret (dnsSearchDomains ++ [r_DNSDomain res]).

Definition populateInventoryFromIPAM (ipSet : IPSet) (dnsAddresses : list string) (hostName : string) :
    M Vars () () :=
  dnsSearchDomains ← for_acc (ip_Reservation ipSet) (populate_reservation dnsAddresses hostName) [];
  modify (<["dns_search_domains" := VStrings dnsSearchDomains]>).
End variables.

Section operations.
Context {W : Type} {KC : KubeClient W} {LC : LibCommon W} {MR : MapRange} {IL : InventoryLib}.

(** [for k, v := range data { result[prefix + k] = v }] *)
Definition add_source (prefix site : string) (data : gmap string string) (result : gmap string string) :
    gmap string string :=
  insert_all (λ kv, prefix +:+ kv.1) snd (range site data) result.

Definition getAnsibleVarsFrom (namespace : string) (ansible : AnsibleOpts) :
    M W (gmap string string * option Err) (gmap string string * option Err) :=
  result ← for_acc (ao_AnsibleVarsFrom ansible) (λ result dataSource,
    r ← call (GetDataSourceCmSecret namespace dataSource);
    match r with
    | Fail err => return_ (result, Some err)
    | Ok (configMap, secret) =>
        let result := match configMap with
          | Some cm => add_source (ds_Prefix dataSource) "getAnsibleVarsFrom/ConfigMap" (cm_Data cm) result
          | None => result
          end in
        mret match secret with
          | Some sec => add_source (ds_Prefix dataSource) "getAnsibleVarsFrom/Secret" (sec_Data sec) result
          | None => result
          end
    end) ∅;
  mret (result, None).

(** The variables taken from ConfigMaps and Secrets, copied as strings. *)
Definition vars_from (from : gmap string string) : Vars := VString <$> from.

(** The host of one node, which [AddHost] makes or finds in the group. *)
Definition node_host (instance : OpenStackDataPlaneNodeSet) (allIPSets : gmap string IPSet)
    (dnsAddresses : list string) (hosts : gmap string Vars) (node : NodeSection) :
    M W (string * option Err) (gmap string Vars) :=
  let name := short_name (n_HostName node) in
  let hosts := AddHost name hosts in
  r ← call (getAnsibleVarsFrom (ns_Namespace instance) (n_Ansible node));
  let '(hostVars, err) := r in
  match err with
  | Some err => return_ ("", Some err)
  | None =>
      let ansible_host := if decide (ao_AnsibleHost (n_Ansible node) ≠ "")
        then ao_AnsibleHost (n_Ansible node) else n_HostName node in
      let vars := <["ansible_host" := VString ansible_host]> (vars_from hostVars ∪ entries (hosts !! name)) in
      match resolveHostAnsibleVars node vars with
      | (Panic, _) => panic
      | (Return (Some err), _) | (Next (Some err), _) => return_ ("", Some err)
      | (_, vars) =>
          match allIPSets !! n_HostName node with
          | None => mret (<[name := vars]> hosts)
          | Some ipSet =>
              match populateInventoryFromIPAM ipSet dnsAddresses (n_HostName node) vars with
              | (Panic, _) => panic
              | (_, vars) => mret (<[name := vars]> hosts)
              end
          end
      end
  end.

(** The variables of the group that the NodeSet itself gives. *)
Definition nodeset_vars (instance : OpenStackDataPlaneNodeSet) (vars : Vars) : Vars :=
  let vars := <["edpm_tls_certs_enabled" := VBool (ns_TLSEnabled (ns_Spec instance))]>
                (<["edpm_nodeset_name" := VString (ns_Name instance)]> vars) in
  let vars := match ns_Tags (ns_Spec instance) with
              | Some tags => <["nodeset_tags" := VStrings tags]> vars
              | None => vars
              end in
  <["ansible_ssh_private_key_file" := VString (sprintf "/runner/env/ssh_key/ssh_key_%s" [ns_Name instance])]>
    (<["edpm_services" := VStrings (ns_Services (ns_Spec instance))]> vars).

(** The Secret the inventory is written to. *)
Definition inventory_secret (instance : OpenStackDataPlaneNodeSet) (invData : string) : SecretTemplate :=
  mkSecretTemplate (sprintf "dataplanenodeset-%s" [ns_Name instance]) (ns_Namespace instance)
    {[ "inventory" := invData ]}
    (insert_all fst snd (range "GenerateNodeSetInventory/labels" (m_Labels (ns_Meta instance)))
       (<["inventory" := "true"]> (<["openstackdataplanenodeset" := ns_Name instance]>
          {[ "openstack.org/operator-name" := "dataplane" ]}))).

Definition GenerateNodeSetInventory (instance : OpenStackDataPlaneNodeSet)
    (allIPSets : gmap string IPSet) (dnsAddresses : list string) (containerImages : ContainerImages) :
    M W (string * option Err) (string * option Err) :=
  let template := ns_NodeTemplate (ns_Spec instance) in
  r ← call (getAnsibleVarsFrom (ns_Namespace instance) (t_Ansible template));
  let '(groupVars, err) := r in
  match err with
  | Some err => return_ ("", Some err)
  | None =>
      match resolveGroupAnsibleVars template containerImages (vars_from groupVars) with
      | (Panic, _) => panic
      | (Return (Some err), _) | (Next (Some err), _) => return_ ("", Some err)
      | (_, vars) =>
          let vars := nodeset_vars instance vars in
          hosts ← for_acc (range_values "GenerateNodeSetInventory/nodes" (ns_Nodes (ns_Spec instance)))
                    (node_host instance allIPSets dnsAddresses) ∅;
          match MarshalInventory (ns_Name instance) vars hosts with
          | Fail err => return_ ("", Some err)
          | Ok invData =>
              err ← op (EnsureSecrets instance [inventory_secret instance invData]);
              mret (sprintf "dataplanenodeset-%s" [ns_Name instance], err)
          end
      end
  end.
End operations.

(** ** The variables from IPAM *)

Fixpoint last_char (s : string) : option ascii :=
  match s with
  | "" => None
  | String c "" => Some c
  | String _ s => last_char s
  end.
Lemma last_char_app s1 c s2 : last_char (s1 +:+ String c s2) = last_char (String c s2).
Proof.
  induction s1 as [|d s1 IH]; [done|]. rewrite string_app_cons, <- IH. by destruct s1.
Qed.

(** What the names of the network variables end in. *)
Definition network_suffixes : list string :=
  ["_ip"; "_cidr"; "_vlan_id"; "_mtu"; "_gateway_ip"; "_host_routes"; "_dns_nameservers"].
Lemma network_var_ne entry suffix k :
  suffix ∈ network_suffixes → last_char k ∈ [Some "e"%char; Some "t"%char] → entry +:+ suffix ≠ k.
Proof.
  intros Hs Hk <-. revert Hs Hk. unfold network_suffixes. rewrite !elem_of_cons, !elem_of_nil.
  intros Hs; destruct_or? Hs; subst; try done; rewrite last_char_app; simpl; intros [?|[?|[]]]; discriminate.
Qed.

Section ipam_facts.
Context {MR : MapRange} {IL : InventoryLib}.

(** The domain part of a fully qualified host name. *)
Definition host_domain (hostName : string) : string := default "" (split2_on "."%char hostName !! 1).
(** The search domains one reservation contributes. *)
Definition search_domains (hostName : string) (res : IPSetReservation) : list string :=
  (if bool_decide (to_lower (r_Network res) = CtlPlaneNetwork) && NodeHostNameIsFQDN hostName &&
      bool_decide (host_domain hostName ≠ r_DNSDomain res)
   then [host_domain hostName] else []) ++ [r_DNSDomain res].
(** The canonical name: the host name when it is fully qualified, else the
    host name in the domain of the control plane network. *)
Definition canonical_hostname (hostName : string) (res : IPSetReservation) : string :=
  if NodeHostNameIsFQDN hostName then hostName else hostName +:+ "." +:+ r_DNSDomain res.
Definition ctlplane_reservations (l : list IPSetReservation) : list IPSetReservation :=
  filter (λ res, to_lower (r_Network res) = CtlPlaneNetwork) l.

(** The variables other code sets under names of their own. *)
Definition kept (vars vars' : Vars) : Prop :=
  vars' !! "canonical_hostname" = vars !! "canonical_hostname" ∧
  vars' !! "ansible_host" = vars !! "ansible_host".
Lemma kept_insert vars vars' entry suffix v :
  suffix ∈ network_suffixes → kept vars vars' → kept vars (<[entry +:+ suffix := v]> vars').
Proof.
  intros Hs [H1 H2]. by split; rewrite lookup_insert_ne by (apply network_var_ne; set_solver).
Qed.
Lemma reservation_vars_kept entry res vars : kept vars (reservation_vars entry res vars).
Proof.
  unfold reservation_vars. cbv zeta.
  destruct (ParseCIDR _), (_ || _); repeat (apply kept_insert; [set_solver|]); by split.
Qed.

Lemma populate_reservation_spec dns hostName domains res (vars : Vars) :
  sat (populate_reservation dns hostName domains res) vars (λ o vars',
    o = Next (domains ++ search_domains hostName res) ∧
    vars' !! "canonical_hostname" =
      (if decide (to_lower (r_Network res) = CtlPlaneNetwork)
       then Some (VString (canonical_hostname hostName res)) else vars !! "canonical_hostname") ∧
    vars' !! "ansible_host" = vars !! "ansible_host").
Proof.
  unfold populate_reservation. set (entry := to_lower (r_Network res)). cbv zeta.
  apply sat_bind, sat_modify. pose proof (reservation_vars_kept entry res vars) as Hk.
  revert Hk. generalize (reservation_vars entry res vars). intros vars1 Hk.
  unfold search_domains, canonical_hostname, host_domain. fold entry.
  apply sat_bind. destruct (decide (entry = CtlPlaneNetwork)) as [He|He].
  2:{ apply sat_ret, sat_ret. rewrite bool_decide_eq_false_2 by done. simpl.
      by destruct Hk as [-> ->]. }
  rewrite bool_decide_eq_true_2 by done. apply sat_bind, sat_modify.
  apply (kept_insert _ _ entry "_dns_nameservers" (VStrings dns)) in Hk; [|set_solver].
  destruct (NodeHostNameIsFQDN hostName) eqn:Hf.
  - destruct (fqdn_split2 hostName Hf) as (short & domain & -> & _). simpl.
    apply sat_bind, sat_modify, sat_bind, sat_ret, sat_ret, sat_ret.
    rewrite lookup_insert_eq, lookup_insert_ne by done. split_and!; [|done|apply Hk].
    f_equal. destruct (decide (domain = r_DNSDomain res)) as [->|Hd].
    + rewrite decide_False, bool_decide_eq_false_2 by auto. done.
    + rewrite decide_True, bool_decide_eq_true_2 by done. by rewrite <- app_assoc.
  - apply sat_bind, sat_modify, sat_ret, sat_ret.
    rewrite lookup_insert_eq, lookup_insert_ne by done. split_and!; [done|done|apply Hk].
Qed.

Lemma populate_spec ipSet dns hostName (vars : Vars) :
  sat (populateInventoryFromIPAM ipSet dns hostName) vars (λ o vars',
    o = Next () ∧
    vars' !! "dns_search_domains" = Some (VStrings (ip_Reservation ipSet ≫= search_domains hostName)) ∧
    vars' !! "canonical_hostname" =
      match last (ctlplane_reservations (ip_Reservation ipSet)) with
      | Some res => Some (VString (canonical_hostname hostName res))
      | None => vars !! "canonical_hostname"
      end ∧
    vars' !! "ansible_host" = vars !! "ansible_host").
Proof.
  unfold populateInventoryFromIPAM. apply sat_bind.
  apply sat_for_acc with (I := λ rest domains vars', ∃ done, ip_Reservation ipSet = done ++ rest ∧
    domains = (done ≫= search_domains hostName) ∧
    vars' !! "canonical_hostname" =
      match last (ctlplane_reservations done) with
      | Some res => Some (VString (canonical_hostname hostName res))
      | None => vars !! "canonical_hostname"
      end ∧
    vars' !! "ansible_host" = vars !! "ansible_host").
  - by exists [].
  - intros res rest domains vars1 _ (done & Hd & -> & Hc & Ha).
    eapply sat_mono; [apply populate_reservation_spec|]. intros o vars2 (-> & Hc2 & Ha2).
    exists (done ++ [res]). rewrite <- app_assoc. split_and!; [done| | |congruence].
    + rewrite bind_app. simpl. by rewrite app_nil_r.
    + rewrite Hc2, Hc. unfold ctlplane_reservations. rewrite filter_app.
      destruct (decide (to_lower (r_Network res) = CtlPlaneNetwork)).
      * by rewrite filter_cons_True, filter_nil, last_snoc by done.
      * by rewrite filter_cons_False, filter_nil, app_nil_r by done.
  - intros domains vars1 (done & Hd & -> & Hc & Ha). rewrite app_nil_r in Hd. subst done.
    apply sat_modify. rewrite lookup_insert_eq, !lookup_insert_ne by done. by split_and!.
Qed.
End ipam_facts.

(** ** The variables from the options *)

Section option_facts.
Context {MR : MapRange} {MRL : MapRangeLaws MR} {IL : InventoryLib}.

Definition option_keys : list string := ["ansible_user"; "ansible_port"; "management_network"].
Definition network_keys : list string := ["nodeset_networks"; "networks_lower"].

Lemma option_vars_other ansible net vars k :
  k ∉ option_keys → option_vars ansible net vars !! k = vars !! k.
Proof.
  intros Hk. unfold option_keys in Hk. unfold option_vars. cbv zeta.
  repeat case_decide; rewrite ?lookup_insert_ne by set_solver; done.
Qed.
Lemma network_vars_other networks vars k :
  k ∉ network_keys → network_vars networks vars !! k = vars !! k.
Proof.
  intros Hk. unfold network_keys in Hk. unfold network_vars. case_decide; [|done].
  destruct (buildNetworkVars networks). by rewrite !lookup_insert_ne by set_solver.
Qed.

(** Every user variable gets the value it parses to; a text that does not
    parse ends the loop with an error. *)
Lemma unmarshal_spec (ansibleVars : gmap string string) (vars : Vars) :
  sat (unmarshalAnsibleVars ansibleVars) vars (λ o vars', match o with
    | Next _ =>
        (∀ k raw, ansibleVars !! k = Some raw →
           ∃ v, UnmarshalVar raw = Ok v ∧ vars' !! k = Some (VYaml v)) ∧
        (∀ k, ansibleVars !! k = None → vars' !! k = vars !! k)
    | Return r => ∃ k raw err, ansibleVars !! k = Some raw ∧ UnmarshalVar raw = Fail err ∧ r = Some err
    | Panic => False
    end).
Proof.
  unfold unmarshalAnsibleVars. set (l := range "unmarshalAnsibleVars" ansibleVars).
  assert (NoDup l.*1) as Hnd by apply range_keys_NoDup.
  apply sat_for_acc with (I := λ rest _ vars', ∃ done, l = done ++ rest ∧
    (∀ k raw, (k, raw) ∈ done → ∃ v, UnmarshalVar raw = Ok v ∧ vars' !! k = Some (VYaml v)) ∧
    (∀ k, k ∉ done.*1 → vars' !! k = vars !! k)).
  - exists []. split_and!; [done| |done]. by intros ?? ?%not_elem_of_nil.
  - intros [k raw] rest [] vars1 _ (done & Hl & Hd & Ho). simpl.
    assert ((k, raw) ∈ l) as Hin%elem_of_range by (rewrite Hl; set_solver).
    destruct (UnmarshalVar raw) as [v|err] eqn:Hv; [|apply sat_return; by exists k, raw, err].
    rewrite Hl, fmap_app, fmap_cons in Hnd. apply NoDup_app in Hnd as (_ & Hnd & _).
    apply sat_modify. exists (done ++ [(k, raw)]). rewrite <- app_assoc. split_and!; [done|..].
    + intros k' raw' [Hk'|[= -> ->]%list_elem_of_singleton]%elem_of_app;
        [|exists v; by rewrite lookup_insert_eq].
      destruct (Hd _ _ Hk') as (v' & ? & ?). exists v'. split; [done|].
      rewrite lookup_insert_ne; [done|]. intros ->. apply (Hnd k'); [|by left].
      apply list_elem_of_fmap. by exists (k', raw').
    + intros k'. rewrite fmap_app, not_elem_of_app. simpl. intros [Hk1 Hk2].
      rewrite lookup_insert_ne by set_solver. by apply Ho.
  - intros [] vars1 (done & Hl & Hd & Ho). rewrite app_nil_r in Hl. subst done. split.
    + intros k raw Hk. by apply Hd, elem_of_range.
    + intros k Hk. apply Ho. unfold l. rewrite elem_of_range_keys, Hk. by intros [].
Qed.

(** The image a variable is set to: the first entry of the table that sets it,
    when the variable looked for is not among the user's. *)
Definition image_entry (ansibleVars : gmap string string) (k : string)
    (l : list (string * string * (ContainerImages → option string))) : option (ContainerImages → option string) :=
  snd <$> head (filter (λ e, e.1.2 = k ∧ ansibleVars !! e.1.1 = None) l).
Lemma default_images_fold (ansibleVars : gmap string string) images l (vars : Vars) k :
  NoDup ((λ e, e.1.2) <$> l) →
  fold_left (λ vars e, let '(checked, set, image) := e in
    if decide (ansibleVars !! checked = None) then <[set := VStringPtr (image images)]> vars else vars) l vars !! k =
  match image_entry ansibleVars k l with
  | Some image => Some (VStringPtr (image images))
  | None => vars !! k
  end.
Proof.
  revert vars. induction l as [|[[checked set] image] l IH]; intros vars Hnd; [done|]. cbn [fold_left].
  rewrite fmap_cons, NoDup_cons in Hnd. destruct Hnd as [Hset Hnd]. simpl in Hset.
  rewrite IH by done. unfold image_entry. rewrite filter_cons. cbn [fst snd].
  destruct (decide (ansibleVars !! checked = None)) as [Hc|Hc];
    [|by rewrite decide_False by tauto].
  destruct (decide (set = k)) as [->|Hk].
  - rewrite decide_True by done. cbn [head fmap option_fmap option_map snd].
    destruct (filter _ l) as [|e l'] eqn:Hf; [by rewrite lookup_insert_eq|].
    assert (e ∈ filter (λ e, e.1.2 = k ∧ ansibleVars !! e.1.1 = None) l) as [[He _] Hin]%list_elem_of_filter
      by (rewrite Hf; left).
    destruct Hset. apply list_elem_of_fmap. by exists e.
  - rewrite decide_False by tauto. by rewrite lookup_insert_ne.
Qed.

Definition image_keys : list string := (λ e, e.1.2) <$> image_vars.
Lemma image_keys_NoDup : NoDup image_keys.
Proof. apply (bool_decide_unpack _). vm_compute. exact I. Qed.

(** The value of a variable of the group: that of the networks, when the
    template has any; else the user's; else the image of the release; else
    the one of an option that is set; else the value it had. *)
Definition value_if (P : Prop) `{!Decision P} (name : string) (v : Var) (k : string) : option Var :=
  if decide (k = name ∧ P) then Some v else None.
Definition option_value (ansible : AnsibleOpts) (managementNetwork : string) (k : string) : option Var :=
  value_if (managementNetwork ≠ "") "management_network" (VString managementNetwork) k ∪
  (value_if (0 < ao_AnsiblePort ansible)%Z "ansible_port" (VString (itoa (ao_AnsiblePort ansible))) k ∪
   value_if (ao_AnsibleUser ansible ≠ "") "ansible_user" (VString (ao_AnsibleUser ansible)) k).
Definition network_value (networks : list IPSetNetwork) (k : string) : option Var :=
  if decide (networks = []) then None
  else if decide (k = "nodeset_networks") then Some (VStrings (buildNetworkVars networks).1)
  else if decide (k = "networks_lower") then Some (VStringMap (buildNetworkVars networks).2)
  else None.
Definition user_value (ansibleVars : gmap string string) (k : string) : option Var :=
  raw ← ansibleVars !! k; match UnmarshalVar raw with Ok v => Some (VYaml v) | Fail _ => None end.
Definition image_value (ansibleVars : gmap string string) (images : ContainerImages) (k : string) : option Var :=
  (λ image, VStringPtr (image images)) <$> image_entry ansibleVars k image_vars.
Definition group_value (template : NodeTemplate) (images : ContainerImages) (vars : Vars) (k : string) : option Var :=
  let ansible := t_Ansible template in
  network_value (t_Networks template) k ∪ (user_value (ao_AnsibleVars ansible) k ∪
    (image_value (ao_AnsibleVars ansible) images k ∪
      (option_value ansible (t_ManagementNetwork template) k ∪ vars !! k))).

Lemma value_if_lookup P `{!Decision P} name v (vars : Vars) k :
  (if decide P then <[name := v]> vars else vars) !! k = value_if P name v k ∪ vars !! k.
Proof.
  unfold value_if. destruct (decide P) as [HP|HP], (decide (k = name)) as [->|Hk].
  - rewrite decide_True, lookup_insert_eq by done. by destruct (vars !! name).
  - rewrite decide_False, lookup_insert_ne by naive_solver. by destruct (vars !! k).
  - rewrite decide_False by tauto. by destruct (vars !! name).
  - rewrite decide_False by tauto. by destruct (vars !! k).
Qed.
Lemma none_union (o : option Var) : None ∪ o = o.
Proof. by destruct o. Qed.
Lemma some_union (v : Var) o : Some v ∪ o = Some v.
Proof. by destruct o. Qed.
Lemma union_union (o1 o2 o3 : option Var) : o1 ∪ (o2 ∪ o3) = (o1 ∪ o2) ∪ o3.
Proof. by destruct o1, o2, o3. Qed.
Lemma option_vars_lookup ansible net vars k :
  option_vars ansible net vars !! k = option_value ansible net k ∪ vars !! k.
Proof. unfold option_vars, option_value. cbv zeta. by rewrite !value_if_lookup, !union_union. Qed.
Lemma network_vars_lookup networks vars k :
  network_vars networks vars !! k = network_value networks k ∪ vars !! k.
Proof.
  unfold network_vars, network_value. destruct networks as [|n l]; [by rewrite none_union|].
  rewrite decide_True, decide_False by done. destruct (buildNetworkVars _) as [nets lower]. cbn [fst snd].
  destruct (decide (k = "nodeset_networks")) as [->|]; [|destruct (decide (k = "networks_lower")) as [->|]].
  - by rewrite lookup_insert_ne, lookup_insert_eq, some_union by done.
  - by rewrite lookup_insert_eq, some_union.
  - by rewrite !lookup_insert_ne, none_union by done.
Qed.


Lemma resolveGroup_total (template : NodeTemplate) (images : ContainerImages) (vars : Vars) :
  sat (resolveGroupAnsibleVars template images) vars (λ o _, match o with
    | Next r => r = None | Return r => is_Some r | Panic => False end).
Proof.
  unfold resolveGroupAnsibleVars. cbv zeta. apply sat_bind, sat_modify, sat_bind, sat_modify, sat_bind.
  eapply sat_mono; [apply unmarshal_spec|]. intros [[]|r|] vars1; [..|done].
  - intros _. by apply sat_bind, sat_modify, sat_ret.
  - intros (? & ? & ? & _ & _ & ->). eauto.
Qed.

Lemma resolveHost_spec (node : NodeSection) (vars : Vars) :
  sat (resolveHostAnsibleVars node) vars (λ o vars', match o with
    | Next r => r = None ∧
        match ao_AnsibleVars (n_Ansible node) !! "ansible_host" with
        | Some raw => ∃ v, UnmarshalVar raw = Ok v ∧ vars' !! "ansible_host" = Some (VYaml v)
        | None => vars' !! "ansible_host" = vars !! "ansible_host"
        end
    | Return r => is_Some r
    | Panic => False
    end).
Proof.
  unfold resolveHostAnsibleVars. cbv zeta. apply sat_bind, sat_modify, sat_bind.
  eapply sat_mono; [apply unmarshal_spec|]. intros [[]|r|] vars1; [..|done].
  - intros [Hu Hk]. apply sat_bind, sat_modify, sat_ret. split; [done|].
    rewrite network_vars_other by (unfold network_keys; set_solver).
    destruct (_ !! "ansible_host") as [raw|] eqn:Hn; [by apply Hu|].
    rewrite Hk, option_vars_other; [done|unfold option_keys; set_solver|done].
  - intros (? & ? & ? & _ & _ & ->). eauto.
Qed.
End option_facts.

(** ** The inventory *)

Section inventory.
Context {W : Type} {KC : KubeClient W} {LC : LibCommon W}.
Context {MR : MapRange} {MRL : MapRangeLaws MR} {IL : InventoryLib}.

(** The address Ansible connects to. *)
Definition ansible_host (node : NodeSection) : string :=
  if decide (ao_AnsibleHost (n_Ansible node) ≠ "")
  then ao_AnsibleHost (n_Ansible node) else n_HostName node.
(** The variables of a host that a node wrote last: its address is the node's,
    or what the user's own variable of that name parses to. *)
Definition written_for (node : NodeSection) (vars : Vars) : Prop :=
  match ao_AnsibleVars (n_Ansible node) !! "ansible_host" with
  | Some raw => ∃ v, UnmarshalVar raw = Ok v ∧ vars !! "ansible_host" = Some (VYaml v)
  | None => vars !! "ansible_host" = Some (VString (ansible_host node))
  end.
(** The name of its host in the inventory. *)
Definition host_name (node : NodeSection) : string := short_name (n_HostName node).

Lemma nodeset_vars_name instance vars :
  nodeset_vars instance vars !! "edpm_nodeset_name" = Some (VString (ns_Name instance)).
Proof.
  unfold nodeset_vars. cbv zeta. destruct (ns_Tags _);
    rewrite !lookup_insert_ne by done; apply lookup_insert_eq.
Qed.

Lemma getAnsibleVarsFrom_no_panic ns ansible (w : W) :
  sat (getAnsibleVarsFrom ns ansible) w (λ o _, o ≠ Panic).
Proof.
  unfold getAnsibleVarsFrom. apply sat_bind.
  apply sat_for_acc with (I := λ _ _ _, True); [done| |by intros; apply sat_ret].
  intros d rest acc w1 _ _. apply sat_bind, sat_call.
  eapply sat_mono; [apply GetDataSource_no_panic|]. intros [r|r|] w2 Hr; [..|done];
    (destruct r as [[cm sec]|err]; [by apply sat_ret|by apply sat_return]).
Qed.

Lemma node_host_spec instance ips dns hosts node (w : W) :
  sat (node_host instance ips dns hosts node) w (λ o _, match o with
    | Next hosts' => ∃ vars, hosts' = <[host_name node := vars]> (AddHost (host_name node) hosts) ∧
        written_for node vars
    | Return r => ∃ err, r = ("", Some err)
    | Panic => False
    end).
Proof.
  unfold node_host. cbv zeta. apply sat_call_total; [apply getAnsibleVarsFrom_no_panic|].
  intros [hostVars [err|]] w1; [apply sat_return; eauto|].
  set (vars := <["ansible_host" := _]> _).
  pose proof (resolveHost_spec node vars) as Hres. unfold sat in Hres.
  destruct (resolveHostAnsibleVars node vars) as [[r|r|] vars1]; simpl in Hres; [|destruct Hres as [err ->]; apply sat_return; eauto|done].
  destruct Hres as [-> Hkeep].
  assert (∀ vars2 : Vars, vars2 !! "ansible_host" = vars1 !! "ansible_host" → written_for node vars2) as Hhost.
  { intros vars2 Hv. unfold written_for. rewrite Hv. destruct (_ !! "ansible_host"); [done|].
    rewrite Hkeep. unfold vars. by rewrite lookup_insert_eq. }
  destruct (ips !! n_HostName node) as [ipSet|]; [|apply sat_ret; eexists; split; [done|by apply Hhost]].
  pose proof (populate_spec ipSet dns (n_HostName node) vars1) as Hpop. unfold sat in Hpop.
  destruct (populateInventoryFromIPAM _ _ _ vars1) as [o vars2]. simpl in Hpop.
  destruct Hpop as (-> & _ & _ & Hv). apply sat_ret. eexists. split; [done|by apply Hhost].
Qed.

(** The variables a host gets from its reservations.  The code never
    panics (the index into the parts of a fully qualified name is in
    range); the search domains are, reservation by reservation, the domain
    of the network, preceded on the control plane by the domain of the host
    name when it is fully qualified and has another one; and the canonical
    name comes from the last control plane reservation: the host name when
    it is fully qualified, otherwise the host name in that domain. *)
Theorem populateInventoryFromIPAM_spec ipSet dns hostName (vars : Vars) :
  sat (populateInventoryFromIPAM ipSet dns hostName) vars (λ o vars',
    o = Next () ∧
    vars' !! "dns_search_domains" = Some (VStrings (ip_Reservation ipSet ≫= search_domains hostName)) ∧
    vars' !! "canonical_hostname" =
      match last (ctlplane_reservations (ip_Reservation ipSet)) with
      | Some res => Some (VString (canonical_hostname hostName res))
      | None => vars !! "canonical_hostname"
      end).
Proof.
  eapply sat_mono; [apply populate_spec|]. by intros o vars' (? & ? & ? & _).
Qed.

(** For what holds of the hosts along the nodes. *)
Lemma GenerateNodeSetInventory_sat (I : list NodeSection → gmap string Vars → Prop) (instance : OpenStackDataPlaneNodeSet)
    (allIPSets : gmap string IPSet) (dns : list string) (images : ContainerImages) (w : W) :
  I [] ∅ →
  (∀ nodes node hosts vars, I nodes hosts → written_for node vars →
     I (nodes ++ [node]) (<[host_name node := vars]> (AddHost (host_name node) hosts))) →
  sat (GenerateNodeSetInventory instance allIPSets dns images) w (λ o w', match o with
    | Next (name, err) =>
        name = "dataplanenodeset-" +:+ ns_Name instance ∧
        ∃ vars hosts invData w1,
          MarshalInventory (ns_Name instance) vars hosts = Ok invData ∧
          EnsureSecrets instance [inventory_secret instance invData] w1 = (w', err) ∧
          vars !! "edpm_nodeset_name" = Some (VString (ns_Name instance)) ∧
          I (range_values "GenerateNodeSetInventory/nodes" (ns_Nodes (ns_Spec instance))) hosts
    | Return r => ∃ err, r = ("", Some err)
    | Panic => False
    end).
Proof.
  intros H0 Hstep. unfold GenerateNodeSetInventory. cbv zeta.
  apply sat_call_total; [apply getAnsibleVarsFrom_no_panic|].
  intros [groupVars [err|]] w1; [apply sat_return; eauto|].
  pose proof (resolveGroup_total (ns_NodeTemplate (ns_Spec instance)) images (vars_from groupVars)) as Hg.
  unfold sat in Hg.
  destruct (resolveGroupAnsibleVars _ _ _) as [[r|r|] vars]; simpl in Hg;
    [subst r|destruct Hg as [err ->]; apply sat_return; eauto|done].
  apply sat_bind. set (nodes := range_values _ _).
  apply sat_for_acc with (I := λ rest hosts _, ∃ done, nodes = done ++ rest ∧ I done hosts).
  - by exists [].
  - intros node rest hosts w2 _ (done & Hn & Hd). eapply sat_mono; [apply node_host_spec|].
    intros [hosts'|r|] w3; [|done..]. intros (host & -> & Hh). exists (done ++ [node]).
    rewrite <- app_assoc. split; [done|]. by apply Hstep.
  - intros hosts w2 (done & Hn & Hd). rewrite app_nil_r in Hn. subst done.
    destruct (MarshalInventory _ _ hosts) as [invData|err] eqn:Hm; [|apply sat_return; eauto].
    apply sat_bind, sat_op. apply sat_ret. split; [by simpl; rewrite string_app_nil_r|].
    exists (nodeset_vars instance vars), hosts, invData, w2. split_and!; [done| |apply nodeset_vars_name|done].
    by destruct (EnsureSecrets _ _ w2).
Qed.

(** The hosts that these nodes make, one after the other: one for every
    name; the last node of that name has written its variables. *)
Definition hosts_for (nodes : list NodeSection) (hosts : gmap string Vars) : Prop :=
  (∀ name, is_Some (hosts !! name) ↔ name ∈ (host_name <$> nodes)) ∧
  ∀ before node after, nodes = before ++ node :: after → host_name node ∉ (host_name <$> after) →
    ∃ vars, hosts !! host_name node = Some vars ∧ written_for node vars.

Context {INV : InventoryLaws IL}.
Lemma hosts_for_nil : hosts_for [] ∅.
Proof.
  split; [|by intros [|]]. intros name. rewrite lookup_empty, elem_of_nil. split; [by intros []|done].
Qed.
Lemma hosts_for_snoc nodes node hosts vars :
  hosts_for nodes hosts → written_for node vars →
  hosts_for (nodes ++ [node]) (<[host_name node := vars]> (AddHost (host_name node) hosts)).
Proof.
  intros [Hall Hlast] Hw. split.
  - intros name. rewrite fmap_app, elem_of_app, <- Hall, lookup_insert_is_Some'.
    cbn [fmap list_fmap]. rewrite list_elem_of_singleton.
    destruct (decide (name = host_name node)) as [->|Hn]; [naive_solver|].
    rewrite AddHost_other by done. naive_solver.
  - intros before node' after Heq Hnot. destruct after as [|node2 after _] using rev_ind.
    + apply app_inj_tail in Heq as [_ <-]. exists vars. by rewrite lookup_insert_eq.
    + rewrite app_comm_cons, app_assoc in Heq. apply app_inj_tail in Heq as [-> ->].
      rewrite fmap_app, not_elem_of_app in Hnot. destruct Hnot as [Hnot Hne].
      assert (host_name node' ≠ host_name node2) by (intros He; apply Hne; rewrite He; left).
      rewrite lookup_insert_ne, AddHost_other by done. by eapply Hlast.
Qed.

End inventory.

(** ** The properties at concrete objects *)

#[export] Instance sim_inventory : InventoryLib := {|
  UnmarshalVar s := if decide (s = "[") then Fail (errors_New "yaml") else Ok s;
  AddHost name hosts := <[name := default ∅ (hosts !! name)]> hosts;
  MarshalInventory name vars hosts := Ok (join " " (name :: (map_to_list hosts).*1));
|}.
#[export] Instance sim_inventory_laws : InventoryLaws sim_inventory.
Proof.
  split; intros name hosts; cbn [AddHost sim_inventory].
  - rewrite lookup_insert_eq. by eexists.
  - intros Hn. by rewrite lookup_insert_eq, Hn.
  - intros k Hk. by rewrite lookup_insert_ne.
Qed.

Definition fqdn_nodeset : OpenStackDataPlaneNodeSet :=
  nodeset_of "openstack" "edpm" {[ "node0" := networked_node "edpm-0.example.com" ]} true.

Lemma populateInventoryFromIPAM_witness :
  (populateInventoryFromIPAM node_ipset ["192.168.122.80"] "edpm-0.example.com" ∅).2
    !! "dns_search_domains" =
  Some (VStrings ["example.com"; "ctlplane.example.com"; "storage.example.com"]).
Proof.
  pose proof (populateInventoryFromIPAM_spec node_ipset ["192.168.122.80"] "edpm-0.example.com" ∅)
    as (_ & H & _).
  etransitivity; [exact H|]. vm_compute. reflexivity.
Defined.

Definition sample_template : NodeTemplate :=
  mkTemplate [] [] None None "" "" (mkAnsibleOpts "" "" {[ "edpm_frr_image" := "mine" ]} [] 0).


(** Two nodes whose host names differ only in the domain are one host in the
    inventory: Ansible would reach only one of them. *)
Definition two_domains : OpenStackDataPlaneNodeSet :=
  nodeset_of "openstack" "edpm"
    {[ "node0" := networked_node "edpm-0.example.com"; "node1" := networked_node "edpm-0.example.org" ]} true.
Theorem short_names_merge :
  size (ns_Nodes (ns_Spec two_domains)) = 2 ∧
  secrets (GenerateNodeSetInventory two_domains ∅ [] zeroImages empty_sim).2 !! "openstack/dataplanenodeset-edpm" =
    Some (mkSecret "dataplanenodeset-edpm"
      (st_Labels (inventory_secret two_domains "")) {[ "inventory" := "edpm edpm-0" ]}).
Proof. split_and!; vm_compute; reflexivity. Qed.

