(* ===== verification/NodeSetController.v ===== *)
(** controllers/openstackdataplanenodeset_controller.go: the reconciliation of
    a NodeSet, the state of its deployments, and the watches. *)

From stdpp Require Import base gmap strings list sorting.
From S2P Require Import Prelude GoStd Conditions Types Cluster Sim Images ApiTypes Webhooks DataSource.
From S2P Require Import AnsibleExec Service Cert Ipam Net Baremetal Inventory.

Definition AnsibleSSHPrivateKey : string := "ssh-privatekey".
Definition AnsibleSSHAuthorizedKeys : string := "authorized_keys".

(** [slices.SortFunc] of golang.org/x/exp.  It permutes; and it sorts in
    ascending order, which its documentation promises when "[cmp] is negative"
    is a strict weak ordering of the elements, and only then. *)
Class SortFunc := sort_func : ∀ {A : Type}, (A → A → Z) → list A → list A.
Definition strict_weak {A} (lt : A → A → Prop) (l : list A) : Prop :=
  (∀ a, a ∈ l → ¬ lt a a) ∧
  (∀ a b c, a ∈ l → b ∈ l → c ∈ l → lt a b → lt b c → lt a c) ∧
  (∀ a b c, a ∈ l → b ∈ l → c ∈ l → ¬ lt a b → ¬ lt b c → ¬ lt a c).
Class SortFuncLaws (S : SortFunc) : Prop := {
  sort_func_perm {A : Type} (cmp : A → A → Z) (l : list A) : sort_func cmp l ≡ₚ l;
  sort_func_sorted {A : Type} (cmp : A → A → Z) (l : list A) :
    strict_weak (λ a b, (cmp a b < 0)%Z) l →
    StronglySorted (λ a b, ¬ (cmp b a < 0)%Z) (sort_func cmp l);
}.

(** ** Access to the status *)

Definition set_nss_hashes (cms secs images : gomap string) (s : OpenStackDataPlaneNodeSetStatus) :
    OpenStackDataPlaneNodeSetStatus :=
  mkNodeSetStatus (nss_Conditions s) (nss_DeploymentStatuses s) (nss_AllHostnames s) (nss_AllIPs s)
    cms secs (nss_DNSClusterAddresses s) images (nss_CtlplaneSearchDomain s) (nss_ConfigHash s)
    (nss_DeployedConfigHash s) (nss_ObservedGeneration s) (nss_DeployedVersion s).
Definition make_status_maps (s : OpenStackDataPlaneNodeSetStatus) : OpenStackDataPlaneNodeSetStatus :=
  set_nss_hashes (make_if_nil (nss_ConfigMapHashes s)) (make_if_nil (nss_SecretHashes s))
    (make_if_nil (nss_ContainerImages s)) s.
Definition set_nss_ObservedGeneration (g : Z) (s : OpenStackDataPlaneNodeSetStatus) :
    OpenStackDataPlaneNodeSetStatus :=
  mkNodeSetStatus (nss_Conditions s) (nss_DeploymentStatuses s) (nss_AllHostnames s) (nss_AllIPs s)
    (nss_ConfigMapHashes s) (nss_SecretHashes s) (nss_DNSClusterAddresses s) (nss_ContainerImages s)
    (nss_CtlplaneSearchDomain s) (nss_ConfigHash s) (nss_DeployedConfigHash s) g (nss_DeployedVersion s).
Definition set_nss_ConfigHash (h : string) (s : OpenStackDataPlaneNodeSetStatus) :
    OpenStackDataPlaneNodeSetStatus :=
  mkNodeSetStatus (nss_Conditions s) (nss_DeploymentStatuses s) (nss_AllHostnames s) (nss_AllIPs s)
    (nss_ConfigMapHashes s) (nss_SecretHashes s) (nss_DNSClusterAddresses s) (nss_ContainerImages s)
    (nss_CtlplaneSearchDomain s) h (nss_DeployedConfigHash s) (nss_ObservedGeneration s)
    (nss_DeployedVersion s).
(** What EnsureDNSData found out. *)
Definition set_nss_dns (d : DNSDetails) (s : OpenStackDataPlaneNodeSetStatus) :
    OpenStackDataPlaneNodeSetStatus :=
  mkNodeSetStatus (nss_Conditions s) (nss_DeploymentStatuses s) (dns_Hostnames d) (dns_AllIPs d)
    (nss_ConfigMapHashes s) (nss_SecretHashes s) (dns_ClusterAddresses d) (nss_ContainerImages s)
    (dns_CtlplaneSearchDomain d) (nss_ConfigHash s) (nss_DeployedConfigHash s)
    (nss_ObservedGeneration s) (nss_DeployedVersion s).
Definition set_nss_DeploymentStatuses (m : gomap Conditions) (s : OpenStackDataPlaneNodeSetStatus) :
    OpenStackDataPlaneNodeSetStatus :=
  mkNodeSetStatus (nss_Conditions s) m (nss_AllHostnames s) (nss_AllIPs s)
    (nss_ConfigMapHashes s) (nss_SecretHashes s) (nss_DNSClusterAddresses s) (nss_ContainerImages s)
    (nss_CtlplaneSearchDomain s) (nss_ConfigHash s) (nss_DeployedConfigHash s)
    (nss_ObservedGeneration s) (nss_DeployedVersion s).
Definition set_nss_deployed (hash version : string) (s : OpenStackDataPlaneNodeSetStatus) :
    OpenStackDataPlaneNodeSetStatus :=
  mkNodeSetStatus (nss_Conditions s) (nss_DeploymentStatuses s) (nss_AllHostnames s) (nss_AllIPs s)
    (nss_ConfigMapHashes s) (nss_SecretHashes s) (nss_DNSClusterAddresses s) (nss_ContainerImages s)
    (nss_CtlplaneSearchDomain s) (nss_ConfigHash s) hash (nss_ObservedGeneration s) version.
(** The images of the baremetal template, each when the release has one. *)
Definition set_images (images : ContainerImages) (n : OpenStackDataPlaneNodeSet) : OpenStackDataPlaneNodeSet :=
  let s := ns_Spec n in
  let b := ns_BaremetalSetTemplate s in
  let b := mkBaremetalSpec (b_BaremetalHosts b) (b_DomainName b) (b_CloudUserName b)
    (b_DeploymentSSHSecret b)
    (default (b_OSContainerImageURL b) (ci_OsContainerImage images))
    (default (b_AgentImageURL b) (ci_AgentImage images))
    (default (b_ApacheImageURL b) (ci_ApacheImage images))
    (b_CtlplaneGateway b) (b_BootstrapDNS b) (b_DNSSearchDomains b) (b_Other b) in
  mkNodeSet (ns_Meta n)
    (mkNodeSetSpec b (ns_NodeTemplate s) (ns_Nodes s) (ns_Env s) (ns_NetworkAttachments s)
       (ns_Services s) (ns_Tags s) (ns_SecretMaxSize s) (ns_PreProvisioned s) (ns_TLSEnabled s))
    (ns_Status n).

Section operations.
Context {W : Type} {KC : KubeClient W} {LC : LibCommon W} {PR : Process W}.
Context {CO : ConditionOps} {V : Validation} {MR : MapRange} {PI : PackageImages}.
Context {IL : InventoryLib} {SF : SortFunc}.

Abbreviation Answer := (Result * option Err)%type.
Abbreviation MN := (M (St W OpenStackDataPlaneNodeSet)).

(** ** checkDeployment *)

Record Deployments : Type := mkDeployments {
  isDeploymentReady : bool;
  isDeploymentRunning : bool;
  isDeploymentFailed : bool;
  deploymentErr : option Err;
}.

(** The comparison: -1 when both have a DeploymentReady condition and the
    first one's is older, 1 otherwise. *)
Definition older (a b : OpenStackDataPlaneDeployment) : Z :=
  match cond_get (d_Conditions a) DeploymentReadyCondition,
        cond_get (d_Conditions b) DeploymentReadyCondition with
  | Some aReady, Some bReady =>
      if decide (LastTransitionTime aReady < LastTransitionTime bReady)%Z then (-1)%Z else 1%Z
  | _, _ => 1%Z
  end.

(** [for k, v := range src { dst[k] = v }], for the three maps of a status *)
Definition merge_map {R} (site : string) (src dst : gomap string) :
    MN R (gomap string) :=
  for_acc (range site (entries src)) (λ dst kv, map_set dst kv.1 kv.2) dst.

(** What the status takes over from a deployment that is ready. *)
Definition take_over {R} (deployment : OpenStackDataPlaneDeployment) : MN R () :=
  let from := d_Status deployment in
  n ← get_obj;
  cms ← merge_map "checkDeployment/ConfigMapHashes" (ds_ConfigMapHashes from)
          (nss_ConfigMapHashes (ns_Status n));
  secs ← merge_map "checkDeployment/SecretHashes" (ds_SecretHashes from) (nss_SecretHashes (ns_Status n));
  images ← merge_map "checkDeployment/ContainerImages" (ds_ContainerImages from)
             (nss_ContainerImages (ns_Status n));
  _ ← modify_obj (set_ns_Status (set_nss_hashes cms secs images));
  modify_obj (set_ns_Status (set_nss_deployed
    (default "" (entries (ds_NodeSetHashes from) !! ns_Name n)) (ds_DeployedVersion from))).

(** The body of the loop; [break] is a return of the loop. *)
Definition check_one (acc : Deployments) (deployment : OpenStackDataPlaneDeployment) :
    MN Deployments Deployments :=
  instance ← get_obj;
  if negb (m_DeletionTimestampIsZero (d_Meta deployment)) then mret acc
  else if negb (contains (d_NodeSets (d_Spec deployment)) (ns_Name instance)) then mret acc
  else
    let deploymentConditions :=
      default [] (ds_NodeSetConditions (d_Status deployment) !! ns_Name instance) in
    statuses ← map_set (make_if_nil (nss_DeploymentStatuses (ns_Status instance)))
      (d_Name deployment) deploymentConditions;
    _ ← modify_obj (set_ns_Status (set_nss_DeploymentStatuses statuses));
    let deploymentCondition := cond_get deploymentConditions NodeSetDeploymentReadyCondition in
    if cond_is_error deploymentCondition then
      c ← deref deploymentCondition;
      return_ (mkDeployments false false true (Some (Errorf (Message c) [])))
    else if cond_is_false deploymentConditions NodeSetDeploymentReadyCondition then
      mret (mkDeployments false true (isDeploymentFailed acc) (deploymentErr acc))
    else if cond_is_true deploymentConditions NodeSetDeploymentReadyCondition then
      _ ← take_over deployment;
      mret (mkDeployments true false (isDeploymentFailed acc) (deploymentErr acc))
    else mret (mkDeployments false false (isDeploymentFailed acc) (deploymentErr acc)).

Definition checkDeployment : MN Deployments Deployments :=
  instance ← get_obj;
  r ← on_world (op (ListDeployments (ns_Namespace instance)));
  match r with
  | Fail err => return_ (mkDeployments false false false (Some err))
  | Ok deployments =>
      call (for_acc (sort_func older deployments) check_one (mkDeployments false false false None))
  end.

(** ** Reconcile *)

Definition GetSpecConfigHash (instance : OpenStackDataPlaneNodeSet) : string * option Err :=
  ObjectHash (ns_Spec instance).

(** Detect config changes *)
Definition update_hash : MN Answer () :=
  instance ← get_obj;
  match GetSpecConfigHash instance with
  | (_, Some err) => return_ (emptyResult, Some err)
  | (configHash, None) =>
      if decide (configHash ≠ nss_DeployedConfigHash (ns_Status instance))
      then modify_obj (set_ns_Status (set_nss_ConfigHash configHash)) else mret ()
  end.

Definition ensure_services : MN Answer () :=
  instance ← get_obj;
  err ← on_world (EnsureServices instance);
  match err with
  | Some err =>
      _ ← ns_mark (λ cs, MarkFalse cs SetupReadyCondition ErrorReason SeverityError
            DataPlaneNodeSetErrorMessage [Error err]);
      return_ (emptyResult, Some err)
  | None => mret ()
  end.

(** The SSH secret of the nodes has the keys that are needed. *)
Definition verify_ssh_secret : MN Answer () :=
  instance ← get_obj;
  let ansibleSSHPrivateKeySecret := t_AnsibleSSHPrivateKeySecret (ns_NodeTemplate (ns_Spec instance)) in
  let secretKeys := AnsibleSSHPrivateKey ::
    (if negb (ns_PreProvisioned (ns_Spec instance)) then [AnsibleSSHAuthorizedKeys] else []) in
  r ← on_world (op (VerifySecret (mkNN (ns_Namespace instance) ansibleSSHPrivateKeySecret)
        secretKeys (seconds 5)));
  let '(result, err) := r in
  match err with
  | None => ns_mark (λ cs, MarkTrue cs InputReadyCondition InputReadyMessage [])
  | Some err =>
      _ ← ns_mark (λ cs,
        if decide (result ≠ emptyResult)
        then MarkFalse cs InputReadyCondition RequestedReason SeverityInfo InputReadyWaitingMessage
               ["secret/" +:+ ansibleSSHPrivateKeySecret]
        else MarkFalse cs InputReadyCondition RequestedReason SeverityError (Error err) []);
      return_ (result, Some err)
  end.

(** The service account, or its role binding. *)
Definition ensure_account (create : NamespacedName → W → W * Answer) : MN Answer () :=
  instance ← get_obj;
  r ← on_world (op (create (mkNN (ns_Namespace instance) (ns_Name instance))));
  let '(result, err) := r in
  match err with
  | Some err =>
      _ ← ns_mark (λ cs, MarkFalse cs ServiceAccountReadyCondition ErrorReason SeverityWarning
            ServiceAccountReadyErrorMessage [Error err]);
      return_ (result, Some err)
  | None =>
      if decide (result ≠ emptyResult) then
        _ ← ns_mark (λ cs, MarkFalse cs ServiceAccountReadyCondition RequestedReason SeverityInfo
              ServiceAccountCreatingMessage []);
        return_ (result, None)
      else mret ()
  end.

(** Reconcile BaremetalSet if required *)
Definition provision_baremetal (containerImages : ContainerImages) (allIPSets : gmap string IPSet)
    (dnsDetails : DNSDetails) : MN Answer () :=
  instance ← get_obj;
  if ns_PreProvisioned (ns_Spec instance) then mret ()
  else
    _ ← ns_mark (λ cs, MarkUnknown cs NodeSetBareMetalProvisionReadyCondition InitReason InitReason []);
    _ ← modify_obj (set_images containerImages);
    r ← call (DeployBaremetalSet allIPSets (dns_ServerAddresses dnsDetails));
    let '(isReady, err) := r in
    if bool_decide (err ≠ None) || negb isReady then return_ (emptyResult, err) else mret ().

(** The inventory is written unless a deployment is running or failed. *)
Definition write_inventory (deployments : Deployments) (containerImages : ContainerImages)
    (allIPSets : gmap string IPSet) (dnsDetails : DNSDetails) : MN Answer () :=
  if isDeploymentRunning deployments || isDeploymentFailed deployments then mret ()
  else
    instance ← get_obj;
    r ← on_world (GenerateNodeSetInventory instance allIPSets (dns_ServerAddresses dnsDetails)
          containerImages);
    match r.2 with
    | Some err =>
        _ ← ns_mark (λ cs, MarkFalse cs SetupReadyCondition ErrorReason SeverityError
              DataPlaneNodeSetErrorMessage
              [sprintf "Unable to generate inventory for %s" [ns_Name instance]]);
        return_ (emptyResult, Some err)
    | None => mret ()
    end.

(** The DeploymentReady condition. *)
Definition mark_deployment (d : Deployments) (cs : Conditions) : Conditions :=
  let cs :=
    if cond_is_unknown cs DeploymentReadyCondition
    then MarkFalse cs DeploymentReadyCondition RequestedReason SeverityInfo DeploymentReadyInitMessage []
    else cs in
  if isDeploymentReady d then MarkTrue cs DeploymentReadyCondition DeploymentReadyMessage []
  else if isDeploymentRunning d then
    MarkFalse cs DeploymentReadyCondition RequestedReason SeverityInfo DeploymentReadyRunningMessage []
  else if isDeploymentFailed d then
    MarkFalse cs DeploymentReadyCondition ErrorReason SeverityError
      (match deploymentErr d with Some err => Error err | None => "" end) []
  else cs.

(** Everything up to the deployments. *)
Definition setup : MN Answer (ContainerImages * gmap string IPSet * DNSDetails) :=
  _ ← modify_obj (set_ns_Status make_status_maps);
  _ ← ns_mark (λ cs, MarkFalse cs SetupReadyCondition RequestedReason SeverityInfo ReadyInitMessage []);
  _ ← update_hash;
  _ ← ensure_services;
  r ← call EnsureIPSets;
  let '(allIPSets, isReady, err) := r in
  _ ← (if bool_decide (err ≠ None) || negb isReady then return_ (emptyResult, err) else mret ());
  r ← call (EnsureDNSData allIPSets);
  let '(dnsDetails, err) := r in
  _ ← (if bool_decide (err ≠ None) || negb (dns_IsReady dnsDetails)
       then return_ (emptyResult, err) else mret ());
  _ ← modify_obj (set_ns_Status (set_nss_dns dnsDetails));
  _ ← verify_ssh_secret;
  _ ← ensure_account EnsureServiceAccount;
  _ ← ensure_account EnsureRoleBinding;
  _ ← ns_mark (λ cs, MarkTrue cs ServiceAccountReadyCondition ServiceAccountReadyMessage []);
  instance ← get_obj;
  version ← on_world (GetVersion (ns_Namespace instance));
  match version with
  | Fail err => return_ (emptyResult, Some err)
  | Ok version =>
      let containerImages := GetContainerImages package_images version in
      _ ← provision_baremetal containerImages allIPSets dnsDetails;
      mret (containerImages, allIPSets, dnsDetails)
  end.

(** What follows the look at the deployments, [d]. *)
Definition conclude_nodeset (d : Deployments) (containerImages : ContainerImages)
    (allIPSets : gmap string IPSet) (dnsDetails : DNSDetails) : MN Answer Answer :=
  if negb (isDeploymentFailed d) && bool_decide (deploymentErr d ≠ None) then
    _ ← ns_mark (λ cs, MarkFalse cs DeploymentReadyCondition ErrorReason SeverityError
          DeploymentReadyErrorMessage (Error <$> option_list (deploymentErr d)));
    return_ (emptyResult, deploymentErr d)
  else
    _ ← write_inventory d containerImages allIPSets dnsDetails;
    _ ← ns_mark (λ cs, MarkTrue cs SetupReadyCondition ReadyMessage []);
    _ ← ns_mark (mark_deployment d);
    mret (emptyResult, deploymentErr d).

(** Reconcile, from the point where the deferred function is installed. *)
Definition nodeset_body : MN Answer Answer :=
  r ← setup;
  let '(containerImages, allIPSets, dnsDetails) := r in
  d ← call checkDeployment;
  conclude_nodeset d containerImages allIPSets dnsDetails.

(** The deferred function, up to the patch. *)
Definition finish_nodeset (savedConditions : Conditions) (n : OpenStackDataPlaneNodeSet) :
    OpenStackDataPlaneNodeSet :=
  ns_upd (finish_conditions NodeSetReadyMessage savedConditions) n.

Definition prepare_nodeset (instance : OpenStackDataPlaneNodeSet) : OpenStackDataPlaneNodeSet :=
  set_ns_Status (set_nss_ObservedGeneration (m_Generation (ns_Meta instance)))
    (NodeSet_InitConditions instance).

(** The body with the deferred function, which runs on every exit, also
    while a panic unwinds. *)
Definition with_nodeset_patch (savedConditions : Conditions) (body : MN Answer Answer)
    (instance : OpenStackDataPlaneNodeSet) : M W Answer Answer := λ w,
  let '(o, s) := body (mkSt w instance) in
  let '(w', err) := PatchNodeSet (finish_nodeset savedConditions (obj s)) (world s) in
  (match o with
   | Next a | Return a => Return (match err with Some err => (a.1, Some err) | None => a end)
   | Panic => Panic
   end, w').

Definition NodeSet_Reconcile (req : NamespacedName) : M W Answer Answer :=
  r ← op (GetNodeSet req);
  match r with
  | Fail err =>
      if IsNotFound err then return_ (emptyResult, None) else return_ (emptyResult, Some err)
  | Ok instance =>
      with_nodeset_patch (ns_Conditions instance) nodeset_body (prepare_nodeset instance)
  end.

(** ** Watches *)

(** The index functions: the ConfigMaps, and the Secrets, a NodeSet takes
    its variables (and its SSH key) from. *)
Definition configmap_refs (varsFrom : list DataSource) : list string :=
  omap (λ ref, es_Name <$> ds_ConfigMapRef ref) varsFrom.
Definition secret_refs (varsFrom : list DataSource) : list string :=
  omap (λ ref, es_Name <$> ds_SecretRef ref) varsFrom.
Definition index_configmaps (nodeSet : OpenStackDataPlaneNodeSet) : list string :=
  fold_left (λ acc node, acc ++ configmap_refs (ao_AnsibleVarsFrom (n_Ansible node)))
    (range_values "index/configMaps" (ns_Nodes (ns_Spec nodeSet)))
    (configmap_refs (ao_AnsibleVarsFrom (t_Ansible (ns_NodeTemplate (ns_Spec nodeSet))))).
Definition index_secrets (nodeSet : OpenStackDataPlaneNodeSet) : list string :=
  let template := ns_NodeTemplate (ns_Spec nodeSet) in
  fold_left (λ acc node, acc ++ secret_refs (ao_AnsibleVarsFrom (n_Ansible node)))
    (range_values "index/secrets" (ns_Nodes (ns_Spec nodeSet)))
    ((if decide (t_AnsibleSSHPrivateKeySecret template ≠ "")
      then [t_AnsibleSSHPrivateKeySecret template] else []) ++
     secret_refs (ao_AnsibleVarsFrom (t_Ansible template))).

Definition secrets_selector : string := "spec.ansibleVarsFrom.ansible.secrets".
Definition configmaps_selector : string := "spec.ansibleVarsFrom.ansible.configMaps".

(** The requests for the NodeSets of an answer. *)
Definition requests_for (namespace : string) (r : result (list OpenStackDataPlaneNodeSet)) :
    list NamespacedName :=
  match r with
  | Fail _ => []
  | Ok nodeSets => (λ nodeSet, mkNN namespace (ns_Name nodeSet)) <$> nodeSets
  end.
Definition secretWatcherFn (kind : string) (obj : ObjectMeta) :
    M W (list NamespacedName) (list NamespacedName) :=
  let selector := if decide (to_lower kind = "secret") then secrets_selector else configmaps_selector in
  r ← op (ListNodeSetsByField (m_Namespace obj) selector (m_Name obj));
  mret (requests_for (m_Namespace obj) r).
Definition genericWatcherFn (obj : ObjectMeta) : M W (list NamespacedName) (list NamespacedName) :=
  r ← op (ListNodeSets (m_Namespace obj));
  mret (requests_for (m_Namespace obj) r).
(** The requests; the pods that failed are only logged. *)
Definition deploymentWatcherFn (deployment : OpenStackDataPlaneDeployment) : list NamespacedName :=
  mkNN (d_Namespace deployment) <$> d_NodeSets (d_Spec deployment).
End operations.

(** ** The state of the deployments *)

Section check_facts.
Context {W : Type} {KC : KubeClient W} {CO : ConditionOps} {CL : ConditionLaws CO}.
Context {MR : MapRange} {SF : SortFunc}.

(** What one deployment says about a NodeSet. *)
Inductive DeploymentState : Type := DFailed (message : string) | DRunning | DReady | DNone.
Definition conditions_in (name : string) (d : OpenStackDataPlaneDeployment) : Conditions :=
  default [] (ds_NodeSetConditions (d_Status d) !! name).
Definition deployment_state (name : string) (d : OpenStackDataPlaneDeployment) : DeploymentState :=
  let cs := conditions_in name d in
  match cond_get cs NodeSetDeploymentReadyCondition with
  | None => DNone
  | Some c =>
      if cond_is_error (Some c) then DFailed (Message c)
      else match Status c with CFalse => DRunning | CTrue => DReady | CUnknown => DNone end
  end.
Definition is_failed (st : DeploymentState) : bool := match st with DFailed _ => true | _ => false end.
Definition is_ready (st : DeploymentState) : bool := match st with DReady => true | _ => false end.
Definition is_running (st : DeploymentState) : bool := match st with DRunning => true | _ => false end.

(** The deployments that count: not being deleted, and of this NodeSet. *)
Definition relevant (name : string) (d : OpenStackDataPlaneDeployment) : bool :=
  m_DeletionTimestampIsZero (d_Meta d) && contains (d_NodeSets (d_Spec d)) name.
Definition relevants (name : string) : list OpenStackDataPlaneDeployment → list OpenStackDataPlaneDeployment :=
  filter (λ d, relevant name d).

(** The answer after these deployments, none of which failed: what the last
    one says. *)
Definition verdict (name : string) (l : list OpenStackDataPlaneDeployment) : Deployments :=
  let st := default DNone (deployment_state name <$> last l) in
  mkDeployments (is_ready st) (is_running st) false None.
(** The configuration and version that are deployed: of the last deployment
    that is ready, if there is one. *)
Definition deployed_of (name : string) (l : list OpenStackDataPlaneDeployment) (old : string * string) :
    string * string :=
  match last (filter (λ d, is_ready (deployment_state name d)) l) with
  | Some d => (default "" (entries (ds_NodeSetHashes (d_Status d)) !! name), ds_DeployedVersion (d_Status d))
  | None => old
  end.
Definition deployed_config (n : OpenStackDataPlaneNodeSet) : string * string :=
  (nss_DeployedConfigHash (ns_Status n), nss_DeployedVersion (ns_Status n)).

(** The three maps of the status were made. *)
Definition has_maps (n : OpenStackDataPlaneNodeSet) : Prop :=
  is_Some (nss_ConfigMapHashes (ns_Status n)) ∧ is_Some (nss_SecretHashes (ns_Status n)) ∧
  is_Some (nss_ContainerImages (ns_Status n)).

(** What stays of a NodeSet while its deployments are looked at. *)
Definition same_nodeset (n n' : OpenStackDataPlaneNodeSet) : Prop :=
  ns_Meta n' = ns_Meta n ∧ ns_Spec n' = ns_Spec n ∧ ns_Conditions n' = ns_Conditions n.

Lemma merge_map_spec {R} site src dst (s : St W OpenStackDataPlaneNodeSet) :
  is_Some dst →
  sat (R := R) (merge_map site src dst) s (λ o s', s' = s ∧ ∃ m, o = Next (Some m)).
Proof.
  intros [m Hm]. unfold merge_map.
  apply sat_for_acc with (I := λ _ b s', s' = s ∧ ∃ m, b = Some m); [by eauto| |naive_solver].
  intros kv l' b s1 _ [-> [m' ->]]. apply sat_ret. eauto.
Qed.

Lemma take_over_spec {R} d (s : St W OpenStackDataPlaneNodeSet) :
  has_maps (obj s) →
  sat (R := R) (take_over d) s (λ o s', o = Next () ∧ has_maps (obj s') ∧
    same_nodeset (obj s) (obj s') ∧ world s' = world s ∧
    deployed_config (obj s') =
      (default "" (entries (ds_NodeSetHashes (d_Status d)) !! ns_Name (obj s)), ds_DeployedVersion (d_Status d))).
Proof.
  intros (H1 & H2 & H3). unfold take_over. cbv zeta. apply sat_bind, sat_gets.
  apply sat_bind. eapply sat_mono; [by apply merge_map_spec|]. intros o s1 (-> & cms & ->).
  apply sat_bind. eapply sat_mono; [by apply merge_map_spec|]. intros o s2 (-> & secs & ->).
  apply sat_bind. eapply sat_mono; [by apply merge_map_spec|]. intros o s3 (-> & images & ->).
  apply sat_bind, sat_modify, sat_modify. split_and!; try done; eauto.
Qed.

(** One deployment. *)
Lemma check_one_spec acc d (s : St W OpenStackDataPlaneNodeSet) :
  has_maps (obj s) →
  isDeploymentFailed acc = false → deploymentErr acc = None →
  let name := ns_Name (obj s) in
  let st := deployment_state name d in
  sat (check_one acc d) s (λ o s',
    has_maps (obj s') ∧ same_nodeset (obj s) (obj s') ∧ world s' = world s ∧
    if relevant name d then
      match st with
      | DFailed message =>
          o = Return (mkDeployments false false true (Some (Errorf message []))) ∧
          deployed_config (obj s') = deployed_config (obj s)
      | _ =>
          o = Next (mkDeployments (is_ready st) (is_running st) false None) ∧
          deployed_config (obj s') = deployed_of name [d] (deployed_config (obj s))
      end
    else o = Next acc ∧ s' = s).
Proof.
  intros Hm Hf He name st. unfold check_one. apply sat_bind, sat_gets. fold name.
  unfold relevant. destruct (m_DeletionTimestampIsZero _); [|by apply sat_ret]. simpl.
  destruct (contains _ name); [|by apply sat_ret]. simpl.
  apply sat_bind, sat_ret, sat_bind, sat_modify.
  set (s1 := mkSt _ _). assert (has_maps (obj s1) ∧ same_nodeset (obj s) (obj s1) ∧
    deployed_config (obj s1) = deployed_config (obj s)) as (Hm1 & Hs1 & Hd1) by done.
  unfold st, deployment_state, deployed_of. simpl. fold (conditions_in name d).
  rewrite is_false_status, is_true_status. unfold status_of.
  rewrite filter_bool_cons, filter_nil. unfold deployment_state.
  destruct (cond_get (conditions_in name d) NodeSetDeploymentReadyCondition) as [c|].
  - destruct (cond_is_error (Some c)).
    { apply sat_bind, sat_ret, sat_return. by split_and!. }
    simpl. destruct (Status c) eqn:Hc; simpl.
    + apply sat_bind. eapply sat_mono; [by apply take_over_spec|].
      intros o s2 (-> & Hm2 & Hs2 & Hw2 & Hd2). apply sat_ret. rewrite Hf, He.
      split_and!; [done|destruct Hs1 as (?&?&?), Hs2 as (?&?&?); split_and!; congruence|done|done|].
      rewrite Hd2. done.
    + apply sat_ret. rewrite Hf, He. by split_and!.
    + apply sat_ret. rewrite Hf, He. by split_and!.
  - rewrite is_error_nil. simpl. apply sat_ret. rewrite Hf, He. by split_and!.
Qed.

Definition not_failed (name : string) (d : OpenStackDataPlaneDeployment) : Prop :=
  is_failed (deployment_state name d) = false.

Lemma relevants_snoc name l d :
  relevants name (l ++ [d]) = relevants name l ++ (if relevant name d then [d] else []).
Proof.
  unfold relevants. rewrite filter_app, filter_bool_cons, filter_nil. by destruct (relevant name d).
Qed.
Lemma deployed_of_snoc name l d old :
  deployed_of name (l ++ [d]) old = deployed_of name [d] (deployed_of name l old).
Proof.
  unfold deployed_of. rewrite filter_app. simpl. rewrite filter_bool_cons, filter_nil.
  destruct (is_ready _); [by rewrite last_snoc|by rewrite app_nil_r].
Qed.

Lemma check_loop (items : list OpenStackDataPlaneDeployment) (s : St W OpenStackDataPlaneNodeSet) :
  has_maps (obj s) →
  let name := ns_Name (obj s) in
  let l := relevants name items in
  sat (for_acc items check_one (mkDeployments false false false None)) s (λ o s',
    same_nodeset (obj s) (obj s') ∧ has_maps (obj s') ∧
    ((Forall (not_failed name) l ∧ o = Next (verdict name l) ∧
      deployed_config (obj s') = deployed_of name l (deployed_config (obj s))) ∨
     (∃ before d after message, l = before ++ d :: after ∧ Forall (not_failed name) before ∧
        deployment_state name d = DFailed message ∧
        o = Return (mkDeployments false false true (Some (Errorf message []))) ∧
        deployed_config (obj s') = deployed_of name before (deployed_config (obj s))))).
Proof.
  intros Hm name l.
  apply sat_for_acc with (I := λ rest acc s', ∃ done, items = done ++ rest ∧
    same_nodeset (obj s) (obj s') ∧ has_maps (obj s') ∧ Forall (not_failed name) (relevants name done) ∧
    acc = verdict name (relevants name done) ∧
    deployed_config (obj s') = deployed_of name (relevants name done) (deployed_config (obj s))).
  - exists []. by split_and!.
  - intros d rest acc s1 _ (done & Hl & Hs & Hm1 & Hf & -> & Hc).
    eapply sat_mono; [by apply check_one_spec|]. intros o s2 (Hm2 & Hs2 & _ & Ho).
    assert (ns_Name (obj s1) = name) as Hname by (unfold ns_Name; by destruct Hs as [-> _]).
    rewrite Hname in Ho.
    assert (same_nodeset (obj s) (obj s2)) as Hs3
      by (destruct Hs as (?&?&?), Hs2 as (?&?&?); split_and!; congruence).
    assert (∀ st', relevant name d = true → deployment_state name d = st' → is_failed st' = false →
      o = Next (mkDeployments (is_ready st') (is_running st') false None) ∧
      deployed_config (obj s2) = deployed_of name [d] (deployed_config (obj s1)) →
      ∃ done0, items = done0 ++ rest ∧ same_nodeset (obj s) (obj s2) ∧ has_maps (obj s2) ∧
        Forall (not_failed name) (relevants name done0) ∧ o = Next (verdict name (relevants name done0)) ∧
        deployed_config (obj s2) = deployed_of name (relevants name done0) (deployed_config (obj s))) as Hgo.
    { intros st' Hr Hst Hnf [-> Hd]. exists (done ++ [d]). rewrite <- app_assoc, relevants_snoc, Hr.
      split; [done|]. split; [done|]. split; [done|]. split_and!.
      - apply Forall_app. split; [done|]. constructor; [|constructor]. unfold not_failed. by rewrite Hst.
      - unfold verdict. by rewrite last_snoc, <- Hst.
      - by rewrite deployed_of_snoc, Hd, Hc. }
    destruct (relevant name d) eqn:Hr.
    + destruct (deployment_state name d) as [message| | |] eqn:Hst.
      * destruct Ho as [-> Hd]. split_and!; [done..|]. right.
        exists (relevants name done), d, (relevants name rest), message. unfold l. rewrite Hl.
        split_and!; [|done|done|done|congruence].
        unfold relevants. by rewrite filter_app, filter_bool_cons, Hr.
      * destruct (Hgo DRunning eq_refl eq_refl eq_refl Ho) as (done0 & ? & ? & ? & ? & -> & ?). by exists done0.
      * destruct (Hgo DReady eq_refl eq_refl eq_refl Ho) as (done0 & ? & ? & ? & ? & -> & ?). by exists done0.
      * destruct (Hgo DNone eq_refl eq_refl eq_refl Ho) as (done0 & ? & ? & ? & ? & -> & ?). by exists done0.
    + destruct Ho as [-> ->]. exists (done ++ [d]). rewrite <- app_assoc, relevants_snoc, Hr, app_nil_r.
      by split_and!.
  - intros acc s1 (done & Hl & Hs & Hm1 & Hf & -> & Hc). rewrite app_nil_r in Hl. subst done. auto 10.
Qed.

(** *** The order of the deployments *)

(** The time of the DeploymentReady condition. *)
Definition ready_time (d : OpenStackDataPlaneDeployment) : option Z :=
  LastTransitionTime <$> cond_get (d_Conditions d) DeploymentReadyCondition.
Definition dated (d : OpenStackDataPlaneDeployment) : Prop := is_Some (ready_time d).
Definition not_newer (a b : OpenStackDataPlaneDeployment) : Prop :=
  (default 0 (ready_time a) ≤ default 0 (ready_time b))%Z.
Lemma older_times a b ta tb :
  ready_time a = Some ta → ready_time b = Some tb → (older a b < 0)%Z ↔ (ta < tb)%Z.
Proof.
  unfold ready_time, older. intros (ca & -> & ->)%fmap_Some (cb & -> & ->)%fmap_Some.
  case_decide; lia.
Qed.
Lemma older_weak l : Forall dated l → strict_weak (λ a b, (older a b < 0)%Z) l.
Proof.
  intros Hl. assert (∀ a, a ∈ l → ∃ t, ready_time a = Some t) as Ht by (intros a Ha; by eapply Forall_forall in Hl).
  split_and!.
  - intros a (t & Ha)%Ht. rewrite older_times by done. lia.
  - intros a b c (ta & Ha)%Ht (tb & Hb)%Ht (tc & Hc)%Ht. rewrite !older_times by done. lia.
  - intros a b c (ta & Ha)%Ht (tb & Hb)%Ht (tc & Hc)%Ht. rewrite !older_times by done. lia.
Qed.

Lemma StronglySorted_mono {A} (R R' : A → A → Prop) (l : list A) :
  (∀ a b, a ∈ l → b ∈ l → R a b → R' a b) → StronglySorted R l → StronglySorted R' l.
Proof.
  intros HR Hs. induction Hs as [|a l Hs IH Ha]; constructor.
  - apply IH. intros b c Hb Hc. apply HR; by right.
  - rewrite Forall_forall in Ha |- *. intros b Hb. apply HR; [left|by right|by apply Ha].
Qed.
Lemma StronglySorted_filter {A} (R : A → A → Prop) (P : A → Prop) `{!∀ a, Decision (P a)} (l : list A) :
  StronglySorted R l → StronglySorted R (filter P l).
Proof.
  induction 1 as [|a l Hs IH Ha]; [constructor|]. rewrite filter_cons. case_decide; [|done].
  constructor; [done|]. rewrite Forall_forall in Ha |- *. intros b [_ Hb]%list_elem_of_filter. by apply Ha.
Qed.

(** The deployments that count, in the order they are looked at: the one the
    sort gives, oldest first when every deployment of the namespace has a
    DeploymentReady condition. *)
Definition oldest_first (name : string) (all l : list OpenStackDataPlaneDeployment) : Prop :=
  l = relevants name (sort_func older all) ∧ l ≡ₚ relevants name all ∧
  (Forall dated all → StronglySorted not_newer l).
Lemma oldest_first_sort {SL : SortFuncLaws SF} name all :
  oldest_first name all (relevants name (sort_func older all)).
Proof.
  split_and!; [done|unfold relevants; by rewrite sort_func_perm|]. intros Hd.
  apply StronglySorted_filter. eapply StronglySorted_mono; [|by apply sort_func_sorted, older_weak].
  setoid_rewrite sort_func_perm. intros a b Ha Hb. rewrite Forall_forall in Hd.
  destruct (Hd a Ha) as [ta Hta], (Hd b Hb) as [tb Htb]. unfold not_newer. simpl.
  rewrite (older_times b a tb ta), Hta, Htb by done. simpl. lia.
Qed.

Lemma checkDeployment_sat {SL : SortFuncLaws SF} (s : St W OpenStackDataPlaneNodeSet) :
  has_maps (obj s) →
  let name := ns_Name (obj s) in
  let old := deployed_config (obj s) in
  sat checkDeployment s (λ o s', same_nodeset (obj s) (obj s') ∧ has_maps (obj s') ∧
    match (ListDeployments (ns_Namespace (obj s)) (world s)).2 with
    | Fail err => o = Return (mkDeployments false false false (Some err)) ∧ obj s' = obj s
    | Ok all => ∃ l, oldest_first name all l ∧
        ((Forall (not_failed name) l ∧ o = Next (verdict name l) ∧
          deployed_config (obj s') = deployed_of name l old) ∨
         (∃ before d after message, l = before ++ d :: after ∧ Forall (not_failed name) before ∧
            deployment_state name d = DFailed message ∧
            o = Next (mkDeployments false false true (Some (Errorf message []))) ∧
            deployed_config (obj s') = deployed_of name before old))
    end).
Proof.
  intros Hm name old. unfold checkDeployment. apply sat_bind, sat_gets, sat_bind, sat_on_world, sat_op.
  destruct (ListDeployments _ _) as [w1 [all|err]]; cbn [fst snd]; [|by apply sat_return].
  apply sat_call. eapply sat_mono; [by apply check_loop|]. cbn [obj].
  intros o s' (Hs & Hm' & H).
  pose proof (oldest_first_sort name all) as Hp.
  destruct H as [(Hf & -> & Hd)|(before & d & after & message & Hl & Hf & Hst & -> & Hd)];
    (split; [done|]; split; [done|]; exists (relevants name (sort_func older all)); split; [done|]); [by left|right].
  by exists before, d, after, message.
Qed.

(** C11. What the deployments say about a NodeSet.  Those of the namespace
    that are not being deleted and name the NodeSet count, in the order the
    sort by age gives: from oldest to newest by their DeploymentReady conditions,
    provided that every Deployment of the namespace has one (otherwise the
    comparison is not an ordering, and only that the sort permutes is known).
    If none of them failed, the last one in this order alone decides whether
    the NodeSet is deployed or being deployed; the first one that failed
    ends the search, whatever comes after it, and its message is the error.
    The configuration hash and the version that are recorded as deployed
    are those of the last deployment that is ready among the ones looked
    at.  It does not panic, and changes neither the spec nor the
    conditions. *)
Theorem checkDeployment_spec {SL : SortFuncLaws SF} (s : St W OpenStackDataPlaneNodeSet) :
  has_maps (obj s) →
  let name := ns_Name (obj s) in
  let old := deployed_config (obj s) in
  sat checkDeployment s (λ o s', same_nodeset (obj s) (obj s') ∧ has_maps (obj s') ∧
    match (ListDeployments (ns_Namespace (obj s)) (world s)).2 with
    | Fail err => o = Return (mkDeployments false false false (Some err)) ∧ obj s' = obj s
    | Ok all => ∃ l, oldest_first name all l ∧
        ((Forall (not_failed name) l ∧ o = Next (verdict name l) ∧
          deployed_config (obj s') = deployed_of name l old) ∨
         (∃ before d after message, l = before ++ d :: after ∧ Forall (not_failed name) before ∧
            deployment_state name d = DFailed message ∧
            o = Next (mkDeployments false false true (Some (Errorf message []))) ∧
            deployed_config (obj s') = deployed_of name before old))
    end).
Proof. apply checkDeployment_sat. Qed.
End check_facts.

(** ** The phases of the reconciliation *)

Section phases.
Context {W : Type} {KC : KubeClient W} {LC : LibCommon W} {PR : Process W}.
Context {CO : ConditionOps} {CL : ConditionLaws CO} {V : Validation}.
Context {MR : MapRange} {MRL : MapRangeLaws MR} {PI : PackageImages}.
Context {IL : InventoryLib} {SF : SortFunc}.
Abbreviation status n t := (status_of (ns_Conditions n) t).

(** Only the conditions of these types changed, apart from SetupReady,
    which may have become False. *)
Definition touches (types : list string) (n n' : OpenStackDataPlaneNodeSet) : Prop :=
  ns_Meta n' = ns_Meta n ∧
  ns_PreProvisioned (ns_Spec n') = ns_PreProvisioned (ns_Spec n) ∧
  (∀ t, t ∉ types → t ≠ SetupReadyCondition → status n' t = status n t) ∧
  (status n' SetupReadyCondition = status n SetupReadyCondition ∨
   status n' SetupReadyCondition = Some CFalse).

#[export] Instance touches_preorder types : PreOrder (touches types).
Proof.
  split; [intros n; split_and!; auto|]. intros n1 n2 n3 (M1 & P1 & T1 & S1) (M2 & P2 & T2 & S2).
  split_and!; [congruence|congruence| |].
  - intros t Ht Hs. by rewrite T2, T1.
  - destruct S2 as [->|]; [|by right]. by destruct S1 as [?|?]; [left|right].
Qed.
Lemma touches_weaken types types' n n' : touches types n n' → types ⊆ types' → touches types' n n'.
Proof. intros (M & P & T & S) Hs. split_and!; try done. intros t Ht. apply T. set_solver. Qed.
Lemma touches_same_but types n n' :
  same_but types n n' → SetupReadyCondition ∉ types → touches types n n'.
Proof.
  intros [H1 H2] Hs. split_and!; [by rewrite H1|by rewrite H1|auto|left; by apply H2].
Qed.
Lemma touches_status types f n :
  (∀ s, nss_Conditions (f s) = nss_Conditions s) → touches types n (set_ns_Status f n).
Proof.
  intros Hf. unfold touches, ns_Conditions. simpl. rewrite Hf. by split_and!; auto.
Qed.
Lemma touches_setup types r s m a n :
  touches types n (ns_upd (λ cs, MarkFalse cs SetupReadyCondition r s m a) n).
Proof.
  split_and!; [done|done| |right; apply status_ns_MarkFalse].
  intros t _ Ht. unfold ns_Conditions. simpl. by rewrite status_MarkFalse, decide_False.
Qed.
Lemma frames_sat_touches {R A} types (m : M (St W OpenStackDataPlaneNodeSet) R A) :
  SetupReadyCondition ∉ types → (∀ s, sat m s (λ _ s', same_but types (obj s) (obj s'))) →
  frames (touches types) m.
Proof. intros Ht Hm s. by apply touches_same_but; [apply Hm|]. Qed.

Lemma update_hash_frame : frames (touches []) (update_hash (W := W)).
Proof. unfold update_hash. frame_tac. by apply touches_status. Qed.
Lemma ensure_services_frame : frames (touches []) ensure_services.
Proof. unfold ensure_services, ns_mark. frame_tac. apply touches_setup. Qed.
Lemma EnsureIPSets_frame : frames (touches [NodeSetIPReservationReadyCondition]) EnsureIPSets.
Proof.
  apply frames_sat_touches; [set_solver|]. intros s.
  eapply sat_mono; [apply EnsureIPSets_sat|]. by intros o s' [? _].
Qed.
Lemma EnsureDNSData_frame ips : frames (touches [NodeSetDNSDataReadyCondition]) (EnsureDNSData ips).
Proof.
  apply frames_sat_touches; [set_solver|]. intros s.
  eapply sat_mono; [apply EnsureDNSData_sat|]. by intros o s' [? _].
Qed.
Lemma DeployBaremetalSet_frame ips dns :
  frames (touches [NodeSetBareMetalProvisionReadyCondition]) (DeployBaremetalSet ips dns).
Proof.
  apply frames_sat_touches; [set_solver|]. intros s.
  eapply sat_mono; [apply DeployBaremetalSet_sat|]. by intros o s' [? _].
Qed.

(** In a NodeSet whose nodes are provisioned beforehand, or not ([pre]): the
    phase [m] only touches these conditions, and when it goes on it has made
    them True. *)
Context (pre : bool).
Definition is_pre (n : OpenStackDataPlaneNodeSet) : Prop := ns_PreProvisioned (ns_Spec n) = pre.
Definition achieves {R A} (types : list string) (m : M (St W OpenStackDataPlaneNodeSet) R A) : Prop :=
  ∀ s, is_pre (obj s) → touches types (obj s) (obj (m s).2) ∧
    match m s with (Next _, s') => ∀ t, t ∈ types → status (obj s') t = Some CTrue | _ => True end.

Lemma touches_pre types n n' : touches types n n' → is_pre n → is_pre n'.
Proof. unfold is_pre. intros (_ & -> & _). done. Qed.

Lemma achieves_nothing {R A} (m : M (St W OpenStackDataPlaneNodeSet) R A) :
  frames (touches []) m → achieves [] m.
Proof.
  intros Hm s _. split; [apply Hm|]. destruct (m s) as [[a|r|] s']; [|done..].
  by intros t ?%not_elem_of_nil.
Qed.

(** Two phases, the second from where the first one went on. *)
Lemma achieves_next types1 types2 n1 n2 n3 :
  touches types1 n1 n2 → touches types2 n2 n3 → SetupReadyCondition ∉ types1 →
  touches (types1 ++ types2) n1 n3 ∧
  ((∀ t, t ∈ types1 → status n2 t = Some CTrue) → (∀ t, t ∈ types2 → status n3 t = Some CTrue) →
   ∀ t, t ∈ types1 ++ types2 → status n3 t = Some CTrue).
Proof.
  intros H1 H2 Hs. split.
  - etransitivity; [apply (touches_weaken types1)|apply (touches_weaken types2)]; try done; set_solver.
  - intros Ht1 Ht2 t Ht. destruct (decide (t ∈ types2)); [by apply Ht2|].
    assert (t ∈ types1) as Hin by set_solver.
    destruct H2 as (_ & _ & H2 & _). rewrite H2 by (done || set_solver). by apply Ht1.
Qed.

Lemma achieves_bind {R A B} types1 types2 (m : M (St W OpenStackDataPlaneNodeSet) R A)
    (k : A → M (St W OpenStackDataPlaneNodeSet) R B) :
  SetupReadyCondition ∉ types1 →
  achieves types1 m → (∀ a, achieves types2 (k a)) → achieves (types1 ++ types2) (m ≫= k).
Proof.
  intros Hs Hm Hk s Hp. unfold mbind, M_bind. destruct (Hm s Hp) as [Ht1 Hn1].
  destruct (m s) as [[a|r|] s1]; [|split; [|done]; eapply touches_weaken; [done|set_solver]..].
  simpl in Ht1. destruct (Hk a s1 (touches_pre _ _ _ Ht1 Hp)) as [Ht2 Hn2].
  destruct (achieves_next _ _ _ _ _ Ht1 Ht2 Hs) as [Ht Hn]. split; [done|].
  destruct (k a s1) as [[b|r|] s2]; [|done..]. by apply Hn.
Qed.
Lemma achieves_skip {R A B} types (m : M (St W OpenStackDataPlaneNodeSet) R A)
    (k : A → M (St W OpenStackDataPlaneNodeSet) R B) :
  frames (touches []) m → (∀ a, achieves types (k a)) → achieves types (m ≫= k).
Proof.
  intros Hm Hk. apply (achieves_bind [] types); [set_solver|by apply achieves_nothing|done].
Qed.

(** A phase that only touches the conditions the next one makes True. *)
Lemma achieves_after {R A B} types1 types2 (m : M (St W OpenStackDataPlaneNodeSet) R A)
    (k : A → M (St W OpenStackDataPlaneNodeSet) R B) :
  types1 ⊆ types2 → frames (touches types1) m → (∀ a, achieves types2 (k a)) → achieves types2 (m ≫= k).
Proof.
  intros Hs Hm Hk s Hp. specialize (Hm s). unfold mbind, M_bind.
  destruct (m s) as [[a|r|] s1]; simpl in Hm; [|split; [by eapply touches_weaken|done]..].
  destruct (Hk a s1 (touches_pre _ _ _ Hm Hp)) as [Ht Hn]. split; [|done].
  etransitivity; [by eapply touches_weaken|done].
Qed.
Lemma achieves_get {R B} types (k : OpenStackDataPlaneNodeSet → M (St W OpenStackDataPlaneNodeSet) R B) :
  (∀ n, is_pre n → achieves types (k n)) → achieves types (get_obj ≫= k).
Proof. intros Hk s Hp. by apply Hk. Qed.

(** A call whose answer is looked at: the phase goes on only when it is
    [good]. *)
Lemma achieves_call {R A B} types1 types2 (m : M (St W OpenStackDataPlaneNodeSet) A A) (good : A → bool)
    (k : A → M (St W OpenStackDataPlaneNodeSet) R B) :
  SetupReadyCondition ∉ types1 →
  frames (touches types1) m →
  (∀ s, sat m s (λ o s', match o with
     | Next a | Return a => good a = true → ∀ t, t ∈ types1 → status (obj s') t = Some CTrue
     | Panic => True end)) →
  (∀ a, good a = true → achieves types2 (k a)) →
  (∀ a s, good a = false → obj (k a s).2 = obj s ∧ ∀ b s', k a s ≠ (Next b, s')) →
  achieves (types1 ++ types2) (call m ≫= k).
Proof.
  intros Hs Hf Hm Hk Hbad s Hp. specialize (Hf s). specialize (Hm s). unfold sat in Hm.
  assert (∀ a s1, touches types1 (obj s) (obj s1) →
    (good a = true → ∀ t, t ∈ types1 → status (obj s1) t = Some CTrue) →
    touches (types1 ++ types2) (obj s) (obj (k a s1).2) ∧
    match k a s1 with
    | (Next _, s') => ∀ t, t ∈ types1 ++ types2 → status (obj s') t = Some CTrue
    | _ => True
    end) as Hend.
  { intros a s1 Ht1 Hn1. destruct (good a) eqn:Hg.
    - destruct (Hk a Hg s1 (touches_pre _ _ _ Ht1 Hp)) as [Ht2 Hn2].
      destruct (achieves_next _ _ _ _ _ Ht1 Ht2 Hs) as [Ht Hn]. split; [done|].
      destruct (k a s1) as [[b|r|] s2]; [|done..]. apply Hn; auto.
    - destruct (Hbad a s1 Hg) as [Ho Hn]. rewrite Ho.
      split; [eapply touches_weaken; [done|set_solver]|].
      destruct (k a s1) as [[b|r|] s2]; [by destruct (Hn b s2)|done..]. }
  unfold mbind, M_bind, call. destruct (m s) as [[a|a|] s1]; simpl in *; [by apply Hend|by apply Hend|].
  split; [eapply touches_weaken; [done|set_solver]|done].
Qed.

Lemma achieves_mark t m a :
  t ≠ SetupReadyCondition → achieves (R := Result * option Err) [t] (ns_mark (λ cs, MarkTrue cs t m a)).
Proof.
  intros Ht s _. split.
  - apply touches_same_but; [apply same_but_MarkTrue|set_solver].
  - simpl. intros t' ->%list_elem_of_singleton. apply status_ns_MarkTrue.
Qed.

Lemma verify_ssh_secret_achieves : achieves [InputReadyCondition] verify_ssh_secret.
Proof.
  unfold verify_ssh_secret. apply achieves_skip; [frame_tac|]. intros n. cbv zeta.
  apply achieves_skip; [frame_tac|]. intros [result [err|]]; [|by apply achieves_mark].
  intros s _. split; [|done]. apply touches_same_but; [|set_solver]. simpl.
  case_decide; apply same_but_MarkFalse.
Qed.

Lemma ensure_account_frame create :
  frames (touches [ServiceAccountReadyCondition]) (ensure_account (W := W) create).
Proof.
  unfold ensure_account, ns_mark. frame_tac; (apply touches_same_but; [apply same_but_MarkFalse|set_solver]).
Qed.

(** The account and its role binding, and the mark after both. *)
Lemma accounts_achieve {B} types (k : M (St W OpenStackDataPlaneNodeSet) (Result * option Err) B) :
  achieves types k →
  achieves (ServiceAccountReadyCondition :: types) (
    _ ← ensure_account EnsureServiceAccount;
    _ ← ensure_account EnsureRoleBinding;
    _ ← ns_mark (λ cs, MarkTrue cs ServiceAccountReadyCondition ServiceAccountReadyMessage []);
    k).
Proof.
  intros Hk. do 2 (eapply achieves_after; [|apply ensure_account_frame|intros _]; [set_solver|]).
  apply (achieves_bind [ServiceAccountReadyCondition] types); [set_solver|by apply achieves_mark|done].
Qed.

Definition baremetal_types : list string :=
  if pre then [] else [NodeSetBareMetalProvisionReadyCondition].

Lemma provision_baremetal_achieves images ips d :
  achieves baremetal_types (provision_baremetal images ips d).
Proof.
  unfold provision_baremetal, baremetal_types. apply achieves_get. intros n ->.
  destruct pre eqn:Hpre; [apply achieves_nothing; frame_tac|].
  eapply achieves_after; [done| |intros _].
  { intros s. apply touches_same_but; [apply same_but_MarkUnknown|set_solver]. }
  apply achieves_skip; [frame_tac; by split_and!; auto|]. intros _.
  apply (achieves_call [NodeSetBareMetalProvisionReadyCondition] [] _
    (λ r, negb (bool_decide (r.2 ≠ None) || negb r.1))); [set_solver|apply DeployBaremetalSet_frame|..].
  - intros s. eapply sat_mono; [apply DeployBaremetalSet_sat|]. intros o s' [_ H].
    destruct (decide _); [by destruct H as [[err ->] _]|].
    destruct (CreateOrPatchBaremetalSet _ _ _ _).2 as [[b|err]|]; [destruct (bs_IsReady b)|..];
      try (by destruct H as [-> _]); [|by rewrite H].
    destruct H as [-> Ht]. by intros _ t ->%list_elem_of_singleton.
  - intros [isReady err] Hg. apply negb_true_iff in Hg. simpl in Hg. rewrite Hg.
    apply achieves_nothing; frame_tac.
  - intros [isReady err] s Hg. apply negb_false_iff in Hg. simpl in Hg. by rewrite Hg.
Qed.

(** ** The setup *)

Definition setup_types : list string :=
  [NodeSetIPReservationReadyCondition; NodeSetDNSDataReadyCondition; InputReadyCondition;
   ServiceAccountReadyCondition] ++ baremetal_types.

Lemma setup_achieves : achieves setup_types setup.
Proof.
  unfold setup.
  apply achieves_skip; [frame_tac; by apply touches_status|intros _].
  apply achieves_skip; [intros s; apply touches_setup|intros _].
  apply achieves_skip; [apply update_hash_frame|intros _].
  apply achieves_skip; [apply ensure_services_frame|intros _].
  apply (achieves_call [NodeSetIPReservationReadyCondition] (_ :: _ :: _ :: _) _
    (λ r, negb (bool_decide (r.2 ≠ None) || negb r.1.2))); [set_solver|apply EnsureIPSets_frame|..].
  { intros s. eapply sat_mono; [apply EnsureIPSets_sat|]. intros [r|r|] s' [_ H]; [..|done].
    - destruct H as (ips & -> & Ht & _). by intros _ t ->%list_elem_of_singleton.
    - destruct H as (err & -> & _). simpl. by rewrite orb_true_r. }
  2:{ intros [[ips isReady] err] s Hg. apply negb_false_iff in Hg. simpl in Hg. by rewrite Hg. }
  intros [[ips isReady] err] Hg. apply negb_true_iff in Hg. simpl in Hg. rewrite Hg.
  apply achieves_skip; [frame_tac|]. intros _.
  apply (achieves_call [NodeSetDNSDataReadyCondition] (_ :: _ :: _) _
    (λ r, negb (bool_decide (r.2 ≠ None) || negb (dns_IsReady r.1)))); [set_solver|apply EnsureDNSData_frame|..].
  { intros s. eapply sat_mono; [apply EnsureDNSData_sat|]. intros [[d e]|[d e]|] s' [_ H]; [..|done].
    - destruct H as (_ & _ & Ht). by intros _ t ->%list_elem_of_singleton.
    - destruct H as [Hr _]. simpl. by rewrite Hr, orb_true_r. }
  2:{ intros [d e] s Hd. apply negb_false_iff in Hd. simpl in Hd. by rewrite Hd. }
  intros [d e] Hd. apply negb_true_iff in Hd. simpl in Hd. rewrite Hd.
  apply achieves_skip; [frame_tac|]. intros _.
  apply achieves_skip; [frame_tac; by apply touches_status|]. intros _.
  apply (achieves_bind [InputReadyCondition] (_ :: _)); [set_solver|apply verify_ssh_secret_achieves|]. intros _.
  apply accounts_achieve. apply achieves_skip; [frame_tac|]. intros n.
  apply achieves_skip; [frame_tac|]. intros [version|verr];
    [|intros s _; split; [|done]; reflexivity].
  rewrite <- (app_nil_r baremetal_types).
  apply achieves_bind; [unfold baremetal_types; destruct pre; set_solver|apply provision_baremetal_achieves|].
  intros _. apply achieves_nothing; frame_tac.
Qed.
End phases.

(** ** The whole reconciliation *)

Section facts.
Context {W : Type} {KC : KubeClient W} {LC : LibCommon W} {PR : Process W}.
Context {CO : ConditionOps} {CL : ConditionLaws CO} {V : Validation}.
Context {MR : MapRange} {MRL : MapRangeLaws MR} {PI : PackageImages}.
Context {IL : InventoryLib} {SF : SortFunc}.
Abbreviation status n t := (status_of (ns_Conditions n) t).

#[export] Instance same_nodeset_preorder : PreOrder same_nodeset.
Proof. split; [by intros n|]. intros n1 n2 n3 (?&?&?) (?&?&?). split_and!; congruence. Qed.

Lemma checkDeployment_frame : frames same_nodeset checkDeployment.
Proof.
  unfold checkDeployment, check_one, take_over, merge_map.
  frame_tac; try done; by apply frames_map_set, _.
Qed.
Lemma write_inventory_frame d images ips dns : frames (touches []) (write_inventory d images ips dns).
Proof. unfold write_inventory, ns_mark. frame_tac; apply touches_setup. Qed.

(** The NodeSet is set up: what [setup] makes True, in a NodeSet as
    [instance]. *)
Definition setup_conditions (instance : OpenStackDataPlaneNodeSet) : list string :=
  setup_types (ns_PreProvisioned (ns_Spec instance)).

(** Where the body ends: before the setup is complete, or after the
    deployments were looked at, with the answer [d]. *)
Definition incomplete (n : OpenStackDataPlaneNodeSet) : Prop :=
  status n SetupReadyCondition ∈ [Some CUnknown; Some CFalse] ∧
  status n DeploymentReadyCondition ∈ [Some CUnknown; Some CFalse].
Definition completed (instance : OpenStackDataPlaneNodeSet) (d : Deployments)
    (n : OpenStackDataPlaneNodeSet) : Prop := ∀ t,
  status n t =
    if decide (t = DeploymentReadyCondition) then Some (if isDeploymentReady d then CTrue else CFalse)
    else if decide (t ∈ SetupReadyCondition :: setup_conditions instance) then Some CTrue
    else if decide (t = ReadyCondition ∨ t ∈ NodeSet_types instance) then Some CUnknown else None.

(** The state the deployments are looked at in. *)
Definition after_setup (w : W) (instance : OpenStackDataPlaneNodeSet) : St W OpenStackDataPlaneNodeSet :=
  (setup (mkSt w (prepare_nodeset instance))).2.

Lemma status_prepare instance t :
  status (prepare_nodeset instance) t =
    if decide (t = ReadyCondition ∨ t ∈ NodeSet_types instance) then Some CUnknown else None.
Proof.
  change (ns_Conditions (prepare_nodeset instance)) with (ns_Conditions (NodeSet_InitConditions instance)).
  unfold ns_Conditions. simpl. rewrite status_cond_init by apply NodeSet_condition_list_unknown.
  by rewrite NodeSet_condition_list_types.
Qed.

Lemma status_mark_deployment d cs t :
  status_of cs DeploymentReadyCondition = Some CUnknown →
  status_of (mark_deployment d cs) t =
    if decide (t = DeploymentReadyCondition) then Some (if isDeploymentReady d then CTrue else CFalse)
    else status_of cs t.
Proof.
  intros Hu. unfold mark_deployment. cbv zeta.
  rewrite is_unknown_status, Hu, bool_decide_eq_true_2 by auto.
  destruct (isDeploymentReady d), (isDeploymentRunning d), (isDeploymentFailed d);
    rewrite ?status_MarkTrue, ?status_MarkFalse; by case_decide.
Qed.

(** What a phase that touches these conditions leaves of the initial ones. *)
Lemma touches_incomplete instance n types :
  touches types (prepare_nodeset instance) n → DeploymentReadyCondition ∉ types → incomplete n.
Proof.
  intros (_ & _ & Ht & Hs) Hd. split.
  - destruct Hs as [->| ->]; [rewrite status_prepare, decide_True by set_solver|]; set_solver.
  - rewrite Ht by done. rewrite status_prepare, decide_True by set_solver. set_solver.
Qed.
Lemma setup_conditions_others instance :
  DeploymentReadyCondition ∉ setup_conditions instance ∧ ReadyCondition ∉ setup_conditions instance.
Proof. unfold setup_conditions, setup_types, baremetal_types. destruct (ns_PreProvisioned _); set_solver. Qed.

(** The end of the body, when everything went well. *)
Lemma completes instance n d :
  touches (setup_conditions instance) (prepare_nodeset instance) n →
  (∀ t, t ∈ setup_conditions instance → status n t = Some CTrue) →
  completed instance d (ns_upd (mark_deployment d)
    (ns_upd (λ cs, MarkTrue cs SetupReadyCondition ReadyMessage []) n)).
Proof.
  intros (_ & _ & Ht & _) Hs t. destruct (setup_conditions_others instance) as [Hd _].
  unfold ns_Conditions. simpl. rewrite status_mark_deployment.
  2:{ rewrite status_MarkTrue, decide_False by done. trans (status n DeploymentReadyCondition); [done|].
      rewrite Ht by done. by rewrite status_prepare, decide_True by set_solver. }
  case_decide; [done|]. rewrite status_MarkTrue.
  destruct (decide (t = SetupReadyCondition)) as [->|Hn]; [by rewrite decide_True by left|].
  case_decide as Hin.
  - apply Hs. set_solver.
  - trans (status n t); [done|]. rewrite Ht by set_solver. by rewrite status_prepare.
Qed.

Lemma incomplete_mark_deployment r s m a n :
  incomplete n → incomplete (ns_upd (λ cs, MarkFalse cs DeploymentReadyCondition r s m a) n).
Proof.
  intros [H1 H2]. unfold incomplete, ns_Conditions in *. simpl.
  rewrite !status_MarkFalse, decide_False, decide_True by done. set_solver.
Qed.

(** The object is the one the setup was run on, as far as the setup goes. *)
Definition set_up (instance n : OpenStackDataPlaneNodeSet) : Prop :=
  touches (setup_conditions instance) (prepare_nodeset instance) n ∧
  ∀ t, t ∈ setup_conditions instance → status n t = Some CTrue.
Lemma set_up_incomplete instance n : set_up instance n → incomplete n.
Proof. intros [Ht _]. eapply touches_incomplete; [done|]. by destruct (setup_conditions_others instance). Qed.
Lemma set_up_touches instance n n' : set_up instance n → touches [] n n' → set_up instance n'.
Proof.
  intros [Ht Hs] Hn. split.
  - etransitivity; [done|]. eapply touches_weaken; [done|set_solver].
  - intros t Hin. destruct Hn as (_ & _ & Hn & _). rewrite Hn; [auto|set_solver|].
    unfold setup_conditions, setup_types, baremetal_types in Hin.
    destruct (ns_PreProvisioned _); set_solver.
Qed.
Lemma set_up_same instance n n' : set_up instance n → same_nodeset n n' → set_up instance n'.
Proof.
  intros [(?&?&?&?) Hs] (Hm & Hsp & Hc). unfold set_up, touches. rewrite Hc, Hm, Hsp. done.
Qed.

Lemma conclude_nodeset_spec instance d images ips dns (s : St W OpenStackDataPlaneNodeSet) :
  set_up instance (obj s) →
  sat (conclude_nodeset d images ips dns) s (λ _ s',
    incomplete (obj s') ∨ completed instance d (obj s')).
Proof.
  intros Hs. unfold conclude_nodeset. destruct (negb _ && _).
  { apply sat_bind, sat_modify, sat_return. left.
    by eapply incomplete_mark_deployment, set_up_incomplete. }
  apply sat_bind. pose proof (write_inventory_frame d images ips dns s) as Hw. unfold sat at 1.
  destruct (write_inventory d images ips dns s) as [o s1]. cbn [fst snd] in *.
  apply (set_up_touches instance) in Hw; [|done].
  destruct o as [?|r|]; [|left; by eapply set_up_incomplete..].
  apply sat_bind, sat_modify, sat_bind, sat_modify, sat_ret. right. cbn [obj].
  apply completes; apply Hw.
Qed.

(** Ready is left to the deferred function. *)
Definition same_ready (n n' : OpenStackDataPlaneNodeSet) : Prop :=
  status n' ReadyCondition = status n ReadyCondition.
#[export] Instance same_ready_preorder : PreOrder same_ready.
Proof. split; [by intros n|]. unfold same_ready. intros n1 n2 n3 ??. congruence. Qed.

Lemma conclude_nodeset_ready d images ips dns : frames same_ready (conclude_nodeset d images ips dns).
Proof.
  unfold conclude_nodeset, ns_mark. frame_tac; unfold same_ready, ns_Conditions; simpl;
    try by rewrite ?status_MarkTrue, ?status_MarkFalse, decide_False.
  - intros s. simpl. pose proof (write_inventory_frame d images ips dns s) as (_ & _ & Hw & _).
    by apply Hw; [set_solver|].
  - unfold mark_deployment. cbv zeta.
    repeat case_match; by rewrite ?status_MarkTrue, ?status_MarkFalse, ?decide_False.
Qed.

Lemma nodeset_body_spec (w : W) instance :
  sat nodeset_body (mkSt w (prepare_nodeset instance)) (λ o s',
    status (obj s') ReadyCondition = Some CUnknown ∧
    (incomplete (obj s') ∨
     ∃ d, run checkDeployment (after_setup w instance) = Some d ∧ completed instance d (obj s'))).
Proof.
  destruct (setup_conditions_others instance) as [Hnd Hnr].
  destruct (setup_achieves (ns_PreProvisioned (ns_Spec instance)) (mkSt w (prepare_nodeset instance)) eq_refl)
    as [Ht Hn]. fold (setup_conditions instance) (after_setup w instance) in Ht, Hn. cbn [obj] in Ht.
  assert (status (obj (after_setup w instance)) ReadyCondition = Some CUnknown) as Hr.
  { destruct Ht as (_ & _ & Ht & _). rewrite Ht by done. by rewrite status_prepare, decide_True by auto. }
  unfold nodeset_body. apply sat_bind. unfold sat at 1. unfold after_setup in *.
  destruct (setup _) as [[[[images ips] dns]|r|] s1]; cbn [fst snd] in *;
    [|split; eauto using touches_incomplete..].
  pose proof (conj Ht Hn : set_up instance (obj s1)) as Hs.
  apply sat_bind, sat_call. unfold run. pose proof (checkDeployment_frame s1) as Hf. unfold sat at 1.
  destruct (checkDeployment s1) as [o s2]. cbn [fst snd] in *.
  assert (status (obj s2) ReadyCondition = Some CUnknown) as Hr2 by (by destruct Hf as (_ & _ & ->)).
  apply (set_up_same instance) in Hf; [|done].
  destruct o as [d|d|]; [| |split; eauto using set_up_incomplete].
  all: eapply sat_mono;
    [apply (sat_and _ _ _ (λ _ s', same_ready (obj s2) (obj s')) (conclude_nodeset_spec instance d images ips dns s2 Hf));
     apply conclude_nodeset_ready|].
  all: simpl; intros o s' [Hc Hr']; split; [by rewrite Hr'|destruct Hc; eauto].
Qed.
End facts.

(** ** Properties of the reconciliation and of the watches *)

Section properties.
Context {W : Type} {KC : KubeClient W} {LC : LibCommon W} {PR : Process W}.
Context {CO : ConditionOps} {V : Validation} {MR : MapRange} {PI : PackageImages}.
Context {IL : InventoryLib} {SF : SortFunc}.
Abbreviation status n t := (status_of (ns_Conditions n) t).

(** The state the body ends in, and the object that is patched. *)
Definition nodeset_end (w : W) (instance : OpenStackDataPlaneNodeSet) : St W OpenStackDataPlaneNodeSet :=
  (nodeset_body (mkSt w (prepare_nodeset instance))).2.
Definition nodeset_patched (w : W) (instance : OpenStackDataPlaneNodeSet) : OpenStackDataPlaneNodeSet :=
  finish_nodeset (ns_Conditions instance) (obj (nodeset_end w instance)).

(** Baremetal hosts are listed only when there are some to provision. *)
Definition hosts_consistent (instance : OpenStackDataPlaneNodeSet) : Prop :=
  ns_PreProvisioned (ns_Spec instance) = true →
  entries (b_BaremetalHosts (ns_BaremetalSetTemplate (ns_Spec instance))) = ∅.

Lemma all_true_completed `{!ConditionLaws CO} instance d (n : OpenStackDataPlaneNodeSet) :
  completed instance d n →
  all_true (ns_Conditions n) ↔ isDeploymentReady d = true ∧ hosts_consistent instance.
Proof.
  intros Hc. unfold all_true, hosts_consistent. setoid_rewrite Hc. split.
  - intros H. pose proof (H DeploymentReadyCondition _ ltac:(done) eq_refl) as Hd.
    split; [by destruct (isDeploymentReady d)|].
    intros Hpre. specialize (H NodeSetBareMetalProvisionReadyCondition).
    rewrite decide_False in H by done.
    unfold setup_conditions, setup_types, baremetal_types, NodeSet_types in H. rewrite Hpre in H.
    destruct (decide (entries _ = ∅)) as [|Hne]; [done|]. exfalso.
    rewrite decide_False in H by set_solver. rewrite decide_True in H by set_solver.
    by specialize (H _ ltac:(done) eq_refl).
  - intros [-> Hh] t st Ht. case_decide as Hd; [by intros [= <-]|].
    case_decide as Hs; [by intros [= <-]|]. case_decide as Hi; [|done]. exfalso. apply Hs.
    destruct Hi as [?|Hi]; [done|]. unfold setup_conditions, setup_types, baremetal_types.
    unfold NodeSet_types in Hi. destruct (ns_PreProvisioned _).
    + rewrite Hh in Hi by done. rewrite decide_True in Hi by done. set_solver.
    + destruct (decide (entries _ = ∅)); set_solver.
Qed.

Lemma NodeSet_Reconcile_patches req w w1 instance :
  GetNodeSet req w = (w1, Ok instance) →
  (NodeSet_Reconcile req w).2 =
    (PatchNodeSet (nodeset_patched w1 instance) (world (nodeset_end w1 instance))).1.
Proof.
  intros Hg. unfold NodeSet_Reconcile, op, mbind, M_bind. rewrite Hg.
  unfold with_nodeset_patch, nodeset_patched, nodeset_end.
  destruct (nodeset_body _) as [o s']. simpl. by destruct (PatchNodeSet _ _).
Qed.

(** C10. [Reconcile] of a NodeSet always ends by patching its status, also
    when the body returns early or panics.  In the status it writes,
    SetupReady is True only when the addresses are reserved, the DNS data
    is ready, the inputs were checked, the service account exists and, for
    nodes to be provisioned, the baremetal set is provisioned.
    DeploymentReady is True only when the setup is, and the look at the
    deployments found the NodeSet deployed.  Ready is True exactly when both
    are, except that a NodeSet of provisioned nodes that lists baremetal
    hosts never becomes Ready. *)
Theorem NodeSet_Reconcile_ready `{!ConditionLaws CO} `{!MapRangeLaws MR}
    (req : NamespacedName) (w w1 : W) (instance : OpenStackDataPlaneNodeSet) :
  GetNodeSet req w = (w1, Ok instance) →
  let n := nodeset_patched w1 instance in
  (NodeSet_Reconcile req w).2 = (PatchNodeSet n (world (nodeset_end w1 instance))).1 ∧
  (status n SetupReadyCondition = Some CTrue →
     ∀ t, t ∈ setup_conditions instance → status n t = Some CTrue) ∧
  (status n DeploymentReadyCondition = Some CTrue →
     status n SetupReadyCondition = Some CTrue ∧
     isDeploymentReady <$> run checkDeployment (after_setup w1 instance) = Some true) ∧
  (status n ReadyCondition = Some CTrue ↔
     status n SetupReadyCondition = Some CTrue ∧ status n DeploymentReadyCondition = Some CTrue ∧
     hosts_consistent instance).
Proof.
  intros Hg n. split; [by apply NodeSet_Reconcile_patches|].
  pose proof (nodeset_body_spec w1 instance) as Hb. unfold sat in Hb. fold (nodeset_end w1 instance) in Hb.
  set (n1 := obj (nodeset_end w1 instance)) in *. destruct Hb as [Hu Hb].
  assert (∀ t, t ≠ ReadyCondition → status n t = status n1 t) as Hother
    by (intros t; apply finish_other).
  assert (status n ReadyCondition = Some CTrue ↔ all_true (ns_Conditions n1)) as -> by (by apply finish_Ready).
  destruct (setup_conditions_others instance) as [Hnd Hnr].
  rewrite !Hother by done. destruct Hb as [[Hs Hd]|(d & Hrun & Hc)].
  - assert (status n1 SetupReadyCondition ≠ Some CTrue) by (intros Heq; rewrite Heq in Hs; set_solver).
    assert (status n1 DeploymentReadyCondition ≠ Some CTrue) by (intros Heq; rewrite Heq in Hd; set_solver).
    split_and!; [done|done|]. split; [|by intros []]. intros Hall. exfalso.
    rewrite !elem_of_cons in Hs. destruct Hs as [Hs|[Hs|Hs%not_elem_of_nil]]; [..|done];
      by specialize (Hall SetupReadyCondition _ ltac:(done) Hs).
  - assert (status n1 SetupReadyCondition = Some CTrue) as Hset
      by (rewrite Hc, decide_False, decide_True by (done || by left); done).
    split_and!.
    + intros _ t Ht. rewrite Hother by congruence. rewrite Hc, decide_False, decide_True by (congruence || by right). done.
    + rewrite Hc, decide_True, Hrun by done. simpl. by destruct (isDeploymentReady d).
    + rewrite (all_true_completed instance d n1) by done. rewrite (Hc DeploymentReadyCondition), decide_True by done.
      destruct (isDeploymentReady d); intuition congruence.
Qed.
End properties.

(** ** The watches *)

(** The API server answers a field selector from the indexes the manager
    registers: of the NodeSets a plain list gives, those whose index function
    yields the value. *)
Class FieldIndexes {W} (KC : KubeClient W) (MR : MapRange) : Prop := {
  list_by_secret namespace name w w' l :
    ListNodeSetsByField namespace secrets_selector name w = (w', Ok l) →
    ∃ all, (ListNodeSets namespace w).2 = Ok all ∧ ∀ n, n ∈ l ↔ n ∈ all ∧ name ∈ index_secrets n;
  list_by_configmap namespace name w w' l :
    ListNodeSetsByField namespace configmaps_selector name w = (w', Ok l) →
    ∃ all, (ListNodeSets namespace w).2 = Ok all ∧ ∀ n, n ∈ l ↔ n ∈ all ∧ name ∈ index_configmaps n;
}.

Section watches.
Context {W : Type} {KC : KubeClient W} {MR : MapRange}.

(** The sources of variables of a NodeSet, of the template and of every
    node. *)
Definition is_source (n : OpenStackDataPlaneNodeSet) (source : DataSource) : Prop :=
  source ∈ ao_AnsibleVarsFrom (t_Ansible (ns_NodeTemplate (ns_Spec n))) ∨
  ∃ k node, ns_Nodes (ns_Spec n) !! k = Some node ∧ source ∈ ao_AnsibleVarsFrom (n_Ansible node).
Definition refers_configmap (n : OpenStackDataPlaneNodeSet) (name : string) : Prop :=
  ∃ source, is_source n source ∧ es_Name <$> ds_ConfigMapRef source = Some name.
Definition refers_secret (n : OpenStackDataPlaneNodeSet) (name : string) : Prop :=
  (name ≠ "" ∧ t_AnsibleSSHPrivateKeySecret (ns_NodeTemplate (ns_Spec n)) = name) ∨
  ∃ source, is_source n source ∧ es_Name <$> ds_SecretRef source = Some name.

Lemma elem_of_refs `{!MapRangeLaws MR} (site : string) (f : DataSource → option string) n first name :
  name ∈ fold_left (λ acc node, acc ++ omap f (ao_AnsibleVarsFrom (n_Ansible node)))
           (range_values site (ns_Nodes (ns_Spec n)))
           (first ++ omap f (ao_AnsibleVarsFrom (t_Ansible (ns_NodeTemplate (ns_Spec n))))) ↔
  name ∈ first ∨ ∃ source, is_source n source ∧ f source = Some name.
Proof.
  rewrite (elem_of_fold_app (λ node, omap f (ao_AnsibleVarsFrom (n_Ansible node)))).
  rewrite elem_of_app, list_elem_of_omap. setoid_rewrite elem_of_range_values.
  setoid_rewrite list_elem_of_omap. unfold is_source. split.
  - intros [[?|(x & ? & ?)]|(node & [k ?] & x & ? & ?)]; [by left|right; eauto..]. eauto 10.
  - intros [?|(x & [?|(k & node & ? & ?)] & ?)]; [left; by left|left; right; eauto|right; eauto 10].
Qed.
Lemma index_configmaps_spec `{!MapRangeLaws MR} n name : name ∈ index_configmaps n ↔ refers_configmap n name.
Proof.
  pose proof (elem_of_refs "index/configMaps" (λ ref, es_Name <$> ds_ConfigMapRef ref) n [] name) as H.
  unfold index_configmaps, configmap_refs, refers_configmap. simpl in H. rewrite H. clear.
  rewrite elem_of_nil. tauto.
Qed.
Lemma index_secrets_spec `{!MapRangeLaws MR} n name : name ∈ index_secrets n ↔ refers_secret n name.
Proof.
  unfold index_secrets, secret_refs, refers_secret. cbv zeta.
  rewrite (elem_of_refs "index/secrets" (λ ref, es_Name <$> ds_SecretRef ref)).
  case_decide; rewrite ?list_elem_of_singleton, ?elem_of_nil; intuition congruence.
Qed.

(** C36. A change of a ConfigMap or a Secret (told apart by the kind, in any
    case) triggers the reconciliation of exactly the NodeSets of its
    namespace that refer to it: among the sources of variables of the
    template or of a node, or, for a Secret, as the SSH key.  Nothing is
    triggered when the NodeSets cannot be listed. *)
Theorem secretWatcherFn_spec `{!MapRangeLaws MR} `{!FieldIndexes KC MR}
    (kind : string) (o : ObjectMeta) (w : W) :
  let is_secret := decide (to_lower kind = "secret") in
  let selector := if is_secret then secrets_selector else configmaps_selector in
  let refers := if is_secret then refers_secret else refers_configmap in
  ∃ requests, run (secretWatcherFn kind o) w = Some requests ∧
    match (ListNodeSetsByField (m_Namespace o) selector (m_Name o) w).2 with
    | Fail _ => requests = []
    | Ok _ => ∃ all, (ListNodeSets (m_Namespace o) w).2 = Ok all ∧ ∀ nn,
        nn ∈ requests ↔ ∃ n, n ∈ all ∧ refers n (m_Name o) ∧ nn = mkNN (m_Namespace o) (ns_Name n)
    end.
Proof.
  intros is_secret selector refers. unfold secretWatcherFn, run, op, mbind, M_bind.
  fold is_secret. fold selector.
  destruct (ListNodeSetsByField _ selector _ w) as [w' [found|err]] eqn:Hl; [|by exists []].
  eexists. split; [done|]. simpl.
  assert (∃ all, (ListNodeSets (m_Namespace o) w).2 = Ok all ∧
    ∀ n, n ∈ found ↔ n ∈ all ∧ refers n (m_Name o)) as (all & Hall & Hf).
  { unfold selector, refers in *. destruct is_secret.
    - apply list_by_secret in Hl as (all & ? & Hf). exists all. split; [done|]. intros x.
      by rewrite Hf, index_secrets_spec.
    - apply list_by_configmap in Hl as (all & ? & Hf). exists all. split; [done|]. intros x.
      by rewrite Hf, index_configmaps_spec. }
  exists all. split; [done|]. intros nn. rewrite list_elem_of_fmap. setoid_rewrite Hf. naive_solver.
Qed.
End watches.

(** ** The properties at concrete objects *)

Import ListConditions.

(** A sort by insertion: [l] is in descending order, [x] goes before the first
    element that is not greater. *)
Fixpoint sort_insert {A} (cmp : A → A → Z) (x : A) (l : list A) : list A :=
  match l with
  | [] => [x]
  | y :: l' => if decide (cmp x y < 0)%Z then y :: sort_insert cmp x l' else x :: l
  end.
#[export] Instance insertion_sort : SortFunc := λ A cmp l,
  reverse (fold_left (λ acc x, sort_insert cmp x acc) l []).
Lemma sort_insert_perm {A} (cmp : A → A → Z) x l : sort_insert cmp x l ≡ₚ x :: l.
Proof.
  induction l as [|y l IH]; simpl; [done|]. case_decide; [|done]. by rewrite IH, Permutation_swap.
Qed.
Lemma sort_insert_sorted {A} (cmp : A → A → Z) all x l :
  strict_weak (λ a b, (cmp a b < 0)%Z) all → x ∈ all → l ⊆ all →
  StronglySorted (λ a b, ¬ (cmp a b < 0)%Z) l → StronglySorted (λ a b, ¬ (cmp a b < 0)%Z) (sort_insert cmp x l).
Proof.
  intros (Hirr & Htr & Hneg) Hx Hl Hs. induction Hs as [|y l Hs IH Hy]; simpl; [by repeat constructor|].
  assert (y ∈ all) as Hya by (apply Hl; left). assert (l ⊆ all) as Hla by (intros z Hz; apply Hl; by right).
  case_decide as Hd; (constructor; [|]).
  - by apply IH.
  - rewrite sort_insert_perm. constructor; [|done]. intros Hc. eapply (Hirr x Hx), Htr; eauto.
  - by constructor.
  - constructor; [done|]. rewrite Forall_forall in Hy |- *. intros z Hz.
    eapply (Hneg x y z); auto.
Qed.
Lemma StronglySorted_reverse {A} (R : A → A → Prop) (l : list A) :
  StronglySorted (λ a b, R b a) l → StronglySorted R (reverse l).
Proof.
  induction 1 as [|a l Hs IH Ha]; [constructor|]. rewrite reverse_cons. apply StronglySorted_app. split_and!; [|done|by repeat constructor].
  intros x y Hx ->%list_elem_of_singleton. apply (proj1 (elem_of_reverse _ _)) in Hx.
  by apply (proj1 (Forall_forall _ _) Ha).
Qed.
#[export] Instance insertion_sort_laws : SortFuncLaws insertion_sort.
Proof.
  assert (∀ A (cmp : A → A → Z) l acc, fold_left (λ acc x, sort_insert cmp x acc) l acc ≡ₚ l ++ acc) as Hp.
  { intros A cmp l. induction l as [|x l IH]; intros acc; simpl; [done|].
    rewrite IH, sort_insert_perm. symmetry. apply Permutation_middle. }
  split; intros A cmp l; unfold sort_func, insertion_sort.
  - by rewrite reverse_Permutation, Hp, app_nil_r.
  - intros Hw. apply (StronglySorted_reverse (λ a b, ¬ (cmp b a < 0)%Z)).
    assert (∀ rest acc, rest ++ acc ⊆ l → StronglySorted (λ a b, ¬ (cmp a b < 0)%Z) acc →
      StronglySorted (λ a b, ¬ (cmp a b < 0)%Z) (fold_left (λ acc x, sort_insert cmp x acc) rest acc)) as H.
    { intros rest. induction rest as [|x rest IH]; intros acc Hin Hs; simpl; [done|].
      apply IH; [|eapply sort_insert_sorted; [exact Hw|apply Hin; left|set_solver|done]].
      rewrite sort_insert_perm. intros z Hz. apply Hin. revert Hz. rewrite !elem_of_app, !elem_of_cons. set_solver. }
    apply H; [by rewrite app_nil_r|constructor].
Qed.

(** The values of an indexed field are what the index functions yield. *)
Lemma field_values_spec field n name :
  name ∈ field_values field n ↔
  name ∈ (if decide (field = configmaps_selector) then index_configmaps n else index_secrets n).
Proof.
  unfold field_values. cbv zeta. change "spec.ansibleVarsFrom.ansible.configMaps" with configmaps_selector.
  assert (∀ (f : DataSource → option string) v,
    v ∈ omap f (ao_AnsibleVarsFrom (t_Ansible (ns_NodeTemplate (ns_Spec n))) ++
      (map_to_list (ns_Nodes (ns_Spec n)) ≫= λ kv, ao_AnsibleVarsFrom (n_Ansible kv.2))) ↔
    ∃ source, is_source n source ∧ f source = Some v) as Hs.
  { intros f v. rewrite list_elem_of_omap. f_equiv. intros source. apply and_iff_compat_r.
    unfold is_source. rewrite elem_of_app, list_elem_of_bind. f_equiv. split.
    - intros ([k node] & ? & ?%elem_of_map_to_list). eauto.
    - intros (k & node & ? & ?). exists (k, node). by rewrite elem_of_map_to_list. }
  case_decide; [by rewrite index_configmaps_spec, Hs|]. rewrite index_secrets_spec. unfold refers_secret.
  rewrite elem_of_app, Hs. case_decide; rewrite ?list_elem_of_singleton, ?elem_of_nil; intuition congruence.
Qed.

#[export] Instance sim_field_indexes : FieldIndexes sim_kube list_range.
Proof.
  split; intros namespace name w w' l; simpl; unfold faulty;
    (destruct (faults w) as [|[e|] fs]; intros [= _ <-]; eexists; (split; [done|]));
    intros n; rewrite list_elem_of_filter, field_values_spec; simpl; tauto.
Qed.

(** A Secret is the SSH key of a NodeSet. *)
Definition keyed_nodeset : OpenStackDataPlaneNodeSet :=
  let n := networked_nodeset in
  let s := ns_Spec n in
  mkNodeSet (ns_Meta n)
    (mkNodeSetSpec (ns_BaremetalSetTemplate s)
       (mkTemplate [] [] None None "ssh-key" "" zeroAnsibleOpts) (ns_Nodes s)
       (ns_Env s) (ns_NetworkAttachments s) ["ovn"] (ns_Tags s) (ns_SecretMaxSize s)
       (ns_PreProvisioned s) (ns_TLSEnabled s)) (ns_Status n).
Definition keyed_world : Sim := set_nodesets {[ "openstack/edpm" := keyed_nodeset ]} network_world.

Lemma secretWatcherFn_witness :
  ∃ requests, run (secretWatcherFn "Secret" (meta "openstack" "ssh-key")) keyed_world = Some requests ∧
    mkNN "openstack" "edpm" ∈ requests.
Proof.
  pose proof (secretWatcherFn_spec "Secret" (meta "openstack" "ssh-key") keyed_world)
    as (requests & Hr & H).
  exists requests. split; [exact Hr|].
  destruct (ListNodeSetsByField _ _ _ keyed_world).2 as [found|err] eqn:Hl;
    [|apply (f_equal (λ r, match r with Ok _ => true | Fail _ => false end)) in Hl;
      vm_compute in Hl; discriminate].
  destruct H as (all & Hall & H). apply H. exists keyed_nodeset. split; [|split; [|reflexivity]].
  - assert ((ListNodeSets "openstack" keyed_world).2 = Ok [keyed_nodeset]) as Hone
      by (vm_compute; reflexivity).
    assert (Ok all = Ok [keyed_nodeset]) as Hsame by (etransitivity; [symmetry; exact Hall|exact Hone]).
    injection Hsame as ->. left.
  - left. split; [discriminate|reflexivity].
Defined.

(** A Deployment of the NodeSet, whose job for it ended well, or failed. *)
Definition deployed_as (name : string) (cs : Conditions) : OpenStackDataPlaneDeployment :=
  mkDeployment (meta "openstack" name) (mkDeploymentSpec ["edpm"] None "" "" "" None None 15)
    (mkDeploymentStatus {[ "edpm" := cs ]} None None (Some {[ "edpm" := "hash" ]}) (Some ∅) [] 0 "1.0" true).
Definition deployed_well : Conditions := [TrueCondition NodeSetDeploymentReadyCondition "" []].
Definition deployed_badly : Conditions :=
  [FalseCondition NodeSetDeploymentReadyCondition ErrorReason SeverityError "failed" []].
Definition deployed_world (ds : list OpenStackDataPlaneDeployment) : Sim :=
  set_secrets {[ "openstack/ssh-key" := mkSecret "ssh-key" ∅ {[ AnsibleSSHPrivateKey := "key" ]} ]}
    (set_services {[ "openstack/ovn" := service_of "openstack" "ovn" false ]}
      (set_deployments (list_to_map ((λ d, (key "openstack" (d_Name d), d)) <$> ds)) keyed_world)).
Definition with_maps : OpenStackDataPlaneNodeSet := set_ns_Status make_status_maps keyed_nodeset.

Lemma singleton_split {A} (x d : A) before after : [x] = before ++ d :: after → d = x.
Proof. destruct before as [|y before]; simpl; [congruence|]. intros [= _ H]. by destruct before. Qed.
Lemma checkDeployment_witness :
  let s := mkSt (deployed_world [deployed_as "deploy" deployed_well]) with_maps in
  (checkDeployment s).1 = Next (mkDeployments true false false None) ∧
  deployed_config (obj (checkDeployment s).2) = ("hash", "1.0").
Proof.
  cbv zeta. set (s := mkSt _ _). pose proof (checkDeployment_spec s) as H.
  assert (has_maps (obj s)) as Hm by (split; [|split]; eexists; reflexivity).
  specialize (H Hm). unfold sat in H. destruct H as (_ & _ & H).
  assert ((ListDeployments (ns_Namespace (obj s)) (world s)).2 = Ok [deployed_as "deploy" deployed_well]) as Hl
    by (vm_compute; reflexivity).
  rewrite Hl in H. destruct H as (l & Hp & H).
  assert (relevants (ns_Name (obj s)) [deployed_as "deploy" deployed_well] =
    [deployed_as "deploy" deployed_well]) as Hr by (vm_compute; reflexivity).
  destruct Hp as (_ & Hp & _). rewrite Hr in Hp. apply Permutation_singleton_r in Hp. subst l.
  destruct H as [(_ & -> & ->)|(before & d & after & message & Hl2 & _ & Hst & _)].
  - split; vm_compute; reflexivity.
  - exfalso. assert (d = deployed_as "deploy" deployed_well) as ->.
    { exact (singleton_split _ _ _ _ Hl2). }
    vm_compute in Hst. discriminate Hst.
Defined.

(** A Deployment whose DeploymentReady condition changed at [t], if it has one. *)
Definition deployed_at (name : string) (t : option Z) : OpenStackDataPlaneDeployment :=
  let d := deployed_as name deployed_well in
  mkDeployment (d_Meta d) (d_Spec d)
    (mkDeploymentStatus (ds_NodeSetConditions (d_Status d)) None None (ds_NodeSetHashes (d_Status d)) (Some ∅)
       (match t with Some t => [mkCondition DeploymentReadyCondition CTrue "" t "" ""] | None => [] end)
       0 "1.0" true).

(** The last three Deployments by age: the newest decides. *)
Example newest_last :
  let a := deployed_at "a" (Some 3%Z) in let b := deployed_at "b" (Some 1%Z) in let c := deployed_at "c" (Some 2%Z) in
  relevants "edpm" (sort_func older [a; b; c]) = [b; c; a].
Proof. vm_compute. reflexivity. Qed.

(** A Deployment without the condition, one that was never reconciled for
    instance, leaves the others out of order: the comparison is not an ordering,
    and a sort that keeps its promise for those that are may put the newest first. *)
Theorem older_needs_dates :
  let new := deployed_at "new" (Some 2%Z) in let undated := deployed_at "undated" None in
  let old := deployed_at "old" (Some 1%Z) in
  ¬ strict_weak (λ a b, (older a b < 0)%Z) [new; undated; old] ∧
  sort_func older [new; undated; old] = [new; undated; old].
Proof.
  cbv zeta. split; [|vm_compute; reflexivity]. intros (_ & _ & Hneg).
  apply (Hneg (deployed_at "old" (Some 1%Z)) (deployed_at "undated" None) (deployed_at "new" (Some 2%Z)));
    [set_solver|set_solver|set_solver|by vm_compute..].
Qed.

(** A failed Deployment hides the one after it. *)
Example failed_hides_later :
  let ds := [deployed_as "a-failed" deployed_badly; deployed_as "b-ready" deployed_well] in
  let s := mkSt (deployed_world ds) with_maps in
  checkDeployment s =
    (Next (mkDeployments false false true (Some (Errorf "failed" []))), (checkDeployment s).2).
Proof. vm_compute. reflexivity. Qed.

Definition nodeset_request : NamespacedName := mkNN "openstack" "edpm".
Definition ready_world : Sim := deployed_world [deployed_as "deploy" deployed_well].

Lemma NodeSet_Reconcile_ready_witness :
  let n := nodeset_patched ready_world (named_as nodeset_request keyed_nodeset) in
  status_of (ns_Conditions n) DeploymentReadyCondition = Some CTrue ∧
  status_of (ns_Conditions n) SetupReadyCondition = Some CTrue ∧
  status_of (ns_Conditions n) ReadyCondition = Some CTrue.
Proof.
  pose proof (NodeSet_Reconcile_ready nodeset_request ready_world ready_world
    (named_as nodeset_request keyed_nodeset)) as H0.
  destruct H0 as (_ & _ & H & Hr); [vm_compute; reflexivity|]. cbv zeta.
  assert (status_of (ns_Conditions (nodeset_patched ready_world (named_as nodeset_request keyed_nodeset)))
    DeploymentReadyCondition = Some CTrue) as Hd by (vm_compute; reflexivity).
  destruct (H Hd) as [Hs _]. split; [exact Hd|]. split; [exact Hs|].
  apply Hr. split; [exact Hs|]. split; [exact Hd|]. intros _. reflexivity.
Defined.

