(* ===== verification/Calls.v ===== *)
(** What the bodies of both controllers leave of the outside world: a property
    that every single call keeps ([KeptByCalls]) is kept by the whole. *)

From stdpp Require Import base gmap strings list.
From S2P Require Import Prelude GoStd Conditions Types Cluster Sim Images ApiTypes DataSource AnsibleExec.
From S2P Require Import Service Cert Hashes Deployer DeploymentController Ipam Baremetal Inventory.
From S2P Require Import NodeSetController.

Section calls.
Context {W : Type} {KC : KubeClient W} {LC : LibCommon W} {CM : CertManager W} {PR : Process W}.
Context {CO : ConditionOps} {V : Validation} {MR : MapRange} {PI : PackageImages}.
Context {IL : InventoryLib} {SF : SortFunc}.
Context (P : W → Prop) `{HP : !KeptByCalls P}.

Lemma GetDataSourceCmSecret_keeps ns d : keeps P (GetDataSourceCmSecret ns d).
Proof. unfold GetDataSourceCmSecret. keeps_calls. Qed.
Lemma GetService_keeps {R} ns s : keeps P (GetService (R := R) ns s).
Proof. unfold GetService. keeps_calls. Qed.
Lemma GetVersion_keeps ns : keeps P (GetVersion ns).
Proof. unfold GetVersion. keeps_calls. Qed.
Lemma GetAnsibleExecution_keeps o labels : keeps P (GetAnsibleExecution o labels).
Proof. unfold GetAnsibleExecution. keeps_calls. Qed.
#[local] Hint Resolve GetDataSourceCmSecret_keeps GetService_keeps GetVersion_keeps
  GetAnsibleExecution_keeps : keeps.

Lemma AnsibleExecution_keeps d s k i a n : keeps P (AnsibleExecution d s k i a n).
Proof.
  intros w Hw. unfold AnsibleExecution.
  assert (∃ name, GetAnsibleExecutionNameAndLabels s (d_Name d) (ns_Name n) =
    (name, execution_labels (svc_Name s) (d_Name d) (ns_Name n))) as [name ->] by (by eexists).
  set (labels := execution_labels _ _ _). unfold GetAnsibleExecution, call, mbind, M_bind, op.
  pose proof (kept_ListAnsibleEEs (m_Namespace (d_Meta d)) labels w Hw) as Hl.
  assert (∀ e, job_to_patch (m_Namespace (d_Meta d)) labels (ListAnsibleEEs (m_Namespace (d_Meta d)) labels w).2 e →
    P (CreateOrPatchAnsibleEE e (mutate_AnsibleEE d s k i a (ns_Name n)) (mkCapture "" (a_ExtraVars a))
         (ListAnsibleEEs (m_Namespace (d_Meta d)) labels w).1).1) as Hc.
  { intros e He. by apply (kept_CreateOrPatchAnsibleEE _ _ _ _ d (λ cap ee, (_, _))). }
  unfold job_to_patch in Hc. destruct (ListAnsibleEEs _ labels w) as [w1 [[|e [|e' l]]|err]]; cbn [fst snd] in *.
  - cbn. destruct (negb _); [done|]. cbn.
    match goal with |- context [CreateOrPatchAnsibleEE ?e _ _ w1] => specialize (Hc e ltac:(eauto)) end.
    by destruct (CreateOrPatchAnsibleEE _ _ _ w1) as [w2 [cap [ee|err]]].
  - cbn. specialize (Hc e ltac:(eauto)). by destruct (CreateOrPatchAnsibleEE _ _ _ w1) as [w2 [cap [ee|err]]].
  - done.
  - cbn. destruct (IsNotFound err) eqn:Hn; cbn; [|done].
    match goal with |- context [CreateOrPatchAnsibleEE ?e _ _ w1] => specialize (Hc e ltac:(eauto 8)) end.
    by destruct (CreateOrPatchAnsibleEE _ _ _ w1) as [w2 [cap [ee|err']]].
Qed.
Lemma EnsureTLSCerts_keeps n hs ips s k : keeps P (EnsureTLSCerts n hs ips s k).
Proof.
  unfold EnsureTLSCerts, collect_certs, node_certs, GetTLSNodeCert, write_secrets, write_secret.
  keeps_calls.
Qed.
Lemma CheckGlobal_keeps ns l : keeps P (CheckGlobalServiceExecutionConsistency ns l).
Proof. unfold CheckGlobalServiceExecutionConsistency, check_global. keeps_calls. Qed.
#[local] Hint Resolve AnsibleExecution_keeps EnsureTLSCerts_keeps CheckGlobal_keeps : keeps.

Abbreviation keeps_in m := (keeps (λ s, P (world s)) m).

Lemma append_mounts_keeps {R} m : keeps_in (append_mounts (R := R) m).
Proof. unfold append_mounts. keeps_calls. Qed.
#[local] Hint Resolve append_mounts_keeps : keeps.
Lemma addServiceExtraMounts_keeps s : keeps_in (addServiceExtraMounts s).
Proof. unfold addServiceExtraMounts. keeps_calls. Qed.
Lemma addCertMounts_keeps l : keeps_in (addCertMounts l).
Proof. unfold addCertMounts, mount_service_certs, mount_cert, mount_cacerts. keeps_calls. Qed.
Lemma ConditionalDeploy_keeps msg s : keeps_in (ConditionalDeploy msg s).
Proof. unfold ConditionalDeploy, start_service, check_job, job_outcome, DeployService. keeps_calls. Qed.
#[local] Hint Resolve addServiceExtraMounts_keeps addCertMounts_keeps ConditionalDeploy_keeps : keeps.
Lemma Deploy_keeps l : keeps_in (Deploy l).
Proof. unfold Deploy, deploy_service, fail_service, finish_service, record_image. keeps_calls. Qed.
#[local] Hint Resolve Deploy_keeps : keeps.

(** *** The body of the Deployment controller *)

Lemma with_deployer_keeps {R A} mk (m : M (St W Deployer) A A) :
  keeps_in m → keeps_in (with_deployer (R := R) mk m).
Proof.
  intros Hm s Hs. specialize (Hm (mkSt (world s) (mk (obj s))) Hs). unfold with_deployer.
  by destruct (m _) as [o s'].
Qed.
Lemma with_hashes_keeps {R A} (m : M (St W HashMaps) A A) :
  keeps_in m → keeps_in (with_hashes (R := R) m).
Proof.
  intros Hm s Hs. unfold with_hashes. cbv zeta.
  specialize (Hm (mkSt (world s) (mkHashes (ds_ConfigMapHashes (d_Status (obj s)))
    (ds_SecretHashes (d_Status (obj s))))) Hs). by destruct (m _) as [o s'].
Qed.
Lemma GetDeploymentHashesForService_keeps ns s l : keeps_in (GetDeploymentHashesForService ns s l).
Proof.
  unfold GetDeploymentHashesForService, hash_service, hash_datasource, hash_named_configmap,
    hash_named_secret, hash_certs, hash_configmap, hash_secret.
  keeps_calls.
Qed.
Lemma setHashes_keeps l : keeps_in (setHashes l).
Proof.
  unfold setHashes. keeps_calls. apply with_hashes_keeps, GetDeploymentHashesForService_keeps.
Qed.
#[local] Hint Resolve setHashes_keeps : keeps.
Lemma deploy_nodeset_keeps v i k p n : keeps_in (deploy_nodeset v i k p n).
Proof. unfold deploy_nodeset, report_nodeset, mark. keeps_calls. apply with_deployer_keeps, Deploy_keeps. Qed.
#[local] Hint Resolve deploy_nodeset_keeps : keeps.

Lemma reconcile_body_keeps : keeps_in reconcile_body.
Proof.
  unfold reconcile_body, fetch_nodesets, check_setup, ensure_certs, input_error, check_consistency,
    conclude, mark.
  keeps_calls.
Qed.

(** *** The body of the NodeSet controller *)

Lemma EnsureServices_keeps_world n : keeps P (EnsureServices n).
Proof. unfold EnsureServices, EnsureService. keeps_calls. Qed.
Lemma EnsureIPSets_keeps : keeps_in EnsureIPSets.
Proof. unfold EnsureIPSets, reserveIPs, reserve_node, ns_mark. keeps_calls. Qed.
Lemma EnsureDNSData_keeps ips : keeps_in (EnsureDNSData ips).
Proof.
  unfold EnsureDNSData, checkDNSService, createOrPatchDNSData, dns_error, dns_waiting, ns_mark.
  keeps_calls.
Qed.
Lemma DeployBaremetalSet_keeps ips dns : keeps_in (DeployBaremetalSet ips dns).
Proof. unfold DeployBaremetalSet, ns_mark. keeps_calls. Qed.
Lemma getAnsibleVarsFrom_keeps ns a : keeps P (getAnsibleVarsFrom ns a).
Proof. unfold getAnsibleVarsFrom. keeps_calls. Qed.
#[local] Hint Resolve getAnsibleVarsFrom_keeps : keeps.
Lemma GenerateNodeSetInventory_keeps n ips dns i : keeps P (GenerateNodeSetInventory n ips dns i).
Proof. unfold GenerateNodeSetInventory, node_host. keeps_calls. Qed.
#[local] Hint Resolve EnsureServices_keeps_world EnsureIPSets_keeps EnsureDNSData_keeps
  DeployBaremetalSet_keeps GenerateNodeSetInventory_keeps : keeps.

Lemma setup_keeps : keeps_in setup.
Proof.
  unfold setup, update_hash, ensure_services, verify_ssh_secret, ensure_account, provision_baremetal, ns_mark.
  keeps_calls.
Qed.
Lemma checkDeployment_keeps : keeps_in checkDeployment.
Proof. unfold checkDeployment, check_one, take_over, merge_map. keeps_calls. Qed.
#[local] Hint Resolve setup_keeps checkDeployment_keeps : keeps.
Lemma nodeset_body_keeps : keeps_in nodeset_body.
Proof. unfold nodeset_body, conclude_nodeset, write_inventory, ns_mark. keeps_calls. Qed.
End calls.

