(* ===== verification/System.v ===== *)
(** The operator as a system: both controllers run against one API server,
    in any order, while others create, edit and delete Deployments. *)

From stdpp Require Import base gmap strings list.
From S2P Require Import Prelude GoStd Conditions Types Cluster Sim Images ApiTypes DataSource AnsibleExec.
From S2P Require Import Service Cert Hashes Deployer DeploymentController Ipam Baremetal Inventory.
From S2P Require Import NodeSetController Calls.

(** ** The Deployments the API server holds *)

Definition View := NamespacedName → option OpenStackDataPlaneDeployment.
(** A Deployment somebody just created: the status is not set. *)
Definition fresh (d : OpenStackDataPlaneDeployment) : Prop := d_Status d = zeroDeploymentStatus.
(** What others do to Deployments, in one step or in many: they create,
    delete and edit them, but the status is left to the operator. *)
Definition undisturbed (v v' : View) : Prop := ∀ nn d', v' nn = Some d' →
  fresh d' ∨ ∃ d, v nn = Some d ∧ d_Status d' = d_Status d.
#[export] Instance undisturbed_preorder : PreOrder undisturbed.
Proof.
  split; [intros v nn d ?; right; by exists d|]. intros v1 v2 v3 H12 H23 nn d3 H3.
  destruct (H23 _ _ H3) as [?|(d2 & H2 & Hs2)]; [by left|].
  destruct (H12 _ _ H2) as [Hf|(d1 & H1 & Hs1)]; [left; unfold fresh in *; congruence|right].
  exists d1. split; [done|congruence].
Qed.

(** What the API server promises: at every call others may act too; a
    Deployment that is read is the one it holds; and a patch of a Deployment
    sets the status of that one, if it does anything. *)
Class DeploymentStore (W : Type) {KC : KubeClient W} {LC : LibCommon W} {CM : CertManager W}
    {PR : Process W} := {
  deployment_at : W → View;
  store_calls w0 : KeptByCalls (λ w, undisturbed (deployment_at w0) (deployment_at w));
  store_PatchNodeSet n w : undisturbed (deployment_at w) (deployment_at (PatchNodeSet n w).1);
  store_GetDeployment nn w :
    undisturbed (deployment_at w) (deployment_at (GetDeployment nn w).1) ∧
    ∀ d, (GetDeployment nn w).2 = Ok d →
      deployment_at w nn = Some d ∧ d_Namespace d = nn_Namespace nn ∧ d_Name d = nn_Name nn;
  store_PatchDeployment d w nn d' :
    deployment_at (PatchDeployment d w).1 nn = Some d' →
    fresh d' ∨ (∃ d0, deployment_at w nn = Some d0 ∧ d_Status d' = d_Status d0) ∨
    (nn = mkNN (d_Namespace d) (d_Name d) ∧ d_Status d' = d_Status d);
}.
#[export] Existing Instance store_calls.

Section system.
Context {W : Type} {KC : KubeClient W} {LC : LibCommon W} {CM : CertManager W} {PR : Process W}.
Context {CO : ConditionOps} {V : Validation} {MR : MapRange} {PI : PackageImages}.
Context {IL : InventoryLib} {SF : SortFunc} {DS : DeploymentStore W}.

(** One step of the system: a reconciliation of either controller for some
    request, or something others do. *)
Inductive system_step : W → W → Prop :=
  | step_deployment req w : system_step w (Deployment_Reconcile req w).2
  | step_nodeset req w : system_step w (NodeSet_Reconcile req w).2
  | step_others w w' : undisturbed (deployment_at w) (deployment_at w') → system_step w w'.

Lemma NodeSet_Reconcile_undisturbed req w :
  undisturbed (deployment_at w) (deployment_at (NodeSet_Reconcile req w).2).
Proof.
  unfold NodeSet_Reconcile, op, mbind, M_bind.
  pose proof (kept_GetNodeSet (P := λ w', undisturbed (deployment_at w) (deployment_at w')) req w
    ltac:(cbv beta; reflexivity)) as Hg.
  destruct (GetNodeSet req w) as [w1 [n|err]]; [|by destruct (IsNotFound err)]. simpl in Hg.
  unfold with_nodeset_patch.
  pose proof (nodeset_body_keeps (λ w', undisturbed (deployment_at w) (deployment_at w'))
    (mkSt w1 (prepare_nodeset n)) Hg) as Hb.
  destruct (nodeset_body _) as [o s]. simpl in Hb.
  pose proof (store_PatchNodeSet (finish_nodeset (ns_Conditions n) (obj s)) (world s)) as Hp.
  destruct (PatchNodeSet _ _) as [w2 err]. simpl in *. by etransitivity.
Qed.

(** A reconciliation of a Deployment leaves the Deployments to the others,
    until the patch. *)
Lemma Deployment_Reconcile_step req w nn d' :
  deployment_at (Deployment_Reconcile req w).2 nn = Some d' →
  fresh d' ∨ (∃ d, deployment_at w nn = Some d ∧ d_Status d' = d_Status d) ∨
  (nn = req ∧ ∃ w1 d, deployment_at w req = Some d ∧ ds_Deployed (d_Status d) = false ∧
     d_Status d' = d_Status (patched w1 d)).
Proof.
  intros H'. destruct (hostname_rfc1123 (nn_Name req)) eqn:Hv.
  { unfold Deployment_Reconcile in H'. rewrite Hv in H'. right; left. by exists d'. }
  destruct (GetDeployment req w) as [w1 r] eqn:Hg.
  pose proof (store_GetDeployment req w) as [Hu Hr]. rewrite Hg in Hu, Hr. simpl in Hu, Hr.
  assert (∀ w2, undisturbed (deployment_at w) (deployment_at w2) → deployment_at w2 nn = Some d' →
    fresh d' ∨ (∃ d, deployment_at w nn = Some d ∧ d_Status d' = d_Status d) ∨
    (nn = req ∧ ∃ w1 d, deployment_at w req = Some d ∧ ds_Deployed (d_Status d) = false ∧
       d_Status d' = d_Status (patched w1 d))) as Hcalm.
  { intros w2 Hw2 H2. destruct (Hw2 _ _ H2) as [?|?]; auto. }
  destruct r as [d|err].
  2:{ apply (Hcalm w1 Hu). unfold Deployment_Reconcile, op, mbind, M_bind in H'. rewrite Hv, Hg in H'.
      by destruct (IsNotFound err). }
  destruct (Hr d eq_refl) as (Hd & Hns & Hname). destruct (ds_Deployed (d_Status d)) eqn:Hdep.
  { apply (Hcalm w1 Hu). unfold Deployment_Reconcile, op, mbind, M_bind in H'. by rewrite Hv, Hg, Hdep in H'. }
  rewrite (Reconcile_runs req w w1 d) in H' by done.
  apply store_PatchDeployment in H' as [?|[(d0 & H0 & Hs)|[-> Hs]]]; [by left| |].
  - pose proof (reconcile_body_keeps (λ w', undisturbed (deployment_at w) (deployment_at w'))
      (mkSt w1 (prepare d)) Hu) as Hb. fold (final_state w1 d) in Hb.
    destruct (Hb _ _ H0) as [Hf|(d1 & H1 & Hs1)]; [left; unfold fresh in *; congruence|right; left].
    exists d1. split; [done|congruence].
  - right; right. unfold d_Namespace, d_Name in *. rewrite (proj1 (patched_request _ _)), Hns, Hname.
    split; [by destruct req|]. by exists w1, d.
Qed.

(** ** Invariants of the system *)

(** What the status of every held Deployment says is true: Ready is True
    exactly when Deployed is, and a Deployed status is the one a
    reconciliation wrote that deployed every service on every NodeSet. *)
Definition truthful (d : OpenStackDataPlaneDeployment) : Prop :=
  (status_of (d_Conditions d) ReadyCondition = Some CTrue ↔ ds_Deployed (d_Status d) = true) ∧
  (ds_Deployed (d_Status d) = true → ∃ w0 d0,
     d_Status d = d_Status (patched w0 d0) ∧ deployed_in (mkSt w0 (prepare d0)) (patched w0 d0)).
Definition all_truthful (w : W) : Prop := ∀ nn d, deployment_at w nn = Some d → truthful d.

Lemma truthful_same d d' : d_Status d' = d_Status d → truthful d → truthful d'.
Proof. unfold truthful, d_Conditions. by intros ->. Qed.
Lemma truthful_fresh `{!ConditionLaws CO} d : fresh d → truthful d.
Proof.
  unfold truthful, d_Conditions, fresh, status_of. intros ->. simpl. rewrite get_nil. by split.
Qed.
Lemma truthful_undisturbed `{!ConditionLaws CO} w w' :
  undisturbed (deployment_at w) (deployment_at w') → all_truthful w → all_truthful w'.
Proof.
  intros Hu Hw nn d' H'. destruct (Hu _ _ H') as [?|(d & Hd & Hs)]; [by apply truthful_fresh|].
  eapply truthful_same; [exact Hs|exact (Hw _ _ Hd)].
Qed.
Lemma truthful_patched `{!ConditionLaws CO} `{!NamedReads KC} w d : truthful (patched w d).
Proof.
  destruct (patched_consistent w d) as [Hiff Hdep]. split; [done|].
  intros H. exists w, d. auto.
Qed.

Lemma truthful_step `{!ConditionLaws CO} `{!NamedReads KC} w w' :
  system_step w w' → all_truthful w → all_truthful w'.
Proof.
  intros [req w1|req w1|w1 w2 Hu] Hw.
  - intros nn d' [?|[(d & Hd & Hs)|(-> & w2 & d & _ & _ & Hs)]]%Deployment_Reconcile_step.
    + by apply truthful_fresh.
    + eapply truthful_same; [exact Hs|exact (Hw _ _ Hd)].
    + eapply truthful_same; [exact Hs|apply truthful_patched].
  - by eapply truthful_undisturbed; [apply NodeSet_Reconcile_undisturbed|].
  - by eapply truthful_undisturbed.
Qed.

(** C2. However the reconciliations of both controllers interleave with the
    edits of others, starting from Deployments whose status is truthful (an
    empty cluster, say): at every point a held Deployment has Ready True
    exactly when it is Deployed, and a Deployed status was written by a
    reconciliation in which the setup of every NodeSet was complete and every
    service of every NodeSet was deployed. *)
Theorem deployed_is_truthful `{!ConditionLaws CO} `{!NamedReads KC} (w w' : W) :
  all_truthful w → rtc system_step w w' → all_truthful w'.
Proof. intros Hw Hsteps. induction Hsteps as [|w1 w2 w3 Hstep _ IH]; eauto using truthful_step. Qed.

(** C9. Deployed is final: whichever controller runs, for whichever
    request, and whatever others do, a Deployment that was deployed keeps its
    status, unless somebody deletes it and creates another of its name. *)
Theorem deployed_is_final (w w' : W) nn d d' :
  system_step w w' →
  deployment_at w nn = Some d → ds_Deployed (d_Status d) = true →
  deployment_at w' nn = Some d' →
  fresh d' ∨ d_Status d' = d_Status d.
Proof.
  intros [req w1|req w1|w1 w2 Hu] Hd Hdep Hd'.
  - apply Deployment_Reconcile_step in Hd' as [?|[(d0 & H0 & Hs)|(-> & w2 & d0 & H0 & Hf & _)]];
      [by left|right; congruence|congruence].
  - destruct (NodeSet_Reconcile_undisturbed _ _ _ _ Hd') as [?|(d0 & H0 & Hs)]; [by left|right; congruence].
  - destruct (Hu _ _ Hd') as [?|(d0 & H0 & Hs)]; [by left|right; congruence].
Qed.
End system.

(** ** The store held in memory *)

Import ListConditions.

(** A Deployment is found under its own name only. *)
Definition sim_view (ds : gmap string OpenStackDataPlaneDeployment) : View := λ nn,
  match ds !! key (nn_Namespace nn) (nn_Name nn) with
  | Some d => if decide (d_Namespace d = nn_Namespace nn ∧ d_Name d = nn_Name nn) then Some d else None
  | None => None
  end.

Lemma sim_view_lookup ds nn d : sim_view ds nn = Some d → ∃ k, ds !! k = Some d.
Proof.
  unfold sim_view. destruct (ds !! _) as [d0|] eqn:Hl; [|done].
  case_decide; [|done]. intros [= ->]. eauto.
Qed.
Lemma faulty_deployments {A} (f : Sim → Sim * result A) w :
  (∀ w', deployments (f w').1 = deployments w') → deployments (faulty f w).1 = deployments w.
Proof. intros Hf. unfold faulty. destruct (faults w) as [|[e|] fs]; [apply Hf|done|by rewrite Hf]. Qed.
Lemma upsert_deployments {A} (m : Sim → gmap string A) (put : gmap string A → Sim → Sim) k a f w :
  (∀ x w', deployments (put x w') = deployments w') →
  deployments (Sim.upsert m put k a f w).1 = deployments w.
Proof. intros Hs. apply faulty_deployments. intros w'. destruct (f _); simpl; auto. Qed.

#[export] Instance sim_kept (Q : gmap string OpenStackDataPlaneDeployment → Prop) :
  KeptByCalls (λ w : Sim, Q (deployments w)).
Proof.
  assert (∀ w1 w2 : Sim, deployments w2 = deployments w1 → Q (deployments w1) → Q (deployments w2))
    as Hq by (by intros ?? ->).
  split.
  15: { intros X ns service deployment nodeSet d build e x w. cbv zeta. intros _. apply Hq.
    transitivity (deployments (ListAnsibleEEs ns (execution_labels service deployment nodeSet) w).1); [done|].
    by apply faulty_deployments. }
  all: intros *; apply Hq; simpl; try done;
    try (by apply faulty_deployments); try (by apply upsert_deployments).
  - unfold fetch. pose proof (faulty_deployments (λ w, (w, match nodesets w !!
      key (nn_Namespace nn) (nn_Name nn) with Some a => Ok a | None => Fail notFound end)) w
      ltac:(done)) as H. destruct (faulty _ w) as [w' r]. done.
  - by destruct (f _) as [[?|?]|].
  - destruct (secrets w !! _) as [s|]; [|done]. by case_match.
  - by case_decide.
Qed.

Lemma sim_view_PatchDeployment ds d nn d' :
  sim_view (<[key (d_Namespace d) (d_Name d) := d]> ds) nn = Some d' →
  sim_view ds nn = Some d' ∨ nn = mkNN (d_Namespace d) (d_Name d) ∧ d' = d.
Proof.
  unfold sim_view. intros H.
  destruct (decide (key (d_Namespace d) (d_Name d) = key (nn_Namespace nn) (nn_Name nn))) as [Hk|Hk].
  - rewrite <- Hk, lookup_insert in H. rewrite decide_True in H by done. case_decide as Hn; [|done].
    right. destruct Hn. injection H as <-. destruct nn; simpl in *. by subst.
  - rewrite lookup_insert_ne in H by done. by left.
Qed.

#[export, refine] Instance sim_store : DeploymentStore Sim :=
  {| deployment_at w := sim_view (deployments w) |}.
Proof.
  - intros w0. exact (sim_kept (λ m, undisturbed (sim_view (deployments w0)) (sim_view m))).
  - intros n w. simpl. reflexivity.
  - intros nn w. simpl. unfold fetch.
    pose proof (faulty_deployments (λ w, (w, match deployments w !!
      key (nn_Namespace nn) (nn_Name nn) with Some a => Ok a | None => Fail notFound end)) w
      ltac:(done)) as H.
    destruct (faulty _ w) as [w' r] eqn:Hf. simpl in *. rewrite H. split; [done|].
    intros d Hd. destruct r as [d0|e]; [|done]. case_decide as Hn; [|done]. injection Hd as ->.
    assert (deployments w !! key (nn_Namespace nn) (nn_Name nn) = Some d) as Hl.
    { unfold faulty in Hf. destruct (faults w) as [|[e|] fs]; [..|]; try done;
        cbv beta in Hf; simpl in Hf; destruct (deployments w !! _) eqn:Hl; congruence. }
    unfold sim_view. rewrite Hl, decide_True by done. by destruct Hn.
  - intros d w nn d' Hd'. simpl in Hd'.
    apply sim_view_PatchDeployment in Hd' as [Hd|[-> ->]]; [|auto].
    right; left. by exists d'.
Defined.

(** *** The properties at a concrete run: a NodeSet and a Deployment of it
    are reconciled while its job runs, and both again after it succeeded. *)

Definition start_world : Sim :=
  set_deployments {[ "openstack/deploy" := deployment_of "openstack" "deploy" ["edpm"] ]}
    (deployed_world []).
Definition nodeset_round (w : Sim) : Sim := (NodeSet_Reconcile nodeset_request w).2.
Definition deployment_round (w : Sim) : Sim := (Deployment_Reconcile deploy_request w).2.
Definition request_rounds (w : Sim) : Sim := deployment_round (nodeset_round w).
Definition rounds (w : Sim) : Sim := nodeset_round (deployment_round (jobs_succeed (request_rounds w))).
Abbreviation end_world := (rounds start_world).


Lemma jobs_undisturbed w : undisturbed (deployment_at w) (deployment_at (jobs_succeed w)).
Proof. change (deployment_at (jobs_succeed w)) with (deployment_at w). reflexivity. Qed.
Lemma rounds_steps w : rtc system_step w (rounds w).
Proof.
  eapply rtc_l; [apply (step_nodeset nodeset_request)|].
  eapply rtc_l; [apply (step_deployment deploy_request)|].
  eapply rtc_l; [apply step_others, jobs_undisturbed|].
  eapply rtc_l; [apply (step_deployment deploy_request)|].
  apply rtc_once, (step_nodeset nodeset_request).
Qed.
Lemma start_truthful : all_truthful start_world.
Proof.
  intros nn d [k Hd]%sim_view_lookup. apply truthful_fresh.
  change (deployments start_world) with
    ({[ "openstack/deploy" := deployment_of "openstack" "deploy" ["edpm"] ]}
       : gmap string OpenStackDataPlaneDeployment) in Hd.
  by apply lookup_singleton_Some in Hd as [_ <-].
Qed.

(** What is held of the Deployment, and of the NodeSet, along the run. *)
Definition held (w : Sim) : option (bool * option ConditionStatus) * option (option ConditionStatus) :=
  ((λ d, (ds_Deployed (d_Status d), status_of (d_Conditions d) ReadyCondition)) <$>
     deployment_at w deploy_request,
   (λ n, status_of (ns_Conditions n) ReadyCondition) <$> nodesets w !! "openstack/edpm").
Example requested_held : held (request_rounds start_world) = (Some (false, Some CFalse), Some (Some CFalse)).
Proof. vm_compute. reflexivity. Qed.
Example end_held : held end_world = (Some (true, Some CTrue), Some (Some CTrue)).
Proof. vm_compute. reflexivity. Qed.

Lemma held_deployment w b st n : held w = (Some (b, st), n) → ∃ d,
  deployment_at w deploy_request = Some d ∧ ds_Deployed (d_Status d) = b ∧
  status_of (d_Conditions d) ReadyCondition = st.
Proof.
  unfold held. destruct (deployment_at w _) as [d|]; [|done]. intros [= <- <- _]. by exists d.
Qed.

Lemma deployed_is_truthful_witness : ∃ d,
  deployment_at end_world deploy_request = Some d ∧
  ds_Deployed (d_Status d) = true ∧ status_of (d_Conditions d) ReadyCondition = Some CTrue ∧ truthful d.
Proof.
  pose proof (deployed_is_truthful start_world end_world start_truthful (rounds_steps start_world)) as H.
  destruct (held_deployment _ _ _ _ end_held) as (d & Hd & Hdep & Hst).
  exists d. exact (conj Hd (conj Hdep (conj Hst (H _ _ Hd)))).
Defined.

Lemma deployed_is_final_witness : ∃ d,
  deployment_at end_world deploy_request = Some d ∧
  ∀ d', deployment_at (deployment_round end_world) deploy_request = Some d' →
    fresh d' ∨ d_Status d' = d_Status d.
Proof.
  destruct (held_deployment _ _ _ _ end_held) as (d & Hd & Hdep & _).
  exists d. split; [exact Hd|]. intros d'.
  exact (deployed_is_final end_world (deployment_round end_world) deploy_request d d'
    (step_deployment deploy_request end_world) Hd Hdep).
Defined.
