(* ===== verification/Pipeline.v ===== *)
(** The services of a NodeSet as a pipeline: what [Deploy] does is decided by
    the states of the jobs, in the order of the services. *)

From stdpp Require Import base gmap strings list.
From S2P Require Import Prelude GoStd Conditions Types Cluster Sim Images ApiTypes DataSource AnsibleExec.
From S2P Require Import Service Cert Hashes Deployer DeploymentController.

(** ** The abstract machine

    The state of the job of each service on each NodeSet, where there is one.
    A NodeSet takes its services in order, up to the first whose job has not
    succeeded; that job is asked for. *)

Abbreviation Jobs := (gmap (string * string) string).
(** A job that was just made has no state yet. *)
Definition request (name service : string) (j : Jobs) : Jobs :=
  match j !! (name, service) with
  | Some _ => j
  | None => <[(name, service) := ""]> j
  end.
Definition state_in (j : Jobs) (name service : string) : string := default "" (j !! (name, service)).

Inductive verdict : Type :=
  | AllDeployed
  | Awaiting (service : string)
  | Broken (service : string).
Fixpoint pipeline (j : Jobs) (name : string) (services : list string) : verdict :=
  match services with
  | [] => AllDeployed
  | service :: services =>
      if decide (state_in j name service = JobStatusSucceeded) then pipeline j name services
      else if decide (state_in j name service = JobStatusFailed) then Broken service else Awaiting service
  end.
(** The jobs afterwards. *)
Fixpoint launch (j : Jobs) (name : string) (services : list string) : Jobs :=
  match services with
  | [] => j
  | service :: services =>
      if decide (state_in j name service = JobStatusSucceeded) then launch j name services
      else request name service j
  end.
(** The condition of each service, [None] when it is not reached. *)
Fixpoint stages (j : Jobs) (name : string) (services : list string) : list (option ConditionStatus) :=
  match services with
  | [] => []
  | service :: services =>
      if decide (state_in j name service = JobStatusSucceeded) then Some CTrue :: stages j name services
      else Some CFalse :: replicate (length services) None
  end.

Lemma state_request j name service name' service' :
  state_in (request name service j) name' service' = state_in j name' service'.
Proof.
  unfold request, state_in. destruct (j !! (name, service)) eqn:Hj; [done|].
  destruct (decide ((name', service') = (name, service))) as [[= -> ->]|Hne].
  - by rewrite lookup_insert_eq, Hj.
  - by rewrite lookup_insert_ne by done.
Qed.
Lemma request_succeeded j name service :
  state_in j name service = JobStatusSucceeded → request name service j = j.
Proof. unfold state_in, request. by destruct (j !! _). Qed.

Lemma request_present j name service : request name service j !! (name, service) = Some (state_in j name service).
Proof.
  unfold request, state_in. destruct (j !! (name, service)) eqn:Hj; [by rewrite Hj|].
  by rewrite lookup_insert_eq.
Qed.

(** ** A settled cluster

    [G j] describes the cluster while the jobs are [j].  Along the calls the
    reconciliation makes, the NodeSets of the Deployment can be read and are
    set up, without TLS; so can their services with all the objects these
    name; the jobs are listed as they are in [j], and asking for one makes it
    when it is missing, and leaves its state otherwise; there is at most one
    version; and no service is for all NodeSets, unless the services are
    overridden. *)

Section settled.
Context {W : Type} {KC : KubeClient W} {MR : MapRange}.
Context (G : Jobs → W → Prop) (instance : OpenStackDataPlaneDeployment).

(** A name of one of the NodeSets, and one of its services. *)
Definition deploys (node : string → OpenStackDataPlaneNodeSet) (name service : string) : Prop :=
  name ∈ d_NodeSets (d_Spec instance) ∧ service ∈ effective_services instance (node name).

(** The objects a service mounts. *)
Definition inputs_readable (H : W → Prop) (service : OpenStackDataPlaneService) : Prop :=
  let ns := svc_Namespace service in
  let configmap name := answers H (GetConfigMap (mkNN ns name)) (λ _, True) in
  let secret name := answers H (GetSecret (mkNN ns name)) (λ _, True) in
  (∀ name, name ∈ s_ConfigMaps (svc_Spec service) → configmap name) ∧
  (∀ name, name ∈ s_Secrets (svc_Spec service) → secret name) ∧
  (∀ source, source ∈ s_DataSources (svc_Spec service) →
     (∀ ref, ds_ConfigMapRef source = Some ref → configmap (es_Name ref)) ∧
     (∀ ref, ds_SecretRef source = Some ref → secret (es_Name ref))).

(** The execution of a service on a NodeSet. *)
Definition execution_of (svc : string → OpenStackDataPlaneService) (name service : string)
    (ee : OpenStackAnsibleEE) : Prop :=
  let '(executionName, labels) := GetAnsibleExecutionNameAndLabels (svc service) (d_Name instance) name in
  m_Name (ee_Meta ee) = executionName ∧ m_Namespace (ee_Meta ee) = d_Namespace instance ∧
  labels ⊆ m_Labels (ee_Meta ee).

(** What is listed of the job of a service; a failed one has a Ready condition. *)
Definition listed `{ConditionOps} (svc : string → OpenStackDataPlaneService) (j : Jobs)
    (name service : string) (l : list OpenStackAnsibleEE) : Prop :=
  match j !! (name, service) with
  | None => l = []
  | Some state => ∃ ee, l = [ee] ∧ execution_of svc name service ee ∧ ee_JobStatus ee = state ∧
      (state = JobStatusFailed → is_Some (cond_get (ee_Conditions ee) ReadyCondition))
  end.

Class Settled `{ConditionOps} (node : string → OpenStackDataPlaneNodeSet)
    (svc : string → OpenStackDataPlaneService) : Prop := {
  settled_nodeset j name : name ∈ d_NodeSets (d_Spec instance) →
    answers (G j) (GetNodeSet (mkNN (d_Namespace instance) name)) (.= node name);
  settled_name name : ns_Name (node name) = name;
  settled_setup name : name ∈ d_NodeSets (d_Spec instance) →
    cond_is_true (ns_Conditions (node name)) SetupReadyCondition = true;
  settled_no_tls name : ns_TLSEnabled (ns_Spec (node name)) = false;
  settled_service j name service : deploys node name service →
    answers (G j) (GetServiceObj (mkNN (d_Namespace instance) service)) (.= svc service);
  settled_inputs j name service : deploys node name service → inputs_readable (G j) (svc service);
  settled_job j name service : deploys node name service →
    answers (G j) (ListAnsibleEEs (d_Namespace instance)
        (GetAnsibleExecutionNameAndLabels (svc service) (d_Name instance) name).2)
      (listed svc j name service);
  settled_request j name service ee : deploys node name service → execution_of svc name service ee →
    (j !! (name, service) = None → ee_JobStatus ee = "") →
    ∀ d k i a x w, d_Meta d = d_Meta instance → G j w →
    let mutate := mutate_AnsibleEE d (svc service) k i a name in
    G (request name service j) (CreateOrPatchAnsibleEE ee mutate x w).1 ∧
    ∃ ee', (CreateOrPatchAnsibleEE ee mutate x w).2 = mutate x ee';
  settled_owner ee d : ∃ ee', SetOwnerAnsibleEE d ee = Ok ee';
  settled_versions j : answers (G j) (ListVersions (d_Namespace instance)) (λ l, length l ≤ 1);
  settled_global name service : deploys node name service →
    d_ServicesOverride (d_Spec instance) = None → s_DeployOnAllNodeSets (svc_Spec (svc service)) = false;
}.
End settled.

Section pipeline.
Context {W : Type} {KC : KubeClient W} {KL : KubeLaws KC} {LC : LibCommon W} {CM : CertManager W}.
Context {CO : ConditionOps} {CL : ConditionLaws CO} {V : Validation} {MR : MapRange} {PI : PackageImages}.
Context (G : Jobs → W → Prop) (instance : OpenStackDataPlaneDeployment).
Context (node : string → OpenStackDataPlaneNodeSet) (svc : string → OpenStackDataPlaneService).
Context {SE : Settled G instance node svc}.

Lemma node_name name : ns_Name (node name) = name.
Proof. by apply (settled_name G instance). Qed.

(** ** The job of a service *)

(** The answer of [GetAnsibleExecution]. *)
Definition found_as (j : Jobs) (name service : string) (r : result OpenStackAnsibleEE) : Prop :=
  match j !! (name, service) with
  | None => ∃ err, r = Fail err ∧ IsNotFound err = true
  | Some state => ∃ ee, r = Ok ee ∧ execution_of instance svc name service ee ∧ ee_JobStatus ee = state ∧
      (state = JobStatusFailed → is_Some (cond_get (ee_Conditions ee) ReadyCondition))
  end.
Lemma job_found j name service m w (Q : result OpenStackAnsibleEE → W → Prop) :
  deploys instance node name service → m_Namespace m = d_Namespace instance → G j w →
  (∀ r w', found_as j name service r → G j w' → Q r w') →
  returns (GetAnsibleExecution m
    (GetAnsibleExecutionNameAndLabels (svc service) (d_Name instance) name).2) w Q.
Proof.
  intros Hd Hm Hw HQ. unfold GetAnsibleExecution. rewrite Hm. apply goes_then.
  eapply (goes_answer (G j)); [by eapply (settled_job G instance)|done|].
  unfold listed, found_as in *. intros l w' Hl Hw'. destruct (j !! _) as [state|].
  - destruct Hl as (ee & -> & Hee). apply sat_ret, HQ; [by exists ee|done].
  - subst l. apply sat_return, HQ; [|done]. eexists. split; [done|]. apply NewNotFound_IsNotFound.
Qed.

Lemma execution_goes j d name service k i a w :
  deploys instance node name service → d_Meta d = d_Meta instance → G j w →
  goes (AnsibleExecution d (svc service) k i a (node name)) w
    (λ r w', r.2 = None ∧ G (request name service j) w').
Proof.
  intros Hd Hm Hw. unfold AnsibleExecution.
  rewrite node_name, (surjective_pairing (GetAnsibleExecutionNameAndLabels _ _ _)).
  unfold d_Name, d_Namespace. rewrite Hm. fold (d_Name instance). fold (d_Namespace instance).
  apply goes_bind, returns_call. apply (job_found j name service); [done..|]. intros r w1 Hr Hw1.
  apply goes_bind. apply goes_mono with (Q := λ ee w, (execution_of instance svc name service ee ∧
    (j !! (name, service) = None → ee_JobStatus ee = "")) ∧ G j w).
  { unfold found_as in Hr. destruct (j !! _) as [state|].
    - destruct Hr as (ee & -> & Hee & _). by apply goes_ret.
    - destruct Hr as (err & -> & ->). by apply goes_ret. }
  intros ee w2 [[Hee Hnew] Hw2]. apply goes_bind, goes_op.
  destruct (settled_request G instance j name service ee Hd Hee Hnew d k i a (mkCapture "" (a_ExtraVars a)) w2 Hm Hw2)
    as [Hw3 [ee' ->]].
  unfold mutate_AnsibleEE at 1. cbv zeta.
  match goal with |- context [SetOwnerAnsibleEE ?x ?y] =>
    destruct (settled_owner G instance y x) as [e2 ->] end.
  by apply goes_ret.
Qed.

(** ** The services of a NodeSet *)

(** What the Deployer keeps of the Deployment and the NodeSet. *)
Definition steady (name : string) (d : Deployer) : Prop :=
  d_Meta (dp_Deployment d) = d_Meta instance ∧ dp_NodeSet d = node name ∧
  is_Some (ds_ContainerImages (d_Status (dp_Deployment d))).
Lemma steady_fixed name d d' : keeps_fixed d d' → steady name d → steady name d'.
Proof. intros (Hn & _ & Hm & _ & _ & _ & _ & _ & _ & _ & _ & Hi & _) (?&?&?). split_and!; [congruence..|auto]. Qed.
(** A condition that no round has set yet. *)
Definition fresh (cs : Conditions) (t : string) : Prop :=
  status_of cs t ≠ Some CTrue ∧ status_of cs t ≠ Some CFalse.
Lemma fresh_unknown cs t : fresh cs t → cond_is_unknown cs t = true.
Proof.
  intros [Ht Hf]. rewrite is_unknown_status. apply bool_decide_eq_true.
  destruct (status_of cs t) as [[]|]; naive_solver.
Qed.

Abbreviation conditions s := (dp_nsConditions (obj s)).
Abbreviation ready_of service := (readyCondition (service_messages service)).

Section service.
Context (j : Jobs) (name service : string) (Hd : deploys instance node name service).
Abbreviation the_service := (svc service).
Abbreviation ready := (ready_of service).
Abbreviation asked := (request name service j).
Abbreviation state := (state_in j name service).

Lemma DeployService_goes (s : St W Deployer) :
  steady name (obj s) → G j (world s) →
  goes (DeployService the_service) s (λ err s', err = None ∧ G asked (world s')).
Proof.
  intros (Hm & Hn & _) Hw. unfold DeployService. apply goes_bind, goes_get_obj, goes_bind, goes_on_world.
  rewrite Hn. eapply goes_mono; [by apply (execution_goes j _ name service)|].
  intros [vars err] w1 [Herr Hw1]. simpl in Herr. subst err.
  by apply goes_bind, goes_modify, goes_ret.
Qed.

(** The condition the first half of [ConditionalDeploy] goes on with. *)
Lemma start_goes (s : St W Deployer) :
  steady name (obj s) → fresh (conditions s) ready → G j (world s) →
  goes (start_service (service_messages service) the_service) s (λ cs s', G asked (world s') ∧
    steady name (obj s') ∧ (∀ t, t ≠ ready → status_of cs t = status_of (conditions s) t) ∧
    status_of cs ready = Some CFalse).
Proof.
  intros Hs Hf Hw.
  assert (frames keeps_fixed (start_service (service_messages service) the_service)) as Hk.
  { unfold start_service. frame_tac; auto with frames. apply frames_conditions_fixed, DeployService_frame. }
  eapply goes_mono; [apply (goes_frames _ _ s (λ cs s', G asked (world s') ∧
    (∀ t, t ≠ ready → status_of cs t = status_of (conditions s) t) ∧ status_of cs ready = Some CFalse) Hk)|].
  2:{ intros cs s' [[H1 H2] Hfix]. exact (conj H1 (conj (steady_fixed _ _ _ Hfix Hs) H2)). }
  unfold start_service. apply goes_bind, goes_get_obj. cbv zeta. rewrite fresh_unknown by done.
  apply goes_bind, goes_call. eapply goes_mono; [by apply DeployService_goes|].
  intros err s1 [-> Hw1]. apply goes_bind, goes_modify, goes_ret. split_and!; [done| |].
  - intros t Ht. by rewrite status_requested, decide_False.
  - by rewrite status_requested, (decide_True (P := ready = ready)).
Qed.

(** What becomes of the service: its job has succeeded; or else it is
    awaited, or has failed. *)
Definition settles (s s' : St W Deployer) (err : option Err) : Prop :=
  (∀ t, t ≠ ready → status_of (conditions s') t = status_of (conditions s) t) ∧
  if decide (state = JobStatusSucceeded)
  then err = None ∧ status_of (conditions s') ready = Some CTrue
  else (is_Some err ↔ state = JobStatusFailed) ∧ status_of (conditions s') ready = Some CFalse.

Lemma job_settles ee cs cs' err :
  ee_JobStatus ee = state → status_of cs ready = Some CFalse →
  job_table (service_messages service) ee cs cs' err →
  if decide (state = JobStatusSucceeded) then err = None ∧ status_of cs' ready = Some CTrue
  else (is_Some err ↔ state = JobStatusFailed) ∧ status_of cs' ready = Some CFalse.
Proof.
  intros Hee Hcs (_ & Hs & Hr & Hf & He). rewrite Hee in *.
  assert (¬ is_Some (@None Err)) as Hn by (by intros [? ?]).
  destruct (decide (state = JobStatusSucceeded)) as [Hj|Hj]; [by destruct (Hs Hj)|].
  destruct (decide (state = JobStatusFailed)) as [Hjf|Hjf].
  - destruct (Hf Hjf) as (c & _ & Herr & Hc). split; [by split|]. unfold status_of.
    destruct (cond_get cs' _); [|done]. simpl in *. by injection Hc as ->.
  - assert (status_of cs' ready = Some CFalse ∧ err = None) as [Hc ->]; [|by split].
    destruct (decide (state = JobStatusRunning)); [by apply Hr; left|].
    destruct (decide (state = JobStatusPending)); [by apply Hr; right|].
    by destruct (He Hj) as [-> ->].
Qed.

Lemma ConditionalDeploy_settles (s : St W Deployer) :
  steady name (obj s) → fresh (conditions s) ready → G j (world s) →
  goes (ConditionalDeploy (service_messages service) the_service) s (λ err s',
    G asked (world s') ∧ settles s s' err).
Proof.
  intros Hs Hf Hw. unfold ConditionalDeploy. apply goes_bind.
  eapply goes_mono; [by apply start_goes|]. intros cs s1 (Hw1 & (Hm1 & Hn1 & _) & Hcs & Hst).
  apply goes_bind. apply (goes_mono _ _ (λ r s', G asked (world s') ∧
    (∀ t, t ≠ ready → status_of r.1 t = status_of (conditions s) t) ∧
    if decide (state = JobStatusSucceeded)
    then r.2 = None ∧ status_of r.1 ready = Some CTrue
    else (is_Some r.2 ↔ state = JobStatusFailed) ∧ status_of r.1 ready = Some CFalse)).
  2:{ intros [cs' err] s2 (Hw2 & Ho & Ht). apply goes_bind, goes_modify, goes_ret.
      split; [done|]. unfold settles. simpl in *. by rewrite nsConditions_set. }
  unfold check_job. rewrite is_false_status, Hst. simpl.
  apply goes_bind, goes_get_obj. cbv zeta. apply goes_bind, returns_on_world.
  rewrite Hn1, node_name. unfold d_Name. rewrite Hm1. fold (d_Name instance).
  apply (job_found asked name service); [done..|]. intros r w2 Hr Hw2.
  unfold found_as in Hr. rewrite request_present in Hr. destruct Hr as (ee & -> & _ & Hee & Hr).
  unfold goes. eapply sat_mono; [apply job_outcome_spec|]. intros [[cs' err]|r|] s2 [-> Ho]; [|done|].
  - split; [done|]. split; [intros t Hne; simpl; rewrite <- Hcs by done; by apply Ho|].
    by eapply job_settles.
  - destruct Ho as [Hfail Hnone]. rewrite Hee in Hfail.
    destruct (Hr Hfail) as [c Hc]. by rewrite Hc in Hnone.
Qed.

(** Reading a list of objects that can all be read. *)
Lemma reads_go {A B X R} (H : W → Prop) (l : list string) (f : string → W → W * result A) (g : B → A → B) b
    (s : St W X) (fail : Err → M (St W X) R B) :
  (∀ x, x ∈ l → answers H (f x) (λ _, True)) → H (world s) →
  goes (for_acc l (λ b x,
    r ← on_world (op (f x)); match r with Fail err => fail err | Ok a => mret (g b a) end) b) s
    (λ _ s', H (world s')).
Proof.
  intros Hf Hw. apply goes_for_acc with (I := λ _ s, H (world s)); [done| |done].
  intros x b1 s1 Hx Hw1. apply goes_bind, goes_on_world.
  eapply (goes_answer _); [by apply Hf|done|]. intros a w' _ Hw'. by apply goes_ret.
Qed.

Lemma extra_mounts_goes (s : St W Deployer) :
  G j (world s) → goes (addServiceExtraMounts the_service) s (λ err s', err = None ∧ G j (world s')).
Proof.
  intros Hw. destruct (settled_inputs G instance j name service Hd) as (Hc & Hs & Hsrc).
  unfold addServiceExtraMounts. cbv zeta. apply goes_bind.
  apply goes_for_acc with (I := λ _ s, G j (world s)); [done| |].
  { intros source [cms secs] s1 Hin Hw1. apply goes_bind, goes_on_world.
    destruct (Hsrc _ Hin). eapply goes_mono; [by apply (source_goes (G j))|].
    intros r w1 [[[cm sec] ->] Hw2]. by apply goes_ret. }
  intros [cms secs] s1 Hw1. apply goes_bind.
  eapply goes_mono; [by apply (reads_go (G j))|]. intros cms' s2 Hw2.
  apply goes_bind. eapply goes_mono; [by apply (reads_go (G j))|].
  intros secs' s3 Hw3. apply goes_bind.
  apply goes_for_acc with (I := λ _ s, G j (world s)); [done|by intros|]. intros _ s4 Hw4.
  apply goes_bind, goes_for_acc with (I := λ _ s, G j (world s)); [done|by intros|]. intros _ s5 Hw5.
  by apply goes_ret.
Qed.

(** What the last step finds. *)
Lemma finish_goes (s : St W Deployer) :
  steady name (obj s) → G asked (world s) → status_of (conditions s) ready = Some CTrue →
  goes (finish_service (service_messages service) the_service None) s (λ _ s', G asked (world s')).
Proof.
  intros Hs Hw Ht. unfold finish_service. apply goes_bind, goes_get_obj.
  rewrite is_true_status, Ht. simpl. destruct (dp_Version (obj s)) as [v|]; [|by apply goes_ret].
  apply goes_for_acc with (I := λ _ s, steady name (obj s) ∧ G asked (world s)); [done| |by intros ?? [_ ?]].
  clear Hs Ht Hw. intros cif _ s1 _ [(Hm & Hn & [m Hi]) Hw1]. unfold record_image.
  apply goes_bind, goes_get_obj. rewrite Hi. apply goes_bind, goes_ret, goes_modify.
  split; [|done]. by split_and!; [| |eexists].
Qed.

(** What a round for the service leads to: to the next service when it is
    deployed, and out of [Deploy] when it is not. *)
Definition serviced (s : St W Deployer) (o : outcome (option Result * option Err) ()) (s' : St W Deployer) : Prop :=
  G asked (world s') ∧ ∃ err, settles s s' err ∧
    o = (if decide (state = JobStatusSucceeded) then Next () else Return (Some emptyResult, err)).

Lemma finish_settles err (s s1 : St W Deployer) :
  steady name (obj s1) → G asked (world s1) → settles s s1 err →
  sat (finish_service (service_messages service) the_service err) s1 (serviced s).
Proof.
  intros Hs Hw Hset. pose proof Hset as [Ho Hc]. unfold serviced.
  destruct (decide (state = JobStatusSucceeded)) as [Hd1|Hd1].
  - destruct Hc as [-> Ht]. pose proof (finish_goes s1 Hs Hw Ht) as Hg.
    pose proof (finish_service_next (service_messages service) the_service None s1) as Hn.
    unfold goes, sat in *. destruct (finish_service _ _ _ _) as [[[]|r|] s2]; simpl in *; [|done..].
    destruct Hn as (_ & _ & Hsame). split; [done|]. exists None. split; [|done].
    unfold settles. by rewrite Hsame.
  - destruct Hc as [He Hf]. unfold finish_service. apply sat_bind, sat_gets.
    rewrite is_true_status, Hf. simpl. rewrite orb_true_r. apply sat_return. split; [done|].
    exists err. by split.
Qed.

(** What holds before the service is looked at. *)
Definition ripe (s : St W Deployer) : Prop :=
  steady name (obj s) ∧ fresh (conditions s) ready ∧ G j (world s).
Lemma ripe_conditions s s' : keeps_conditions (obj s) (obj s') → G j (world s') → ripe s → ripe s'.
Proof.
  intros Hk Hw (Hs & Hf & _). split_and!; [by eapply steady_fixed, Hs; destruct Hk| |done].
  by rewrite (keeps_conditions_ns _ _ Hk).
Qed.

(** The service was found; its certificates, if any, come after its mounts. *)
Lemma found_settles (s : St W Deployer) :
  ripe s →
  sat (err ← call (addServiceExtraMounts the_service);
    _ ← match err with
        | Some err => fail_service (service_messages service) (conditions s) err
        | None => mret ()
        end;
    _ ← mret ();
    err ← call (ConditionalDeploy (service_messages service) the_service);
    finish_service (service_messages service) the_service err) s (serviced s).
Proof.
  intros Hripe. apply goes_then, goes_call.
  eapply goes_mono; [apply (goes_frames keeps_conditions);
    [apply addServiceExtraMounts_frame|apply extra_mounts_goes, Hripe]|].
  intros err s1 [[-> Hw1] Hk1]. pose proof (ripe_conditions _ _ Hk1 Hw1 Hripe) as (Hs & Hf & Hw).
  apply goes_then, goes_ret, goes_then, goes_ret, goes_then, goes_call.
  eapply goes_mono; [apply (goes_frames keeps_fixed);
    [apply ConditionalDeploy_frame|by apply ConditionalDeploy_settles]|].
  intros err s2 [[Hw2 Hset] Hk2]. apply finish_settles; [by eapply steady_fixed|done|].
  unfold settles in *. by rewrite <- (keeps_conditions_ns _ _ Hk1).
Qed.

Lemma deploy_service_settles services mounts (s : St W Deployer) :
  ripe s → sat (deploy_service services mounts service) s (λ o s', serviced s o s' ∧ steady name (obj s')).
Proof.
  intros Hripe. pose proof Hripe as (Hs & Hf & Hw).
  apply sat_and; [|eapply sat_mono; [apply (frames_sat keeps_fixed), deploy_service_frame|];
    intros o s' Hk; exact (steady_fixed _ _ _ Hk Hs)].
  unfold deploy_service. cbv zeta. apply goes_then, goes_get_obj, goes_then, goes_on_world.
  unfold GetService, dp_namespace, d_Namespace. rewrite (proj1 Hs). fold (d_Namespace instance).
  eapply (goes_answer (G j)); [by apply (settled_service G instance j name)|done|].
  intros found w1 -> Hw1. apply goes_then, goes_modify, goes_then, goes_modify.
  rewrite (proj1 (proj2 Hs)), (settled_no_tls G instance). simpl.
  match goal with |- sat _ ?s1 _ =>
    assert (keeps_conditions (obj s) (obj s1)) as Hk by (by etransitivity; apply keeps_set_AeeSpec) end.
  pose proof (keeps_conditions_ns _ _ Hk) as Hns. unfold serviced, settles. rewrite <- Hns.
  apply found_settles. by eapply ripe_conditions, Hripe.
Qed.
End service.

(** ** All services *)

(** An outcome, [done] being the one that goes on, stands for a verdict. *)
Definition stands_for {A} (done : A) (v : verdict) (o : outcome (option Result * option Err) A) : Prop :=
  match v with
  | AllDeployed => o = Next done
  | Awaiting _ => o = Return (Some emptyResult, None)
  | Broken _ => ∃ err, o = Return (Some emptyResult, Some err)
  end.
Definition at_stage (cs cs' : Conditions) (service : string) (stage : option ConditionStatus) : Prop :=
  status_of cs' (ready_of service) =
    match stage with Some st => Some st | None => status_of cs (ready_of service) end.

Lemma Forall2_impl_in {A B} (P Q : A → B → Prop) l k :
  Forall2 P l k → (∀ x y, x ∈ l → P x y → Q x y) → Forall2 Q l k.
Proof.
  induction 1 as [|x y l k Hp _ IH]; intros H; constructor; [apply H; [by left|done]|].
  apply IH. intros a b Ha. apply H. by right.
Qed.
Lemma Forall2_replicate_in {A B} (P : A → B → Prop) l y :
  (∀ x, x ∈ l → P x y) → Forall2 P l (replicate (length l) y).
Proof.
  induction l as [|x l IH]; intros H; constructor; [apply H; by left|].
  apply IH. intros a Ha. apply H. by right.
Qed.

(** A Deployer at the start of a round for these services. *)
Definition ready_to_deploy (j : Jobs) (name : string) (services : list string) (s : St W Deployer) : Prop :=
  (∀ service, service ∈ services → deploys instance node name service) ∧
  NoDup ((λ service, ready_of service) <$> services) ∧
  steady name (obj s) ∧ (∀ service, service ∈ services → fresh (conditions s) (ready_of service)) ∧
  G j (world s).
(** What a round does, [done] being the answer that goes on. *)
Definition pipelined {A} (done : A) (j : Jobs) (name : string) (services : list string) (s : St W Deployer)
    (o : outcome (option Result * option Err) A) (s' : St W Deployer) : Prop :=
  stands_for done (pipeline j name services) o ∧
  G (launch j name services) (world s') ∧
  Forall2 (at_stage (conditions s) (conditions s')) services (stages j name services) ∧
  ∀ t, t ∉ (λ service, ready_of service) <$> services →
    status_of (conditions s') t = status_of (conditions s) t.

Lemma loop_refines j name all mounts services (s : St W Deployer) :
  ready_to_deploy j name services s →
  sat (for_each services (deploy_service all mounts)) s (pipelined () j name services s).
Proof.
  unfold ready_to_deploy. revert s. induction services as [|x services IH]; intros s (Hd & Hnd & Hs & Hf & Hw).
  { apply sat_ret. split_and!; [done|done|constructor|done]. }
  rewrite fmap_cons in Hnd. apply NoDup_cons in Hnd as [Hx Hnd].
  unfold for_each. simpl. apply sat_bind.
  eapply sat_mono; [apply (deploy_service_settles j name x (Hd x ltac:(by left))); split_and!;
    [done|apply Hf; by left|done]|].
  intros o s1 [(Hw1 & err & [Ho Hset] & ->) Hs1].
  assert (∀ service, service ∈ services → ready_of service ≠ ready_of x) as Hne.
  { intros service Hin Heq. apply Hx. rewrite <- Heq. by apply (list_elem_of_fmap_2 (λ service, ready_of service)). }
  unfold pipelined. cbn [pipeline launch stages].
  destruct (decide (state_in j name x = JobStatusSucceeded)) as [Hj|Hj].
  - destruct Hset as [_ Ht]. rewrite (request_succeeded _ _ _ Hj) in Hw1.
    eapply sat_mono; [apply (IH s1); split_and!; [|done|done| |done]|].
    + intros service Hin. apply Hd. by right.
    + intros service Hin. unfold fresh. rewrite Ho by auto. apply Hf. by right.
    + intros o s2 (Hv & Hg & Hst & Hrest). split_and!; [done|done| |].
      * constructor; [unfold at_stage; by rewrite Hrest|].
        eapply Forall2_impl_in; [exact Hst|]. intros service [st|] Hin; unfold at_stage; [done|].
        intros ->. by rewrite Ho by auto.
      * intros t Hnin. apply not_elem_of_cons in Hnin as [Hnx Hnin]. by rewrite Hrest, Ho.
  - destruct Hset as [He Hfalse]. split_and!.
    + destruct (decide (state_in j name x = JobStatusFailed)) as [Hj'|Hj']; simpl.
      * apply He in Hj' as [e ->]. eauto.
      * destruct err as [e|]; [|done]. destruct Hj'. apply He. eauto.
    + done.
    + constructor; [done|]. apply Forall2_replicate_in. intros service Hin. apply Ho. auto.
    + intros t Hnin. apply Ho. by apply not_elem_of_cons in Hnin as [Hnx _].
Qed.

Lemma Deploy_pipelined j name services (s : St W Deployer) :
  ready_to_deploy j name services s → sat (Deploy services) s (pipelined (None, None) j name services s).
Proof.
  intros Hr. unfold Deploy. apply sat_bind, sat_gets. cbv zeta. apply sat_bind.
  eapply sat_mono; [by apply (loop_refines j name)|]. intros o s' (Hv & Hrest). unfold pipelined.
  destruct (pipeline j name services); simpl in Hv |- *.
  - rewrite Hv. by apply sat_ret.
  - by rewrite Hv.
  - destruct Hv as [err ->]. split; [by exists err|done].
Qed.

(** C3. In a settled cluster, [Deploy] implements the abstract machine.  A
    settled cluster ([Settled]) is one where the NodeSets of the Deployment are
    read and set up, and none has TLS enabled; their services are read, and so is
    every ConfigMap and Secret these name; the job of each service is listed
    with the state it has, at most one for each, a failed one with a Ready condition;
    asking for a job gets through and makes it when it is missing; owner
    references can be set; there is at most one OpenStackVersion; and no service is for
    all NodeSets unless the services are overridden; and the calls of the
    operator leave it so.  The Deployer must be
    ready for the round ([ready_to_deploy]): the services are some of those of its
    NodeSet, no two of them have the same condition (names that differ in separators
    or case can share one), and the condition of each is not set yet or still
    Unknown, as the reconciliation leaves it; the Deployment has its map of
    container images.  Under these conditions, and whatever the
    jobs have come to, [Deploy] answers as the machine does: all is deployed when
    all the jobs have succeeded; otherwise the first service whose job has not
    succeeded is awaited, or its failure is the error.  It leaves the jobs as
    the machine does: none is touched but that of the service it stops at, which
    is made when there is none.  And the conditions show just that: True for
    the services before, False for that one, and for those after it what they
    were. *)
Theorem Deploy_refines_pipeline j name services (s : St W Deployer) :
  ready_to_deploy j name services s →
  sat (Deploy services) s (λ o s',
    stands_for (None, None) (pipeline j name services) o ∧
    G (launch j name services) (world s') ∧
    Forall2 (at_stage (conditions s) (conditions s')) services (stages j name services)).
Proof.
  intros Hr. eapply sat_mono; [by apply Deploy_pipelined|]. by intros o s' (? & ? & ? & _).
Qed.
End pipeline.

(** ** A cluster held in memory: a NodeSet with two services that mount a
    ConfigMap, and their jobs in any state. *)

Import ListConditions.

Definition configured_service (name : string) : OpenStackDataPlaneService :=
  mkService (meta "openstack" name)
    (mkServiceSpec ["config"] [] [] None "" "" "" "" "" false false [] name) [].
Definition two_services : OpenStackDataPlaneDeployment :=
  mkDeployment (meta "openstack" "deploy")
    (mkDeploymentSpec ["edpm"] None "" "" "" None (Some ["ovn"; "nova"]) 15) zeroDeploymentStatus.
Definition node_called (name : string) : OpenStackDataPlaneNodeSet :=
  named_as (mkNN "openstack" name) ready_nodeset.
Definition job_key (service : string) : string := "openstack/" +:+ service +:+ "-deploy-edpm".

(** The entry of a job in the store. *)
Definition job_held (j : Jobs) (service : string) (found : option OpenStackAnsibleEE) : Prop :=
  match j !! ("edpm", service), found with
  | None, None => True
  | Some state, Some ee =>
      execution_of two_services configured_service "edpm" service ee ∧ ee_JobStatus ee = state ∧
      (state = JobStatusFailed → is_Some (cond_get (ee_Conditions ee) ReadyCondition))
  | _, _ => False
  end.
Definition jobs_held (j : Jobs) (m : gmap string OpenStackAnsibleEE) : Prop :=
  (∀ service, service ∈ ["ovn"; "nova"] → job_held j service (m !! job_key service)) ∧
  ∀ k ee, m !! k = Some ee → ∃ service, service ∈ ["ovn"; "nova"] ∧ k = job_key service.

Definition sim_settled (j : Jobs) (w : Sim) : Prop :=
  faults w = [] ∧
  nodesets w = {[ "openstack/edpm" := ready_nodeset ]} ∧
  services w = <["openstack/ovn" := configured_service "ovn"]>
    {[ "openstack/nova" := configured_service "nova" ]} ∧
  configmaps w = {[ "openstack/config" := mkConfigMap "config" {[ "a.conf" := "debug" ]} ∅ ]} ∧
  versions w = [] ∧
  (∃ d, deployments w = {[ "openstack/deploy" := d ]} ∧ same_request two_services d ∧
     ds_Deployed (d_Status d) = false) ∧
  jobs_held j (ansibleees w).

Lemma settled_faulty {A} j (f : Sim → result A) good :
  (∀ w, sim_settled j w → ∃ a, f w = Ok a ∧ good a) →
  answers (sim_settled j) (faulty (λ w, (w, f w))) good.
Proof.
  intros Hf w Hw. unfold faulty. destruct Hw as (Hno & Hw). rewrite Hno.
  destruct (Hf w (conj Hno Hw)) as (a & Ha & Hgood). cbv beta iota. rewrite Ha. split; [done|by exists a].
Qed.
Lemma settled_fetch {A} j (m : Sim → gmap string A) nn a (good : A → Prop) :
  (∀ w, sim_settled j w → m w !! key (nn_Namespace nn) (nn_Name nn) = Some a) → good a →
  answers (sim_settled j) (fetch m nn) good.
Proof. intros Hm Hgood. apply settled_faulty. intros w Hw. exists a. by rewrite Hm. Qed.

Lemma two_deploys name service : deploys two_services node_called name service →
  name = "edpm" ∧ service ∈ ["ovn"; "nova"].
Proof.
  intros [->%list_elem_of_singleton Hs]. split; [done|].
  by change (effective_services _ _) with ["ovn"; "nova"] in Hs.
Qed.

(** Both executions are looked up by labels that tell them apart. *)
Lemma executions_differ service service' ee :
  execution_of two_services configured_service "edpm" service ee →
  (GetAnsibleExecutionNameAndLabels (configured_service service') "deploy" "edpm").2 ⊆ m_Labels (ee_Meta ee) →
  service' = service.
Proof.
  intros (_ & _ & Hl) Hl'. cbn [GetAnsibleExecutionNameAndLabels snd] in Hl'.
  pose proof (lookup_weaken _ _ "openstackdataplaneservice" service (lookup_insert_eq _ _ _) Hl) as H.
  pose proof (lookup_weaken _ _ "openstackdataplaneservice" service' (lookup_insert_eq _ _ _) Hl') as H'.
  congruence.
Qed.

Lemma sim_listed j service w :
  service ∈ ["ovn"; "nova"] → sim_settled j w →
  listed two_services configured_service j "edpm" service
    (filter (λ e, Is_true (labelled (GetAnsibleExecutionNameAndLabels (configured_service service)
        "deploy" "edpm").2 (ee_Meta e))) (in_namespace ee_Meta "openstack" (ansibleees w))).
Proof.
  intros Hin (_ & _ & _ & _ & _ & _ & Hj & Hk). unfold in_namespace. rewrite list_filter_filter.
  rewrite (filter_values_one _ _ (job_key service)).
  - specialize (Hj _ Hin). unfold listed, job_held in *.
    destruct (j !! _) as [state|], (ansibleees w !! _) as [ee|]; [|done..].
    exists ee. split; [|done]. apply decide_True. destruct Hj as ((_ & Hns & Hl) & _).
    split; [by apply bool_decide_pack|done].
  - intros k ee Hee [Hl%bool_decide_unpack _]. destruct (Hk _ _ Hee) as (service' & Hin' & ->).
    specialize (Hj _ Hin'). rewrite Hee in Hj. unfold job_held in Hj.
    destruct (j !! _) as [state|]; [|done]. destruct Hj as (Hex & _).
    by rewrite (executions_differ _ _ _ Hex Hl).
Qed.

Lemma job_key_inj service service' :
  service ∈ ["ovn"; "nova"] → service' ∈ ["ovn"; "nova"] → job_key service = job_key service' → service = service'.
Proof.
  intros [->|[->|[]%not_elem_of_nil]%elem_of_cons]%elem_of_cons
    [->|[->|[]%not_elem_of_nil]%elem_of_cons]%elem_of_cons; done.
Qed.
Lemma held_request j m service ee :
  service ∈ ["ovn"; "nova"] → jobs_held j m →
  execution_of two_services configured_service "edpm" service ee →
  ee_JobStatus ee = state_in j "edpm" service →
  (ee_JobStatus ee = JobStatusFailed → is_Some (cond_get (ee_Conditions ee) ReadyCondition)) →
  jobs_held (request "edpm" service j) (<[job_key service := ee]> m).
Proof.
  intros Hin [Hj Hk] Hex Hst Hf. split.
  - intros service' Hin'. destruct (decide (service' = service)) as [->|Hne].
    + unfold job_held. rewrite (request_present j), (lookup_insert_eq m). split_and!; [done|done|]. by rewrite <- Hst.
    + rewrite lookup_insert_ne by (by intros ?%job_key_inj). specialize (Hj _ Hin').
      unfold job_held, request in *. destruct (j !! ("edpm", service)); [done|].
      rewrite lookup_insert_ne; [done|congruence].
  - intros k ee' [[<- _]|[_ Hm]]%lookup_insert_Some; eauto.
Qed.

Lemma sim_request j service ee d k i a x w :
  service ∈ ["ovn"; "nova"] → execution_of two_services configured_service "edpm" service ee →
  (j !! ("edpm", service) = None → ee_JobStatus ee = "") → sim_settled j w →
  let mutate := mutate_AnsibleEE d (configured_service service) k i a "edpm" in
  sim_settled (request "edpm" service j) (CreateOrPatchAnsibleEE ee mutate x w).1 ∧
  ∃ ee', (CreateOrPatchAnsibleEE ee mutate x w).2 = mutate x ee'.
Proof.
  intros Hin Hex Hnew (Hf & Hn & Hs & Hc & Hv & Hd & Hj) mutate.
  assert (key (m_Namespace (ee_Meta ee)) (m_Name (ee_Meta ee)) = job_key service) as Hkey.
  { destruct Hex as (-> & -> & _). clear -Hin.
    by apply elem_of_cons in Hin as [->|[->|[]%not_elem_of_nil]%elem_of_cons]. }
  set (ee0 := default ee (ansibleees w !! job_key service)).
  assert (execution_of two_services configured_service "edpm" service ee0 ∧
    ee_JobStatus ee0 = state_in j "edpm" service ∧
    (ee_JobStatus ee0 = JobStatusFailed → is_Some (cond_get (ee_Conditions ee0) ReadyCondition))) as (Hex0 & Hst0 & Hf0).
  { pose proof (proj1 Hj _ Hin) as Hheld. unfold job_held, ee0, state_in in *.
    destruct (j !! _) as [state|], (ansibleees w !! _) as [ee1|]; [|done..|]; simpl.
    - destruct Hheld as (? & -> & ?). done.
    - rewrite Hnew by done. done. }
  pose proof (held_request j (ansibleees w) service (mkEE (ee_Meta ee0) (ee_Spec (default ee0
    (match (mutate x ee0).2 with Ok ee' => Some ee' | Fail _ => None end))) (ee_JobStatus ee0) (ee_Conditions ee0))
    Hin Hj Hex0 Hst0 Hf0) as Hheld.
  cbn [CreateOrPatchAnsibleEE sim_kube]. rewrite Hkey. fold ee0. clearbody ee0.
  split; [|by exists ee0].
  unfold mutate, mutate_AnsibleEE, SetOwnerAnsibleEE, sim_kube in *. cbn [fst snd default] in *.
  exact (conj Hf (conj Hn (conj Hs (conj Hc (conj Hv (conj Hd Hheld)))))).
Qed.

#[export] Instance sim_is_settled : Settled sim_settled two_services node_called configured_service.
Proof.
  split.
  - intros j name ->%list_elem_of_singleton w Hw.
    destruct (settled_fetch j nodesets (mkNN "openstack" "edpm") ready_nodeset (.= ready_nodeset)
      ltac:(by intros w' (_ & -> & _)) eq_refl w Hw) as (Hw' & n & Hn & ->).
    unfold GetNodeSet, sim_kube. change (d_Namespace two_services) with "openstack".
    destruct (fetch _ _ w) as [w' r]. simpl in *. rewrite Hn. eauto.
  - done.
  - intros name _. vm_compute. reflexivity.
  - done.
  - intros j name service [-> Hin]%two_deploys. apply (settled_fetch _ _ _ (configured_service service)); [|done].
    intros w (_ & _ & -> & _). clear -Hin.
    by apply elem_of_cons in Hin as [->|[->|[]%not_elem_of_nil]%elem_of_cons].
  - intros j name service _. split_and!.
    + intros x ->%list_elem_of_singleton. eapply settled_fetch; [|done]. by intros w (_ & _ & _ & -> & _).
    + by intros x ?%not_elem_of_nil.
    + by intros x ?%not_elem_of_nil.
  - intros j name service [-> Hin]%two_deploys. apply settled_faulty. intros w Hw.
    eexists. split; [done|]. by apply sim_listed.
  - intros j name service ee [-> Hin]%two_deploys Hex Hnew d k i a x w _ Hw. by apply sim_request.
  - intros ee d. by exists ee.
  - intros j. apply settled_faulty. intros w (_ & _ & _ & _ & -> & _). eexists. split; [done|]. simpl. lia.
  - done.
Qed.

(** The job of the first service has succeeded, there is none of the second. *)
Definition ovn_job : OpenStackAnsibleEE :=
  mkEE (mkMeta "ovn-deploy-edpm" "openstack"
      (GetAnsibleExecutionNameAndLabels (configured_service "ovn") "deploy" "edpm").2 0 true)
    zeroEESpec JobStatusSucceeded [].
Definition base_world : Sim :=
  set_services (<["openstack/ovn" := configured_service "ovn"]> {[ "openstack/nova" := configured_service "nova" ]})
    (set_configmaps {[ "openstack/config" := mkConfigMap "config" {[ "a.conf" := "debug" ]} ∅ ]}
      (set_nodesets {[ "openstack/edpm" := ready_nodeset ]}
        (set_deployments {[ "openstack/deploy" := two_services ]} empty_sim))).
Definition half_done_world : Sim := set_ansibleees {[ "openstack/ovn-deploy-edpm" := ovn_job ]} base_world.
Definition half_done : Jobs := {[ ("edpm", "ovn") := JobStatusSucceeded ]}.
Lemma half_done_settled : sim_settled half_done half_done_world.
Proof.
  split_and!; [reflexivity..| |].
  - exists two_services. split; [reflexivity|]. split; reflexivity.
  - split.
    + intros service [->|[->|[]%not_elem_of_nil]%elem_of_cons]%elem_of_cons; [|done].
      unfold job_held, half_done. rewrite lookup_singleton_eq. cbn [half_done_world set_ansibleees ansibleees].
      unfold job_key. rewrite lookup_singleton_eq. by split_and!.
    + intros k ee Hk. change (ansibleees half_done_world) with
        ({[ "openstack/ovn-deploy-edpm" := ovn_job ]} : gmap string OpenStackAnsibleEE) in Hk.
      apply lookup_singleton_Some in Hk as [<- _]. exists "ovn". split; [by left|done].
Qed.

Definition two_deployer : Deployer :=
  mkDeployer (node_called "edpm")
    (mkDeployment (d_Meta two_services) (d_Spec two_services)
      (mkDeploymentStatus {[ "edpm" := [] ]} None None None (Some ∅) [] 0 "" false)) zeroAeeSpec
    {[ "edpm" := "dataplanenodeset-edpm" ]} {[ "edpm" := "ssh-key" ]} None.
Lemma Deploy_refines_pipeline_witness :
  let s := mkSt half_done_world two_deployer in
  sat (Deploy ["ovn"; "nova"]) s (λ o s',
    o = Return (Some emptyResult, None) ∧
    sim_settled (<[("edpm", "nova") := ""]> half_done) (world s') ∧
    status_of (dp_nsConditions (obj s')) (readyCondition (service_messages "ovn")) = Some CTrue ∧
    status_of (dp_nsConditions (obj s')) (readyCondition (service_messages "nova")) = Some CFalse).
Proof.
  intros s. eapply sat_mono.
  - apply (Deploy_refines_pipeline sim_settled two_services node_called configured_service half_done "edpm"
      ["ovn"; "nova"] s).
    split_and!.
    + intros service Hin. split; [by left|exact Hin].
    + apply (bool_decide_unpack _). vm_compute. exact I.
    + split_and!; [reflexivity|reflexivity|eexists; reflexivity].
    + intros service _. split; discriminate.
    + apply half_done_settled.
  - intros o s' (Ho & Hg & Hst). split; [exact Ho|]. split; [exact Hg|].
    inversion_clear Hst as [|? ? ? ? H1 H2]. inversion_clear H2 as [|? ? ? ? H3 _]. split; [exact H1|exact H3].
Defined.
