(* ===== verification/Liveness.v ===== *)
(** Progress of a Deployment, round by round: each reconciliation does what
    the abstract machine does for every NodeSet, and when the jobs that were
    asked for succeed between the rounds, the Deployment is deployed after as
    many rounds as a NodeSet has services, and one more. *)

From stdpp Require Import base gmap strings list.
From S2P Require Import Prelude GoStd Conditions Types Cluster Sim Images ApiTypes DataSource AnsibleExec.
From S2P Require Import Service Cert Hashes Deployer DeploymentController Pipeline.

(** ** The abstract machine over all NodeSets *)

Definition is_deployed (v : verdict) : bool := match v with AllDeployed => true | _ => false end.
Definition is_broken (v : verdict) : bool := match v with Broken _ => true | _ => false end.

Section machine.
Context (services_of : string → list string).

(** A round for every NodeSet in turn. *)
Definition sweep (names : list string) (j : Jobs) : Jobs :=
  fold_left (λ j name, launch j name (services_of name)) names j.
Definition all_deployed (names : list string) (j : Jobs) : bool :=
  forallb (λ name, is_deployed (pipeline j name (services_of name))) names.
Definition some_broken (names : list string) (j : Jobs) : bool :=
  existsb (λ name, is_broken (pipeline j name (services_of name))) names.

(** Asking for jobs does not change their states. *)
Lemma state_launch j name services name' service' :
  state_in (launch j name services) name' service' = state_in j name' service'.
Proof.
  induction services as [|service services IH]; simpl; [done|].
  case_decide; [exact IH|apply state_request].
Qed.
Lemma pipeline_same j j' name services :
  (∀ service, state_in j' name service = state_in j name service) →
  pipeline j' name services = pipeline j name services.
Proof.
  intros Hs. induction services as [|service services IH]; simpl; [done|]. by rewrite Hs, IH.
Qed.
Lemma all_deployed_launch names j name services :
  all_deployed names (launch j name services) = all_deployed names j.
Proof.
  unfold all_deployed. induction names as [|x names IH]; simpl; [done|]. rewrite IH.
  by rewrite (pipeline_same j) by (intros; apply state_launch).
Qed.
Lemma some_broken_launch names j name services :
  some_broken names (launch j name services) = some_broken names j.
Proof.
  unfold some_broken. induction names as [|x names IH]; simpl; [done|]. rewrite IH.
  by rewrite (pipeline_same j) by (intros; apply state_launch).
Qed.
End machine.

Section rounds.
Context {W : Type} {KC : KubeClient W} {KL : KubeLaws KC} {LC : LibCommon W} {CM : CertManager W}.
Context {CO : ConditionOps} {CL : ConditionLaws CO} {V : Validation} {MR : MapRange} {PI : PackageImages}.
Context (G : Jobs → W → Prop) (instance : OpenStackDataPlaneDeployment).
Context (node : string → OpenStackDataPlaneNodeSet) (svc : string → OpenStackDataPlaneService).
Context {SE : Settled G instance node svc}.

#[local] Notation node_name := (Pipeline.node_name G instance node svc).
Abbreviation services_of := (λ name, effective_services instance (node name)).
Abbreviation ready_of service := (readyCondition (service_messages service)).

(** ** A NodeSet *)

Lemma same_deployment_request d d1 d2 : same_request d d1 → same_deployment d1 d2 → same_request d d2.
Proof. intros (?&?&?) (?&?&?&_). split_and!; congruence. Qed.
Lemma effective_same_request d nodeSet :
  same_request instance d → effective_services d nodeSet = effective_services instance nodeSet.
Proof. intros (_ & _ & H). unfold effective_services, ServicesOverride. by rewrite H. Qed.

(** A Deployment in memory, before the rounds for the given NodeSets. *)
Definition fit (names : list string) (d : OpenStackDataPlaneDeployment) : Prop :=
  same_request instance d ∧ (maps_made d ∧ pending d) ∧
  ∀ name, name ∈ names →
    (∀ service, fresh (nodeset_conditions name d) (ready_of service)) ∧
    is_Some (status_of (nodeset_conditions name d) NodeSetDeploymentReadyCondition).

(** What [Deploy] answers, and how the loop goes on. *)
Definition answered (v : verdict) (r : option Result * option Err) : Prop :=
  is_deployed v = bool_decide (r.1 = None) ∧ is_broken v = bool_decide (is_Some r.2).
Definition noted (p : Progress) (v : verdict) (p' : Progress) : Prop :=
  shouldRequeue p' = shouldRequeue p || negb (is_deployed v) ∧
  haveError p' = haveError p || is_broken v.

Lemma nodeset_ready_ne (services : list string) : NodeSetDeploymentReadyCondition ∉ (λ service, ready_of service) <$> services.
Proof. intros (service & H & _)%list_elem_of_fmap. discriminate. Qed.

Lemma Deploy_answered j name services (s : St W Deployer) :
  ready_to_deploy G instance node j name services s →
  returns (Deploy services) s (λ r s', answered (pipeline j name services) r ∧
    G (launch j name services) (world s') ∧ dp_NodeSet (obj s') = node name ∧
    status_of (dp_nsConditions (obj s')) NodeSetDeploymentReadyCondition =
      status_of (dp_nsConditions (obj s)) NodeSetDeploymentReadyCondition).
Proof.
  intros Hr. eapply sat_mono; [apply sat_and;
    [by apply (Deploy_pipelined G instance node svc)|apply (frames_sat keeps_fixed), Deploy_frame]|].
  intros o s' [(Hv & Hg & _ & Hrest) Hk]. specialize (Hrest _ (nodeset_ready_ne _)).
  assert (dp_NodeSet (obj s') = node name) as Hn by (destruct Hk as [-> _]; apply Hr).
  destruct (pipeline _ _ _); simpl in Hv.
  - by rewrite Hv.
  - by rewrite Hv.
  - by destruct Hv as [err ->].
Qed.

Lemma report_nodeset_goes name p v r (s : St W OpenStackDataPlaneDeployment) :
  answered v r → is_Some (status_of (nodeset_conditions name (obj s)) NodeSetDeploymentReadyCondition) →
  goes (report_nodeset name p r) s (λ p' s', noted p v p' ∧ world s' = world s).
Proof.
  intros [Hd Hb] Hp. unfold report_nodeset. destruct r as [r err]. simpl in Hd, Hb.
  apply goes_bind, goes_get_obj. cbv zeta.
  set (cs := nodeset_conditions _ _) in *. set (mirrored := cond_mirror _ _).
  apply goes_bind. apply goes_mono with (Q := λ _ s', world s' = world s).
  { by destruct mirrored; [apply goes_modify|apply goes_ret]. }
  intros [] s1 Hw1. apply goes_bind.
  apply goes_mono with (Q := λ p' s', shouldRequeue p' = shouldRequeue p ∧
    haveError p' = haveError p || is_broken v ∧ world s' = world s).
  { rewrite Hb. destruct err as [err|]; [|apply goes_ret; by rewrite orb_false_r].
    assert (is_Some (cond_get (cond_set_ptr cs mirrored) NodeSetDeploymentReadyCondition)) as [c Hc].
    { apply is_Some_status. destruct mirrored as [c|]; [rewrite set_ptr_some, status_set|rewrite set_ptr_nil; auto].
      case_decide; [by eexists|auto]. }
    rewrite Hc. apply goes_bind, goes_ret, goes_ret. by rewrite orb_true_r. }
  unfold noted. rewrite Hd. intros p' s2 (Hr & He & Hw2). destruct r as [r|]; simpl.
  - apply goes_ret. rewrite orb_true_r. by rewrite He.
  - apply goes_bind, goes_modify, goes_ret. rewrite orb_false_r. by rewrite Hr.
Qed.

Lemma returns_with_deployer {R A} mk (m : M (St W Deployer) A A) s (Q : A → St W OpenStackDataPlaneDeployment → Prop) :
  returns m (mkSt (world s) (mk (obj s))) (λ a s', Q a (mkSt (world s') (dp_Deployment (obj s')))) →
  goes (R := R) (with_deployer mk m) s Q.
Proof. unfold goes, returns, sat, with_deployer. by destruct (m _) as [[a|a|] s']. Qed.

Lemma deploy_nodeset_runs version i k p j name names (s : St W OpenStackDataPlaneDeployment) :
  name ∈ d_NodeSets (d_Spec instance) →
  NoDup ((λ service, ready_of service) <$> services_of name) →
  fit (name :: names) (obj s) → G j (world s) →
  goes (deploy_nodeset version i k p (node name)) s (λ p' s',
    noted p (pipeline j name (services_of name)) p' ∧ G (launch j name (services_of name)) (world s')).
Proof.
  intros Hin Hnd (Hreq & [Hmaps _] & Hfit) Hw.
  destruct (Hfit name ltac:(by left)) as [Hfresh Hpres].
  unfold deploy_nodeset, mark.
  apply goes_bind, goes_modify, goes_bind, goes_modify, goes_bind, goes_get_obj. cbn [obj world].
  apply goes_bind, returns_with_deployer.
  match goal with |- context [effective_services ?d _] => rewrite (effective_same_request d) by exact Hreq end.
  unfold returns. eapply sat_mono; [apply (Deploy_answered j name); split_and!; [by intros service|done| | |done]|].
  - split_and!; [apply Hreq|done|apply Hmaps].
  - intros service _. unfold dp_nsConditions. simpl. rewrite node_name. apply Hfresh.
  - unfold dp_nsConditions. intros o s' Ho. simpl in Ho. rewrite node_name in Ho.
    assert (∀ r, answered (pipeline j name (services_of name)) r ∧
      G (launch j name (services_of name)) (world s') ∧ dp_NodeSet (obj s') = node name ∧
      status_of (default [] (ds_NodeSetConditions (d_Status (dp_Deployment (obj s'))) !!
        ns_Name (dp_NodeSet (obj s')))) NodeSetDeploymentReadyCondition =
      status_of (nodeset_conditions name (obj s)) NodeSetDeploymentReadyCondition →
      goes (report_nodeset (ns_Name (node name)) p r) (mkSt (world s') (dp_Deployment (obj s'))) (λ p' s',
        noted p (pipeline j name (services_of name)) p' ∧ G (launch j name (services_of name)) (world s'))) as Hrep.
    { intros r (Ha & Hg & Hn & Hst). rewrite node_name.
      eapply goes_mono; [apply (report_nodeset_goes _ _ _ _ _ Ha)|].
      - rewrite Hn, node_name in Hst. unfold nodeset_conditions at 1. simpl. by rewrite Hst.
      - intros p' s2 [Hnoted Hw2]. by rewrite Hw2. }
    destruct o as [r|r|]; [by apply Hrep..|done].
Qed.

Lemma deploy_nodeset_goes version i k p j name names (s : St W OpenStackDataPlaneDeployment) :
  name ∈ d_NodeSets (d_Spec instance) → name ∉ names →
  NoDup ((λ service, ready_of service) <$> services_of name) →
  fit (name :: names) (obj s) → G j (world s) →
  goes (deploy_nodeset version i k p (node name)) s (λ p' s',
    noted p (pipeline j name (services_of name)) p' ∧
    fit names (obj s') ∧ G (launch j name (services_of name)) (world s')).
Proof.
  intros Hin Hnin Hnd Hf Hw. pose proof Hf as (Hreq & [Hmaps Hpend] & Hfit).
  eapply goes_and with (P := λ _ s', pending (obj s')); [|by apply deploy_nodeset_pending|].
  - eapply (goes_frames (only_nodeset (ns_Name (node name)))); [apply deploy_nodeset_frame_maps|].
    eapply (goes_frames same_deployment); [apply deploy_nodeset_frame|by eapply deploy_nodeset_runs].
  - intros p' s' [[[Hn Hg] Hsame] [Hm Ho]] Hpend'. rewrite node_name in Ho. split_and!; [apply Hn..| |exact Hg].
    split_and!; [by eapply same_deployment_request|by apply Hm|exact Hpend'|].
    intros x Hx. rewrite Ho by (intros ->; done). apply Hfit. by right.
Qed.

(** ** All NodeSets *)

Lemma loop_goes version i k names p j (s : St W OpenStackDataPlaneDeployment) :
  NoDup names → names ⊆ d_NodeSets (d_Spec instance) →
  (∀ name, name ∈ names → NoDup ((λ service, ready_of service) <$> services_of name)) →
  fit names (obj s) → G j (world s) →
  goes (for_acc (node <$> names) (deploy_nodeset version i k) p) s (λ p' s',
    shouldRequeue p' = shouldRequeue p || negb (all_deployed services_of names j) ∧
    haveError p' = haveError p || some_broken services_of names j ∧
    G (sweep services_of names j) (world s') ∧ same_request instance (obj s') ∧ pending (obj s')).
Proof.
  revert p j s. induction names as [|name names IH]; intros p j s Hnd Hin Hs Hfit Hw.
  { apply goes_ret. destruct Hfit as (? & [_ ?] & _). by rewrite !orb_false_r. }
  apply NoDup_cons in Hnd as [Hn Hnd]. rewrite fmap_cons. apply goes_bind.
  eapply goes_mono; [apply (deploy_nodeset_goes version i k p j name names); [set_solver|done|apply Hs; by left|done|done]|].
  intros p1 s1 ([Hr He] & Hfit1 & Hw1).
  eapply goes_mono; [apply (IH p1 (launch j name (services_of name)) s1 Hnd); [set_solver|intros x Hx; apply Hs; by right|done|exact Hw1]|].
  intros p2 s2 (Hr2 & He2 & Hg2 & Hreq2). rewrite all_deployed_launch in Hr2. rewrite some_broken_launch in He2.
  split_and!; [|..|exact Hg2|apply Hreq2|apply Hreq2].
  - rewrite Hr2, Hr. simpl. by rewrite negb_andb, orb_assoc.
  - rewrite He2, He. simpl. by rewrite orb_assoc.
Qed.
(** *** The phases before *)

Lemma fetch_goes j (s : St W OpenStackDataPlaneDeployment) :
  d_Meta (obj s) = d_Meta instance → d_NodeSets (d_Spec (obj s)) = d_NodeSets (d_Spec instance) →
  G j (world s) →
  goes fetch_nodesets s (λ l s', l = node <$> d_NodeSets (d_Spec instance) ∧ obj s' = obj s ∧ G j (world s')).
Proof.
  intros Hm Hn Hw. unfold fetch_nodesets. apply goes_bind, goes_get_obj. unfold d_Namespace. rewrite Hm, Hn.
  fold (d_Namespace instance).
  apply goes_for_rest with (I := λ rest l s', (node <$> d_NodeSets (d_Spec instance)) = l ++ (node <$> rest) ∧
    obj s' = obj s ∧ G j (world s')); [done| |].
  - intros name rest l s1 Hin (Hl & Ho & Hw1). apply goes_bind, goes_on_world.
    eapply (goes_answer (G j)); [by apply (settled_nodeset G instance j)|done|].
    intros n w' -> Hw'. apply goes_ret. split_and!; [by rewrite <- app_assoc|done|done].
  - intros l s1 (Hl & Ho & Hw1). by rewrite app_nil_r in Hl.
Qed.

(** A loop of checks over the NodeSets, each of which lets it go on. *)
Lemma nodesets_go {R X} (body : OpenStackDataPlaneNodeSet → M (St W X) R ()) s :
  (∀ name s, name ∈ d_NodeSets (d_Spec instance) → body (node name) s = (Next (), s)) →
  goes (for_each (node <$> d_NodeSets (d_Spec instance)) body) s (λ _ s', s' = s).
Proof.
  intros Hb. apply goes_for_acc with (I := λ _ s', s' = s); [done| |done].
  intros n [] s1 (name & -> & Hin)%list_elem_of_fmap ->. unfold goes, sat. by rewrite Hb.
Qed.

Lemma check_setup_goes (s : St W OpenStackDataPlaneDeployment) :
  goes (check_setup (node <$> d_NodeSets (d_Spec instance))) s (λ _ s', s' = s).
Proof.
  unfold check_setup. apply goes_bind, goes_get_obj, nodesets_go. intros name s1 Hin.
  by rewrite (settled_setup G instance) by done.
Qed.
Lemma ensure_certs_goes (s : St W OpenStackDataPlaneDeployment) :
  goes (ensure_certs (node <$> d_NodeSets (d_Spec instance))) s (λ _ s', s' = s).
Proof.
  unfold ensure_certs. apply goes_bind, goes_get_obj, nodesets_go. intros name s1 Hin.
  by rewrite (settled_no_tls G instance).
Qed.

Lemma check_consistency_goes j (s : St W OpenStackDataPlaneDeployment) :
  d_Meta (obj s) = d_Meta instance →
  d_ServicesOverride (d_Spec (obj s)) = d_ServicesOverride (d_Spec instance) → G j (world s) →
  goes (check_consistency (node <$> d_NodeSets (d_Spec instance))) s
    (λ _ s', obj s' = obj s ∧ G j (world s')).
Proof.
  intros Hm Ho Hw. unfold check_consistency. apply goes_bind, goes_get_obj. rewrite Ho.
  destruct (d_ServicesOverride (d_Spec instance)) as [l|] eqn:Hov; [by apply goes_ret|].
  apply goes_bind, goes_on_world. eapply goes_mono with (Q := λ err w, err = None ∧ G j w).
  2:{ intros err w [-> Hw']. by apply goes_ret. }
  unfold CheckGlobalServiceExecutionConsistency. cbv zeta. rewrite all_services. apply goes_bind.
  apply goes_for_acc with (I := λ _ w, G j w); [done| |by intros; apply goes_ret].
  intros service gs w (i & l & Hl & Hs)%elem_of_concat_part Hw1.
  apply list_elem_of_lookup_2 in Hl. rewrite <- list_fmap_compose in Hl.
  apply list_elem_of_fmap in Hl as (name & -> & Hin). simpl in Hs.
  assert (deploys instance node name service) as Hd.
  { split; [done|]. unfold effective_services, ServicesOverride. by rewrite Hov. }
  unfold check_global, GetService, d_Namespace. rewrite Hm. fold (d_Namespace instance). apply goes_bind.
  eapply (goes_answer (G j)); [by apply (settled_service G instance j name)|done|].
  intros found w' -> Hw'. by rewrite (settled_global G instance name service) by done.
Qed.

Lemma version_goes j w :
  G j w → goes (GetVersion (d_Namespace instance)) w (λ r w', (∃ v, r = Ok v) ∧ G j w').
Proof.
  intros Hw. unfold GetVersion. apply goes_bind.
  eapply (goes_answer (G j)); [by apply (settled_versions G instance j)|done|].
  intros [|v [|v' l]] w' Hl Hw'; simpl in Hl; [apply goes_ret; eauto|apply goes_ret; eauto|lia].
Qed.


(** *** The whole body *)

Lemma conclude_answers version nodeSets p (s : St W OpenStackDataPlaneDeployment) :
  sat (conclude version nodeSets p) s (λ o s',
    if haveError p || shouldRequeue p
    then (∃ err, o = Return (emptyResult, err) ∧ (is_Some err ↔ haveError p = true)) ∧
      world s' = world s ∧ ds_Deployed (d_Status (obj s')) = ds_Deployed (d_Status (obj s)) ∧
      same_request (obj s) (obj s')
    else ds_Deployed (d_Status (obj s')) = true).
Proof.
  unfold conclude, mark. destruct (haveError p); simpl.
  { destruct (backoffLimitReached p); apply sat_bind, sat_modify, sat_return;
      (split; [eexists; split; [done|by split]|done]). }
  destruct (shouldRequeue p).
  { apply sat_return. split; [|done]. exists None. split; [done|]. split; [by intros [? ?]|done]. }
  apply sat_bind, sat_modify, sat_bind, sat_modify.
  match goal with |- sat ?m ?s1 _ => assert (frames same_status m) as Hf;
    [|destruct (Hf s1) as (_ & Hd & _); exact Hd] end.
  frame_tac; try done. apply setHashes_frame.
Qed.

Lemma fit_prepared : fit (d_NodeSets (d_Spec instance)) (set_d_Status make_maps (prepare instance)).
Proof.
  pose proof (initialised_init instance) as (Hp & _ & Hn). split_and!; try done; try apply Hp; try by eexists.
  intros name Hin. split; [|by apply Hn]. intros service. unfold fresh, nodeset_conditions.
  change (ds_NodeSetConditions _) with (ds_NodeSetConditions (d_Status (Deployment_InitConditions instance))).
  rewrite Deployment_InitConditions_nodesets. rewrite decide_True by done. simpl.
  rewrite status_initial_nodeset. by case_decide.
Qed.

(** The services of one NodeSet have conditions of their own. *)
Definition distinct_conditions : Prop :=
  NoDup (d_NodeSets (d_Spec instance)) ∧
  ∀ name, name ∈ d_NodeSets (d_Spec instance) → NoDup ((λ service, ready_of service) <$> services_of name).

(** The jobs after a round, and the machine's verdict. *)
Abbreviation names := (d_NodeSets (d_Spec instance)).
Definition next_jobs (j : Jobs) : Jobs := sweep services_of names j.
Definition finished (j : Jobs) : bool := all_deployed services_of names j.
Definition broken (j : Jobs) : bool := some_broken services_of names j.
Lemma broken_not_finished j : broken j = true → finished j = false.
Proof.
  unfold broken, finished, some_broken, all_deployed. intros (name & Hin & Hb)%existsb_exists.
  apply not_true_is_false. intros Ht. rewrite forallb_forall in Ht. specialize (Ht _ Hin).
  by destruct (pipeline _ _ _).
Qed.

Lemma body_rounds j w :
  distinct_conditions → G j w →
  sat reconcile_body (mkSt w (prepare instance)) (λ o s',
    if finished j then ds_Deployed (d_Status (obj s')) = true
    else (∃ err, o = Return (emptyResult, err) ∧ (is_Some err ↔ broken j = true)) ∧
      G (next_jobs j) (world s') ∧ ds_Deployed (d_Status (obj s')) = false ∧ same_request instance (obj s')).
Proof.
  intros [Hnd Hds] Hw. pose proof fit_prepared as Hfit. unfold reconcile_body, mark.
  apply goes_then, goes_modify. cbn [world obj]. set (d := set_d_Status make_maps (prepare instance)) in *.
  apply goes_then. eapply goes_mono; [by apply (fetch_goes j)|]. intros nodeSets s1 (-> & Ho1 & Hw1). cbn [obj] in Ho1.
  apply goes_then. eapply goes_mono; [apply check_setup_goes|]. intros [] s2 ->.
  apply goes_then. eapply goes_mono; [apply ensure_certs_goes|]. intros [] s3 ->.
  apply goes_then, goes_modify. cbv zeta. cbn [world obj]. rewrite Ho1.
  match goal with |- context [d_upd ?f d] => set (d1 := d_upd f d) end.
  assert (fit names d1) as Hfit1.
  { destruct Hfit as (Hreq & [Hmaps (Hdep & Hdr & Hre)] & Hrest). 
    split; [exact Hreq|]. split; [split; [exact Hmaps|split; [exact Hdep|split]]|exact Hrest].
    - unfold d1, d_Conditions. simpl. rewrite status_MarkTrue, decide_False by done. exact Hdr.
    - unfold d1, d_Conditions. simpl. rewrite status_MarkTrue, decide_False by done. exact Hre. }
  apply goes_then. eapply goes_mono; [by apply (check_consistency_goes j); destruct Hfit1 as ((?&?&?)&_)|].
  intros [] s4 [Ho4 Hw4]. cbn [obj] in Ho4. apply goes_then, goes_get_obj, goes_then, goes_on_world.
  rewrite Ho4. unfold d_Namespace at 1. rewrite (proj1 (proj1 Hfit1)). fold (d_Namespace instance).
  eapply goes_mono; [by apply (version_goes j)|]. intros r w5 [[version ->] Hw5].
  cbn [obj] in *. apply goes_then. eapply goes_mono; [eapply (loop_goes _ _ _ names _ j _ Hnd); [done|exact Hds|exact Hfit1|exact Hw5]|].
  intros p s6 (Hr & He & Hg & Hreq & Hp). simpl in Hr, He.
  eapply sat_mono; [apply conclude_answers|]. intros o s' Hc. fold (finished j) in Hr. fold (broken j) in He.
  rewrite Hr, He in Hc. destruct (finished j) eqn:Hdone.
  - destruct (broken j) eqn:Hb; [by rewrite (broken_not_finished j Hb) in Hdone|]. exact Hc.
  - rewrite orb_true_r in Hc. destruct Hc as (Herr & Hw' & Hd' & Hreq'). split; [exact Herr|].
    rewrite Hw', Hd'. split; [exact Hg|]. split; [apply Hp|].
    destruct Hreq as (?&?&?), Hreq' as (?&?&?). split_and!; congruence.
Qed.
End rounds.

(** ** One reconciliation *)

Section reconciliation.
Context {W : Type} {KC : KubeClient W} {KL : KubeLaws KC} {NR : NamedReads KC} {LC : LibCommon W} {CM : CertManager W}.
Context {CO : ConditionOps} {CL : ConditionLaws CO} {V : Validation} {MR : MapRange} {PI : PackageImages}.
Context (G : Jobs → W → Prop) (instance : OpenStackDataPlaneDeployment).
Context (node : string → OpenStackDataPlaneNodeSet) (svc : string → OpenStackDataPlaneService).

(** What the round leaves, before the status is patched. *)
Lemma round_leaves `{!Settled G instance node svc} (j : Jobs) (w1 : W) :
  distinct_conditions instance node → G j w1 →
  let s := final_state w1 instance in
  ds_Deployed (d_Status (obj s)) = finished instance node j ∧
  (finished instance node j = false →
     G (next_jobs instance node j) (world s) ∧
     ∃ err, reconcile_body (mkSt w1 (prepare instance)) = (Return (emptyResult, err), s) ∧
       (is_Some err ↔ broken instance node j = true)).
Proof.
  intros Hds Hw s. pose proof (body_rounds G instance node svc j w1 Hds Hw) as Hb. unfold sat in Hb.
  subst s. unfold final_state. destruct (reconcile_body _) as [o s]. cbn [fst snd] in Hb |- *.
  destruct (finished instance node j); [by split|].
  destruct Hb as ((err & -> & Herr) & Hg2 & Hd & _). split; [exact Hd|]. intros _. eauto.
Qed.

(** C4. In a settled cluster, one reconciliation of a Deployment that is not
    deployed yet is one round of the abstract machine for all its NodeSets.  What
    is asked for: the request has a valid name and reads the Deployment; the
    cluster is settled for it ([Settled]: its NodeSets are read and set up, without
    TLS; their services are read, and so is every ConfigMap and Secret these
    name; the jobs are listed with the states they have, at most one for each service
    and a failed one with a Ready condition; asking for a job gets through and
    makes it when it is missing; owner references can be set; there is at
    most one OpenStackVersion; no service is for all NodeSets unless the
    services are overridden; and the calls of the operator leave it so); and no
    NodeSet is listed twice, nor do two
    services of a NodeSet have the same condition ([distinct_conditions]).  Then the
    status that is patched has Deployed set, and Ready True, exactly when the
    jobs of all services of all NodeSets have succeeded.  Otherwise the jobs are
    left as the machine leaves them, and, if the patch of the status succeeds, the
    answer is an error exactly when, for some NodeSet, the first job that has not
    succeeded has failed. *)
Theorem Reconcile_round `{!Settled G instance node svc} (j : Jobs) (req : NamespacedName) (w w1 : W) :
  hostname_rfc1123 (nn_Name req) = None →
  GetDeployment req w = (w1, Ok instance) →
  ds_Deployed (d_Status instance) = false →
  distinct_conditions instance node → G j w1 →
  let d := patched w1 instance in
  let w2 := world (final_state w1 instance) in
  (Deployment_Reconcile req w).2 = (PatchDeployment d w2).1 ∧
  ds_Deployed (d_Status d) = finished instance node j ∧
  (status_of (d_Conditions d) ReadyCondition = Some CTrue ↔ finished instance node j = true) ∧
  (finished instance node j = false →
     G (next_jobs instance node j) w2 ∧
     ((PatchDeployment d w2).2 = None →
      ∃ err, run (Deployment_Reconcile req) w = Some (emptyResult, err) ∧
        (is_Some err ↔ broken instance node j = true))).
Proof.
  intros Hv Hg Hd Hds Hw d w2. destruct (round_leaves j w1 Hds Hw) as [Hdep Hleft].
  split_and!; [by apply Reconcile_runs|exact Hdep| |].
  - rewrite <- Hdep. apply patched_consistent.
  - intros Hf. destruct (Hleft Hf) as (Hg2 & err & Hb & Herr). split; [exact Hg2|].
    intros Hp. exists err. split; [|exact Herr]. unfold run, Deployment_Reconcile, mbind, M_bind, op.
    rewrite Hv, Hg, Hd. unfold with_status_patch. rewrite Hb. fold d w2.
    unfold d, w2, patched in Hp |- *. destruct (PatchDeployment _ _) as [w' perr].
    simpl in Hp. by subst perr.
Qed.

End reconciliation.

(** ** Rounds

    Between the reconciliations others act: the jobs that were asked for run. *)

(** The jobs that there were have succeeded; there may be others. *)
Definition all_succeed (j j' : Jobs) : Prop := ∀ k, is_Some (j !! k) → j' !! k = Some JobStatusSucceeded.

Section progress.
Context (services_of : string → list string).
Abbreviation succeeded j name := (λ service, state_in j name service = JobStatusSucceeded).

(** What is left of the pipeline of a NodeSet. *)
Fixpoint left_over (j : Jobs) (name : string) (services : list string) : nat :=
  match services with
  | [] => 0
  | service :: services' =>
      if decide (state_in j name service = JobStatusSucceeded) then left_over j name services'
      else length services
  end.
Lemma left_over_length j name services : left_over j name services ≤ length services.
Proof. induction services as [|s services IH]; simpl; [done|]. case_decide; lia. Qed.
Lemma left_over_deployed j name services :
  left_over j name services = 0 ↔ is_deployed (pipeline j name services) = true.
Proof.
  induction services as [|s services IH]; simpl; [done|].
  case_decide; [exact IH|]. case_decide; by split.
Qed.
Lemma succeed_state j j' name service :
  all_succeed j j' → is_Some (j !! (name, service)) → state_in j' name service = JobStatusSucceeded.
Proof. intros Ha Hs. unfold state_in. by rewrite Ha. Qed.
Lemma succeeded_present j name service : succeeded j name service → is_Some (j !! (name, service)).
Proof. unfold state_in. destruct (j !! _); [by eexists|done]. Qed.

(** Jobs that are there stay there. *)
Lemma launch_present j name services k : is_Some (j !! k) → is_Some (launch j name services !! k).
Proof.
  intros Hk. induction services as [|s services IH]; simpl; [done|].
  case_decide; [done|]. unfold request. destruct (j !! (name, s)); [done|].
  destruct (decide (k = (name, s))) as [->|Hne]; [rewrite lookup_insert_eq; eauto|by rewrite lookup_insert_ne].
Qed.
Lemma sweep_present names j k : is_Some (j !! k) → is_Some (sweep services_of names j !! k).
Proof.
  unfold sweep. revert j. induction names as [|name names IH]; intros j Hk; simpl; [done|].
  by apply IH, launch_present.
Qed.

(** The jobs of [j] are jobs of [j1], in the same states, where missing counts
    as having none. *)
Definition covers (j j1 : Jobs) : Prop :=
  (∀ k, is_Some (j !! k) → is_Some (j1 !! k)) ∧ ∀ name service, state_in j1 name service = state_in j name service.
Lemma covers_launch j name services : covers j (launch j name services).
Proof. split; [intros k; apply launch_present|intros; apply state_launch]. Qed.
Lemma launch_covers j j1 name services : covers j j1 → covers (launch j name services) (launch j1 name services).
Proof.
  intros [Hk Hs]. split; [|intros; by rewrite !state_launch].
  induction services as [|s services IH]; simpl; [done|]. rewrite Hs. case_decide; [done|].
  intros k Hp. unfold request in *. destruct (decide (k = (name, s))) as [->|Hne].
  - destruct (j1 !! (name, s)) eqn:H1; [by rewrite H1; eauto|by rewrite lookup_insert_eq; eauto].
  - assert (is_Some (j !! k)) as Hj by (destruct (j !! (name, s)); [done|by rewrite lookup_insert_ne in Hp]).
    destruct (j1 !! (name, s)); [auto|by rewrite lookup_insert_ne; auto].
Qed.
Lemma covers_trans j1 j2 j3 : covers j1 j2 → covers j2 j3 → covers j1 j3.
Proof. intros [H1 S1] [H2 S2]. split; [auto|]. intros. by rewrite S2, S1. Qed.
Lemma sweep_covers names j : covers j (sweep services_of names j).
Proof.
  revert j. induction names as [|x names IH]; intros j; simpl; [by split|].
  eapply covers_trans; [apply covers_launch|apply IH].
Qed.
(** The round of every NodeSet is part of the sweep. *)
Lemma sweep_launches names j name :
  name ∈ names → covers (launch j name (services_of name)) (sweep services_of names j).
Proof.
  revert j. induction names as [|x names IH]; intros j; [by intros ?%not_elem_of_nil|].
  intros [->|Hin]%elem_of_cons; simpl; [apply sweep_covers|].
  eapply covers_trans; [apply launch_covers, covers_launch|by apply IH].
Qed.

(** When the jobs of a round succeed, the pipeline gets shorter. *)
Lemma left_over_round j j1 j' name services :
  covers (launch j name services) j1 → all_succeed j1 j' →
  left_over j' name services ≤ pred (left_over j name services).
Proof.
  intros Hc Ha. assert (∀ service, is_Some (launch j name services !! (name, service)) →
    state_in j' name service = JobStatusSucceeded) as Hj'.
  { intros service Hp. eapply succeed_state; [exact Ha|by apply Hc]. }
  clear Hc Ha. induction services as [|s services IH]; simpl in *; [done|].
  case_decide as Hs.
  - rewrite decide_True; [by apply IH|]. apply Hj', launch_present. by apply succeeded_present.
  - rewrite decide_True; [apply left_over_length|]. apply Hj'. rewrite request_present. eauto.
Qed.
End progress.

Section same.
Context {W : Type} {KC : KubeClient W} {CO : ConditionOps} {V : Validation} {MR : MapRange}.
Lemma machine_same i d node :
  same_request i d → finished d node = finished i node ∧ next_jobs d node = next_jobs i node.
Proof. destruct i as [m [] st], d as [m' [] st']. intros (Hm & Hn & Ho). simpl in Hm, Hn, Ho. by subst. Qed.
(** A settled cluster is one for every Deployment with the same request. *)
Lemma settled_same (G : Jobs → W → Prop) i d node svc :
  same_request i d → Settled G i node svc → Settled G d node svc.
Proof.
  destruct i as [m [] st], d as [m' [] st']. intros (Hm & Hn & Ho) []. simpl in Hm, Hn, Ho. subst.
  split; assumption.
Qed.
Lemma distinct_same i d node :
  same_request i d → distinct_conditions i node → distinct_conditions d node.
Proof.
  destruct i as [m [] st], d as [m' [] st']. intros (Hm & Hn & Ho) Hd. simpl in Hm, Hn, Ho. by subst.
Qed.

End same.

Section eventually.
Context {W : Type} {KC : KubeClient W} {KL : KubeLaws KC} {NR : NamedReads KC} {LC : LibCommon W} {CM : CertManager W}.
Context {CO : ConditionOps} {CL : ConditionLaws CO} {V : Validation} {MR : MapRange} {PI : PackageImages}.
Context (G : Jobs → W → Prop) (instance : OpenStackDataPlaneDeployment) (req : NamespacedName).
Context (node : string → OpenStackDataPlaneNodeSet) (svc : string → OpenStackDataPlaneService).
Context (others : W → W → Prop).

(** A cluster in which a Deployment goes through its rounds: it is read as it
    was last patched, until it is deployed; and between two reconciliations
    the jobs that there are succeed. *)
Class Rounds : Prop := {
  rounds_settled :: Settled G instance node svc;
  rounds_valid : hostname_rfc1123 (nn_Name req) = None;
  rounds_read j w : G j w → ∃ w' d, GetDeployment req w = (w', Ok d) ∧ G j w' ∧
    same_request instance d ∧ ds_Deployed (d_Status d) = false;
  rounds_patch j d w : G j w → same_request instance d → ds_Deployed (d_Status d) = false →
    G j (PatchDeployment d w).1;
  rounds_others j w w' : G j w → others w w' → ∃ j', G j' w' ∧ all_succeed j j';
}.
Context {RO : Rounds}.

(** The reconciliation in [w] patches a Deployment that is deployed. *)
Definition deploys_now (w : W) : Prop :=
  ∃ d w2, (Deployment_Reconcile req w).2 = (PatchDeployment d w2).1 ∧ same_request instance d ∧
    ds_Deployed (d_Status d) = true ∧ status_of (d_Conditions d) ReadyCondition = Some CTrue.
(** It is deployed after at most [n] rounds, whatever others do. *)
Inductive deploys_within : nat → W → Prop :=
  | within_now n w : deploys_now w → deploys_within n w
  | within_later n w : (∀ w', others (Deployment_Reconcile req w).2 w' → deploys_within n w') →
      deploys_within (S n) w.

(** The rounds that are left for the whole Deployment are at most [n]. *)
Definition rounds_left (j : Jobs) (n : nat) : Prop :=
  ∀ name, name ∈ d_NodeSets (d_Spec instance) →
    left_over j name (effective_services instance (node name)) ≤ n.
Lemma no_rounds_left j : rounds_left j 0 → finished instance node j = true.
Proof.
  intros Hn. apply forallb_forall. intros name Hin%list_elem_of_In. apply left_over_deployed.
  specialize (Hn _ Hin). lia.
Qed.
Lemma fewer_rounds j j' n :
  all_succeed (next_jobs instance node j) j' → rounds_left j (S n) → rounds_left j' n.
Proof.
  intros Ha Hn name Hin. specialize (Hn _ Hin).
  pose proof (left_over_round j _ j' name (effective_services instance (node name))
    (sweep_launches (λ name, effective_services instance (node name)) _ j name Hin) Ha). lia.
Qed.

(** One reconciliation deploys, or leaves the jobs of the next round. *)
Lemma round_step j w :
  distinct_conditions instance node → G j w →
  if finished instance node j then deploys_now w
  else G (next_jobs instance node j) (Deployment_Reconcile req w).2.
Proof.
  intros Hds Hw. destruct (rounds_read j w Hw) as (w1 & d & Hg & Hw1 & Hreq & Hd).
  destruct (machine_same _ _ node Hreq) as [Hfin Hnext]. rewrite <- Hfin, <- Hnext.
  pose proof (settled_same _ _ _ _ _ Hreq rounds_settled) as SD.
  destruct (round_leaves G d node svc j w1 (distinct_same _ _ _ Hreq Hds) Hw1) as [Hdep Hleft].
  pose proof (Reconcile_runs req w w1 d rounds_valid Hg Hd) as Hrun.
  assert (same_request instance (patched w1 d)) as Hreq' by (etransitivity; [exact Hreq|apply patched_request]).
  destruct (finished d node j).
  - eexists _, _. split; [exact Hrun|]. split; [exact Hreq'|]. split; [exact Hdep|].
    by apply patched_consistent.
  - rewrite Hrun. apply rounds_patch; [by apply Hleft|exact Hreq'|exact Hdep].
Qed.

(** C5. In a settled cluster, a Deployment is deployed in the end, provided that
    the jobs that were asked for succeed.  The cluster is settled throughout ([Settled]: the
    NodeSets of the Deployment are read and set up, without TLS; their services
    are read, and so is every ConfigMap and Secret these name; the jobs are
    listed with the states they have, at most one for each service and a failed
    one with a Ready condition; asking for a job gets through and makes it when it is
    missing; owner references can be set; there is at most one
    OpenStackVersion; no service is for all NodeSets unless the services are
    overridden); no NodeSet is listed twice, and no two services of a NodeSet have the
    same condition ([distinct_conditions]).  The rounds ([Rounds]): the request
    has a valid name; the Deployment is read with the same request and not
    deployed, until a reconciliation patches it as deployed; patching its status
    keeps the cluster settled; and what others do between two reconciliations
    keeps it settled too, removes no job, and lets every job that there is
    succeed (they may add jobs).  Then the Deployment is deployed, with Ready True,
    after as many rounds as the longest pipeline of its NodeSets has services, and
    one more, whatever state the jobs were in at first. *)
Theorem eventually_deployed (n : nat) (j : Jobs) (w : W) :
  distinct_conditions instance node →
  (∀ name, name ∈ d_NodeSets (d_Spec instance) →
     length (effective_services instance (node name)) ≤ n) →
  G j w → deploys_within n w.
Proof.
  intros Hds Hlen Hw.
  assert (rounds_left j n) as Hn.
  { intros name Hin. etransitivity; [apply left_over_length|by apply Hlen]. }
  clear Hlen. revert j w Hw Hn. induction n as [|n IH]; intros j w Hw Hn;
    pose proof (round_step j w Hds Hw) as Hstep.
  - rewrite (no_rounds_left j Hn) in Hstep. by apply within_now.
  - destruct (finished instance node j); [by apply within_now|]. apply within_later. intros w' Ho.
    destruct (rounds_others _ _ _ Hstep Ho) as (j' & Hw' & Ha). apply (IH j' w' Hw'). by eapply fewer_rounds.
Qed.
End eventually.

(** ** The properties at the cluster of two services *)

Import ListConditions.

Lemma two_distinct : distinct_conditions two_services node_called.
Proof.
  split; [apply NoDup_singleton|]. intros name _. apply (bool_decide_unpack _). vm_compute. exact I.
Qed.

(** The first job has succeeded, the second is missing: it is made. *)
Lemma Reconcile_round_witness :
  let d := patched half_done_world two_services in
  let w2 := world (final_state half_done_world two_services) in
  ds_Deployed (d_Status d) = false ∧ sim_settled (<[("edpm", "nova") := ""]> half_done) w2 ∧
  ∃ err, run (Deployment_Reconcile deploy_request) half_done_world = Some (emptyResult, err) ∧
    (is_Some err ↔ false = true).
Proof.
  pose proof (Reconcile_round sim_settled two_services node_called configured_service half_done deploy_request
    half_done_world half_done_world eq_refl) as H.
  destruct H as (_ & Hdep & _ & Hgo); [vm_compute; reflexivity|reflexivity|apply two_distinct|apply half_done_settled|].
  assert (finished two_services node_called half_done = false) as Hf by (vm_compute; reflexivity).
  rewrite Hf in Hdep. destruct (Hgo Hf) as [Hg Hrun].
  assert (next_jobs two_services node_called half_done = <[("edpm", "nova") := ""]> half_done) as Hn by (vm_compute; reflexivity).
  assert (broken two_services node_called half_done = false) as Hb by (vm_compute; reflexivity).
  rewrite Hn in Hg. rewrite Hb in Hrun. split; [exact Hdep|]. split; [exact Hg|exact (Hrun eq_refl)].
Defined.

Lemma held_succeed j m :
  jobs_held j m →
  jobs_held ((λ _, JobStatusSucceeded) <$> j)
    ((λ e, mkEE (ee_Meta e) (ee_Spec e) JobStatusSucceeded (ee_Conditions e)) <$> m).
Proof.
  intros [Hj Hk]. split.
  - intros service Hin. specialize (Hj _ Hin). unfold job_held in *. rewrite !lookup_fmap.
    destruct (j !! _), (m !! _); simpl; [|done..]. split_and!; [apply Hj|done|done].
  - intros k ee. rewrite lookup_fmap_Some. intros (e & _ & Hm). by eapply Hk.
Qed.

#[export] Instance sim_rounds :
  Rounds sim_settled two_services deploy_request node_called configured_service (λ w w', w' = jobs_succeed w).
Proof.
  split.
  - apply _.
  - reflexivity.
  - intros j w Hw. pose proof Hw as (Hf & _ & _ & _ & _ & (d & Hd & Hreq & Hdep) & _).
    exists w, d. split; [|done]. cbn [GetDeployment sim_kube]. unfold fetch, faulty. rewrite Hf, Hd.
    change (key _ _) with "openstack/deploy". rewrite lookup_singleton_eq.
    rewrite decide_True; [done|]. unfold d_Namespace, d_Name. by rewrite (proj1 Hreq).
  - intros j d w (Hf & Hn & Hs & Hc & Hv & (d0 & Hd & _) & Hj) Hreq Hdep.
    cbn [PatchDeployment sim_kube fst]. split_and!; [exact Hf|exact Hn|exact Hs|exact Hc|exact Hv| |exact Hj].
    exists d. split; [|done]. unfold d_Namespace, d_Name. rewrite (proj1 Hreq).
    cbn [set_deployments deployments]. rewrite Hd. apply insert_singleton_eq.
  - intros j w w' (Hf & Hn & Hs & Hc & Hv & Hd & Hj) ->. exists ((λ _, JobStatusSucceeded) <$> j). split.
    + split_and!; [exact Hf|exact Hn|exact Hs|exact Hc|exact Hv|exact Hd|by apply held_succeed].
    + intros k [st Hk]. by rewrite lookup_fmap, Hk.
Qed.

(** From no job at all, two rounds and the one that reports. *)
Lemma no_jobs_settled : sim_settled ∅ base_world.
Proof.
  split_and!; [reflexivity..| |].
  - exists two_services. split; [reflexivity|]. split; reflexivity.
  - split; [done|]. intros k ee Hk. change (ansibleees base_world) with (∅ : gmap string OpenStackAnsibleEE) in Hk.
    by rewrite lookup_empty in Hk.
Qed.
Lemma eventually_deployed_witness :
  deploys_within two_services deploy_request (λ w w', w' = jobs_succeed w) 2 base_world.
Proof.
  apply (eventually_deployed sim_settled two_services deploy_request node_called configured_service
    (λ w w', w' = jobs_succeed w) 2 ∅).
  - apply two_distinct.
  - intros name _. change (effective_services two_services (node_called name)) with ["ovn"; "nova"]. simpl. lia.
  - apply no_jobs_settled.
Defined.
