(* ===== verification/Readiness.v ===== *)
(** A NodeSet becomes ready: when everything its reconciliation waits for is
    there, one reconciliation sets it up, and it is Ready exactly when its
    deployments say that it is deployed. *)

From stdpp Require Import base gmap strings list.
From S2P Require Import Prelude GoStd Conditions Types Cluster Sim Images ApiTypes DataSource AnsibleExec.
From S2P Require Import Service Ipam Net Baremetal Inventory NodeSetController.

(** ** What the reconciliation waits for *)

(** A reservation that the baremetal set can be filled in from. *)
Definition provisionable (res : IPSetReservation) : Prop :=
  is_ctlplane res = true → is_Some (ParseCIDR (r_Cidr res)) ∧ is_Some (r_Gateway res).

(** A callback that succeeds, and leaves as much of the object alone. *)
Definition patches {A} (same : A → A → Prop) (f : A → result A) : Prop := ∀ a, ∃ a', f a = Ok a' ∧ same a a'.
Definition same_reservations (i i' : IPSet) : Prop :=
  ip_Reservation i' = ip_Reservation i ∧ ip_Conditions i' = ip_Conditions i.
Definition same_readiness (d d' : DNSData) : Prop := dd_IsReady d' = dd_IsReady d.

Section settled.
Context {W : Type} {KC : KubeClient W} {LC : LibCommon W} {PR : Process W}.
Context {CO : ConditionOps} {V : Validation} {MR : MapRange} {IL : InventoryLib}.
Context (G : W → Prop) (instance : OpenStackDataPlaneNodeSet) (all : list OpenStackDataPlaneDeployment).
Abbreviation ns := (ns_Namespace instance).

Definition reserved (i : IPSet) : Prop :=
  cond_is_false (ip_Conditions i) ReadyCondition = false ∧ ∀ res, res ∈ ip_Reservation i → provisionable res.
Definition serves (l : list DNSMasq) : Prop :=
  ∃ m, l = [m] ∧ dm_IsReady m = true ∧ dm_DNSClusterAddresses m ≠ None.

(** A service file that can be read, or one of another kind. *)
Definition parses (data : string) : Prop := ∃ y, UnmarshalServiceYAML data = Ok y ∧
  (y_Kind y = "OpenStackDataPlaneService" →
   ∃ name spec, DecodeMetadata (y_Metadata y) = Ok name ∧ hostname_rfc1123 name = None ∧
     DecodeServiceSpec (y_Spec y) = Ok spec).
(** Variables that can be read and parsed. *)
Definition usable (ansible : AnsibleOpts) : Prop :=
  (∀ k raw, ao_AnsibleVars ansible !! k = Some raw → ∃ v, UnmarshalVar raw = Ok v) ∧
  ∀ source, source ∈ ao_AnsibleVarsFrom ansible →
    (∀ ref, ds_ConfigMapRef source = Some ref → answers G (GetConfigMap (mkNN ns (es_Name ref))) (λ _, True)) ∧
    (∀ ref, ds_SecretRef source = Some ref → answers G (GetSecret (mkNN ns (es_Name ref))) (λ _, True)).
(** The keys the SSH secret needs. *)
Definition ssh_keys (n : OpenStackDataPlaneNodeSet) : list string :=
  AnsibleSSHPrivateKey :: (if ns_PreProvisioned (ns_Spec n) then [] else [AnsibleSSHAuthorizedKeys]).
(** A call that ends with nothing to report. *)
Definition passes {A} (f : W → W * A) (a : A) : Prop := ∀ w, G w → G (f w).1 ∧ (f w).2 = a.

(** The cluster has all that the NodeSet needs: its networks are reserved, the
    DNS service runs, its SSH key and variables are there, its nodes are
    provisioned; and nothing fails. *)
Class SettledNodeSet : Prop := {
  set_lookupenv name w : G w → G (LookupEnv name w).1;
  set_setenv name v w : G w → G (Setenv name v w).1;
  set_readdir path : answers G (ReadDir path) (λ _, True);
  set_readfile path w : G w → G (ReadFile path w).1 ∧ parses (ReadFile path w).2;
  set_services s f : patches (λ _ _, True) f → answers G (CreateOrPatchService s f) (λ _, True);
  set_netconfigs : answers G (ListNetConfigs ns) (.≠ []);
  set_networks name node : ns_Nodes (ns_Spec instance) !! name = Some node → node_networks instance node ≠ [];
  set_ipset i f : reserved i → patches same_reservations f → answers G (CreateOrPatchIPSet ns i f) reserved;
  set_ipset_owner n : patches same_reservations (SetOwnerIPSet n);
  set_dnsmasq : answers G (ListDNSMasqs ns) serves;
  set_dnsdata d f : patches same_readiness f → answers G (CreateOrPatchDNSData ns d f) (λ _, True);
  set_dns_owner n : patches same_readiness (SetOwnerDNSData n);
  set_dns_ready : answers G (GetDNSData (mkNN ns (ns_Name instance))) (λ d, dd_IsReady d = true);
  set_secret t : passes (VerifySecret
    (mkNN ns (t_AnsibleSSHPrivateKeySecret (ns_NodeTemplate (ns_Spec instance)))) (ssh_keys instance) t)
    (emptyResult, None);
  set_account : passes (EnsureServiceAccount (mkNN ns (ns_Name instance))) (emptyResult, None);
  set_role : passes (EnsureRoleBinding (mkNN ns (ns_Name instance))) (emptyResult, None);
  set_versions : answers G (ListVersions ns) (λ l, length l ≤ 1);
  set_hash spec : (ObjectHash spec).2 = None;
  set_hosts : ns_PreProvisioned (ns_Spec instance) = false →
    b_BaremetalHosts (ns_BaremetalSetTemplate (ns_Spec instance)) ≠ None;
  set_baremetal b mutate w : ns_PreProvisioned (ns_Spec instance) = false →
    (∀ b, ∃ b', mutate b = Some (Ok b') ∧ bs_IsReady b' = bs_IsReady b) → G w →
    G (CreateOrPatchBaremetalSet ns b mutate w).1 ∧
    ∃ b', (CreateOrPatchBaremetalSet ns b mutate w).2 = Some (Ok b') ∧ bs_IsReady b' = true;
  set_baremetal_owner n b : ∃ b', SetOwnerBaremetalSet n b = Ok b' ∧ bs_IsReady b' = bs_IsReady b;
  set_deployments : answers G (ListDeployments ns) (.= all);
  set_template_vars : usable (t_Ansible (ns_NodeTemplate (ns_Spec instance)));
  set_node_vars name node : ns_Nodes (ns_Spec instance) !! name = Some node → usable (n_Ansible node);
  set_marshal name vars hosts : ∃ data, MarshalInventory name vars hosts = Ok data;
  set_inventory n data : ns_Meta n = ns_Meta instance →
    passes (EnsureSecrets n [inventory_secret n data]) None;
}.
End settled.

(** ** The set up goes through *)

Section ready.
Context {W : Type} {KC : KubeClient W} {LC : LibCommon W} {PR : Process W}.
Context {CO : ConditionOps} {CL : ConditionLaws CO} {V : Validation} {MR : MapRange} {MRL : MapRangeLaws MR}.
Context {PI : PackageImages} {IL : InventoryLib} {SF : SortFunc} {SL : SortFuncLaws SF}.
Context (G : W → Prop) (instance : OpenStackDataPlaneNodeSet) (all : list OpenStackDataPlaneDeployment).
Context {ST : SettledNodeSet G instance all}.

Lemma goes_passes {R A} (f : W → W * A) a w (Q : A → W → Prop) :
  passes G f a → G w → (∀ w', G w' → Q a w') → goes (R := R) (op f) w Q.
Proof. intros Hf Hw HQ. apply goes_op. destruct (Hf w Hw) as [Hw' ->]. auto. Qed.
Lemma goes_kept {R A} (f : W → W * A) w (Q : A → W → Prop) :
  (∀ w, G w → G (f w).1) → G w → (∀ a w', G w' → Q a w') → goes (R := R) (op f) w Q.
Proof. intros Hf Hw HQ. apply goes_op. auto. Qed.

(** What the NodeSet in memory has of the one that was read; the maps of its
    status are made. *)
Definition same_inputs (n : OpenStackDataPlaneNodeSet) : Prop :=
  ns_Meta n = ns_Meta instance ∧ ns_NodeTemplate (ns_Spec n) = ns_NodeTemplate (ns_Spec instance) ∧
  ns_Nodes (ns_Spec n) = ns_Nodes (ns_Spec instance) ∧
  ns_PreProvisioned (ns_Spec n) = ns_PreProvisioned (ns_Spec instance) ∧
  b_BaremetalHosts (ns_BaremetalSetTemplate (ns_Spec n)) = b_BaremetalHosts (ns_BaremetalSetTemplate (ns_Spec instance)) ∧
  has_maps n.
Lemma same_namespace n : same_inputs n → ns_Namespace n = ns_Namespace instance.
Proof. unfold ns_Namespace. by intros [-> _]. Qed.
Lemma same_name n : same_inputs n → ns_Name n = ns_Name instance.
Proof. unfold ns_Name. by intros [-> _]. Qed.
Lemma same_inputs_but types n n' : same_but types n n' → same_inputs n → same_inputs n'.
Proof. intros [-> _]. done. Qed.
Definition settled (s : St W OpenStackDataPlaneNodeSet) : Prop := G (world s) ∧ same_inputs (obj s).

Lemma EnsureService_goes n path file w : G w → goes (EnsureService n path file) w (λ _ w', G w').
Proof.
  intros Hw. unfold EnsureService. cbv zeta. destruct (negb _); [by apply goes_ret|].
  destruct (set_readfile G instance all (path_join [path; file]) w Hw) as [Hw1 Hp].
  apply goes_bind, goes_op. destruct Hp as (y & -> & Hy). destruct (decide _) as [|Hk]; [by apply goes_ret|].
  apply dec_stable in Hk. destruct (Hy Hk) as (name & spec & -> & -> & ->).
  destruct (negb _); [by apply goes_ret|]. apply goes_bind. eapply (goes_answer G); [|exact Hw1|].
  - apply (set_services G instance all). intros a. eauto.
  - intros a w' _ Hw'. by apply goes_ret.
Qed.
Lemma EnsureServices_goes n w : G w → goes (EnsureServices n) w (λ err w', err = None ∧ G w').
Proof.
  intros Hw. unfold EnsureServices. apply goes_bind. apply goes_kept; [apply (set_lookupenv G instance all)|done|].
  intros env w1 Hw1. apply goes_bind. eapply goes_mono with (Q := λ _ w', G w').
  { destruct env; [by apply goes_ret|]. apply goes_bind. 
    apply goes_kept; [apply (set_setenv G instance all)|done|]. intros _ w2 Hw2. by apply goes_ret. }
  intros path w2 Hw2. apply goes_bind. eapply (goes_answer G); [apply (set_readdir G instance all)|done|].
  intros files w3 _ Hw3. apply goes_bind.
  apply goes_for_acc with (I := λ _ w, G w); [done| |intros _ w4 Hw4; by apply goes_ret].
  intros file [] w4 _ Hw4. by apply EnsureService_goes.
Qed.

(** *** The network *)

Definition all_reserved (ips : gmap string IPSet) : Prop := map_Forall (λ _, reserved) ips.

Lemma reserveIPs_goes n w :
  same_inputs n → G w → goes (reserveIPs n) w (λ r w', G w' ∧ ∃ ips, r = Ok ips ∧ all_reserved ips).
Proof.
  intros Hn Hw. unfold reserveIPs. rewrite (same_namespace n Hn). apply goes_bind.
  eapply (goes_answer G); [apply (set_netconfigs G instance all)|done|]. intros l w1 Hl Hw1.
  destruct l; [done|]. apply goes_bind. destruct Hn as (Hm & Ht & Hnodes & _). rewrite Hnodes.
  apply goes_for_acc with (I := λ ips w, G w ∧ all_reserved ips); [split; [done|apply map_Forall_empty]| |].
  - intros [name node] ips w2 Hin [Hw2 Hips]. apply elem_of_range in Hin. unfold reserve_node. cbv zeta.
    assert (node_networks n node = node_networks instance node) as -> by (unfold node_networks; by rewrite Ht).
    pose proof (set_networks G instance all name node Hin) as Hnet.
    rewrite decide_True by (destruct (node_networks instance node); [done|simpl; lia]).
    unfold ns_Namespace. rewrite Hm. apply goes_bind. eapply (goes_answer G); [|exact Hw2|].
    + apply (set_ipset G instance all).
      * split; [by rewrite is_false_status, status_nil|]. by intros res ?%not_elem_of_nil.
      * intros i. match goal with |- context [SetOwnerIPSet n ?i0] =>
          destruct (set_ipset_owner G instance all n i0) as (i' & Hi & Hr & Hc) end.
        exists i'. split; [exact Hi|]. by split.
    + intros ip w3 Hip Hw3. apply goes_ret. split; [done|]. by apply map_Forall_insert_2.
  - intros ips w2 [Hw2 Hips]. apply goes_ret. eauto.
Qed.

Lemma EnsureIPSets_goes s :
  settled s → goes EnsureIPSets s (λ r s', settled s' ∧ ∃ ips, r = (ips, true, None) ∧ all_reserved ips).
Proof.
  intros [Hw Hn]. unfold EnsureIPSets, ns_mark. apply goes_bind, goes_get_obj, goes_bind, goes_on_world.
  eapply goes_mono; [by apply reserveIPs_goes|]. intros r w1 (Hw1 & ips & -> & Hips). apply goes_bind.
  apply goes_for_acc with (I := λ _ s, settled s); [done| |].
  - intros ip [] s1 Hin Hs1. apply elem_of_range_values in Hin as [k Hk].
    destruct (Hips k ip Hk) as [-> _]. by apply goes_ret.
  - intros _ s1 Hs1. apply goes_bind, goes_modify, goes_ret. split; [exact Hs1|eauto].
Qed.

Lemma EnsureDNSData_goes ips s :
  settled s → goes (EnsureDNSData ips) s (λ r s', settled s' ∧ ∃ d, r = (d, None) ∧ dns_IsReady d = true).
Proof.
  intros [Hw Hn]. pose proof (same_namespace _ Hn) as Hns. unfold EnsureDNSData, ns_mark.
  apply goes_bind, goes_get_obj, goes_bind, goes_on_world. rewrite Hns.
  unfold checkDNSService at 1. apply goes_bind.
  eapply (goes_answer G); [apply (set_dnsmasq G instance all)|done|]. intros l w1 (m & -> & Hm & Hca) Hw1.
  rewrite Hm. apply goes_ret. apply goes_bind, goes_ret, goes_bind. cbn [dns_ClusterAddresses].
  rewrite decide_False by done. apply goes_ret, goes_bind, goes_on_world.
  unfold createOrPatchDNSData. destruct (dns_records _ _ _) as [records d]. rewrite Hns. apply goes_bind.
  eapply (goes_answer G); [|exact Hw1|].
  { apply (set_dnsdata G instance all). intros d0.
    match goal with |- context [SetOwnerDNSData ?n ?i0] =>
      destruct (set_dns_owner G instance all n i0) as (d' & Hd & Hr) end.
    exists d'. split; [exact Hd|]. unfold same_readiness in *. by rewrite Hr. }
  intros dd w2 _ Hw2. apply goes_ret, goes_bind, goes_ret, goes_bind, goes_on_world. cbn [world].
  rewrite (same_name _ Hn). eapply (goes_answer G); [apply (set_dns_ready G instance all)|done|].
  intros dd' w3 -> Hw3. simpl. apply goes_bind, goes_modify, goes_ret. split; [by split|eauto].
Qed.

(** *** The other checks *)

Lemma update_hash_goes s : settled s → goes update_hash s (λ _ s', settled s').
Proof.
  intros Hs. unfold update_hash, GetSpecConfigHash. apply goes_bind, goes_get_obj.
  pose proof (set_hash G instance all (ns_Spec (obj s))) as Hh.
  destruct (ObjectHash _) as [h e]. simpl in Hh. subst e.
  destruct (decide _); [by apply goes_modify|by apply goes_ret].
Qed.
Lemma ensure_services_goes s : settled s → goes ensure_services s (λ _ s', settled s').
Proof.
  intros [Hw Hn]. unfold ensure_services. apply goes_bind, goes_get_obj, goes_bind, goes_on_world.
  eapply goes_mono; [by apply EnsureServices_goes|]. intros err w' [-> Hw']. by apply goes_ret.
Qed.
Lemma verify_ssh_secret_goes s : settled s → goes verify_ssh_secret s (λ _ s', settled s').
Proof.
  intros [Hw Hn]. unfold verify_ssh_secret, ns_mark. apply goes_bind, goes_get_obj. cbv zeta.
  apply goes_bind, goes_on_world. rewrite (same_namespace _ Hn). pose proof Hn as (Hm & Ht & _ & Hp & _). rewrite Ht, Hp.
  match goal with |- context [VerifySecret ?nn ?l _] => assert (l = ssh_keys instance) as -> by (unfold ssh_keys; by destruct (ns_PreProvisioned (ns_Spec instance))) end.
  eapply goes_passes; [apply (set_secret G instance all)|done|]. intros w' Hw'. by apply goes_modify.
Qed.
Lemma ensure_account_goes create s :
  passes G (create (mkNN (ns_Namespace instance) (ns_Name instance))) (emptyResult, None) →
  settled s → goes (ensure_account create) s (λ _ s', settled s').
Proof.
  intros Hc [Hw Hn]. unfold ensure_account. apply goes_bind, goes_get_obj, goes_bind, goes_on_world.
  rewrite (same_namespace _ Hn), (same_name _ Hn).
  eapply goes_passes; [exact Hc|done|]. intros w' Hw'. cbv beta iota. case_decide; [done|]. by apply goes_ret.
Qed.
Lemma GetVersion_goes w :
  G w → goes (GetVersion (ns_Namespace instance)) w (λ r w', (∃ v, r = Ok v) ∧ G w').
Proof.
  intros Hw. unfold GetVersion. apply goes_bind.
  eapply (goes_answer G); [apply (set_versions G instance all)|done|]. intros l w' Hl Hw'.
  destruct l as [|v [|]]; simpl in Hl; [apply goes_ret; eauto..|lia].
Qed.

(** *** Provisioning *)

(** The callback succeeds. *)
Lemma mutate_baremetal_succeeds n ips dns b :
  all_reserved ips → b_BaremetalHosts (ns_BaremetalSetTemplate (ns_Spec n)) ≠ None →
  ∃ b', mutate_baremetal n ips dns b = Some (Ok b') ∧ bs_IsReady b' = bs_IsReady b.
Proof.
  intros Hips Hh. unfold mutate_baremetal.
  assert (sat (provision n ips dns) (bs_Spec b) (λ o _, o = Next None)) as Hp.
  { unfold provision. apply sat_bind, sat_modify, sat_bind.
    apply sat_for_acc with (I := λ _ _ spec, is_Some (b_BaremetalHosts spec)).
    - by destruct (b_BaremetalHosts _).
    - intros node rest [] spec1 _ [hosts1 H1]. eapply sat_mono; [by apply provision_node_spec|].
      assert (∀ ipSet res, ips !! n_HostName node = Some ipSet → res ∈ ip_Reservation ipSet →
        is_ctlplane res = true → is_Some (ParseCIDR (r_Cidr res)) ∧ is_Some (r_Gateway res)) as Hok.
      { intros ipSet res Hip Hres Hc. destruct (Hips _ _ Hip) as [_ H]. by apply H. }
      intros [[]|r|] spec2; [by intros [_ ->]|..].
      + intros (ipSet & res & Hip & Hres & [Hc Hb] & _).
        destruct (Hok _ _ Hip Hres Hc) as [[? ?] _]. congruence.
      + intros (ipSet & res & Hip & Hres & [Hc Hb]).
        destruct (Hok _ _ Hip Hres Hc) as [_ [? ?]]. congruence.
    - intros [] spec1 _. by apply sat_ret. }
  unfold sat in Hp. destruct (provision _ _ _ _) as [o spec]. simpl in Hp. subst o.
  destruct (set_baremetal_owner G instance all n (mkBaremetalSet (bs_Name b) spec (bs_IsReady b))) as (b' & -> & Hr).
  by exists b'.
Qed.
Lemma provision_baremetal_goes images ips dns s :
  all_reserved ips → settled s → goes (provision_baremetal images ips dns) s (λ _ s', settled s').
Proof.
  intros Hips [Hw Hn]. unfold provision_baremetal, ns_mark. apply goes_bind, goes_get_obj.
  pose proof Hn as (Hm & Ht & Hnodes & Hp & Hh). rewrite Hp.
  destruct (ns_PreProvisioned (ns_Spec instance)) eqn:Hpre; [by apply goes_ret|].
  apply goes_bind, goes_modify, goes_bind, goes_modify. cbn [obj world].
  set (s1 := mkSt _ _). assert (settled s1) as Hs1 by (split; [exact Hw|exact Hn]). clearbody s1.
  apply goes_bind, goes_call. unfold DeployBaremetalSet, ns_mark. apply goes_bind, goes_get_obj.
  destruct Hs1 as [Hw1 Hn1]. pose proof (set_hosts G instance all Hpre) as Hhosts.
  assert (b_BaremetalHosts (ns_BaremetalSetTemplate (ns_Spec (obj s1))) ≠ None) as Hh1
    by (by destruct Hn1 as (_ & _ & _ & _ & -> & _)).
  rewrite decide_False by done. cbv zeta. rewrite (same_namespace _ Hn1).
  apply goes_bind, goes_on_world, goes_op.
  match goal with |- context [CreateOrPatchBaremetalSet _ ?b ?f _] =>
    destruct (set_baremetal G instance all b f (world s1) Hpre) as (Hw2 & b' & -> & Hr); [|done|] end.
  { intros b. by apply mutate_baremetal_succeeds. }
  apply goes_bind, goes_ret. cbv beta iota. rewrite Hr. cbn [negb].
  apply goes_bind, goes_modify, goes_ret. cbv beta iota. apply goes_ret. by split.
Qed.

Lemma setup_goes s :
  G (world s) → same_inputs (set_ns_Status make_status_maps (obj s)) → goes setup s (λ r s', settled s').
Proof.
  intros Hw Hn. unfold setup, ns_mark. apply goes_bind, goes_modify, goes_bind, goes_modify. cbn [obj world].
  set (s1 := mkSt _ _). assert (settled s1) as Hs1 by (split; [exact Hw|exact Hn]). clearbody s1. clear Hw Hn.
  apply goes_bind. eapply goes_mono; [by apply update_hash_goes|]. intros [] s2 Hs2.
  apply goes_bind. eapply goes_mono; [by apply ensure_services_goes|]. intros [] s3 Hs3.
  apply goes_bind, goes_call. eapply goes_mono; [by apply EnsureIPSets_goes|]. intros r s4 (Hs4 & ips & -> & Hips).
  apply goes_bind, goes_ret, goes_bind, goes_call.
  eapply goes_mono; [by apply EnsureDNSData_goes|]. intros r s5 (Hs5 & d & -> & Hd). rewrite Hd.
  apply goes_bind, goes_ret, goes_bind, goes_modify.
  apply goes_bind. eapply goes_mono; [by apply verify_ssh_secret_goes|]. intros [] s6 Hs6.
  apply goes_bind. eapply goes_mono; [apply ensure_account_goes; [apply (set_account G instance all)|done]|].
  intros [] s7 Hs7.
  apply goes_bind. eapply goes_mono; [apply ensure_account_goes; [apply (set_role G instance all)|done]|].
  intros [] s8 Hs8. apply goes_bind, goes_modify, goes_bind, goes_get_obj, goes_bind, goes_on_world. cbn [obj world].
  change (ns_Namespace (ns_upd _ ?n)) with (ns_Namespace n). rewrite (same_namespace _ (proj2 Hs8)).
  eapply goes_mono; [apply GetVersion_goes, Hs8|]. intros r w9 [[v ->] Hw9].
  apply goes_bind. eapply goes_mono; [apply provision_baremetal_goes; [done|split; [exact Hw9|apply Hs8]]|].
  intros [] s10 Hs10. by apply goes_ret.
Qed.
(** *** The inventory *)

Lemma getAnsibleVarsFrom_goes ansible w :
  usable G instance ansible → G w →
  goes (getAnsibleVarsFrom (ns_Namespace instance) ansible) w (λ r w', r.2 = None ∧ G w').
Proof.
  intros [_ Hsrc] Hw. unfold getAnsibleVarsFrom. apply goes_bind.
  apply goes_for_acc with (I := λ _ w, G w); [done| |intros vars w' Hw'; by apply goes_ret].
  intros source vars w1 Hin Hw1. destruct (Hsrc source Hin) as [Hc Hs]. apply goes_bind, goes_call.
  eapply goes_mono; [by apply (source_goes G)|]. intros r w2 [[[cm sec] ->] Hw2]. by apply goes_ret.
Qed.
Lemma unmarshal_goes ansible vars :
  usable G instance ansible → goes (unmarshalAnsibleVars (ao_AnsibleVars ansible)) vars (λ _ _, True).
Proof.
  intros [Hv _]. unfold goes. eapply sat_mono; [apply unmarshal_spec|].
  intros [[]|r|] vars'; [done| |done]. intros (k & raw & err & Hk & Hf & _).
  destruct (Hv k raw Hk). congruence.
Qed.
Lemma resolveGroup_goes images vars :
  goes (resolveGroupAnsibleVars (ns_NodeTemplate (ns_Spec instance)) images) vars (λ r _, r = None).
Proof.
  unfold resolveGroupAnsibleVars. cbv zeta. apply goes_bind, goes_modify_state, goes_bind, goes_modify_state, goes_bind.
  eapply goes_mono; [apply unmarshal_goes, (set_template_vars G instance all)|]. intros [] vars' _.
  by apply goes_bind, goes_modify_state, goes_ret.
Qed.
Lemma resolveHost_goes name node vars :
  ns_Nodes (ns_Spec instance) !! name = Some node →
  goes (resolveHostAnsibleVars node) vars (λ r _, r = None).
Proof.
  intros Hn. unfold resolveHostAnsibleVars. cbv zeta. apply goes_bind, goes_modify_state, goes_bind.
  eapply goes_mono; [by eapply unmarshal_goes, (set_node_vars G instance all)|]. intros [] vars' _.
  by apply goes_bind, goes_modify_state, goes_ret.
Qed.

Lemma node_host_goes n ips dns hosts name node w :
  same_inputs n → ns_Nodes (ns_Spec instance) !! name = Some node → G w →
  goes (node_host n ips dns hosts node) w (λ _ w', G w').
Proof.
  intros Hn Hnode Hw. unfold node_host. cbv zeta. rewrite (same_namespace _ Hn). apply goes_bind, goes_call.
  eapply goes_mono; [eapply getAnsibleVarsFrom_goes; [by apply (set_node_vars G instance all name)|done]|].
  intros [vars err] w1 [He Hw1]. simpl in He. subst err. cbv beta iota zeta.
  match goal with |- context [resolveHostAnsibleVars node ?v] =>
    pose proof (resolveHost_goes name node v Hnode) as Hr end.
  unfold goes, sat in Hr. destruct (resolveHostAnsibleVars _ _) as [[r|r|] vars1]; simpl in Hr; [subst r|done..].
  destruct (ips !! _) as [ipSet|]; [|by apply goes_ret].
  pose proof (populate_spec ipSet dns (n_HostName node) vars1) as Hp. unfold sat in Hp.
  destruct (populateInventoryFromIPAM _ _ _ _) as [o vars2]. simpl in Hp. destruct Hp as [-> _]. by apply goes_ret.
Qed.

Lemma GenerateNodeSetInventory_goes n ips dns images w :
  same_inputs n → G w → goes (GenerateNodeSetInventory n ips dns images) w (λ r w', r.2 = None ∧ G w').
Proof.
  intros Hn Hw. unfold GenerateNodeSetInventory. cbv zeta. rewrite (same_namespace _ Hn).
  pose proof Hn as (_ & Ht & Hnodes & _). rewrite Ht, Hnodes. apply goes_bind, goes_call.
  eapply goes_mono; [by apply getAnsibleVarsFrom_goes; [apply (set_template_vars G instance all)|]|].
  intros [vars err] w1 [He Hw1]. simpl in He. subst err. cbv beta iota.
  pose proof (resolveGroup_goes images (vars_from vars)) as Hr. unfold goes, sat in Hr.
  destruct (resolveGroupAnsibleVars _ _ _) as [[r|r|] vars1]; simpl in Hr; [subst r|done..].
  apply goes_bind. apply goes_for_acc with (I := λ _ w, G w); [done| |].
  { intros node hosts w2 Hin Hw2. apply elem_of_range_values in Hin as [name Hname]. by eapply node_host_goes. }
  intros hosts w2 Hw2. destruct (set_marshal G instance all (ns_Name n) (nodeset_vars n vars1) hosts) as [data ->].
  apply goes_bind. eapply goes_passes; [by apply (set_inventory G instance all), Hn|done|].
  intros w3 Hw3. by apply goes_ret.
Qed.

(** ** The body *)

(** What the deployments say. *)
Definition said (d : Deployments) : Prop :=
  let name := ns_Name instance in
  ∃ l, oldest_first name all l ∧
    ((Forall (not_failed name) l ∧ d = verdict name l) ∨
     (¬ Forall (not_failed name) l ∧ ∃ err, d = mkDeployments false false true (Some err))).

Lemma check_loop_keeps (items : list OpenStackDataPlaneDeployment) d :
  keeps (λ s, G (world s)) (for_acc items check_one d).
Proof. unfold check_one, take_over, merge_map. keeps_tac. Qed.
Lemma checkDeployment_goes s :
  settled s → goes checkDeployment s (λ d s', settled s' ∧ said d).
Proof.
  intros [Hw Hn]. assert (has_maps (obj s)) as Hm by apply Hn. pose proof (checkDeployment_sat s Hm) as Hs. cbv zeta in Hs.
  destruct (set_deployments G instance all (world s) Hw) as (Hw1 & l & Hl & ->).
  rewrite (same_namespace _ Hn), (same_name _ Hn), Hl in Hs.
  assert (sat checkDeployment s (λ _ s', G (world s'))) as Hk.
  { unfold checkDeployment. apply sat_bind, sat_gets, sat_bind, sat_on_world, sat_op.
    rewrite (same_namespace _ Hn), Hl. apply sat_call.
    apply (sat_keeps _ _ _ _ (check_loop_keeps _ _)); [exact Hw1|]. by intros [?|?|] s'. }
  unfold goes. eapply sat_mono; [apply (sat_and _ _ _ _ Hs Hk)|]. intros o s' [(Hsame & Hm' & Ho) Hw'].
  assert (settled s') as Hset.
  { split; [exact Hw'|]. destruct Hsame as (Hmeta & Hspec & _). unfold same_inputs in *. rewrite Hmeta, Hspec. naive_solver. }
  destruct Ho as (l' & Hp & [(Hf & -> & _)|(before & d & after & message & Heq & Hf & Hst & -> & _)]);
    (split; [exact Hset|]; exists l'; split; [exact Hp|]); [by left|right].
  split; [|by eexists]. rewrite Heq. intros (_ & [Hd _]%Forall_cons)%Forall_app.
  unfold not_failed in Hd. by rewrite Hst in Hd.
Qed.

Lemma status_mark_setup d cs :
  status_of (mark_deployment d cs) SetupReadyCondition = status_of cs SetupReadyCondition.
Proof.
  unfold mark_deployment. cbv zeta.
  repeat case_match; by rewrite ?status_MarkTrue, ?status_MarkFalse, ?decide_False.
Qed.
Lemma conclude_nodeset_goes d images ips dns s :
  settled s → said d →
  goes (conclude_nodeset d images ips dns) s
    (λ _ s', status_of (ns_Conditions (obj s')) SetupReadyCondition = Some CTrue).
Proof.
  intros [Hw Hn] Hd. unfold conclude_nodeset, ns_mark.
  assert (negb (isDeploymentFailed d) && bool_decide (deploymentErr d ≠ None) = false) as ->.
  { destruct Hd as (l & _ & [[_ ->]|(_ & err & ->)]); [|done]. by apply andb_false_r. }
  apply goes_bind. eapply goes_mono with (Q := λ _ _, True).
  - unfold write_inventory. destruct (_ || _); [by apply goes_ret|].
    apply goes_bind, goes_get_obj, goes_bind, goes_on_world.
    eapply goes_mono; [by apply GenerateNodeSetInventory_goes|]. intros [name err] w' [He _]. simpl in He. subst err.
    by apply goes_ret.
  - intros [] s1 _. apply goes_bind, goes_modify, goes_bind, goes_modify, goes_ret.
    unfold ns_Conditions. simpl. rewrite status_mark_setup. by rewrite status_MarkTrue, decide_True.
Qed.

Lemma body_sets_up w :
  G w → goes nodeset_body (mkSt w (prepare_nodeset instance))
    (λ _ s', status_of (ns_Conditions (obj s')) SetupReadyCondition = Some CTrue) ∧
  ∃ d, run checkDeployment (after_setup w instance) = Some d ∧ said d.
Proof.
  intros Hw. set (s0 := mkSt w (prepare_nodeset instance)).
  assert (goes setup s0 (λ r s', settled s')) as Hset.
  { apply setup_goes; [exact Hw|]. unfold same_inputs. split_and!; try done; by eexists. }
  split.
  - unfold nodeset_body. apply goes_bind. eapply goes_mono; [exact Hset|].
    intros [[images ips] dns] s1 Hs1. apply goes_bind, goes_call.
    eapply goes_mono; [by apply checkDeployment_goes|]. intros d s2 [Hs2 Hd]. by apply conclude_nodeset_goes.
  - unfold after_setup. fold s0. unfold goes, sat in Hset. destruct (setup s0) as [[r|r|] s1]; [|done..].
    pose proof (checkDeployment_goes s1 Hset) as Hc. unfold goes, sat in Hc. unfold run.
    cbn [snd]. destruct (checkDeployment s1) as [[d|d|] s2]; [|done..]. exists d. split; [done|apply Hc].
Qed.
End ready.

(** ** Properties *)

Section properties.
Context {W : Type} {KC : KubeClient W} {LC : LibCommon W} {PR : Process W}.
Context {CO : ConditionOps} {CL : ConditionLaws CO} {V : Validation} {MR : MapRange} {MRL : MapRangeLaws MR}.
Context {PI : PackageImages} {IL : InventoryLib} {SF : SortFunc} {SL : SortFuncLaws SF}.

(** The deployments of a NodeSet, in order, say that it is deployed: none of
    them failed, and the last one is ready. *)
Definition all_deployed (name : string) (l : list OpenStackDataPlaneDeployment) : Prop :=
  Forall (not_failed name) l ∧ deployment_state name <$> last l = Some DReady.

Lemma verdict_ready name l : isDeploymentReady (verdict name l) = true ↔ deployment_state name <$> last l = Some DReady.
Proof. unfold verdict. simpl. destruct (last l) as [d|]; simpl; [|done]. destruct (deployment_state name d); naive_solver. Qed.
Lemma said_ready instance all d :
  said instance all d → ∃ l, oldest_first (ns_Name instance) all l ∧
    (isDeploymentReady d = true ↔ all_deployed (ns_Name instance) l).
Proof.
  intros (l & Hp & Hd). exists l. split; [exact Hp|]. unfold all_deployed.
  destruct Hd as [[Hf ->]|(Hf & err & ->)]; [|simpl; naive_solver]. rewrite verdict_ready. naive_solver.
Qed.

(** C7. A NodeSet gets ready.  When the cluster has all that its
    reconciliation waits for, one reconciliation makes SetupReady and every
    condition of the setup True, and then DeploymentReady is True exactly when
    none of the deployments that count failed and the last of them is ready, in
    the order of the sort by age, which is from oldest to newest when every
    Deployment of the namespace has a DeploymentReady condition; and so is
    Ready, but for a pre-provisioned NodeSet that lists baremetal hosts.  "All
    that it waits for" is [SettledNodeSet]: no call fails, every node has
    networks, and its networks are reserved, the single DNS service and the DNS
    data are ready, the SSH Secret has its keys, the accounts are there, the
    variables and their sources are readable and parse, and the nodes to be
    provisioned, if any, are. *)
Theorem NodeSet_gets_ready (G : W → Prop) (instance : OpenStackDataPlaneNodeSet)
    (all : list OpenStackDataPlaneDeployment) {ST : SettledNodeSet G instance all} (req : NamespacedName) (w w1 : W) :
  GetNodeSet req w = (w1, Ok instance) → G w1 →
  let n := nodeset_patched w1 instance in
  let status t := status_of (ns_Conditions n) t in
  (NodeSet_Reconcile req w).2 = (PatchNodeSet n (world (nodeset_end w1 instance))).1 ∧
  (∀ t, t ∈ SetupReadyCondition :: setup_conditions instance → status t = Some CTrue) ∧
  ∃ l, oldest_first (ns_Name instance) all l ∧
    (status DeploymentReadyCondition = Some CTrue ↔ all_deployed (ns_Name instance) l) ∧
    (status ReadyCondition = Some CTrue ↔ all_deployed (ns_Name instance) l ∧ hosts_consistent instance).
Proof.
  intros Hg Hw n status. destruct (body_sets_up G instance all w1 Hw) as [Hend (d & Hrun & Hd)].
  destruct (said_ready _ _ _ Hd) as (l & Hp & Hl).
  split; [by apply NodeSet_Reconcile_patches|].
  pose proof (nodeset_body_spec w1 instance) as Hb. unfold goes, sat in Hb, Hend.
  fold (nodeset_end w1 instance) in Hb, Hend. set (n1 := obj (nodeset_end w1 instance)) in *.
  assert (status_of (ns_Conditions n1) SetupReadyCondition = Some CTrue) as Hset
    by (destruct (nodeset_body _) as [[?|?|] ?]; by simpl in Hend).
  destruct Hb as [Hu [[Hs _]|(d' & Hrun' & Hc)]]; [rewrite Hset in Hs; set_solver|].
  rewrite Hrun in Hrun'. injection Hrun' as <-.
  assert (∀ t, t ≠ ReadyCondition → status t = status_of (ns_Conditions n1) t) as Hother by (intros t; apply finish_other).
  destruct (setup_conditions_others instance) as [Hnd Hnr]. split.
  - intros t Ht. rewrite Hother by set_solver. rewrite Hc, decide_False, decide_True by (done || set_solver). done.
  - exists l. split; [exact Hp|]. rewrite <- Hl. split.
    + rewrite Hother, Hc, decide_True by done. by destruct (isDeploymentReady d).
    + unfold status. rewrite <- (all_true_completed instance d n1 Hc). by apply finish_Ready.
Qed.
End properties.

(** ** The property at a concrete cluster *)

Import ListConditions.

Definition read_nodeset : OpenStackDataPlaneNodeSet := named_as nodeset_request keyed_nodeset.
Definition its_deployment : OpenStackDataPlaneDeployment := deployed_as "deploy" deployed_well.
(** What stays of the store: the networks are reserved and the DNS data is
    ready, the SSH key is there, and there is one deployment. *)
Definition sim_complete (w : Sim) : Prop :=
  faults w = [] ∧ map_Forall (λ _, reserved) (ipsets w) ∧
  (∃ d, dnsdata w !! "openstack/edpm" = Some d ∧ dd_IsReady d = true) ∧
  (∃ s, secrets w !! "openstack/ssh-key" = Some s ∧ is_Some (sec_Data s !! AnsibleSSHPrivateKey)) ∧
  deployments w = {[ "openstack/deploy" := its_deployment ]} ∧
  versions w = [] ∧ serves (dnsmasqs w) ∧ netconfigs w ≠ [].

Lemma complete_faulty {A} (f : Sim → Sim * result A) (good : A → Prop) :
  answers sim_complete f good → answers sim_complete (faulty f) good.
Proof. intros Hf w Hw. unfold faulty. rewrite (proj1 Hw). by apply Hf. Qed.
Lemma complete_reads {A} (f : Sim → result A) (good : A → Prop) :
  (∀ w, sim_complete w → ∃ a, f w = Ok a ∧ good a) → answers sim_complete (faulty (λ w, (w, f w))) good.
Proof. intros Hf. apply complete_faulty. intros w Hw. split; [done|by apply Hf]. Qed.

Lemma complete_ipset ns i f :
  reserved i → patches same_reservations f → answers sim_complete (CreateOrPatchIPSet ns i f) reserved.
Proof.
  intros Hi Hf. apply complete_faulty. intros w Hw. pose proof Hw as (_ & Hips & _).
  set (k := key ns (ip_Name i)). destruct (Hf (default i (ipsets w !! k))) as (i' & -> & Hr & Hc).
  assert (reserved i') as Hi'.
  { assert (reserved (default i (ipsets w !! k))) as [Hf0 Hr0]
      by (destruct (ipsets w !! k) as [i0|] eqn:Hk; [exact (Hips _ _ Hk)|done]).
    split; [by rewrite Hc|by rewrite Hr]. }
  cbn [fst snd]. split; [|by eexists]. destruct Hw as (? & ? & Hw). split; [done|].
  split; [by apply map_Forall_insert_2|exact Hw].
Qed.
Lemma complete_dnsdata ns d f :
  patches same_readiness f → answers sim_complete (CreateOrPatchDNSData ns d f) (λ _, True).
Proof.
  intros Hf. apply complete_faulty. intros w Hw. pose proof Hw as (_ & _ & (d0 & Hd0 & Hready) & _).
  set (k := key ns (dd_Name d)). destruct (Hf (default d (dnsdata w !! k))) as (d' & -> & Hr).
  cbn [fst snd]. split; [|by eexists]. destruct Hw as (? & ? & _ & Hw).
  split; [done|]. split; [done|]. split; [|exact Hw].
  change (∃ d1, <[k := d']> (dnsdata w) !! "openstack/edpm" = Some d1 ∧ dd_IsReady d1 = true).
  destruct (decide (k = "openstack/edpm")) as [Hk|Hk].
  - exists d'. rewrite Hk, lookup_insert_eq. split; [done|]. unfold same_readiness in Hr. rewrite Hr, Hk, Hd0. exact Hready.
  - exists d0. by rewrite lookup_insert_ne.
Qed.
Lemma complete_inventory n data :
  ns_Meta n = ns_Meta read_nodeset → passes sim_complete (EnsureSecrets n [inventory_secret n data]) None.
Proof.
  intros Hm w Hw. split; [|done]. destruct Hw as (? & ? & ? & (s & Hs & Hk) & Hw).
  split; [done|]. split; [done|]. split; [done|]. split; [|exact Hw]. exists s. split; [|exact Hk].
  change (<[key (ns_Namespace n) ("dataplanenodeset-" +:+ (ns_Name n +:+ "")) :=
    mkSecret (st_Name (inventory_secret n data)) (st_Labels (inventory_secret n data)) (st_CustomData (inventory_secret n data))]>
    (secrets w) !! "openstack/ssh-key" = Some s).
  rewrite lookup_insert_ne; [exact Hs|]. unfold ns_Namespace, ns_Name. by rewrite Hm.
Qed.

#[export] Instance sim_set_node : SettledNodeSet sim_complete read_nodeset [its_deployment].
Proof.
  assert (∀ name node, ns_Nodes (ns_Spec read_nodeset) !! name = Some node → node = networked_node "edpm-0") as Hnode
    by (intros name node Hn; change (({["node0" := networked_node "edpm-0"]} : gmap string NodeSection) !! name = Some node) in Hn;
      by apply lookup_singleton_Some in Hn as [_ <-]).
  assert (usable sim_complete read_nodeset zeroAnsibleOpts) as Hvars
    by (split; [by intros ??|by intros ? ?%not_elem_of_nil]).
  split; try done.
  - intros path w Hw. split; [done|by eexists].
  - intros path w Hw. split; [done|]. eexists. split; [done|]. intros _. simpl. case_decide; by do 2 eexists.
  - intros s f Hf. apply complete_faulty. intros w Hw.
    destruct (Hf (default s (services w !! key (svc_Namespace s) (svc_Name s)))) as (s' & -> & _). by split; [|eexists].
  - apply complete_reads. intros w (_ & _ & _ & _ & _ & _ & _ & Hn). by eexists.
  - by intros name node ->%Hnode.
  - intros i f. apply complete_ipset.
  - intros n i. by eexists.
  - apply complete_reads. intros w (_ & _ & _ & _ & _ & _ & Hd & _). by eexists.
  - intros d f. apply complete_dnsdata.
  - intros n d. by eexists.
  - apply complete_reads. intros w (_ & _ & (d & Hd & Hr) & _). exists d. split; [|done].
    change (key _ _) with "openstack/edpm". by rewrite Hd.
  - intros t w Hw. pose proof Hw as (_ & _ & _ & (s & Hs & Hk) & _). cbn [VerifySecret sim_lib].
    change (key _ _) with "openstack/ssh-key". rewrite Hs.
    change (ssh_keys read_nodeset) with [AnsibleSSHPrivateKey]. cbn [forallb].
    rewrite bool_decide_eq_true_2 by exact Hk. by split.
  - apply complete_reads. intros w (_ & _ & _ & _ & _ & Hv & _). exists []. rewrite Hv. split; [done|simpl; lia].
  - intros n b. by eexists.
  - apply complete_reads. intros w (_ & _ & _ & _ & Hd & _). exists [its_deployment]. split; [|done].
    f_equal. unfold in_namespace. rewrite Hd, map_to_list_singleton. reflexivity.
  - by intros name node ->%Hnode.
  - intros name vars hosts. by eexists.
  - intros n data. apply complete_inventory.
Qed.
Lemma complete_start : sim_complete ready_world.
Proof.
  split; [done|]. split; [|split_and!].
  - apply map_Forall_singleton. split; [reflexivity|]. unfold node_ipset. cbn [ip_Reservation]. intros res.
    rewrite !elem_of_cons, elem_of_nil. intros [->|[->|[]]] Hc; [|vm_compute in Hc; discriminate].
    split; eexists; reflexivity.
  - eexists. split; [reflexivity|reflexivity].
  - eexists. split; [reflexivity|]. by eexists.
  - reflexivity.
  - reflexivity.
  - eexists. split_and!; [reflexivity|reflexivity|discriminate].
  - discriminate.
Qed.

Lemma NodeSet_gets_ready_witness :
  status_of (ns_Conditions (nodeset_patched ready_world read_nodeset)) ReadyCondition = Some CTrue.
Proof.
  destruct (NodeSet_gets_ready sim_complete read_nodeset [its_deployment] nodeset_request ready_world ready_world)
    as (_ & _ & l & Hl & _ & Hr); [reflexivity|exact complete_start|].
  apply Hr. destruct Hl as (_ & Hl & _). change (relevants _ _) with [its_deployment] in Hl. apply Permutation_singleton_r in Hl as ->.
  split; [|intros _; reflexivity]. split; [constructor; [reflexivity|constructor]|reflexivity].
Defined.
