(* ===== verification/Totality.v ===== *)
(** The reconciliation of a Deployment always answers: what the cluster has to
    keep for none of its nil pointers, nil maps and indices to panic.  First the
    pieces that only need their callees ([safe]), then the conditions that
    must be present when a NodeSet is reported on, then the body. *)

From stdpp Require Import base gmap strings list.
From S2P Require Import Prelude GoStd Conditions Types Cluster Sim Images ApiTypes DataSource AnsibleExec.
From S2P Require Import Service Cert Hashes Deployer DeploymentController Calls Pipeline.

Section calls.
Context {W : Type} {KC : KubeClient W} {LC : LibCommon W} {CM : CertManager W} {PR : Process W}.
Context {CO : ConditionOps} {CL : ConditionLaws CO} {V : Validation} {MR : MapRange} {PI : PackageImages}.
Context (G : W → Prop) `{HG : !KeptByCalls G}.

Ltac safe_calls := safe_tac; try kept_call.

Lemma GetDataSourceCmSecret_safe ns d : safe G (GetDataSourceCmSecret ns d).
Proof. unfold GetDataSourceCmSecret. safe_calls. Qed.
Lemma GetService_safe {R} ns s : safe G (GetService (R := R) ns s).
Proof. unfold GetService. safe_calls. Qed.
Lemma GetVersion_safe ns : safe G (GetVersion ns).
Proof. unfold GetVersion. safe_calls. Qed.
Lemma GetAnsibleExecution_safe o labels : safe G (GetAnsibleExecution o labels).
Proof. unfold GetAnsibleExecution. safe_calls. Qed.
#[local] Hint Resolve GetDataSourceCmSecret_safe GetService_safe GetVersion_safe GetAnsibleExecution_safe : safe.
Lemma AnsibleExecution_safe d s k i a n : safe G (AnsibleExecution d s k i a n).
Proof.
  intros w Hw. split; [|by apply AnsibleExecution_keeps].
  unfold AnsibleExecution. destruct (GetAnsibleExecutionNameAndLabels _ _ _) as [name labels].
  unfold GetAnsibleExecution, call, mbind, M_bind, op.
  destruct (ListAnsibleEEs _ labels w) as [w1 [[|e [|e' l]]|err]]; simpl; try (destruct (IsNotFound _); simpl); try done;
    by destruct (CreateOrPatchAnsibleEE _ _ _ w1) as [w2 [cap [ee|err']]].
Qed.
Lemma CheckGlobal_safe ns l : safe G (CheckGlobalServiceExecutionConsistency ns l).
Proof. unfold CheckGlobalServiceExecutionConsistency, check_global. safe_calls. Qed.
#[local] Hint Resolve AnsibleExecution_safe CheckGlobal_safe : safe.

(** *** Hashes: the maps are made before *)

Lemma hash_configmap_safe {R} name cm : safe (both G hashes_made) (hash_configmap (R := R) name cm).
Proof.
  unfold hash_configmap. apply safe_read. intros h [[m Hm] _]. rewrite Hm. cbn [map_set].
  safe_tac. intros h' [_ Hs]. split; [by eexists|done].
Qed.
Lemma hash_secret_safe {R} name sec : safe (both G hashes_made) (hash_secret (R := R) name sec).
Proof.
  unfold hash_secret. apply safe_read. intros h [_ [m Hm]]. rewrite Hm. cbn [map_set].
  safe_tac. intros h' [Hc _]. split; [done|by eexists].
Qed.
#[local] Hint Resolve hash_configmap_safe hash_secret_safe : safe.
Lemma GetDeploymentHashes_safe ns s l :
  safe (both G hashes_made) (GetDeploymentHashesForService ns s l).
Proof.
  unfold GetDeploymentHashesForService, hash_service, hash_datasource, hash_named_configmap,
    hash_named_secret, hash_certs.
  safe_calls.
Qed.

(** *** Mounts *)

Context (J : Deployer → Prop) (HJ : ∀ f d, J d → J (set_AeeSpec f d)).
Lemma append_mounts_safe {R} m : safe (both G J) (append_mounts (R := R) m).
Proof. unfold append_mounts. safe_tac. Qed.
#[local] Hint Resolve append_mounts_safe : safe.
Lemma addServiceExtraMounts_safe s : safe (both G J) (addServiceExtraMounts s).
Proof. unfold addServiceExtraMounts. safe_calls. Qed.
Lemma addCertMounts_safe l : safe (both G J) (addCertMounts l).
Proof. unfold addCertMounts, mount_service_certs, mount_cert, mount_cacerts. safe_calls. Qed.
End calls.

(** The certificates collected for a NodeSet with TLS fit the arithmetic on 64
    bits with the limit of the NodeSet. *)
Definition certs_fit {W} {KC : KubeClient W} {LC : LibCommon W} {CM : CertManager W} {MR : MapRange}
    (G : W → Prop) (n : OpenStackDataPlaneNodeSet) : Prop :=
  let limit := ns_SecretMaxSize (ns_Spec n) in
  ns_TLSEnabled (ns_Spec n) = true →
  (- 2 ^ 63 ≤ limit)%Z ∧
  ∀ service key w certs w', G w →
    collect_certs n (nss_AllHostnames (ns_Status n)) (nss_AllIPs (ns_Status n)) service key w =
      (Next certs, w') →
    (secret_bytes certs + Z.max 0 limit < 2 ^ 63)%Z.

(** ** A sound cluster

    Along the calls of the operator ([G] is kept): the jobs of an execution can
    always be listed by its labels, there is at most one, and a failed one says
    why; and the certificates of a NodeSet fit its limit. *)
Class SoundCluster {W} {KC : KubeClient W} {LC : LibCommon W} {CM : CertManager W} {PR : Process W}
    `{ConditionOps} `{MapRange} (G : W → Prop) : Prop := {
  sound_calls :: KeptByCalls G;
  sound_jobs ns service deployment nodeSet :
    answers G (ListAnsibleEEs ns (execution_labels service deployment nodeSet)) (λ l, length l ≤ 1 ∧
    ∀ ee, ee ∈ l → ee_JobStatus ee = JobStatusFailed → is_Some (cond_get (ee_Conditions ee) ReadyCondition));
  sound_certs nn w n : G w → (GetNodeSet nn w).2 = Ok n → certs_fit G n;
}.

Section sound.
Context {W : Type} {KC : KubeClient W} {KL : KubeLaws KC} {LC : LibCommon W} {CM : CertManager W} {PR : Process W}.
Context {CO : ConditionOps} {CL : ConditionLaws CO} {V : Validation} {MR : MapRange} {MRL : MapRangeLaws MR}.
Context {PI : PackageImages} (G : W → Prop) {SC : SoundCluster G}.

(** *** The services *)

Lemma lookup_sound o service deployment nodeSet w :
  G w → match run (GetAnsibleExecution o (GetAnsibleExecutionNameAndLabels service deployment nodeSet).2) w with
        | Some (Ok ee) => ee_JobStatus ee = JobStatusFailed → is_Some (cond_get (ee_Conditions ee) ReadyCondition)
        | Some (Fail err) => IsNotFound err = true
        | None => False
        end.
Proof.
  intros Hw. destruct (sound_jobs (m_Namespace o) (svc_Name service) deployment nodeSet w Hw) as (_ & l & Hl & Hlen & Hall).
  change (GetAnsibleExecutionNameAndLabels _ _ _).2 with (execution_labels (svc_Name service) deployment nodeSet).
  unfold run, GetAnsibleExecution, mbind, M_bind, op.
  destruct (ListAnsibleEEs _ _ w) as [w' r]. simpl in Hl. subst r.
  destruct l as [|ee [|ee' l]]; simpl in *; [apply NewNotFound_IsNotFound|apply Hall; by left|lia].
Qed.

(** The images can be recorded. *)
Definition made (d : Deployer) : Prop := is_Some (ds_ContainerImages (d_Status (dp_Deployment d))).
Lemma made_fixed d d' : keeps_fixed d d' → made d → made d'.
Proof. intros (_&_&_&_&_&_&_&_&_&_&_&Hi&_). auto. Qed.
Lemma safe_frames {R A} (m : M (St W Deployer) R A) :
  frames keeps_fixed m → keeps (λ s, G (world s)) m → (∀ s, G (world s) → made (obj s) → (m s).1 ≠ Panic) →
  safe (both G made) m.
Proof.
  intros Hf Hk Hn s [Hw Hm]. split; [by apply Hn|]. split; [by apply Hk|by eapply made_fixed, Hm].
Qed.

Lemma DeployService_safe service : safe (both G made) (DeployService service).
Proof. unfold DeployService. safe_tac. apply AnsibleExecution_safe; apply _. Qed.
Lemma check_job_safe msg service cs : safe (both G made) (check_job msg service cs).
Proof.
  apply safe_frames.
  - unfold check_job. frame_tac; auto with frames. apply frames_conditions_fixed, job_outcome_frame.
  - unfold check_job, job_outcome. keeps_tac. by apply GetAnsibleExecution_keeps; apply _.
  - intros s Hw _. pose proof (check_job_spec msg service cs s) as Hs. unfold sat in Hs.
    destruct (cond_is_false _ _); [|destruct Hs as [Hs _]; by rewrite Hs].
    unfold lookup_job in Hs.
    pose proof (lookup_sound (d_Meta (dp_Deployment (obj s))) service (d_Name (dp_Deployment (obj s)))
      (ns_Name (dp_NodeSet (obj s))) (world s) Hw) as Hl.
    destruct (run _ _) as [[ee|err]|]; [|rewrite Hl in Hs; by destruct Hs as [-> _]|done].
    destruct Hs as [_ Hs]. intros He. rewrite He in Hs. destruct Hs as [Hfail Hnone].
    destruct (Hl Hfail) as [c Hc]. by rewrite Hc in Hnone.
Qed.
Lemma ConditionalDeploy_safe msg service : safe (both G made) (ConditionalDeploy msg service).
Proof.
  unfold ConditionalDeploy, start_service. safe_tac; try done; try apply DeployService_safe; try apply check_job_safe.
  intros d. apply made_fixed, keeps_alias.
Qed.

Lemma fail_service_safe {A} msg cs err : safe (both G made) (fail_service (A := A) msg cs err).
Proof. unfold fail_service. safe_tac. Qed.
Lemma record_image_safe {R} v cif : safe (both G made) (record_image (R := R) v cif).
Proof.
  unfold record_image. apply safe_read. intros d [m Hm]. rewrite Hm. cbn [map_set]. safe_tac. by eexists.
Qed.
#[local] Hint Resolve record_image_safe : safe.
Lemma finish_service_safe msg service err : safe (both G made) (finish_service msg service err).
Proof. unfold finish_service. safe_tac. Qed.
Lemma Deploy_safe services : safe (both G made) (Deploy services).
Proof.
  unfold Deploy, deploy_service.
  safe_tac; try done; try apply fail_service_safe; try apply ConditionalDeploy_safe;
    try apply finish_service_safe; try (apply GetService_safe; apply _);
    try (apply addServiceExtraMounts_safe; [apply _|done]); try (apply addCertMounts_safe; [apply _|done]).
Qed.

(** *** The condition of the NodeSet stays *)

Definition present (d : Deployer) : Prop :=
  is_Some (status_of (dp_nsConditions d) NodeSetDeploymentReadyCondition).
Lemma service_condition_ne service :
  NodeSetDeploymentReadyCondition ≠ readyCondition (service_messages service).
Proof. discriminate. Qed.
Lemma present_conditions d d' : keeps_conditions d d' → present d → present d'.
Proof. intros Hk. unfold present. by rewrite (keeps_conditions_ns _ _ Hk). Qed.
Lemma present_set cs c d :
  is_Some (status_of cs NodeSetDeploymentReadyCondition) → present (set_nsConditions (cond_set cs c) d).
Proof. unfold present. rewrite nsConditions_set, status_set. case_decide; [by eexists|done]. Qed.

(** After a service; a round that ended without an answer left it not deployed. *)
Definition waits (msg : Messages) (d : Deployer) : Prop :=
  status_of (dp_nsConditions d) (readyCondition msg) ≠ Some CTrue.
Definition still_present {A} (msg : Messages) (o : outcome (option Err) A) (s' : St W Deployer) : Prop :=
  match o with
  | Next _ | Return (Some _) => present (obj s')
  | Return None => present (obj s') ∨ waits msg (obj s')
  | Panic => True
  end.
Lemma ConditionalDeploy_present name service (s : St W Deployer) :
  present (obj s) →
  sat (ConditionalDeploy (service_messages name) service) s (still_present (service_messages name)).
Proof.
  intros Hp. set (msg := service_messages name). unfold ConditionalDeploy. apply sat_bind.
  eapply sat_mono; [apply start_service_spec|]. intros [cs|[err|]|] s1 Hs1; [| |by destruct Hs1|done].
  2:{ destruct Hs1 as [_ Hs1]. unfold still_present, present. by rewrite Hs1. }
  assert (is_Some (status_of cs NodeSetDeploymentReadyCondition)) as Hcs.
  { destruct Hs1 as [(_ & -> & _)|(_ & -> & _)]; [done|].
    rewrite status_requested, decide_False by apply service_condition_ne. done. }
  apply sat_bind. eapply sat_mono; [apply check_job_spec|]. intros o s2.
  assert (∀ cs' (err : option Err), is_Some (status_of cs' NodeSetDeploymentReadyCondition) →
    sat (R := option Err) (_ ← modify_obj (set_nsConditions cs'); mret err) s2 (still_present msg)) as Hend.
  { intros cs' err Hcs'. apply sat_bind, sat_modify, sat_ret. unfold still_present, present. simpl.
    by rewrite nsConditions_set. }
  rewrite is_false_status. case_bool_decide as Hf; [|intros [-> ->]; by apply Hend].
  destruct (lookup_job _ _) as [[ee|err]|]; [|destruct (IsNotFound err)|done].
  - intros [_ Ho]. destruct o as [[cs' err]|r|]; [|done..]. apply Hend.
    destruct Ho as [Ho _]. by rewrite Ho by apply service_condition_ne.
  - intros [-> Hs2]. simpl. unfold present, waits. rewrite Hs2.
    destruct Hs1 as [(_ & _ & ->)|(_ & _ & Hread)]; [by left|right].
    intros Ht%Hread. unfold msg in *. congruence.
  - by intros ->.
Qed.

Definition ends_present {A} (o : outcome (option Result * option Err) A) (s' : St W Deployer) : Prop :=
  match o with Next _ | Return (_, Some _) => present (obj s') | _ => True end.
Lemma fail_service_present {A} msg cs err (s : St W Deployer) :
  is_Some (status_of cs NodeSetDeploymentReadyCondition) →
  sat (fail_service (A := A) msg cs err) s ends_present.
Proof. intros Hcs. unfold fail_service. apply sat_bind, sat_modify, sat_return. by apply present_set. Qed.
Lemma fail_service_leaves {A} msg cs err (s : St W Deployer) :
  is_Some (status_of cs NodeSetDeploymentReadyCondition) →
  sat (fail_service (A := A) msg cs err) s (λ o s', ends_present o s' ∧ o = Return (Some emptyResult, Some err)).
Proof. intros Hcs. apply sat_and; [by apply fail_service_present|apply fail_service_spec]. Qed.
Lemma finish_service_present msg service err (s : St W Deployer) :
  (err = None ∧ waits msg (obj s)) ∨ present (obj s) →
  sat (finish_service msg service err) s ends_present.
Proof.
  intros Hp. eapply sat_mono; [apply finish_service_next|]. intros [[]|[r e]|] s'; [| |done]; simpl.
  - intros (_ & Ht & Hs). destruct Hp as [[_ ?]|Hp]; [done|]. unfold present. by rewrite Hs.
  - intros ([= -> ->] & -> & _). destruct Hp as [[-> _]|Hp]; [done|by destruct err].
Qed.

Lemma deploy_service_present services mounts service (s : St W Deployer) :
  present (obj s) → sat (deploy_service services mounts service) s ends_present.
Proof.
  intros Hp. set (msg := service_messages service). unfold deploy_service. cbv zeta. apply sat_bind, sat_gets.
  apply sat_bind_keeps; [apply frames_on_world, _|apply never_on_world| |done]. intros found s1 K1.
  destruct found as [foundService|err]; [|exact (fail_service_present _ _ _ _ Hp)].
  apply sat_bind_keeps; [apply frames_modify; auto with frames|apply never_modify| |done]. intros _ s2 K2.
  apply sat_bind_keeps; [apply frames_modify; auto with frames|apply never_modify| |done]. intros _ s3 K3.
  apply sat_bind_keeps; [apply frames_call, addServiceExtraMounts_frame|apply never_call| |done]. intros err s4 K4.
  apply sat_bind. destruct err as [err|];
    [by eapply sat_mono; [apply (fail_service_leaves _ _ _ _ Hp)|intros o s' [H ->]]|]. apply sat_ret.
  apply sat_bind. eapply sat_mono with (Q := λ o s', match o with
    | Next _ => keeps_conditions (obj s4) (obj s')
    | _ => ends_present o s'
    end).
  { destruct (_ && _); [|by apply sat_ret].
    apply sat_bind_keeps; [apply frames_call, addCertMounts_frame|apply never_call| |done]. intros err s5 K5.
    destruct err; [|by apply sat_ret]. 
    by eapply sat_mono; [apply (fail_service_leaves _ _ _ _ Hp)|intros o s' [H ->]]. }
  intros [[]|r|] s5 K5; [|done..].
  assert (present (obj s5)) as Hp5 by (eapply present_conditions, Hp; by repeat (etransitivity; [eassumption|])).
  apply sat_bind, sat_call. eapply sat_mono; [by apply ConditionalDeploy_present|].
  intros [err|[err|]|] s6 H6; [..|done]; simpl in H6; apply finish_service_present; [by right..|].
  destruct H6; auto.
Qed.

Lemma Deploy_present services (s : St W Deployer) :
  present (obj s) → sat (Deploy services) s ends_present.
Proof.
  intros Hp. unfold Deploy. apply sat_bind, sat_gets. cbv zeta. apply sat_bind.
  apply (sat_for_acc _ _ _ _ (λ _ _ s', present (obj s'))); [done| |].
  - intros service rest [] s1 _ Hp1. eapply sat_mono; [by apply deploy_service_present|].
    intros [[]|r|] s2 H; done.
  - intros [] s1 Hp1. by apply sat_ret.
Qed.

(** *** The NodeSets *)

Lemma report_nodeset_no_panic name p r (s : St W OpenStackDataPlaneDeployment) :
  (r.2 ≠ None → is_Some (status_of (nodeset_conditions name (obj s)) NodeSetDeploymentReadyCondition)) →
  sat (report_nodeset name p r) s (λ o _, o ≠ Panic).
Proof.
  intros Hp. unfold report_nodeset. destruct r as [r err]. simpl in Hp. apply sat_bind, sat_gets. cbv zeta.
  set (cs := nodeset_conditions _ _) in *. set (mirrored := cond_mirror _ _).
  apply sat_bind. eapply sat_mono with (Q := λ o _, o = Next ()); [by destruct mirrored|]. intros ? s4 ->.
  apply sat_bind. eapply sat_mono with (Q := λ o _, ∃ p', o = Next p').
  - destruct err as [err|]; [|apply sat_ret; eauto]. apply sat_bind.
    assert (is_Some (cond_get (cond_set_ptr cs mirrored) NodeSetDeploymentReadyCondition)) as [c Hc].
    { apply is_Some_status. destruct mirrored as [c|]; [rewrite set_ptr_some, status_set|rewrite set_ptr_nil; auto].
      case_decide; [by eexists|auto]. }
    rewrite Hc. apply sat_ret, sat_ret. eauto.
  - intros o' s5 [p' ->]. by destruct r.
Qed.

Lemma deploy_nodeset_no_panic version i k p nodeSet (s : St W OpenStackDataPlaneDeployment) :
  G (world s) → maps_made (obj s) →
  is_Some (status_of (nodeset_conditions (ns_Name nodeSet) (obj s)) NodeSetDeploymentReadyCondition) →
  sat (deploy_nodeset version i k p nodeSet) s (λ o _, o ≠ Panic).
Proof.
  intros Hw (_ & _ & _ & Hi) Hp. unfold deploy_nodeset, mark.
  apply sat_bind, sat_modify, sat_bind, sat_modify, sat_bind, sat_gets. cbn [obj world].
  apply sat_bind. unfold with_deployer, sat at 1.
  match goal with |- context [Deploy ?l ?s1] =>
    pose proof (Deploy_safe l s1 ltac:(by split)) as [Hn _]; pose proof (Deploy_present l s1 Hp) as Hpres;
    pose proof (Deploy_frame l s1) as (HN & _); unfold sat in Hpres; destruct (Deploy l s1) as [o s2] end.
  unfold ends_present, present, dp_nsConditions in Hpres. simpl in *. rewrite ?HN in Hpres.
  destruct o as [[r err]|[r err]|]; [| |done]; apply report_nodeset_no_panic; simpl; [done|].
  intros He. by destruct err.
Qed.

Lemma deploy_loop_safe version i k p nodeSets (s : St W OpenStackDataPlaneDeployment) :
  G (world s) → maps_made (obj s) → NoDup (ns_Name <$> nodeSets) →
  (∀ name, name ∈ ns_Name <$> nodeSets →
     is_Some (status_of (nodeset_conditions name (obj s)) NodeSetDeploymentReadyCondition)) →
  sat (for_acc nodeSets (deploy_nodeset version i k) p) s (λ o s', o ≠ Panic ∧ both G maps_made s').
Proof.
  intros Hw Hm Hnd Hp.
  apply (sat_for_acc _ _ _ _ (λ rest _ s', G (world s') ∧ maps_made (obj s') ∧ NoDup (ns_Name <$> rest) ∧
    ∀ name, name ∈ ns_Name <$> rest →
      is_Some (status_of (nodeset_conditions name (obj s')) NodeSetDeploymentReadyCondition))); [done| |by intros ?? (? & ? & _)].
  clear Hw Hm Hnd Hp. intros n rest p1 s1 _ (Hw & Hm & Hnd & Hp). rewrite fmap_cons in Hnd, Hp.
  apply NoDup_cons in Hnd as [Hn Hnd].
  pose proof (deploy_nodeset_no_panic version i k p1 n s1 Hw Hm (Hp _ ltac:(by left))) as Hno.
  pose proof (deploy_nodeset_keeps G version i k p1 n s1 Hw) as Hw2.
  destruct (deploy_nodeset_frame_maps version i k p1 n s1) as [Hm2 Ho2].
  unfold sat in *. destruct (deploy_nodeset version i k p1 n s1) as [[p2|r|] s2]; simpl in *; [|by split; [|split; auto]|done].
  split_and!; [done|auto|done|]. intros name Hin. rewrite Ho2; [apply Hp; by right|]. by intros ->.
Qed.

(** *** The end of the body *)

Lemma with_hashes_safe {R} ns service nodeSets :
  safe (both G maps_made) (with_hashes (R := R) (GetDeploymentHashesForService ns service nodeSets)).
Proof.
  intros s [Hw (Hc & Hs & Hn & Hi)]. unfold with_hashes. cbv zeta.
  match goal with |- context [GetDeploymentHashesForService ?a ?b ?c ?s1] =>
    destruct (GetDeploymentHashes_safe G a b c s1) as [Hno [Hw' [Hc' Hs']]]; [by split|];
    destruct (GetDeploymentHashesForService a b c s1) as [o s2] end.
  split; [by destruct o|]. by split.
Qed.
Lemma setHashes_safe nodeSets : safe (both G maps_made) (setHashes nodeSets).
Proof.
  unfold setHashes. apply safe_read. intros d _. apply safe_bind; [safe_tac; apply with_hashes_safe|].
  intros _. apply safe_bind; [|intros; apply safe_ret]. apply safe_for_each. intros n _.
  apply safe_read. intros d' (_ & _ & [m ->] & _). cbn [map_set]. safe_tac.
  intros x (? & ? & _ & ?). split_and!; [done|done|by eexists|done].
Qed.

Lemma conclude_safe version nodeSets p : safe (both G maps_made) (conclude version nodeSets p).
Proof. unfold conclude, mark. safe_tac; try done. apply setHashes_safe. Qed.

(** *** The phases before *)

Section phases.
Context (names : list string).

(** The maps are made, and every NodeSet has a condition to report on. *)
Definition reportable (d : OpenStackDataPlaneDeployment) : Prop :=
  maps_made d ∧ ∀ name, name ∈ names →
    is_Some (status_of (nodeset_conditions name d) NodeSetDeploymentReadyCondition).
Lemma reportable_alias name c d :
  CType c = NodeSetDeploymentReadyCondition → reportable d → reportable (alias_nodeset name c d).
Proof.
  intros Hc [Hm Hp]. split; [by unfold alias_nodeset; case_match|]. intros other Hin.
  specialize (Hp other Hin). destruct (decide (other = name)) as [->|Hne].
  - rewrite <- Hc in Hp. apply alias_nodeset_set in Hp as [-> _]. rewrite status_set, decide_True by done. eauto.
  - by rewrite (proj2 (only_alias name c d)).
Qed.

Lemma input_error_safe {A} name m err : safe (both G reportable) (input_error (A := A) name m err).
Proof.
  unfold input_error, mark. safe_tac. intros d. by apply reportable_alias, FalseCondition_type.
Qed.
#[local] Hint Resolve input_error_safe : safe.
Lemma fetch_nodesets_safe : safe (both G reportable) fetch_nodesets.
Proof. unfold fetch_nodesets, mark. safe_tac; try done. apply kept_GetNodeSet. Qed.
Lemma check_setup_safe l : safe (both G reportable) (check_setup l).
Proof. unfold check_setup. safe_tac. Qed.
Lemma check_consistency_safe l : safe (both G reportable) (check_consistency l).
Proof. unfold check_consistency, mark. safe_tac; try done. apply CheckGlobal_safe; apply _. Qed.

Lemma EnsureTLSCerts_safe n service key :
  certs_fit G n → ns_TLSEnabled (ns_Spec n) = true →
  safe G (EnsureTLSCerts n (nss_AllHostnames (ns_Status n)) (nss_AllIPs (ns_Status n)) service key).
Proof.
  intros Hfit Htls w Hw. destruct (Hfit Htls) as [Hmin Hmax]. split; [|by apply EnsureTLSCerts_keeps; [apply _|]].
  unfold EnsureTLSCerts, mbind, M_bind.
  pose proof (collect_certs_node_files n (nss_AllHostnames (ns_Status n)) (nss_AllIPs (ns_Status n)) service key w) as Hc.
  unfold sat in Hc. destruct (collect_certs _ _ _ _ _ w) as [[certs|r|] w1] eqn:Hcol; simpl in Hc; [|done..].
  destruct (collected_packs n certs Hc Hmin (Hmax _ _ _ _ _ Hw Hcol)) as [ci ->]. simpl.
  pose proof (write_secrets_spec n service key ci w1) as Hl. unfold sat in Hl.
  by destruct (write_secrets _ _ _ _ w1) as [[[]|r|] w2].
Qed.
Lemma ensure_certs_safe nodeSets :
  (∀ n, n ∈ nodeSets → certs_fit G n) → safe (both G reportable) (ensure_certs nodeSets).
Proof.
  intros Hfit. unfold ensure_certs. apply safe_read. intros d _. apply safe_for_each. intros n Hin.
  destruct (ns_TLSEnabled (ns_Spec n)) eqn:Htls; [|apply safe_ret]. simpl.
  safe_tac; [apply GetService_safe; apply _|]. apply EnsureTLSCerts_safe; auto.
Qed.

Lemma fetch_nodesets_fit (s : St W OpenStackDataPlaneDeployment) :
  G (world s) → sat fetch_nodesets s (λ o _, match o with
    | Next l => ∀ n, n ∈ l → certs_fit G n | _ => True end).
Proof.
  intros Hw. unfold fetch_nodesets. apply sat_bind, sat_gets.
  apply sat_for_acc with (I := λ _ l s', G (world s') ∧ ∀ n, n ∈ l → certs_fit G n);
    [split; [done|by intros ? ?%not_elem_of_nil]| |by intros ? ? [_ ?]].
  intros name rest l s1 _ [Hw1 Hl]. apply sat_bind, sat_on_world, sat_op.
  pose proof (sound_certs (mkNN (d_Namespace (obj s)) name) (world s1)) as Hc.
  pose proof (kept_GetNodeSet (mkNN (d_Namespace (obj s)) name) (world s1) Hw1) as Hk.
  destruct (GetNodeSet _ (world s1)) as [w' [n|err]]; simpl in *.
  - split; [done|]. intros n' [Hin| ->%list_elem_of_singleton]%elem_of_app; auto.
  - by destruct (IsNotFound err).
Qed.
End phases.

Lemma reportable_init instance :
  reportable (d_NodeSets (d_Spec instance)) (set_d_Status make_maps (prepare instance)).
Proof.
  pose proof (initialised_init instance) as (_ & _ & Hn). split; [|exact Hn].
  by split_and!; eexists.
Qed.

Lemma body_no_panic `{!NamedReads KC} instance w :
  G w → NoDup (d_NodeSets (d_Spec instance)) →
  sat reconcile_body (mkSt w (prepare instance)) (λ o _, o ≠ Panic).
Proof.
  intros Hw Hnd. set (names := d_NodeSets (d_Spec instance)) in *.
  pose proof (reportable_init instance : reportable names _) as Hr. unfold reconcile_body, mark.
  apply sat_bind, sat_modify. cbn [world obj]. set (s1 := mkSt w _).
  assert (both G (reportable names) s1) as Hs1 by done.
  apply sat_bind. eapply sat_mono; [eapply sat_safe; [apply (fetch_nodesets_safe names)|exact Hs1|];
    apply sat_and; [by apply fetch_nodesets_fit|apply fetch_nodesets_named]|].
  intros [nodeSets|r|] s2 (Hno & Hs2 & Hfit & Hnames); [|done..].
  change (d_NodeSets _) with names in Hnames.
  eapply (safe_then _); [apply (check_setup_safe names)|exact Hs2|]. intros [] s3 Hs3.
  eapply (safe_then _); [by apply (ensure_certs_safe names)|exact Hs3|]. intros [] s4 [Hw4 Hr4].
  apply sat_bind, sat_modify. cbv zeta. set (s5 := mkSt _ _).
  assert (both G (reportable names) s5) as Hs5 by done. clearbody s5.
  eapply (safe_then _); [apply (check_consistency_safe names)|exact Hs5|]. intros [] s6 Hs6.
  apply sat_bind, sat_gets.
  eapply (safe_then _); [apply (safe_on_world G (reportable names)), GetVersion_safe; apply _|exact Hs6|].
  intros [version|err] s7 [Hw7 [Hm7 Hp7]]; [|done].
  apply sat_bind. eapply sat_mono; [apply deploy_loop_safe; rewrite ?Hnames; [done..|exact Hp7]|].
  intros [p|r|] s8 (Hno8 & Hs8); [by apply conclude_safe|done..].
Qed.
End sound.

Section total.
Context {W : Type} {KC : KubeClient W} {KL : KubeLaws KC} {LC : LibCommon W} {CM : CertManager W} {PR : Process W}.
Context {CO : ConditionOps} {CL : ConditionLaws CO} {V : Validation} {MR : MapRange} {MRL : MapRangeLaws MR}.
Context {PI : PackageImages}.

(** C6. The reconciliation of a Deployment always ends with an answer, it
    never panics: whatever the request and the Deployment, and whichever other
    calls fail, as long as this holds from the read of the Deployment on and
    the calls of the operator keep it: the jobs with the labels of an execution
    can be listed, there is at most one, and a failed one has its Ready
    condition; a NodeSet that is read carries the name it was asked for, and its
    certificates, if it has TLS, fit its limit; NotFound errors are
    recognised; and the Deployment lists no NodeSet twice. *)
Theorem Deployment_Reconcile_answers (G : W → Prop) {SC : SoundCluster G} `{!NamedReads KC} (req : NamespacedName) (w : W) :
  (∀ w1 instance, GetDeployment req w = (w1, Ok instance) → G w1 ∧ NoDup (d_NodeSets (d_Spec instance))) →
  ∃ answer, run (Deployment_Reconcile req) w = Some answer.
Proof.
  intros Hg. unfold Deployment_Reconcile. destruct (hostname_rfc1123 _) as [err|]; [by eexists|].
  unfold run, mbind, M_bind, op. destruct (GetDeployment req w) as [w1 [instance|err]];
    [|destruct (IsNotFound err); by eexists].
  destruct (Hg _ _ eq_refl) as [Hw Hnd]. destruct (ds_Deployed _); [by eexists|]. cbv zeta.
  unfold with_status_patch. pose proof (body_no_panic G instance w1 Hw Hnd) as Hb. unfold sat in Hb.
  destruct (reconcile_body _) as [[a|a|] s]; [..|done]; destruct (PatchDeployment _ _); by eexists.
Qed.
End total.

(** ** The property at a concrete cluster

    The store held in memory, as it is; the one job there is has failed. *)

Import ListConditions.

Definition failed_job : OpenStackAnsibleEE :=
  mkEE (ee_Meta ovn_job) zeroEESpec JobStatusFailed
    [mkCondition ReadyCondition CFalse SeverityError 0 JobReasonBackoffLimitExceeded ""].
Definition failed_world : Sim :=
  set_ansibleees {[ "openstack/ovn-deploy-edpm" := failed_job ]} base_world.

(** The jobs of a store: each under its own name, no two of a namespace with
    the labels of one execution, and a failed one with its Ready condition. *)
Definition job_key (e : OpenStackAnsibleEE) : string := key (m_Namespace (ee_Meta e)) (m_Name (ee_Meta e)).
Definition of_execution (ns : string) (labels : gmap string string) (e : OpenStackAnsibleEE) : Prop :=
  m_Namespace (ee_Meta e) = ns ∧ labels ⊆ m_Labels (ee_Meta e).
Definition sound_store (jobs : gmap string OpenStackAnsibleEE) : Prop :=
  (∀ k e, jobs !! k = Some e → k = job_key e) ∧
  (∀ ns service deployment nodeSet k1 k2 e1 e2, jobs !! k1 = Some e1 → jobs !! k2 = Some e2 →
     of_execution ns (execution_labels service deployment nodeSet) e1 →
     of_execution ns (execution_labels service deployment nodeSet) e2 → k1 = k2) ∧
  (∀ k e, jobs !! k = Some e → ee_JobStatus e = JobStatusFailed → is_Some (cond_get (ee_Conditions e) ReadyCondition)).

(** The listing of a store. *)
Definition listed (jobs : gmap string OpenStackAnsibleEE) (ns : string) (labels : gmap string string) :
    list OpenStackAnsibleEE :=
  filter (λ e, Is_true (labelled labels (ee_Meta e))) (in_namespace ee_Meta ns jobs).
Lemma elem_of_listed jobs ns labels e :
  e ∈ listed jobs ns labels ↔ of_execution ns labels e ∧ ∃ k, jobs !! k = Some e.
Proof.
  unfold listed, in_namespace, of_execution, labelled. rewrite !list_elem_of_filter, list_elem_of_fmap.
  rewrite bool_decide_spec. split.
  - intros (? & ? & [k e'] & -> & ?%elem_of_map_to_list). eauto.
  - intros ([? ?] & k & ?). split_and!; [done..|]. exists (k, e). by rewrite elem_of_map_to_list.
Qed.
Lemma listed_one jobs ns service deployment nodeSet :
  sound_store jobs → length (listed jobs ns (execution_labels service deployment nodeSet)) ≤ 1.
Proof.
  intros (_ & Hu & _). set (labels := execution_labels _ _ _).
  destruct (listed jobs ns labels) as [|e l] eqn:Hl; [simpl; lia|].
  assert (of_execution ns labels e ∧ ∃ k, jobs !! k = Some e) as [He [k Hk]] by (apply elem_of_listed; rewrite Hl; left).
  unfold listed, in_namespace in Hl. rewrite list_filter_filter in Hl.
  rewrite (filter_values_one _ _ k) in Hl.
  - rewrite Hk in Hl. case_decide; [|done]. injection Hl as <-. simpl. lia.
  - intros k' e' Hk' [Hlab Hns]. unfold labelled in Hlab. rewrite bool_decide_spec in Hlab.
    by apply (Hu ns service deployment nodeSet k' k e' e).
Qed.

(** The labels of an execution are not among those of another. *)
Lemma execution_labels_inj s d n s' d' n' :
  execution_labels s d n ⊆ execution_labels s' d' n' → execution_labels s d n = execution_labels s' d' n'.
Proof.
  intros Hs. unfold execution_labels in *.
  assert (∀ k v, <["openstackdataplaneservice" := s]> (<["openstackdataplanedeployment" := d]>
    (<["openstackdataplanenodeset" := n]> (∅ : gmap string string))) !! k = Some v →
    <["openstackdataplaneservice" := s']> (<["openstackdataplanedeployment" := d']>
    (<["openstackdataplanenodeset" := n']> (∅ : gmap string string))) !! k = Some v) as H
    by (intros k v Hv; by apply (lookup_weaken _ _ _ _ Hv)).
  pose proof (H "openstackdataplaneservice" s ltac:(by simplify_map_eq)) as H1.
  pose proof (H "openstackdataplanedeployment" d ltac:(by simplify_map_eq)) as H2.
  pose proof (H "openstackdataplanenodeset" n ltac:(by simplify_map_eq)) as H3.
  simplify_map_eq. done.
Qed.

(** Writing a job keeps the store sound. *)
Lemma sound_write jobs ns service deployment nodeSet e e' spec :
  let labels := execution_labels service deployment nodeSet in
  sound_store jobs → job_to_patch ns labels (Ok (listed jobs ns labels)) e →
  e' = (let stored := default e (jobs !! job_key e) in mkEE (ee_Meta stored) spec (ee_JobStatus stored) (ee_Conditions stored)) →
  sound_store (<[job_key e := e']> jobs).
Proof.
  intros labels Hs Hj He'. pose proof Hs as (Hk & Hu & Hf).
  destruct (jobs !! job_key e) as [stored|] eqn:Hst; simpl in He'.
  - (* a job that is there keeps all that matters *)
    assert (∀ k e1, <[job_key e := e']> jobs !! k = Some e1 → ∃ e0, jobs !! k = Some e0 ∧
      ee_Meta e1 = ee_Meta e0 ∧ ee_JobStatus e1 = ee_JobStatus e0 ∧ ee_Conditions e1 = ee_Conditions e0) as Hold.
    { intros k e1 [[<- He1]|[_ H1]]%lookup_insert_Some; [|by exists e1]. subst e1. exists stored. by rewrite He'. }
    split_and!.
    + intros k e1 (e0 & H0 & Hm & _)%Hold. unfold job_key. rewrite Hm. by apply Hk.
    + intros ns' s d n k1 k2 e1 e2 (e10 & H1 & Hm1 & _)%Hold (e20 & H2 & Hm2 & _)%Hold.
      unfold of_execution. rewrite Hm1, Hm2. by apply (Hu ns' s d n k1 k2 e10 e20).
    + intros k e1 (e0 & H0 & _ & -> & ->)%Hold. by apply (Hf k).
  - destruct Hj as [Hj|[Hj (name & ->)]].
    { injection Hj as Hj. assert (e ∈ listed jobs ns labels) as [_ [k Hke]]%elem_of_listed by (rewrite Hj; left).
      pose proof (Hk _ _ Hke) as ->. congruence. }
    assert (listed jobs ns labels = []) as Hnone by (destruct Hj as [Hj|(? & ? & _)]; [congruence|done]).
    assert (∀ ns' s d n k1 e1, of_execution ns' (execution_labels s d n) e' → jobs !! k1 = Some e1 →
      ¬ of_execution ns' (execution_labels s d n) e1) as Hno.
    { intros ns' s d n k1 e1 [Hns Hl] H1 Ho. rewrite He' in Hns, Hl. simpl in Hns, Hl. subst ns'.
      apply execution_labels_inj in Hl. rewrite Hl in Ho.
      assert (e1 ∈ listed jobs ns labels) as Hin by (apply elem_of_listed; eauto).
      rewrite Hnone in Hin. by apply not_elem_of_nil in Hin. }
    split_and!.
    + intros k e1 [[<- <-]|[_ H1]]%lookup_insert_Some; [by rewrite He'|by apply Hk].
    + intros ns' s d n k1 k2 e1 e2 [[<- <-]|[_ H1]]%lookup_insert_Some [[<- <-]|[_ H2]]%lookup_insert_Some Ho1 Ho2.
      * done.
      * by destruct (Hno _ _ _ _ _ _ Ho1 H2).
      * by destruct (Hno _ _ _ _ _ _ Ho2 H1).
      * by apply (Hu ns' s d n k1 k2 e1 e2).
    + intros k e1 [[<- <-]|[_ H1]]%lookup_insert_Some; [by rewrite He'|by apply (Hf k)].
Qed.

(** The worlds of this cluster. *)
Definition sound_world (w : Sim) : Prop :=
  faults w = [] ∧ nodesets w = {[ "openstack/edpm" := ready_nodeset ]} ∧ sound_store (ansibleees w).

Lemma sim_sound_kept : KeptByCalls sound_world.
Proof.
  assert (∀ w1 w2 : Sim, faults w2 = faults w1 → nodesets w2 = nodesets w1 → ansibleees w2 = ansibleees w1 →
    sound_world w1 → sound_world w2) as Hq by (by intros w1 w2 Hf Hn Hj; unfold sound_world; rewrite Hf, Hn, Hj).
  split.
  15: { intros X ns s d n dep build e x w. cbv zeta. intros Hj (Hf & Hn & Hs).
    cbn [ListAnsibleEEs CreateOrPatchAnsibleEE sim_kube] in *. unfold faulty in *. rewrite Hf in *. cbn [fst snd] in *.
    unfold owned_job. cbn [SetOwnerAnsibleEE sim_kube]. cbn [fst snd].
    split; [exact Hf|]. split; [exact Hn|]. eapply sound_write; [exact Hs|exact Hj|reflexivity]. }
  all: intros * Hw; pose proof (proj1 Hw) as Hf; revert Hw; apply Hq; simpl;
    unfold fetch, Sim.upsert, faulty; rewrite ?Hf; simpl; try done; repeat (case_match; try done).
Qed.
Lemma ready_only (m : gmap string OpenStackDataPlaneNodeSet) k n :
  m = {[ "openstack/edpm" := ready_nodeset ]} → m !! k = Some n → n = ready_nodeset.
Proof. by intros -> [_ <-]%lookup_singleton_Some. Qed.

Lemma sim_sound : SoundCluster sound_world.
Proof.
  split.
  - apply sim_sound_kept.
  - intros ns s d n w Hw. pose proof Hw as (Hf & Hn & Hs). cbn [ListAnsibleEEs sim_kube]. unfold faulty.
    rewrite Hf. split; [exact Hw|]. eexists. split; [done|]. split; [by apply (listed_one (ansibleees w))|].
    intros ee [_ [k Hk]]%elem_of_listed. by apply (proj2 (proj2 Hs) k).
  - intros nn w n (Hf & Hn & Hj) Hget Htls. exfalso.
    assert (ns_TLSEnabled (ns_Spec ready_nodeset) = false) as Hno by reflexivity.
    cbn [GetNodeSet sim_kube] in Hget. unfold fetch, faulty in Hget. rewrite Hf in Hget.
    destruct (nodesets w !! _) as [n0|] eqn:Hl; [|done]. apply (ready_only _ _ _ Hn) in Hl. subst n0.
    cbn [snd] in Hget. assert (named_as nn ready_nodeset = n) as <- by congruence.
    change (ns_TLSEnabled (ns_Spec ready_nodeset) = true) in Htls. congruence.
Qed.

Lemma failed_world_sound : sound_world failed_world.
Proof.
  split; [reflexivity|]. split; [reflexivity|]. change (ansibleees failed_world) with
    ({[ "openstack/ovn-deploy-edpm" := failed_job ]} : gmap string OpenStackAnsibleEE). split_and!.
  - by intros k e [<- <-]%lookup_singleton_Some.
  - by intros ns s d n k1 k2 e1 e2 [<- _]%lookup_singleton_Some [<- _]%lookup_singleton_Some.
  - intros k e [_ <-]%lookup_singleton_Some _. eexists. vm_compute. reflexivity.
Qed.
Lemma failed_answer :
  GetDeployment deploy_request failed_world = (failed_world, Ok two_services).
Proof. vm_compute. reflexivity. Qed.
Lemma answer_inj {A B} (p : A * result B) a a' b b' :
  p = (a, Ok b) → p = (a', Ok b') → a = a' ∧ b = b'.
Proof. by intros -> [= -> ->]. Qed.

Lemma Deployment_Reconcile_answers_witness :
  ∃ answer, run (Deployment_Reconcile deploy_request) failed_world = Some answer.
Proof.
  apply (Deployment_Reconcile_answers sound_world (SC := sim_sound)).
  intros w1 instance Hg.
  apply (answer_inj _ _ _ _ _ failed_answer) in Hg as [<- <-].
  split; [exact failed_world_sound|]. apply (bool_decide_unpack _). vm_compute. exact I.
Defined.
