(* ===== verification/NodeSetTotality.v ===== *)
(** The reconciliation of a NodeSet always answers: of the nil pointers and nil
    maps it meets, only the gateway of a control plane network may be missing,
    and only a NodeSet whose nodes are provisioned looks at it. *)

From stdpp Require Import base gmap strings list.
From S2P Require Import Prelude GoStd Conditions Types Cluster Sim Images ApiTypes DataSource AnsibleExec.
From S2P Require Import Service Ipam Net Baremetal Inventory NodeSetController Calls Totality.

(** The control plane networks of an IPSet all have gateways. *)
Definition has_gateways (ipSet : IPSet) : Prop :=
  ∀ res, res ∈ ip_Reservation ipSet → ¬ no_gateway res.
Definition all_gateways (ips : gmap string IPSet) : Prop := map_Forall (λ _, has_gateways) ips.

(** The reservations that are made, as long as [G] holds, have gateways. *)
Definition reserves_gateways {W} {KC : KubeClient W} (G : W → Prop) : Prop :=
  ∀ ns ipSet mutate w ipSet', G w → (CreateOrPatchIPSet ns ipSet mutate w).2 = Ok ipSet' → has_gateways ipSet'.

(** CreateOrPatch of a baremetal set panics in its callback only. *)
Class BaremetalCalls {W} (KC : KubeClient W) : Prop :=
  baremetal_answers ns b mutate w : (∀ b, mutate b ≠ None) → (CreateOrPatchBaremetalSet ns b mutate w).2 ≠ None.

Section callback.
Context {MR : MapRange} {MRL : MapRangeLaws MR}.

(** The callback does not panic when there are gateways. *)
Lemma provision_safe instance ips dns hosts (spec : BSpec) :
  all_gateways ips → b_BaremetalHosts (ns_BaremetalSetTemplate (ns_Spec instance)) = Some hosts →
  (provision instance ips dns spec).1 ≠ Panic.
Proof.
  intros Hips Hh. change (sat (provision instance ips dns) spec (λ o _, o ≠ Panic)).
  unfold provision. apply sat_bind, sat_modify, sat_bind.
  apply sat_for_acc with (I := λ _ _ spec, is_Some (b_BaremetalHosts spec)); [by eexists| |done].
  intros node rest [] spec1 _ [hosts1 H1]. eapply sat_mono; [by apply provision_node_spec|].
  intros [[]|r|] spec2; [by intros [_ ->]|done|].
  intros (ipSet & res & Hip & Hres & Hno). by destruct (Hips _ _ Hip res Hres).
Qed.
End callback.

Section answers.
Context {W : Type} {KC : KubeClient W} {LC : LibCommon W} {CM : CertManager W} {PR : Process W}.
Context {CO : ConditionOps} {CL : ConditionLaws CO} {V : Validation} {MR : MapRange} {MRL : MapRangeLaws MR}.
Context {PI : PackageImages} {IL : InventoryLib} {SF : SortFunc}.
Context {BC : BaremetalCalls KC} (G : W → Prop) {HG : KeptByCalls G}.

(** *** The reservations *)

Lemma reserved_gateways instance (w : W) :
  reserves_gateways G → G w →
  match run (reserveIPs instance) w with Some (Ok ips) => all_gateways ips | _ => True end.
Proof.
  intros Hgw Hw. enough (sat (reserveIPs instance) w (λ o _, match o with
    | Next (Ok ips) | Return (Ok ips) => all_gateways ips | _ => True end)) as H.
  { unfold sat in H. unfold run. destruct (reserveIPs _ _) as [[r|r|] ?]; done. }
  unfold reserveIPs. apply sat_bind, sat_op.
  pose proof (kept_ListNetConfigs (ns_Namespace instance) w Hw) as Hw1.
  destruct (ListNetConfigs _ w) as [w1 [[|]|]]; [done| |done]. apply sat_bind.
  apply sat_for_acc with (I := λ _ ips w, G w ∧ all_gateways ips); [split; [done|apply map_Forall_empty]| |].
  - intros [name node] rest ips w2 _ [Hw2 Hips]. unfold reserve_node. cbv zeta. case_decide; [|done].
    apply sat_bind, sat_op.
    match goal with |- context [CreateOrPatchIPSet ?ns ?i ?f w2] =>
      pose proof (Hgw ns i f w2) as Hi; pose proof (kept_CreateOrPatchIPSet ns i f w2 Hw2) as Hw3 end.
    destruct (CreateOrPatchIPSet _ _ _ w2) as [w3 [ip|err]]; [|done]. apply sat_ret.
    split; [done|]. apply map_Forall_insert_2; [by apply Hi|done].
  - intros ips w2 [_ Hips]. exact Hips.
Qed.
Lemma EnsureIPSets_gateways (s : St W OpenStackDataPlaneNodeSet) :
  reserves_gateways G → G (world s) →
  sat EnsureIPSets s (λ o _, match o with Next r | Return r => all_gateways r.1.1 | Panic => True end).
Proof.
  intros Hgw Hw. unfold EnsureIPSets, ns_mark. apply sat_bind, sat_gets, sat_bind, sat_on_world_run.
  pose proof (reserved_gateways (obj s) (world s) Hgw Hw) as Hr.
  destruct (run _ _) as [[ips|err]|]; [|apply map_Forall_empty|done].
  apply sat_bind, (sat_checks (λ ip, negb (cond_is_false (ip_Conditions ip) ReadyCondition))).
  - intros ip s' Hb%negb_true_iff. by rewrite Hb.
  - intros _. exact Hr.
  - intros ip _ Hb%negb_false_iff. rewrite Hb. apply map_Forall_empty.
Qed.

(** *** The body *)

Context (pre : bool) (Hgw : pre = true ∨ reserves_gateways G).
(** What the body keeps of the NodeSet. *)
Definition prepared (n : OpenStackDataPlaneNodeSet) : Prop :=
  has_maps n ∧ ns_PreProvisioned (ns_Spec n) = pre.
Abbreviation safely := (safe (both G prepared)).

Lemma safe_frame {R A} (m : M (St W OpenStackDataPlaneNodeSet) R A) types :
  keeps (λ s, G (world s)) m → (∀ s, sat m s (λ o s', same_but types (obj s) (obj s') ∧ o ≠ Panic)) → safely m.
Proof.
  intros Hk Hm s [Hw Hp]. destruct (Hm s) as [[Hs _] Hn]. split; [done|]. split; [by apply Hk|].
  rewrite Hs. exact Hp.
Qed.
Lemma EnsureIPSets_safe : safely EnsureIPSets.
Proof.
  eapply safe_frame; [by apply EnsureIPSets_keeps|]. intros s.
  eapply sat_mono; [apply EnsureIPSets_sat|]. intros o s' [Hs Ho]. split; [exact Hs|by destruct o].
Qed.
Lemma EnsureDNSData_safe ips : safely (EnsureDNSData ips).
Proof.
  eapply safe_frame; [by apply EnsureDNSData_keeps|]. intros s.
  eapply sat_mono; [apply EnsureDNSData_sat|]. intros o s' [Hs Ho]. split; [exact Hs|by destruct o].
Qed.
Lemma DeployBaremetalSet_safe ips dns : all_gateways ips → safely (DeployBaremetalSet ips dns).
Proof.
  intros Hips. eapply safe_frame; [by apply DeployBaremetalSet_keeps|]. intros s.
  eapply sat_mono; [apply DeployBaremetalSet_sat|]. intros o s' [Hs Ho]. split; [exact Hs|].
  destruct (decide (b_BaremetalHosts (ns_BaremetalSetTemplate (ns_Spec (obj s))) = None)) as [|Hh]; [by destruct Ho as [[err ->] _]|].
  destruct (b_BaremetalHosts _) as [hosts|] eqn:Hhosts; [|done].
  destruct (CreateOrPatchBaremetalSet _ _ _ _).2 as [[b|err]|] eqn:Ha.
  - destruct (bs_IsReady b); by destruct Ho as [-> _].
  - by destruct Ho as [-> _].
  - exfalso. revert Ha. apply baremetal_answers. intros b. unfold mutate_baremetal.
    pose proof (provision_safe (obj s) ips dns hosts (bs_Spec b) Hips Hhosts) as Hn.
    by destruct (provision _ _ _ _) as [[[err|]|[err|]|] spec].
Qed.
Lemma EnsureServices_safe instance : safe G (EnsureServices instance).
Proof. unfold EnsureServices, EnsureService. safe_tac; try kept_call. Qed.
Lemma GenerateNodeSetInventory_safe instance ips dns images :
  safe G (GenerateNodeSetInventory instance ips dns images).
Proof.
  intros w Hw. split; [|by apply GenerateNodeSetInventory_keeps].
  pose proof (GenerateNodeSetInventory_sat (λ _ _, True) instance ips dns images w) as H. unfold sat in H.
  destruct (GenerateNodeSetInventory _ _ _ _ _) as [[[? ?]|r|] w']; [done..|]. by destruct H.
Qed.
#[local] Hint Resolve EnsureIPSets_safe EnsureDNSData_safe : safe.
Ltac safe_calls := safe_tac; try kept_call; try done.

Lemma provision_baremetal_safe images ips dns :
  pre = true ∨ all_gateways ips → safely (provision_baremetal images ips dns).
Proof.
  intros Hips. unfold provision_baremetal, ns_mark. apply safe_read. intros n [_ Hp].
  destruct (ns_PreProvisioned _); [apply safe_ret|].
  destruct Hips as [Hips|Hips]; [congruence|]. safe_calls. by apply DeployBaremetalSet_safe.
Qed.
(** Checks of the set up that look at the object and the world. *)
Lemma checks_safe :
  safely update_hash ∧ safely ensure_services ∧ safely verify_ssh_secret ∧
  safely (ensure_account EnsureServiceAccount) ∧ safely (ensure_account EnsureRoleBinding).
Proof.
  split_and!; unfold update_hash, ensure_services, verify_ssh_secret, ensure_account, ns_mark; safe_calls.
  apply EnsureServices_safe.
Qed.

(** The set up makes the maps of the status. *)
Lemma setup_answers (s : St W OpenStackDataPlaneNodeSet) :
  G (world s) → ns_PreProvisioned (ns_Spec (obj s)) = pre →
  sat setup s (λ o s', o ≠ Panic ∧ both G prepared s').
Proof.
  intros Hw Hp. unfold setup. apply sat_bind, sat_modify.
  match goal with |- sat ?m ?s1 _ => enough (safely m) as Hs; [apply (Hs s1)|] end.
  { split; [exact Hw|]. split; [|exact Hp]. by split_and!; eexists. }
  destruct checks_safe as (H1 & H2 & H3 & H4 & H5). unfold ns_mark.
  apply safe_bind; [by apply safe_modify_obj|intros _].
  apply safe_bind; [exact H1|intros _]. apply safe_bind; [exact H2|intros _].
  apply safe_bind_value with (good := λ r, pre = true ∨ all_gateways r.1.1); [safe_calls| |].
  { intros s1 [Hw1 _]. apply sat_call. destruct Hgw as [Hpre|Hgws].
    - unfold sat. destruct (EnsureIPSets s1).1; by try left.
    - eapply sat_mono; [by apply EnsureIPSets_gateways|]. intros [r|r|] s2; auto. }
  intros [[ips isReady] err] Hips.
  safe_calls; try (apply H3 || apply H4 || apply H5); [apply GetVersion_safe, _|by apply provision_baremetal_safe].
Qed.

Lemma checkDeployment_answers : safely checkDeployment.
Proof.
  intros s [Hw [Hm Hp]]. enough (sat checkDeployment s (λ o s', o ≠ Panic ∧ prepared (obj s'))) as [Ho Hs']
    by (split; [exact Ho|]; split; [by apply checkDeployment_keeps|exact Hs']).
  unfold checkDeployment. apply sat_bind, sat_gets, sat_bind, sat_on_world, sat_op.
  destruct (ListDeployments _ _) as [w1 [all|err]]; cbn [fst snd]; [|by split].
  apply sat_call. eapply sat_mono; [by apply check_loop|]. cbn [obj].
  intros o s' ((_ & Hspec & _) & Hm' & H). assert (prepared (obj s')) as Hp' by (split; [exact Hm'|by rewrite Hspec]).
  destruct H as [(_ & -> & _)|(? & ? & ? & ? & _ & _ & _ & -> & _)]; done.
Qed.
Lemma conclude_nodeset_safe d images ips dns : safely (conclude_nodeset d images ips dns).
Proof. unfold conclude_nodeset, write_inventory, ns_mark. safe_calls. apply GenerateNodeSetInventory_safe. Qed.

Lemma nodeset_body_answers (s : St W OpenStackDataPlaneNodeSet) :
  G (world s) → ns_PreProvisioned (ns_Spec (obj s)) = pre →
  sat nodeset_body s (λ o _, o ≠ Panic).
Proof.
  intros Hw Hp. unfold nodeset_body. apply sat_bind. eapply sat_mono; [by apply setup_answers|].
  intros [[[images ips] dns]|r|] s1 [Hn Hs1]; [|done..].
  eapply safe_then; [apply safe_call, checkDeployment_answers|exact Hs1|]. intros d s2 Hs2.
  by apply conclude_nodeset_safe.
Qed.
End answers.

Section total.
Context {W : Type} {KC : KubeClient W} {LC : LibCommon W} {CM : CertManager W} {PR : Process W}.
Context {CO : ConditionOps} {CL : ConditionLaws CO} {V : Validation} {MR : MapRange} {MRL : MapRangeLaws MR}.
Context {PI : PackageImages} {IL : InventoryLib} {SF : SortFunc}.

(** C8. The reconciliation of a NodeSet always ends with an answer, it never
    panics: whatever the request and the NodeSet, whatever its deployments
    report, and whichever calls fail, as long as its nodes are provisioned
    beforehand or the reservations made on control plane networks have
    gateways. *)
Theorem NodeSet_Reconcile_answers (G : W → Prop) {HG : KeptByCalls G} `{!BaremetalCalls KC}
    (req : NamespacedName) (w : W) :
  (∀ w1 instance, GetNodeSet req w = (w1, Ok instance) →
     G w1 ∧ (ns_PreProvisioned (ns_Spec instance) = true ∨ reserves_gateways G)) →
  ∃ answer, run (NodeSet_Reconcile req) w = Some answer.
Proof.
  intros Hg. unfold NodeSet_Reconcile, run, mbind, M_bind, op.
  destruct (GetNodeSet req w) as [w1 [instance|err]]; [|destruct (IsNotFound err); by eexists].
  destruct (Hg _ _ eq_refl) as [Hw Hgw]. unfold with_nodeset_patch.
  pose proof (nodeset_body_answers G _ Hgw (mkSt w1 (prepare_nodeset instance)) Hw eq_refl) as Hb. unfold sat in Hb.
  destruct (nodeset_body _) as [[a|a|] s]; [..|done]; destruct (PatchNodeSet _ _); by eexists.
Qed.
End total.

(** ** The property at a concrete cluster

    The store held in memory, whose reservations are those of the
    infrastructure operator: a write of an IPSet leaves them as they are. *)

Import ListConditions.

Definition keep_reservations (stored : option IPSet) (ipSet : IPSet) : IPSet :=
  mkIPSet (ip_Name ipSet) (ip_Networks ipSet) (default [] (ip_Reservation <$> stored)) (ip_Conditions ipSet).
Definition guarded_ipsets : KubeClient Sim := {|
  GetNodeSet := GetNodeSet; GetDeployment := GetDeployment; GetServiceObj := GetServiceObj;
  GetConfigMap := GetConfigMap; GetSecret := GetSecret; GetDNSData := GetDNSData;
  ListNodeSets := ListNodeSets; ListNodeSetsByField := ListNodeSetsByField;
  ListDeployments := ListDeployments; ListVersions := ListVersions; ListDNSMasqs := ListDNSMasqs;
  ListNetConfigs := ListNetConfigs; ListAnsibleEEs := ListAnsibleEEs;
  CreateOrPatchService := CreateOrPatchService;
  CreateOrPatchIPSet ns i mutate w :=
    let k := key ns (ip_Name i) in
    let stored := ipsets w !! k in
    match mutate (default i stored) with
    | Ok i' => let i' := keep_reservations stored i' in (set_ipsets (<[k := i']> (ipsets w)) w, Ok i')
    | Fail e => (w, Fail e)
    end;
  CreateOrPatchDNSData := CreateOrPatchDNSData; CreateOrPatchBaremetalSet := CreateOrPatchBaremetalSet;
  CreateOrPatchAnsibleEE := @CreateOrPatchAnsibleEE _ sim_kube;
  SetOwnerIPSet := SetOwnerIPSet; SetOwnerDNSData := SetOwnerDNSData;
  SetOwnerBaremetalSet := SetOwnerBaremetalSet; SetOwnerAnsibleEE := SetOwnerAnsibleEE;
  PatchNodeSet := PatchNodeSet; PatchDeployment := PatchDeployment; NewNotFound := NewNotFound;
|}.
Definition gateways_stored (w : Sim) : Prop := all_gateways (ipsets w).

Lemma kept_gateways stored i : (∀ i0, stored = Some i0 → has_gateways i0) → has_gateways (keep_reservations stored i).
Proof.
  intros Hs res. unfold keep_reservations. simpl. destruct stored as [i0|]; simpl; [by apply Hs|].
  by intros ?%not_elem_of_nil.
Qed.
Lemma guarded_writes ns i mutate w :
  gateways_stored w →
  let r := CreateOrPatchIPSet (KubeClient := guarded_ipsets) ns i mutate w in
  gateways_stored r.1 ∧ ∀ i', r.2 = Ok i' → has_gateways i'.
Proof.
  intros Hw. cbn [CreateOrPatchIPSet guarded_ipsets]. cbv zeta.
  assert (∀ i', has_gateways (keep_reservations (ipsets w !! key ns (ip_Name i)) i')) as Hk.
  { intros i'. apply kept_gateways. intros i0 Hi. exact (Hw _ _ Hi). }
  destruct (mutate _) as [i'|e]; cbn [fst snd]; [|by split].
  split; [by apply map_Forall_insert_2|]. by intros i'' [= <-].
Qed.
Lemma guarded_gateways : KeptByCalls (KC := guarded_ipsets) gateways_stored.
Proof.
  assert (∀ w1 w2 : Sim, ipsets w2 = ipsets w1 → gateways_stored w1 → gateways_stored w2) as Hq
    by (intros w1 w2 Hi; unfold gateways_stored; by rewrite Hi).
  split.
  15: { intros X ns service deployment nodeSet d build e x w. cbv zeta. intros _. apply Hq.
    transitivity (ipsets (ListAnsibleEEs ns (execution_labels service deployment nodeSet) w).1); [done|].
    simpl. unfold faulty. by destruct (faults w) as [|[]]. }
  all: intros * Hw; try (by apply guarded_writes); revert Hw; apply Hq; simpl;
    unfold fetch, Sim.upsert, faulty; simpl; try done; repeat (case_match; simplify_eq/=; try done).
Qed.
Lemma guarded_baremetal : BaremetalCalls guarded_ipsets.
Proof.
  intros ns b mutate w Hm. cbn [CreateOrPatchBaremetalSet guarded_ipsets sim_kube]. cbv zeta.
  specialize (Hm (default b (baremetalsets w !! key ns (bs_Name b)))). by destruct (mutate _) as [[b'|e]|].
Qed.

(** The baremetal NodeSet of one node, with a key. *)
Definition provisioned_nodeset : OpenStackDataPlaneNodeSet :=
  let n := keyed_nodeset in
  let s := ns_Spec n in
  mkNodeSet (ns_Meta n)
    (mkNodeSetSpec (ns_BaremetalSetTemplate (ns_Spec baremetal_nodeset)) (ns_NodeTemplate s) (ns_Nodes s)
       (ns_Env s) (ns_NetworkAttachments s) (ns_Services s) (ns_Tags s) (ns_SecretMaxSize s) false false)
    (ns_Status n).
Definition baremetal_world : Sim :=
  set_secrets {[ "openstack/ssh-key" := mkSecret "ssh-key" ∅
                   {[ AnsibleSSHPrivateKey := "key"; AnsibleSSHAuthorizedKeys := "keys" ]} ]}
    (set_nodesets {[ "openstack/edpm" := provisioned_nodeset ]} ready_world).

(** The reconciliation gets as far as the provisioning, which has to wait. *)
Example provisioning_waits :
  status_of (ns_Conditions (obj (nodeset_body
    (mkSt baremetal_world (prepare_nodeset provisioned_nodeset))).2)) NodeSetBareMetalProvisionReadyCondition
  = Some CFalse.
Proof. vm_compute. reflexivity. Qed.

Lemma baremetal_gateways : gateways_stored baremetal_world.
Proof.
  apply map_Forall_singleton. intros res Hres [Hc Hno]. revert Hres Hc Hno.
  unfold node_ipset. cbn [ip_Reservation]. rewrite !elem_of_cons, elem_of_nil.
  intros [-> |[-> |[]]]; [by intros _|]. intros Hc. vm_compute in Hc. discriminate.
Qed.
Lemma NodeSet_Reconcile_answers_witness :
  ∃ answer, run (NodeSet_Reconcile (KC := guarded_ipsets) nodeset_request) baremetal_world = Some answer.
Proof.
  apply (NodeSet_Reconcile_answers (KC := guarded_ipsets) gateways_stored
    (HG := guarded_gateways) (BaremetalCalls0 := guarded_baremetal)).
  intros w1 instance Hg. assert (w1 = baremetal_world) as ->.
  { apply (f_equal fst) in Hg. symmetry. exact Hg. }
  split; [exact baremetal_gateways|]. right. intros ns i mutate w i' Hw. by apply guarded_writes.
Defined.
